(** * AgentLog API: provider registry, cost accountant, span ledger,
      stream relay and replay engine of [index.js]

    A shallow embedding of the gateway's core.  JavaScript strings are
    modelled as Rocq strings (one [ascii] per code unit, which is exact for
    ASCII text), the SQLite tables as lists of typed rows, money as
    rationals, and every source of non-determinism ([crypto.randomUUID],
    [new Date()], the upstream HTTP response) as an explicit argument. *)

From Stdlib Require Import ZArith QArith Qround Lqa Lia Bool Ascii String List.
From stdpp Require Import base option list strings gmap pretty.

Set Warnings "-register-all".

Local Open Scope string_scope.
Local Open Scope list_scope.

(** ** JavaScript string primitives used by the source *)

Module JS.

(** [s.startsWith(p)] *)
Definition startsWith (s p : string) : bool := String.prefix p s.

(** [s.includes(p)]: [p] occurs somewhere in [s] *)
Fixpoint includes (s p : string) : bool :=
  String.prefix p s ||
  match s with
  | EmptyString => false
  | String _ s' => includes s' p
  end.

(** the names of the members every object literal inherits from
    [Object.prototype] *)
Definition prototype_members : list string :=
  ["constructor"; "__defineGetter__"; "__defineSetter__"; "hasOwnProperty";
   "__lookupGetter__"; "__lookupSetter__"; "isPrototypeOf"; "propertyIsEnumerable";
   "toString"; "valueOf"; "__proto__"; "toLocaleString"].

(** [k in {}] *)
Definition inherited (k : string) : bool := existsb (String.eqb k) prototype_members.

Definition lower_ascii (c : ascii) : ascii :=
  let n := nat_of_ascii c in
  if (65 <=? n)%nat && (n <=? 90)%nat then ascii_of_nat (n + 32) else c.

(** [s.toLowerCase()] *)
Fixpoint toLowerCase (s : string) : string :=
  match s with
  | EmptyString => EmptyString
  | String c s' => String (lower_ascii c) (toLowerCase s')
  end.

(** [s.split(sep)] for a one-character separator; never the empty list *)
Fixpoint split (sep : ascii) (s : string) : list string :=
  match s with
  | EmptyString => [EmptyString]
  | String c s' =>
      if Ascii.eqb c sep then EmptyString :: split sep s'
      else match split sep s' with
           | [] => [String c EmptyString]
           | l :: ls => String c l :: ls
           end
  end.

(** [parts.join(sep)] *)
Fixpoint join (sep : string) (parts : list string) : string :=
  match parts with
  | [] => EmptyString
  | [p] => p
  | p :: ps => p +:+ sep +:+ join sep ps
  end.

(** white space and line terminators of [String.prototype.trim] that fit in
    one ASCII code unit: TAB, LF, VT, FF, CR, SPACE *)
Definition is_space (c : ascii) : bool :=
  let n := nat_of_ascii c in
  ((9 <=? n)%nat && (n <=? 13)%nat) || (n =? 32)%nat.

Fixpoint trimStart (s : string) : string :=
  match s with
  | EmptyString => EmptyString
  | String c s' => if is_space c then trimStart s' else s
  end.

Fixpoint trimEnd (s : string) : string :=
  match s with
  | EmptyString => EmptyString
  | String c s' =>
      match trimEnd s' with
      | EmptyString => if is_space c then EmptyString else String c EmptyString
      | t => String c t
      end
  end.

(** [s.trim()] *)
Definition trim (s : string) : string := trimEnd (trimStart s).

Fixpoint drop (n : nat) (s : string) : string :=
  match n, s with
  | O, _ => s
  | S n', String _ s' => drop n' s'
  | S _, EmptyString => EmptyString
  end.

(** [s.slice(n)] for a non-negative [n] *)
Definition slice (s : string) (n : nat) : string := drop n s.

(** [s.replace(p, r)] for a string pattern: the first occurrence only *)
Fixpoint replace (s p r : string) : string :=
  if String.prefix p s then r +:+ drop (String.length p) s
  else match s with
       | EmptyString => EmptyString
       | String c s' => String c (replace s' p r)
       end.

(** [s.substring(0, n)] *)
Definition substring0 (s : string) (n : nat) : string := String.substring 0 n s.

Definition is_digit (c : ascii) : bool :=
  let n := nat_of_ascii c in (48 <=? n)%nat && (n <=? 57)%nat.

Fixpoint all_digits (s : string) : bool :=
  match s with
  | EmptyString => true
  | String c s' => is_digit c && all_digits s'
  end.

(** [s.replace(/-\d{8}$/, '')]: the pattern is anchored at the end of the
    input, so the only place it can match is the last nine code units *)
Fixpoint strip_date_suffix (s : string) : string :=
  match s with
  | EmptyString => EmptyString
  | String c s' =>
      if Ascii.eqb c "-" && (String.length s' =? 8)%nat && all_digits s'
      then EmptyString
      else String c (strip_date_suffix s')
  end.

(** truthiness of a string value that may be [undefined] or [null] *)
Definition truthy_str (o : option string) : bool :=
  match o with
  | Some s => negb (String.eqb s EmptyString)
  | None => false
  end.

(** [a || b] on possibly missing strings *)
Definition or_str (a b : option string) : option string :=
  if truthy_str a then a else b.

End JS.

(** ** Provider registry *)

Inductive provider : Set := openai | anthropic | google | xai | openrouter.

Definition provider_name (p : provider) : string :=
  match p with
  | openai => "openai"
  | anthropic => "anthropic"
  | google => "google"
  | xai => "xai"
  | openrouter => "openrouter"
  end.

(** [detectProviderFromKey(key)] *)
Definition detectProviderFromKey (key : option string) : option provider :=
  if negb (JS.truthy_str key) then None else
  let k := default EmptyString key in
  if JS.startsWith k "sk-" && negb (JS.startsWith k "sk-ant-") then Some openai
  else if JS.startsWith k "sk-ant-" then Some anthropic
  else if JS.startsWith k "AIza" then Some google
  else if JS.startsWith k "xai-" then Some xai
  else None.

(** [detectProviderFromModel(model)]; [None] stands for a missing model *)
Definition detectProviderFromModel (model : option string) : provider :=
  if negb (JS.truthy_str model) then openai else
  let model := JS.toLowerCase (default EmptyString model) in
  if JS.startsWith model "gpt-" || JS.startsWith model "o1"
     || JS.includes model "openai" then openai
  else if JS.startsWith model "claude-" then anthropic
  else if JS.startsWith model "gemini-" then google
  else if JS.startsWith model "grok-" then xai
  else if JS.includes model "/" then openrouter
  else openai.


(** ** Cost accountant

    JavaScript numbers are idealised as rationals: every price and token
    count below is an exact [Q], so the theorems speak about the arithmetic
    the source intends and not about [double] rounding. *)

Record rate : Set := { input : Q; output : Q }.

(** a JavaScript object literal used as a table: its own string keys, in
    insertion order (the order [Object.keys] reports) *)
Definition table := list (string * rate).

(** [Object.keys(t)] *)
Definition keys (t : table) : list string := map fst t.

(** the own member [k] of the literal *)
Fixpoint own (t : table) (k : string) : option rate :=
  match t with
  | [] => None
  | (k', r) :: t' => if String.eqb k' k then Some r else own t' k
  end.

(** what [t[k]] finds: an entry of the literal, a member the literal
    inherits from [Object.prototype], or nothing *)
Inductive member : Set :=
| Own (r : rate)
| Inherited  (** a function, or [Object.prototype] itself: truthy, and
                 without an [input] or an [output] *)
| Missing.   (** [undefined] *)

(** [t[k]] *)
Definition get (t : table) (k : string) : member :=
  match own t k with
  | Some r => Own r
  | None => if JS.inherited k then Inherited else Missing
  end.

Definition MODEL_COSTS : table :=
  [ ("gpt-4", {| input := 0.03; output := 0.06 |});
    ("gpt-4-32k", {| input := 0.06; output := 0.12 |});
    ("gpt-4-turbo", {| input := 0.01; output := 0.03 |});
    ("gpt-4o", {| input := 0.005; output := 0.015 |});
    ("gpt-4o-mini", {| input := 0.00015; output := 0.0006 |});
    ("gpt-3.5-turbo", {| input := 0.0005; output := 0.0015 |});
    ("o1-preview", {| input := 0.015; output := 0.06 |});
    ("o1-mini", {| input := 0.003; output := 0.012 |});
    ("o1", {| input := 0.015; output := 0.06 |});
    ("claude-3-5-sonnet-20240620", {| input := 0.003; output := 0.015 |});
    ("claude-3-5-sonnet-20241022", {| input := 0.003; output := 0.015 |});
    ("claude-3-5-haiku-20241022", {| input := 0.001; output := 0.005 |});
    ("claude-3-opus-20240229", {| input := 0.015; output := 0.075 |});
    ("claude-3-sonnet-20240229", {| input := 0.003; output := 0.015 |});
    ("claude-3-haiku-20240307", {| input := 0.00025; output := 0.00125 |});
    ("gemini-pro", {| input := 0.00025; output := 0.0005 |});
    ("gemini-1.5-pro", {| input := 0.00125; output := 0.005 |});
    ("gemini-1.5-flash", {| input := 0.000075; output := 0.0003 |});
    ("grok-beta", {| input := 0.005; output := 0.015 |});
    ("grok-2", {| input := 0.002; output := 0.01 |}) ]%Q.

(** the price of [inputTokens] and [outputTokens] at [costs], per thousand *)
Definition per_thousand (costs : rate) (inputTokens outputTokens : Q) : Q :=
  (inputTokens / 1000) * input costs + (outputTokens / 1000) * output costs.

(** the result of the cost arithmetic: a number, or [None] for [NaN] *)
Definition NaN : option Q := None.

(** [(inputTokens / 1000) * costs.input + (outputTokens / 1000) * costs.output]:
    [undefined] times a number is [NaN], and so is every sum with it *)
Definition price (costs : member) (inputTokens outputTokens : Q) : option Q :=
  match costs with
  | Own r => Some (per_thousand r inputTokens outputTokens)
  | Inherited => NaN
  | Missing => NaN (* not reached: the code reads a member of a truthy value *)
  end.

(** [calculateCost(model, inputTokens, outputTokens)] *)
Definition calculateCost (model : string) (inputTokens outputTokens : Q) : option Q :=
  match get MODEL_COSTS model with
  | Missing =>
      match find (fun key => JS.includes model key || JS.includes key model)
                 (keys MODEL_COSTS) with
      | Some matchedKey => price (get MODEL_COSTS matchedKey) inputTokens outputTokens
      | None => Some 0%Q
      end
  | costs => price costs inputTokens outputTokens
  end.

Definition ANTHROPIC_COSTS : table :=
  [ ("claude-opus-4", {| input := 15; output := 75 |});
    ("claude-opus-4-20250514", {| input := 15; output := 75 |});
    ("claude-sonnet-4", {| input := 3; output := 15 |});
    ("claude-sonnet-4-20250514", {| input := 3; output := 15 |});
    ("claude-3-7-sonnet", {| input := 3; output := 15 |});
    ("claude-3-7-sonnet-20250219", {| input := 3; output := 15 |});
    ("claude-3-5-sonnet", {| input := 3; output := 15 |});
    ("claude-3-5-sonnet-20240620", {| input := 3; output := 15 |});
    ("claude-3-5-sonnet-20241022", {| input := 3; output := 15 |});
    ("claude-3-5-haiku", {| input := 0.8; output := 4 |});
    ("claude-3-5-haiku-20241022", {| input := 0.8; output := 4 |});
    ("claude-3-opus", {| input := 15; output := 75 |});
    ("claude-3-opus-20240229", {| input := 15; output := 75 |});
    ("claude-3-sonnet", {| input := 3; output := 15 |});
    ("claude-3-sonnet-20240229", {| input := 3; output := 15 |});
    ("claude-3-haiku", {| input := 0.25; output := 1.25 |});
    ("claude-3-haiku-20240307", {| input := 0.25; output := 1.25 |}) ]%Q.

(** the [usage] object of an Anthropic response; a missing counter is [None] *)
Record usage : Set := {
  input_tokens : option Q;
  output_tokens : option Q;
  cache_read_input_tokens : option Q;
  cache_creation_input_tokens : option Q
}.

(** [n || 0] on a counter that is a number or missing *)
Definition or0 (n : option Q) : Q := default 0%Q n.

(** the [costs] that [calculateAnthropicCost] settles on for [model] *)
Definition anthropic_costs (model : string) : member :=
  match get ANTHROPIC_COSTS model with
  | Missing =>
      match find (fun key => JS.includes model key
                             || JS.includes key (JS.strip_date_suffix model))
                 (keys ANTHROPIC_COSTS) with
      | Some matchedKey => get ANTHROPIC_COSTS matchedKey
      | None => Own {| input := 3; output := 15 |}
      end
  | costs => costs
  end.

(** the four products and their sum at the rate [costs] *)
Definition anthropic_price (costs : rate) (usage : usage) : Q :=
  (let inputCost := or0 (input_tokens usage) / 1000000 * input costs in
   let outputCost := or0 (output_tokens usage) / 1000000 * output costs in
   let cacheReadCost :=
     or0 (cache_read_input_tokens usage) / 1000000 * input costs * 0.1 in
   let cacheWriteCost :=
     or0 (cache_creation_input_tokens usage) / 1000000 * input costs * 1.25 in
   inputCost + outputCost + cacheReadCost + cacheWriteCost)%Q.

(** [calculateAnthropicCost(model, usage)]; [None] is a missing [usage] *)
Definition calculateAnthropicCost (model : string) (u : option usage) : option Q :=
  match u with
  | None => Some 0%Q
  | Some usage =>
      match anthropic_costs model with
      | Own costs => Some (anthropic_price costs usage)
      | Inherited => NaN
      | Missing => NaN (* not reached *)
      end
  end.

(** [estimateTokens(text)] *)
Definition estimateTokens (text : option string) : Z :=
  if negb (JS.truthy_str text) then 0%Z
  else ((Z.of_nat (String.length (default EmptyString text)) + 3) / 4)%Z.

(** ** JavaScript numbers

    A number is a double.  The two places where the digits of a number
    matter are the reading of a number literal, which gives the double
    nearest to the decimal the literal writes, and [Number::toString],
    which writes the double with the fewest digits that read back as it.
    A finite double is kept as that shortest decimal, [digits * 10 ^ n]
    with no trailing zero in [digits]; [-0] is not told from [0]. *)

Module Number.

Local Open Scope Z_scope.

(** [s * 10 ^ n] without the trailing zeros of [s] *)
Fixpoint strip (fuel : nat) (s n : Z) : Z * Z :=
  match fuel with
  | O => (s, n)
  | S fuel => if s mod 10 =? 0 then strip fuel (s / 10) (n + 1) else (s, n)
  end.

Definition normal (s n : Z) : Z * Z :=
  if s =? 0 then (0, 0) else strip (Z.to_nat (Z.log2 (Z.abs s))) s n.

(** the double nearest to the positive ratio [P / D], as [q * 2 ^ e] with
    [q] below [2 ^ 53], or equal to it, and [e] at least -1074; a tie goes
    to the even [q] *)
Definition nearest_ratio (P D : Z) : Z * Z :=
  let L := Z.log2 P - Z.log2 D in
  let above := if 0 <=? L then D * 2 ^ L <=? P else D <=? P * 2 ^ (- L) in
  let L' := if above then L else L - 1 in
  let e := Z.max (L' - 52) (-1074) in
  let num := if 0 <=? e then P else P * 2 ^ (- e) in
  let den := if 0 <=? e then D * 2 ^ e else D in
  let q := num / den in
  let r := num mod den in
  (match 2 * r ?= den with
   | Lt => q
   | Gt => q + 1
   | Eq => if Z.even q then q else q + 1
   end, e).

(** the double nearest to the positive decimal [s * 10 ^ n] *)
Definition nearest (s n : Z) : Z * Z :=
  if 0 <=? n then nearest_ratio (s * 10 ^ n) 1 else nearest_ratio s (10 ^ (- n)).

(** [q * 2 ^ e] is beyond the largest double *)
Definition overflows (d : Z * Z) : bool :=
  (0 <=? snd d) && (2 ^ 1024 <=? fst d * 2 ^ snd d).

(** [a] and [b] are the same double *)
Definition same (a b : Z * Z) : bool :=
  let m := Z.min (snd a) (snd b) in
  fst a * 2 ^ (snd a - m) =? fst b * 2 ^ (snd b - m).

(** the decimal that the double [q * 2 ^ e] is *)
Definition exact (d : Z * Z) : Z * Z :=
  let (q, e) := d in
  if 0 <=? e then normal (q * 2 ^ e) 0 else normal (q * 5 ^ (- e)) e.

(** the number of decimal digits of a positive integer *)
Definition digits (s : Z) : nat := String.length (pretty (Z.to_N s)).

(** the decimal [c * 10 ^ j] reads as the double [d] *)
Definition reads_as (d : Z * Z) (c j : Z) : bool :=
  let d' := nearest c j in negb (overflows d') && same d' d.

(** the decimals with [k] digits next to the exact decimal [S * 10 ^ N]
    of [nd] digits are its first [k] digits and the decimal after them; the
    search takes the smallest [k] for which one of the two reads as [d],
    the closer one if both do, and the even one if they are equally close *)
Fixpoint search (d : Z * Z) (S N : Z) (nd fuel k : nat) : Z * Z :=
  match fuel with
  | O => (S, N)
  | Datatypes.S fuel =>
      let z := Z.of_nat (nd - k) in
      let lo := S / 10 ^ z in
      let hi := lo + 1 in
      let j := N + z in
      match reads_as d lo j, reads_as d hi j with
      | true, true =>
          let below := S - lo * 10 ^ z in
          let above := hi * 10 ^ z - S in
          if below <? above then (lo, j)
          else if above <? below then (hi, j)
          else if Z.even lo then (lo, j) else (hi, j)
      | true, false => (lo, j)
      | false, true => (hi, j)
      | false, false => search d S N nd fuel (Datatypes.S k)
      end
  end.

(** the shortest decimal that reads as the double [d] *)
Definition shortest (d : Z * Z) : Z * Z :=
  let (S, N) := exact d in
  let nd := digits S in
  let (c, j) := search d S N nd nd 1 in
  normal c j.

(** what a literal can denote *)
Inductive t : Set :=
| Integer (n : Z)                    (** an integer *)
| Fraction (s : Z) (places : positive) (** [s / 10 ^ places], no integer *)
| Infinite (negative : bool).

Definition signed (negative : bool) (s : Z) : Z := if negative then - s else s.

(** the decimal [s * 10 ^ n] as a number *)
Definition of_shortest (negative : bool) (s n : Z) : t :=
  if 0 <=? n then Integer (signed negative (s * 10 ^ n))
  else Fraction (signed negative s) (Z.to_pos (- n)).

(** the number that the decimal [S * 10 ^ N], with [S] not negative, and
    the sign denote *)
Definition of_decimal (negative : bool) (S N : Z) : t :=
  let (s, n) := normal S N in
  if s =? 0 then Integer 0
  else
    let d := nearest s n in
    if fst d =? 0 then Integer 0
    else if overflows d then Infinite negative
    else let (s', n') := shortest d in of_shortest negative s' n'.

(** the largest integer below which every integer is a double *)
Definition safe : Z := 2 ^ 53.

(** the double a number is, as [q * 2 ^ e] with its sign in [q] *)
Definition double (x : t) : option (Z * Z) :=
  match x with
  | Integer n =>
      if n =? 0 then Some (0, 0)
      else let (q, e) := nearest (Z.abs n) 0 in Some (Z.sgn n * q, e)
  | Fraction s p =>
      if s =? 0 then Some (0, 0)
      else let (q, e) := nearest (Z.abs s) (Z.neg p) in Some (Z.sgn s * q, e)
  | Infinite _ => None
  end.

(** the number that the double nearest to [v * 2 ^ m] is *)
Definition of_binary (v m : Z) : t :=
  if v =? 0 then Integer 0
  else
    let d := if 0 <=? m then nearest_ratio (Z.abs v * 2 ^ m) 1
             else nearest_ratio (Z.abs v) (2 ^ (- m)) in
    if fst d =? 0 then Integer 0
    else if overflows d then Infinite (v <? 0)
    else let (s, n) := shortest d in of_shortest (v <? 0) s n.

(** [x + y]; [None] is [NaN], the sum of the two infinities.  The sum of
    two integers up to [2 ^ 53] that is no larger is exact. *)
Definition add (x y : t) : option t :=
  match x, y with
  | Integer a, Integer b =>
      if (Z.abs a <=? safe) && (Z.abs b <=? safe) && (Z.abs (a + b) <=? safe)
      then Some (Integer (a + b))
      else match double x, double y with
           | Some (q1, e1), Some (q2, e2) =>
               let m := Z.min e1 e2 in
               Some (of_binary (q1 * 2 ^ (e1 - m) + q2 * 2 ^ (e2 - m)) m)
           | _, _ => None (* not reached *)
           end
  | Infinite a, Infinite b => if Bool.eqb a b then Some x else None
  | Infinite _, _ => Some x
  | _, Infinite _ => Some y
  | _, _ =>
      match double x, double y with
      | Some (q1, e1), Some (q2, e2) =>
          let m := Z.min e1 e2 in
          Some (of_binary (q1 * 2 ^ (e1 - m) + q2 * 2 ^ (e2 - m)) m)
      | _, _ => None (* not reached *)
      end
  end.

Fixpoint zeros (n : nat) : string :=
  match n with
  | O => EmptyString
  | S n => String "0" (zeros n)
  end.

(** [Number::toString] of the positive decimal whose digits are [ds] and
    whose decimal point comes after [pt] of them *)
Definition format (ds : string) (pt : Z) : string :=
  let k := Z.of_nat (String.length ds) in
  if (k <=? pt) && (pt <=? 21) then ds +:+ zeros (Z.to_nat (pt - k))
  else if (0 <? pt) && (pt <=? 21) then
    JS.substring0 ds (Z.to_nat pt) +:+ "." +:+ JS.drop (Z.to_nat pt) ds
  else if (-6 <? pt) && (pt <=? 0) then "0." +:+ zeros (Z.to_nat (- pt)) +:+ ds
  else
    let e := pt - 1 in
    match ds with
    | String d (String c r) => String d ("." +:+ String c r)
    | _ => ds
    end +:+ "e" +:+ (if 0 <=? e then "+" else "-") +:+ pretty (Z.to_N (Z.abs e)).

(** [Number::toString] of an integer that is a double *)
Definition integer_text (n : Z) : string :=
  if Z.abs n <? 10 ^ 21 then pretty n
  else
    let (s, z) := normal (Z.abs n) 0 in
    (if n <? 0 then "-" else EmptyString)
    +:+ format (pretty (Z.to_N s)) (Z.of_nat (digits s) + z).

(** [Number::toString] of [s / 10 ^ places] *)
Definition fraction_text (s : Z) (places : positive) : string :=
  (if s <? 0 then "-" else EmptyString)
  +:+ format (pretty (Z.to_N (Z.abs s))) (Z.of_nat (digits (Z.abs s)) - Z.pos places).

End Number.

(** ** JSON values

    The values [JSON.parse] produces and [JSON.stringify] consumes, plus
    [undefined], which property access can yield, and [NaN], which
    arithmetic can.  A number is an integer, or a finite number that is
    none, kept as its shortest decimal [digits / 10 ^ places], or an
    infinity, which a literal beyond the range of the doubles denotes.  An
    object keeps its members in the order of its own keys: the keys that are
    array indices first, in ascending order, then the others in the order
    in which they were set. *)

Module JSON.

Inductive value : Set :=
| Undefined
| Null
| Bool (b : bool)
| Num (n : Z)
| Frac (digits : Z) (places : positive)
| Inf (negative : bool)
| NaN
| Str (s : string)
| Arr (items : list value)
| Obj (members : list (string * value)).

(** ToBoolean *)
Definition truthy (v : value) : bool :=
  match v with
  | Undefined | Null => false
  | Bool b => b
  | Num n => negb (n =? 0)%Z
  | Frac s _ => negb (s =? 0)%Z
  | Inf _ => true
  | NaN => false
  | Str s => negb (String.eqb s EmptyString)
  | Arr _ | Obj _ => true
  end.

(** [a || b] *)
Definition or (a b : value) : value := if truthy a then a else b.

Fixpoint lookup_member (members : list (string * value)) (k : string) : value :=
  match members with
  | [] => Undefined
  | (k', v) :: rest => if String.eqb k' k then v else lookup_member rest k
  end.

(** [v.k] for the member names the source reads (none of them is a property
    of a string, number, boolean or array); [None] is the [TypeError] that
    reading a property of [null] or [undefined] throws *)
Definition prop (v : value) (k : string) : option value :=
  match v with
  | Undefined | Null => None
  | Obj members => Some (lookup_member members k)
  | _ => Some Undefined
  end.

(** [v?.k] *)
Definition opt_prop (v : value) (k : string) : value :=
  default Undefined (prop v k).

(** [v?.[i]] *)
Definition opt_index (v : value) (i : nat) : value :=
  match v with
  | Arr items => nth i items Undefined
  | Str s => match String.get i s with
             | Some c => Str (String c EmptyString)
             | None => Undefined
             end
  | _ => Undefined
  end.

Definition quote : ascii := "034".
Definition backslash : ascii := "092".

Definition hex_digit (n : nat) : ascii :=
  if (n <? 10)%nat then ascii_of_nat (48 + n) else ascii_of_nat (87 + n).

(** the escape [JSON.stringify] writes for one code unit *)
Definition escape_ascii (c : ascii) : string :=
  let n := nat_of_ascii c in
  if Ascii.eqb c quote then String backslash (String quote EmptyString)
  else if Ascii.eqb c backslash then String backslash (String backslash EmptyString)
  else if (n =? 8)%nat then String backslash "b"
  else if (n =? 9)%nat then String backslash "t"
  else if (n =? 10)%nat then String backslash "n"
  else if (n =? 12)%nat then String backslash "f"
  else if (n =? 13)%nat then String backslash "r"
  else if (n <? 32)%nat then
    String backslash
      ("u00" +:+ String (hex_digit (n / 16)) (String (hex_digit (n mod 16)) EmptyString))
  else String c EmptyString.

Fixpoint escape (s : string) : string :=
  match s with
  | EmptyString => EmptyString
  | String c s' => escape_ascii c +:+ escape s'
  end.

Definition quoted (s : string) : string :=
  String quote (escape s +:+ String quote EmptyString).

(** [JSON.stringify(v)]; [None] is the [undefined] it returns for
    [undefined].  Inside an array [undefined] is written [null], inside an
    object the member is left out.  An infinity and [NaN] are written
    [null]. *)
Fixpoint stringify (v : value) : option string :=
  match v with
  | Undefined => None
  | Null => Some "null"
  | Bool true => Some "true"
  | Bool false => Some "false"
  | Num n => Some (Number.integer_text n)
  | Frac s p => Some (Number.fraction_text s p)
  | Inf _ | NaN => Some "null"
  | Str s => Some (quoted s)
  | Arr items =>
      Some ("[" +:+ JS.join "," (map (fun x => default "null" (stringify x)) items) +:+ "]")
  | Obj members =>
      Some ("{" +:+ JS.join ","
                  (flat_map (fun kv => match stringify (snd kv) with
                                       | Some s => [quoted (fst kv) +:+ ":" +:+ s]
                                       | None => []
                                       end) members) +:+ "}")
  end.

(** ToString, as string concatenation and template literals apply it *)
Fixpoint to_string (v : value) : string :=
  match v with
  | Undefined => "undefined"
  | Null => "null"
  | Bool true => "true"
  | Bool false => "false"
  | Num n => Number.integer_text n
  | Frac s p => Number.fraction_text s p
  | Inf negative => if negative then "-Infinity" else "Infinity"
  | NaN => "NaN"
  | Str s => s
  | Arr items =>
      JS.join "," (map (fun x => match x with
                                 | Undefined | Null => EmptyString
                                 | _ => to_string x
                                 end) items)
  | Obj _ => "[object Object]"
  end.

(** *** Parser *)

Definition is_ws (c : ascii) : bool :=
  let n := nat_of_ascii c in
  (n =? 32)%nat || (n =? 9)%nat || (n =? 10)%nat || (n =? 13)%nat.

Fixpoint skip_ws (s : string) : string :=
  match s with
  | String c s' => if is_ws c then skip_ws s' else s
  | EmptyString => EmptyString
  end.

Definition hex_value (c : ascii) : option nat :=
  let n := nat_of_ascii c in
  if (48 <=? n)%nat && (n <=? 57)%nat then Some (n - 48)
  else if (97 <=? n)%nat && (n <=? 102)%nat then Some (n - 87)
  else if (65 <=? n)%nat && (n <=? 70)%nat then Some (n - 55)
  else None.

(** the code unit that the four digits of a [\uXXXX] escape name *)
Definition hex4 (h1 h2 h3 h4 : ascii) : option N :=
  match hex_value h1, hex_value h2, hex_value h3, hex_value h4 with
  | Some a, Some b, Some c, Some d =>
      Some (4096 * N.of_nat a + 256 * N.of_nat b + 16 * N.of_nat c + N.of_nat d)%N
  | _, _, _, _ => None
  end.

(** text beyond ASCII is held as the bytes of its UTF-8 encoding *)
Definition utf8 (cp : N) : string :=
  let byte := ascii_of_N in
  if (cp <? 128)%N then String (byte cp) EmptyString
  else if (cp <? 2048)%N then
    String (byte (192 + cp / 64)%N) (String (byte (128 + cp mod 64)%N) EmptyString)
  else if (cp <? 65536)%N then
    String (byte (224 + cp / 4096)%N)
      (String (byte (128 + (cp / 64) mod 64)%N)
         (String (byte (128 + cp mod 64)%N) EmptyString))
  else
    String (byte (240 + cp / 262144)%N)
      (String (byte (128 + (cp / 4096) mod 64)%N)
         (String (byte (128 + (cp / 64) mod 64)%N)
            (String (byte (128 + cp mod 64)%N) EmptyString))).

Definition high_surrogate (u : N) : bool := (55296 <=? u)%N && (u <=? 56319)%N.
Definition low_surrogate (u : N) : bool := (56320 <=? u)%N && (u <=? 57343)%N.

(** the body of a string literal, after its opening quote.  A [\uXXXX]
    escape gives the code unit it names, and a high surrogate followed by the
    escape of a low one the character the pair encodes. *)
Fixpoint parse_chars (s : string) : option (string * string) :=
  match s with
  | EmptyString => None
  | String c s' =>
      if Ascii.eqb c quote then Some (EmptyString, s')
      else if Ascii.eqb c backslash then
        match s' with
        | String e s'' =>
            let emit (d : ascii) (rest : string) :=
              match parse_chars rest with
              | Some (t, r) => Some (String d t, r)
              | None => None
              end in
            if Ascii.eqb e quote then emit quote s''
            else if Ascii.eqb e backslash then emit backslash s''
            else if Ascii.eqb e "/" then emit "/"%char s''
            else if Ascii.eqb e "b" then emit "008"%char s''
            else if Ascii.eqb e "f" then emit "012"%char s''
            else if Ascii.eqb e "n" then emit "010"%char s''
            else if Ascii.eqb e "r" then emit "013"%char s''
            else if Ascii.eqb e "t" then emit "009"%char s''
            else if Ascii.eqb e "u" then
              match s'' with
              | String h1 (String h2 (String h3 (String h4 rest))) =>
                  match hex4 h1 h2 h3 h4 with
                  | Some u =>
                      let single :=
                        match parse_chars rest with
                        | Some (t, r) => Some (utf8 u +:+ t, r)
                        | None => None
                        end in
                      match rest with
                      | String b (String e' (String l1 (String l2 (String l3
                          (String l4 rest'))))) =>
                          match hex4 l1 l2 l3 l4 with
                          | Some l =>
                              if high_surrogate u && Ascii.eqb b backslash
                                 && Ascii.eqb e' "u" && low_surrogate l
                              then
                                match parse_chars rest' with
                                | Some (t, r) =>
                                    Some (utf8 (65536 + (u - 55296) * 1024
                                                + (l - 56320))%N +:+ t, r)
                                | None => None
                                end
                              else single
                          | None => single
                          end
                      | _ => single
                      end
                  | None => None
                  end
              | _ => None
              end
            else None
        | EmptyString => None
        end
      else if (nat_of_ascii c <? 32)%nat then None
      else match parse_chars s' with
           | Some (t, r) => Some (String c t, r)
           | None => None
           end
  end.

Fixpoint take_digits (s : string) : string * string :=
  match s with
  | String c s' =>
      if JS.is_digit c then let (d, r) := take_digits s' in (String c d, r)
      else (EmptyString, s)
  | EmptyString => (EmptyString, EmptyString)
  end.

Fixpoint digits_value (acc : Z) (d : string) : Z :=
  match d with
  | EmptyString => acc
  | String c d' => digits_value (10 * acc + Z.of_nat (nat_of_ascii c - 48)) d'
  end.

Definition is_e (c : ascii) : bool := Ascii.eqb c "e" || Ascii.eqb c "E".

(** the fraction part of a literal: a point and at least one digit *)
Definition parse_fraction (r : string) : option (string * string) :=
  match r with
  | String "." r' =>
      match take_digits r' with
      | (EmptyString, _) => None
      | (fp, r'') => Some (fp, r'')
      end
  | _ => Some (EmptyString, r)
  end.

(** the exponent part: [e] or [E], an optional sign and at least one
    digit *)
Definition parse_exponent (r : string) : option (option Z * string) :=
  match r with
  | String c r' =>
      if is_e c then
        let (negative, r1) := match r' with
                              | String "-" t => (true, t)
                              | String "+" t => (false, t)
                              | _ => (false, r')
                              end in
        match take_digits r1 with
        | (EmptyString, _) => None
        | (ed, r2) => Some (Some (Number.signed negative (digits_value 0 ed)), r2)
        end
      else Some (None, r)
  | EmptyString => Some (None, r)
  end.

Definition of_number (x : Number.t) : value :=
  match x with
  | Number.Integer n => Num n
  | Number.Fraction s p => Frac s p
  | Number.Infinite negative => Inf negative
  end.

(** the minus sign a literal may start with *)
Definition parse_sign (s : string) : bool * string :=
  match s with
  | String "-" s' => (true, s')
  | _ => (false, s)
  end.

(** the integer part of a literal is [0] or a digit string without a
    leading zero *)
Definition integer_part (ip : string) : bool :=
  match ip with
  | EmptyString => false
  | String "0" (String _ _) => false
  | _ => true
  end.

(** the value of the literal with the integer digits [ip], the fraction
    digits [fp] and the exponent [ex]: the double nearest to the decimal it
    writes; the digits of an integer up to [2 ^ 53] are that double *)
Definition literal_value (negative : bool) (ip fp : string) (ex : option Z) : value :=
  let S := digits_value 0 (ip +:+ fp) in
  let N := (default 0 ex - Z.of_nat (String.length fp))%Z in
  let plain := match fp, ex with
               | EmptyString, None => true
               | _, _ => false
               end in
  if plain && (S <=? Number.safe)%Z then Num (Number.signed negative S)
  else of_number (Number.of_decimal negative S N).

(** a number literal: an optional minus, the integer part, then an optional
    fraction and an optional exponent *)
Definition parse_number (s : string) : option (value * string) :=
  let (negative, s1) := parse_sign s in
  let (ip, r1) := take_digits s1 in
  if integer_part ip then
    match parse_fraction r1 with
    | None => None
    | Some (fp, r2) =>
        match parse_exponent r2 with
        | None => None
        | Some (ex, r3) => Some (literal_value negative ip fp ex, r3)
        end
    end
  else None.

(** the array index a key is: the decimal, without a leading zero, of an
    integer from 0 to [2 ^ 32 - 2] *)
Definition array_index (k : string) : option Z :=
  match k with
  | EmptyString => None
  | String "0" (String _ _) => None
  | _ =>
      match take_digits k with
      | (d, EmptyString) =>
          let i := digits_value 0 d in
          if (i <=? 4294967294)%Z then Some i else None
      | _ => None
      end
  end.

(** [k] is listed before [k'] even when it is set after it: the own keys
    that are array indices come first, in ascending order, the other keys
    follow in the order in which they were set *)
Definition listed_before (k k' : string) : bool :=
  match array_index k, array_index k' with
  | Some i, Some j => (i <? j)%Z
  | Some _, None => true
  | None, _ => false
  end.

(** [o[k] = v] on the member list, which is in the order of the own keys:
    an existing key keeps its place *)
Fixpoint set_member (members : list (string * value)) (k : string) (v : value)
  : list (string * value) :=
  match members with
  | [] => [(k, v)]
  | (k', v') :: rest =>
      if String.eqb k' k then (k, v) :: rest
      else if listed_before k k' then (k, v) :: members
      else (k', v') :: set_member rest k v
  end.

Fixpoint parse_value (fuel : nat) (s : string) : option (value * string) :=
  match fuel with
  | O => None
  | S fuel =>
      let s := skip_ws s in
      if String.prefix "null" s then Some (Null, JS.drop 4 s)
      else if String.prefix "true" s then Some (Bool true, JS.drop 4 s)
      else if String.prefix "false" s then Some (Bool false, JS.drop 5 s)
      else match s with
           | EmptyString => None
           | String c rest =>
               if Ascii.eqb c quote then
                 match parse_chars rest with
                 | Some (t, r) => Some (Str t, r)
                 | None => None
                 end
               else if Ascii.eqb c "[" then
                 let r := skip_ws rest in
                 if String.prefix "]" r then Some (Arr [], JS.drop 1 r)
                 else parse_items fuel r []
               else if Ascii.eqb c "{" then
                 let r := skip_ws rest in
                 if String.prefix "}" r then Some (Obj [], JS.drop 1 r)
                 else parse_members fuel r []
               else parse_number s
           end
  end
with parse_items (fuel : nat) (s : string) (acc : list value)
  : option (value * string) :=
  match fuel with
  | O => None
  | S fuel =>
      match parse_value fuel s with
      | Some (v, r) =>
          match skip_ws r with
          | String "," r' => parse_items fuel r' (acc ++ [v])
          | String "]" r' => Some (Arr (acc ++ [v]), r')
          | _ => None
          end
      | None => None
      end
  end
with parse_members (fuel : nat) (s : string) (acc : list (string * value))
  : option (value * string) :=
  match fuel with
  | O => None
  | S fuel =>
      match skip_ws s with
      | String c rest =>
          if Ascii.eqb c quote then
            match parse_chars rest with
            | Some (k, r) =>
                match skip_ws r with
                | String ":" r1 =>
                    match parse_value fuel r1 with
                    | Some (v, r2) =>
                        match skip_ws r2 with
                        | String "," r3 => parse_members fuel r3 (set_member acc k v)
                        | String "}" r3 => Some (Obj (set_member acc k v), r3)
                        | _ => None
                        end
                    | None => None
                    end
                | _ => None
                end
            | None => None
            end
          else None
      | EmptyString => None
      end
  end.

(** [JSON.parse(text)]; [None] is the [SyntaxError].  The fuel is enough
    for every text: a value nested in an array or object is at least two
    characters shorter than it, and costs two units of fuel. *)
Definition parse (text : string) : option value :=
  match parse_value (S (String.length text)) text with
  | Some (v, r) =>
      match skip_ws r with
      | EmptyString => Some v
      | _ => None
      end
  | None => None
  end.

End JSON.

(** a test payload written with apostrophes where the wire text has double
    quotes *)
Fixpoint dq (s : string) : string :=
  match s with
  | EmptyString => EmptyString
  | String c s' => String (if Ascii.eqb c "'" then JSON.quote else c) (dq s')
  end.

(** ** Persistent state: the three SQLite tables

    A table is the list of its rows in insertion order.  A nullable column
    is an [option]; [status] carries the [CHECK] constraint in its type. *)

Inductive task_status : Set := pending | running | success | failed | slow.

Definition status_name (s : task_status) : string :=
  match s with
  | pending => "pending"
  | running => "running"
  | success => "success"
  | failed => "failed"
  | slow => "slow"
  end.

Module ApiKey.
Record row : Set := {
  id : string;
  key : string;
  name : option string;
  created_at : option string;
  last_used_at : option string
}.
End ApiKey.

Module Account.
Record row : Set := {
  id : string;
  key_hash : string;
  provider : string;
  created_at : option string;
  last_seen_at : option string
}.

(** the object [getOrCreateAccount] hands back: the row it found, or
    [{ id, key_hash, provider, created: true }] *)
Record obj : Set := {
  o_id : string;
  o_key_hash : string;
  o_provider : string;
  o_created_at : option string;
  o_last_seen_at : option string;
  o_created : bool
}.

Definition of_row (r : row) : obj :=
  {| o_id := id r; o_key_hash := key_hash r; o_provider := provider r;
     o_created_at := created_at r; o_last_seen_at := last_seen_at r;
     o_created := false |}.
End Account.

Module Task.
Record row : Set := {
  id : string;
  api_key_id : option string;
  account_id : option string;
  agent_name : string;
  description : string;
  status : task_status;
  started_at : option string;
  completed_at : option string;
  duration_ms : Z;
  cost : option Q;
  error : option string;
  provider : option string;
  metadata : option string;
  created_at : option string;
  model : option string;
  prompt : option string;
  completion : option string;
  tokens_in : option Z;
  tokens_out : option Z;
  trace_id : option string;
  parent_id : option string;
  span_name : option string;
  prompt_version : option string;
  prompt_template_id : option string;
  original_request : option string
}.
End Task.

Record database : Set := {
  api_keys : list ApiKey.row;
  accounts : list Account.row;
  tasks : list Task.row
}.

Definition with_tasks (db : database) (t : list Task.row) : database :=
  {| api_keys := api_keys db; accounts := accounts db; tasks := t |}.

Definition with_accounts (db : database) (a : list Account.row) : database :=
  {| api_keys := api_keys db; accounts := a; tasks := tasks db |}.

Definition with_api_keys (db : database) (k : list ApiKey.row) : database :=
  {| api_keys := k; accounts := accounts db; tasks := tasks db |}.

(** [column = ?] in a [WHERE] clause: a comparison with [NULL] on either
    side is never true *)
Definition sql_eq (column param : option string) : bool :=
  match column, param with
  | Some a, Some b => String.eqb a b
  | _, _ => false
  end.

(** [UPDATE t SET ... WHERE ...]: the new table and [changes] *)
Definition sql_update {row : Type} (where_ : row -> bool) (set : row -> row)
    (t : list row) : list row * nat :=
  (map (fun r => if where_ r then set r else r) t,
   length (List.filter where_ t)).

Arguments sql_update : simpl never.

(** [SELECT * FROM t WHERE ...] followed by [.get()]: the first match *)
Definition sql_get {row : Type} (where_ : row -> bool) (t : list row) : option row :=
  find where_ t.

(** [INSERT INTO tasks]: the primary key rejects a second row with the same
    [id]; [None] is the exception *)
Definition insert_task (t : list Task.row) (r : Task.row) : option (list Task.row) :=
  if existsb (fun r' => String.eqb (Task.id r') (Task.id r)) t then None
  else Some (t ++ [r]).

Definition insert_account (t : list Account.row) (r : Account.row)
  : option (list Account.row) :=
  if existsb (fun r' => String.eqb (Account.id r') (Account.id r)) t then None
  else Some (t ++ [r]).

(** ** Accounts and authentication *)

Definition touch_account (now : string) (r : Account.row) : Account.row :=
  {| Account.id := Account.id r; Account.key_hash := Account.key_hash r;
     Account.provider := Account.provider r;
     Account.created_at := Account.created_at r;
     Account.last_seen_at := Some now |}.

(** [getOrCreateAccount(keyHash, provider)].  [uuid] is what
    [crypto.randomUUID()] returns if it is called, [now1] and [now2] what the
    two [new Date().toISOString()] return.  [None] is the exception of a
    primary-key clash. *)
Definition getOrCreateAccount (accts : list Account.row)
    (keyHash provider uuid now1 now2 : string)
  : option (Account.obj * list Account.row) :=
  let found := sql_get (fun r => String.eqb (Account.key_hash r) keyHash) accts in
  let created :=
    match found with
    | Some r => Some (Account.of_row r, accts)
    | None =>
        match insert_account accts
                {| Account.id := uuid; Account.key_hash := keyHash;
                   Account.provider := provider;
                   Account.created_at := Some now1;
                   Account.last_seen_at := None |} with
        | Some accts' =>
            Some ({| Account.o_id := uuid; Account.o_key_hash := keyHash;
                     Account.o_provider := provider;
                     Account.o_created_at := None;
                     Account.o_last_seen_at := None;
                     Account.o_created := true |}, accts')
        | None => None
        end
    end in
  match created with
  | Some (account, accts') =>
      Some (account,
            fst (sql_update
                   (fun r => String.eqb (Account.id r) (Account.o_id account))
                   (touch_account now2) accts'))
  | None => None
  end.

(** what [validateApiKey] leaves on [req] *)
Inductive auth : Set :=
| Legacy (apiKey : ApiKey.row)
| ByProvider (account : Account.obj) (providerKey : string).

(** [getAccountId(req)] *)
Definition getAccountId (a : auth) : option string :=
  match a with
  | ByProvider account _ => Some (Account.o_id account)
  | Legacy apiKey => Some (ApiKey.id apiKey)
  end.

(** [req.apiKey?.id || null] *)
Definition apiKeyId (a : auth) : option string :=
  match a with
  | Legacy apiKey => JS.or_str (Some (ApiKey.id apiKey)) None
  | ByProvider _ _ => None
  end.

(** [(api_key_id = ? OR account_id = ?)] with the caller's two identifiers *)
Definition owned_by (a : auth) (r : Task.row) : bool :=
  sql_eq (Task.api_key_id r) (apiKeyId a) || sql_eq (Task.account_id r) (getAccountId a).

Inductive auth_result : Set :=
| Unauthorized (message : string)
| Authorized (a : auth) (db : database)
| AuthException.

(** the [validateApiKey] middleware.  [hashKey] is SHA-256 in hexadecimal,
    taken as a parameter. *)
Definition validateApiKey (hashKey : string -> string) (db : database)
    (authorization : option string) (uuid now : string) : auth_result :=
  match authorization with
  | None => Unauthorized "Missing or invalid Authorization header"
  | Some authHeader =>
      if negb (JS.startsWith authHeader "Bearer ") then
        Unauthorized "Missing or invalid Authorization header"
      else
        let key := JS.replace authHeader "Bearer " EmptyString in
        match sql_get (fun r => String.eqb (ApiKey.key r) key) (api_keys db) with
        | Some apiKey =>
            let touched :=
              fst (sql_update
                     (fun r => String.eqb (ApiKey.id r) (ApiKey.id apiKey))
                     (fun r => {| ApiKey.id := ApiKey.id r; ApiKey.key := ApiKey.key r;
                                  ApiKey.name := ApiKey.name r;
                                  ApiKey.created_at := ApiKey.created_at r;
                                  ApiKey.last_used_at := Some now |})
                     (api_keys db)) in
            Authorized (Legacy apiKey) (with_api_keys db touched)
        | None =>
            match detectProviderFromKey (Some key) with
            | Some provider =>
                match getOrCreateAccount (accounts db) (hashKey key)
                        (provider_name provider) uuid now now with
                | Some (account, accts) =>
                    Authorized (ByProvider account key) (with_accounts db accts)
                | None => AuthException
                end
            | None => Unauthorized "Invalid API key"
            end
        end
  end.

(** ** Span ledger: completing a running task *)

Module Complete.

(** the body of [POST /api/tasks/:id/complete]; [None] is a member the
    request leaves out *)
Record body : Set := {
  status : option string;
  durationMs : option Z;
  cost : option Q;
  error : option string;
  model : option string;
  prompt : option string;
  completion : option string;
  tokens_in : option Z;
  tokens_out : option Z;
  metadata : option JSON.value
}.

Inductive response : Set :=
| MissingFields        (* 400 *)
| InvalidStatus        (* 400 *)
| NotFoundOrNotRunning (* 404 *)
| Completed (taskId : string) (st : task_status). (* 200 *)

Definition code (r : response) : Z :=
  match r with
  | MissingFields | InvalidStatus => 400
  | NotFoundOrNotRunning => 404
  | Completed _ _ => 200
  end.

(** [['success', 'failed', 'slow'].includes(status)] *)
Definition terminal_status (s : string) : option task_status :=
  if String.eqb s "success" then Some success
  else if String.eqb s "failed" then Some failed
  else if String.eqb s "slow" then Some slow
  else None.

(** the [WHERE] clause of the handler's [UPDATE] *)
Definition is_target (a : auth) (id : string) (r : Task.row) : bool :=
  String.eqb (Task.id r) id && owned_by a r
  && match Task.status r with running => true | _ => false end.

Definition or0Z (n : option Z) : Z := default 0%Z n.

(** the [SET] clause *)
Definition finalize (st : task_status) (b : body) (dur : Z) (now : string)
    (r : Task.row) : Task.row :=
  {| Task.id := Task.id r;
     Task.api_key_id := Task.api_key_id r;
     Task.account_id := Task.account_id r;
     Task.agent_name := Task.agent_name r;
     Task.description := Task.description r;
     Task.status := st;
     Task.started_at := Task.started_at r;
     Task.completed_at := Some now;
     Task.duration_ms := dur;
     Task.cost := Some (or0 (cost b));
     Task.error := JS.or_str (error b) None;
     Task.provider := Task.provider r;
     Task.metadata :=
       JSON.stringify (JSON.or (default JSON.Undefined (metadata b)) (JSON.Obj []));
     Task.created_at := Task.created_at r;
     Task.model := JS.or_str (model b) None;
     Task.prompt := JS.or_str (prompt b) None;
     Task.completion := JS.or_str (completion b) None;
     Task.tokens_in := Some (or0Z (tokens_in b));
     Task.tokens_out := Some (or0Z (tokens_out b));
     Task.trace_id := Task.trace_id r;
     Task.parent_id := Task.parent_id r;
     Task.span_name := Task.span_name r;
     Task.prompt_version := Task.prompt_version r;
     Task.prompt_template_id := Task.prompt_template_id r;
     Task.original_request := Task.original_request r |}.

(** the handler of [POST /api/tasks/:id/complete], after the middleware *)
Definition handler (t : list Task.row) (a : auth) (id : string) (b : body)
    (now : string) : response * list Task.row :=
  if negb (JS.truthy_str (status b)) then (MissingFields, t) else
  match durationMs b with
  | None => (MissingFields, t)
  | Some dur =>
      match terminal_status (default EmptyString (status b)) with
      | None => (InvalidStatus, t)
      | Some st =>
          let (t', changes) := sql_update (is_target a id) (finalize st b dur now) t in
          if (changes =? 0)%nat then (NotFoundOrNotRunning, t')
          else (Completed id st, t')
      end
  end.

End Complete.

(** ** Replay/retry engine: the retry placeholder *)

Module Retry.

Inductive response : Set :=
| NotFound  (* 404 *)
| Created (retry_task_id original_task_id : string) (prompt_used : option string)
| InsertFailed. (* the [INSERT] throws *)

(** the row the handler inserts *)
Definition retry_row (a : auth) (originalTask : Task.row)
    (modified_prompt : option string) (retryId retryTraceId now : string)
  : Task.row :=
  {| Task.id := retryId;
     Task.api_key_id := apiKeyId a;
     Task.account_id := getAccountId a;
     Task.agent_name := Task.agent_name originalTask;
     Task.description := "[RETRY] " +:+ Task.description originalTask;
     Task.status := pending;
     Task.started_at := None;
     Task.completed_at := None;
     Task.duration_ms := 0;
     Task.cost := Some 0%Q;
     Task.error := None;
     Task.provider := Task.provider originalTask;
     Task.metadata :=
       JSON.stringify
         (JSON.Obj [("original_task_id", JSON.Str (Task.id originalTask));
                    ("retry_reason", JSON.Str "manual_retry");
                    ("modified_prompt", JSON.Bool (JS.truthy_str modified_prompt))]);
     Task.created_at := Some now;
     Task.model := Task.model originalTask;
     Task.prompt := JS.or_str modified_prompt (Task.prompt originalTask);
     Task.completion := None;
     Task.tokens_in := Some 0%Z;
     Task.tokens_out := Some 0%Z;
     Task.trace_id := Some retryTraceId;
     Task.parent_id := Some (Task.id originalTask);
     Task.span_name := Some "retry";
     Task.prompt_version := None;
     Task.prompt_template_id := None;
     Task.original_request := None |}.

(** the handler of [POST /api/tasks/:id/retry], after the middleware;
    [retryId] and [retryTraceId] are the two [crypto.randomUUID()] *)
Definition handler (t : list Task.row) (a : auth) (id : string)
    (modified_prompt : option string) (retryId retryTraceId now : string)
  : response * list Task.row :=
  match sql_get (fun r => String.eqb (Task.id r) id && owned_by a r) t with
  | None => (NotFound, t)
  | Some originalTask =>
      match insert_task t (retry_row a originalTask modified_prompt
                             retryId retryTraceId now) with
      | Some t' =>
          (Created retryId (Task.id originalTask)
             (JS.or_str modified_prompt (Task.prompt originalTask)), t')
      | None => (InsertFailed, t)
      end
  end.

End Retry.

(** ** Span ledger: trace assembly *)

Module Trace.

(** one entry of [spanMap]: the span and its [children] array.  The array
    holds references to other entries of [spanMap]; a reference is modelled
    as the key of the entry, so that a later push into a child's own
    [children] is seen through every reference to it. *)
Record node : Set := { span : Task.row; children : list string }.

Record summary : Set := {
  trace_id : string;
  span_count : nat;
  total_duration_ms : Z;
  total_cost : Q;
  total_tokens_in : Z;
  total_tokens_out : Z;
  started_at : option string;
  ended_at : option string;
  has_failures : bool
}.

(** [spanMap] is a plain object: besides its own keys it answers to the
    names every object inherits from [Object.prototype], and an assignment
    to the key "__proto__" gives it the assigned entry as prototype, whose
    members it then inherits too.  The map below holds the entries by their
    key, the one assigned to "__proto__" included; [foreign] tells when a
    key that is none of them still finds something. *)

(** the first [forEach]: [spanMap[span.id] = { ...span, children: [] }] *)
Definition index (spans : list Task.row) : gmap string node :=
  fold_left (fun spanMap span =>
               <[Task.id span := {| span := span; children := [] |}]> spanMap)
            spans ∅.

Definition push_child (child : string) (n : node) : node :=
  {| span := span n; children := children n ++ [child] |}.

(** the members of an entry [{ ...span, children: [] }], each with its
    truthiness *)
Definition members (s : Task.row) : list (string * bool) :=
  [("id", negb (String.eqb (Task.id s) EmptyString));
   ("api_key_id", JS.truthy_str (Task.api_key_id s));
   ("account_id", JS.truthy_str (Task.account_id s));
   ("agent_name", negb (String.eqb (Task.agent_name s) EmptyString));
   ("description", negb (String.eqb (Task.description s) EmptyString));
   ("status", true);
   ("started_at", JS.truthy_str (Task.started_at s));
   ("completed_at", JS.truthy_str (Task.completed_at s));
   ("duration_ms", negb (Task.duration_ms s =? 0)%Z);
   ("cost", match Task.cost s with
            | Some c => negb (Qeq_bool c 0)
            | None => false
            end);
   ("error", JS.truthy_str (Task.error s));
   ("provider", JS.truthy_str (Task.provider s));
   ("metadata", JS.truthy_str (Task.metadata s));
   ("created_at", JS.truthy_str (Task.created_at s));
   ("model", JS.truthy_str (Task.model s));
   ("prompt", JS.truthy_str (Task.prompt s));
   ("completion", JS.truthy_str (Task.completion s));
   ("tokens_in", negb (default 0 (Task.tokens_in s) =? 0)%Z);
   ("tokens_out", negb (default 0 (Task.tokens_out s) =? 0)%Z);
   ("trace_id", JS.truthy_str (Task.trace_id s));
   ("parent_id", JS.truthy_str (Task.parent_id s));
   ("span_name", JS.truthy_str (Task.span_name s));
   ("prompt_version", JS.truthy_str (Task.prompt_version s));
   ("prompt_template_id", JS.truthy_str (Task.prompt_template_id s));
   ("original_request", JS.truthy_str (Task.original_request s));
   ("children", true)].

(** [k] is a truthy member of the entry of [s] *)
Definition truthy_member (s : Task.row) (k : string) : bool :=
  existsb (fun m => String.eqb (fst m) k && snd m) (members s).

(** [spanMap[k]] is truthy although [k] is the key of no entry: it is a
    member of [Object.prototype], or of the entry that was assigned to
    "__proto__".  Such a value has no [children]. *)
Definition foreign (spanMap : gmap string node) (k : string) : bool :=
  match spanMap !! k with
  | Some _ => false
  | None =>
      JS.inherited k
      || match spanMap !! "__proto__" with
         | Some p => truthy_member (span p) k
         | None => false
         end
  end.

(** one round of the second [forEach]; [None] is the [TypeError] of
    [undefined.push] *)
Definition link (acc : option (gmap string node * list string)) (span : Task.row)
  : option (gmap string node * list string) :=
  match acc with
  | None => None
  | Some (spanMap, roots) =>
      let parent_id := default EmptyString (Task.parent_id span) in
      if JS.truthy_str (Task.parent_id span)
         && bool_decide (is_Some (spanMap !! parent_id))
      then Some (alter (push_child (Task.id span)) parent_id spanMap, roots)
      else if JS.truthy_str (Task.parent_id span) && foreign spanMap parent_id
      then None
      else Some (spanMap, roots ++ [Task.id span])
  end.

(** both [forEach] loops: the final [spanMap] and [roots] *)
Definition forest (spans : list Task.row) : option (gmap string node * list string) :=
  fold_left link spans (Some (index spans, [])).

Definition is_failed (s : Task.row) : bool :=
  match Task.status s with failed => true | _ => false end.

Definition summarize (traceId : string) (spans : list Task.row) : summary :=
  {| trace_id := traceId;
     span_count := length spans;
     total_duration_ms := fold_left (fun sum s => sum + Task.duration_ms s)%Z spans 0%Z;
     total_cost := fold_left (fun sum s => sum + or0 (Task.cost s))%Q spans 0%Q;
     total_tokens_in :=
       fold_left (fun sum s => sum + default 0 (Task.tokens_in s))%Z spans 0%Z;
     total_tokens_out :=
       fold_left (fun sum s => sum + default 0 (Task.tokens_out s))%Z spans 0%Z;
     started_at := match head spans with
                   | Some s => Task.created_at s
                   | None => None
                   end;
     ended_at := match last spans with
                 | Some s => Task.created_at s
                 | None => None
                 end;
     has_failures := existsb is_failed spans |}.

Inductive response : Set :=
| NotFound     (** 404 *)
| Assembled (s : summary) (spanMap : gmap string node) (tree : list string)
            (spans : list Task.row)
| ServerError. (** an exception leaves the handler: 500 *)

(** the handler of [GET /api/traces/:traceId], from the rows its [SELECT]
    returned, in the order it returned them *)
Definition handler (traceId : string) (spans : list Task.row) : response :=
  if (length spans =? 0)%nat then NotFound
  else match forest spans with
       | Some (spanMap, roots) => Assembled (summarize traceId spans) spanMap roots spans
       | None => ServerError
       end.

(** the rows the [SELECT] ranges over; the [ORDER BY created_at] decides
    the order in which they reach the handler *)
Definition selected (t : list Task.row) (a : auth) (traceId : string) : list Task.row :=
  List.filter (fun r => sql_eq (Task.trace_id r) (Some traceId) && owned_by a r) t.

(** the value [res.json] serialises for a reference: the entry with its
    children followed, [depth] levels deep *)
Inductive tree : Set := Node (s : Task.row) (kids : list tree).

Fixpoint unfold (depth : nat) (spanMap : gmap string node) (ref : string)
  : option tree :=
  match depth with
  | O => None
  | S depth =>
      match spanMap !! ref with
      | Some n =>
          match mapM (unfold depth spanMap) (children n) with
          | Some kids => Some (Node (span n) kids)
          | None => None
          end
      | None => None
      end
  end.

End Trace.

(** ** Replay/retry engine: rebuilding the request of a stored span *)

Module Replay.

Record message : Set := { role : string; content : string }.

Inductive request : Set :=
| Snapshot (originalRequest : JSON.value)
| Rebuilt (model : string) (messages : list message).

Definition nl : string := String "010" EmptyString.

(** the loop variables [messages], [currentRole], [currentContent] *)
Record state : Set := {
  messages : list message;
  currentRole : string;
  currentContent : list string
}.

(** [messages.push({ role: currentRole, content: currentContent.join('\n').trim() })]
    under [if (currentContent.length > 0)] *)
Definition flush (st : state) : list message :=
  match currentContent st with
  | [] => messages st
  | _ => messages st ++ [{| role := currentRole st;
                            content := JS.trim (JS.join nl (currentContent st)) |}]
  end.

(** a branch of the loop body for a line that starts with [tag] *)
Definition open_turn (st : state) (r tag line : string) : state :=
  {| messages := flush st;
     currentRole := r;
     currentContent := [JS.trim (JS.replace line tag EmptyString)] |}.

(** the body of [for (const line of promptLines)] *)
Definition step (st : state) (line : string) : state :=
  if JS.startsWith line "system:" then open_turn st "system" "system:" line
  else if JS.startsWith line "user:" then open_turn st "user" "user:" line
  else if JS.startsWith line "assistant:" then open_turn st "assistant" "assistant:" line
  else {| messages := messages st;
          currentRole := currentRole st;
          currentContent := currentContent st ++ [line] |}.

(** the loop over the lines and the push after it *)
Definition parse_lines (promptLines : list string) : list message :=
  flush (fold_left step promptLines
           {| messages := []; currentRole := "user"; currentContent := [] |}).

(** the reconstruction of the message list from the stored prompt text *)
Definition reconstruct (prompt : string) : list message :=
  let messages := parse_lines (JS.split "010" prompt) in
  match messages with
  | [] => [{| role := "user"; content := prompt |}]
  | _ => messages
  end.

(** [build_replay_request]: the request the replay handler settles on,
    [None] when it answers 400 "Cannot replay task" *)
Definition build_replay_request (originalTask : Task.row) : option request :=
  let originalRequest :=
    if JS.truthy_str (Task.original_request originalTask) then
      match JSON.parse (default EmptyString (Task.original_request originalTask)) with
      | Some v => v
      | None => JSON.Null
      end
    else JSON.Null in
  if JSON.truthy originalRequest then Some (Snapshot originalRequest)
  else if JS.truthy_str (Task.prompt originalTask)
          && JS.truthy_str (Task.model originalTask)
  then Some (Rebuilt (default EmptyString (Task.model originalTask))
                     (reconstruct (default EmptyString (Task.prompt originalTask))))
  else None.

End Replay.

(** ** The upstream provider, as the gateway sees it *)

Definition nl : string := String "010" EmptyString.

Module Upstream.

(** what one [fetch] to the provider turns out to be *)
Inductive response : Set :=
| FetchFails (message : string)
    (** [fetch] rejects *)
| HttpError (status : Z) (text : string)
    (** [!response.ok], with [response.status] and [await response.text()] *)
| Ok (chunks : list string) (failure : option string).
    (** a successful status line, then the decoded pieces of the body as
        they arrive, then either the end of the body or a failed read with
        the given message *)

(** the whole body, as [response.json()] collects it before parsing *)
Definition body_text (chunks : list string) : string :=
  fold_right String.append EmptyString chunks.

End Upstream.

(** [v || 0] for a usage counter.  The upstream protocols type the counters
    as integers; a missing, [null] or zero counter gives 0, and so does, in
    this model, a value that is not an integer. *)
Definition count_or0 (v : JSON.value) : Z :=
  match v with
  | JSON.Num n => n
  | _ => 0%Z
  end.

(** the line handling both streaming loops share:
    [buffer += chunk; lines = buffer.split('\n'); buffer = lines.pop() || ''] *)
Definition take_lines (buffer chunk : string) : list string * string :=
  let lines := JS.split "010" (buffer +:+ chunk) in
  (removelast lines, List.last lines EmptyString).

(** one round of [while (true)] with a chunk read: the pending [buffer]
    travels next to the other loop variables, which the body [on_line] of
    [for (const line of lines)] updates *)
Definition read_chunk {St : Type} (on_line : St -> string -> St)
    (acc : string * St) (chunk : string) : string * St :=
  let (lines, rest) := take_lines (fst acc) chunk in
  (rest, fold_left on_line lines (snd acc)).

(** the whole read loop: the final [buffer] and loop variables *)
Definition read_all {St : Type} (on_line : St -> string -> St) (st : St)
    (chunks : list string) : string * St :=
  fold_left (read_chunk on_line) chunks (EmptyString, st).

(** ** Stream relay of [POST /v1/chat/completions], Anthropic upstream *)

Module Chat.

(** the body of the request: [model], [messages], [stream] and, in [rest],
    its other members in their order, none of them named by an array
    index *)
Record body : Set := {
  model : option string;
  messages : option (list JSON.value);
  stream : bool;
  rest : list (string * JSON.value)
}.

(** the values the environment supplies during one call *)
Record env : Set := {
  uuid_account : string;   (** [randomUUID()] inside [getOrCreateAccount] *)
  taskId : string;
  traceId : string;
  now_account : string;    (** timestamps of [getOrCreateAccount] *)
  now_insert : string;     (** [created_at] and [started_at] of the span *)
  now_final : string;      (** [completed_at] *)
  Date_now : nat -> Z;     (** [Date.now()] when [n] writes have gone out *)
  durationMs : Z           (** [Date.now() - startTime] at finalisation *)
}.

(** the loop variables of the relay, and what has been written to [res] *)
Record relay : Set := {
  tokensIn : Z;
  tokensOut : Z;
  completionText : string;
  written : list string
}.

Definition write (st : relay) (s : string) : relay :=
  {| tokensIn := tokensIn st; tokensOut := tokensOut st;
     completionText := completionText st; written := written st ++ [s] |}.

Definition done_frame : string := "data: [DONE]" +:+ nl +:+ nl.

(** [`data: ${JSON.stringify(chunk)}\n\n`] for a canonical chunk with the
    given [delta] and [finish_reason] *)
Definition chunk_frame (e : env) (m : string) (n : nat)
    (delta finish_reason : JSON.value) : string :=
  "data: " +:+
  default "undefined"
    (JSON.stringify
       (JSON.Obj [("id", JSON.Str ("chatcmpl-" +:+ taskId e));
                  ("object", JSON.Str "chat.completion.chunk");
                  ("created", JSON.Num (Date_now e n / 1000));
                  ("model", JSON.Str m);
                  ("choices",
                   JSON.Arr [JSON.Obj [("index", JSON.Num 0);
                                       ("delta", delta);
                                       ("finish_reason", finish_reason)]])]))
  +:+ nl +:+ nl.

Definition is_type (ty : JSON.value) (name : string) : bool :=
  match ty with
  | JSON.Str s => String.eqb s name
  | _ => false
  end.

(** the four [if] statements inside the [try] *)
Definition on_event (e : env) (m : string) (st : relay) (event : JSON.value) : relay :=
  match JSON.prop event "type" with
  | None => st (* [event] is [null]: the [TypeError] is caught *)
  | Some ty =>
      let st1 :=
        if is_type ty "message_start" then
          {| tokensIn := count_or0
                           (JSON.opt_prop
                              (JSON.opt_prop (JSON.opt_prop event "message") "usage")
                              "input_tokens");
             tokensOut := tokensOut st;
             completionText := completionText st; written := written st |}
        else st in
      let st2 :=
        if is_type ty "message_delta" then
          {| tokensIn := tokensIn st1;
             tokensOut := count_or0
                            (JSON.opt_prop (JSON.opt_prop event "usage") "output_tokens");
             completionText := completionText st1; written := written st1 |}
        else st1 in
      let text := JSON.opt_prop (JSON.opt_prop event "delta") "text" in
      let st3 :=
        if is_type ty "content_block_delta" && JSON.truthy text then
          write {| tokensIn := tokensIn st2;
                   tokensOut := tokensOut st2;
                   completionText := completionText st2 +:+ JSON.to_string text;
                   written := written st2 |}
                (chunk_frame e m (length (written st2))
                   (JSON.Obj [("content", text)]) JSON.Null)
        else st2 in
      if is_type ty "message_stop" then
        write (write st3 (chunk_frame e m (length (written st3))
                            (JSON.Obj []) (JSON.Str "stop")))
              done_frame
      else st3
  end.

(** the body of [for (const line of lines)] *)
Definition on_line (e : env) (m : string) (st : relay) (line : string) : relay :=
  if JS.startsWith line "data: " then
    let data := JS.slice line 6 in
    if String.eqb data "[DONE]" then write st done_frame
    else match JSON.parse data with
         | Some event => on_event e m st event
         | None => st
         end
  else st.

Definition relay0 : relay :=
  {| tokensIn := 0; tokensOut := 0;
     completionText := EmptyString; written := [] |}.

(** the whole read loop over the chunks the upstream delivers *)
Definition run_relay (e : env) (m : string) (chunks : list string) : relay :=
  snd (read_all (on_line e m) relay0 chunks).

Inductive response : Set :=
| BadRequest                       (** 400 *)
| MissingAuthorization             (** 401 *)
| Crash                            (** an exception leaves the handler *)
| ProxyError (message : string)    (** 500, JSON error body *)
| Streamed (frames : list string)  (** SSE frames, then [res.end()] *)
| Cut (frames : list string)       (** SSE frames, then the failure *)
| OtherBranch.                     (** another provider, or no streaming *)

(** [messages.map(m => `${m.role}: ${m.content}`).join('\n')];
    [None] is the [TypeError] of a [null] message *)
Definition promptText (messages : list JSON.value) : option string :=
  match mapM (fun m => match JSON.prop m "role", JSON.prop m "content" with
                       | Some r, Some c =>
                           Some (JSON.to_string r +:+ ": " +:+ JSON.to_string c)
                       | _, _ => None
                       end) messages with
  | Some parts => Some (JS.join nl parts)
  | None => None
  end.

(** the [INSERT] that opens the span *)
Definition open_row (e : env) (account : Account.obj) (p : provider)
    (m : string) (b : body) (msgs : list JSON.value) (prompt : string) : Task.row :=
  {| Task.id := taskId e;
     Task.api_key_id := None;
     Task.account_id := Some (Account.o_id account);
     Task.agent_name := "proxy";
     Task.description := "Proxy: " +:+ m;
     Task.status := running;
     Task.started_at := Some (now_insert e);
     Task.completed_at := None;
     Task.duration_ms := 0;
     Task.cost := Some 0%Q;
     Task.error := None;
     Task.provider := Some (provider_name p);
     Task.metadata :=
       JSON.stringify
         (JSON.Obj [("stream", JSON.Bool (stream b));
                    ("message_count", JSON.Num (Z.of_nat (length msgs)))]);
     Task.created_at := Some (now_insert e);
     Task.model := Some m;
     Task.prompt := Some prompt;
     Task.completion := None;
     Task.tokens_in := Some 0%Z;
     Task.tokens_out := Some 0%Z;
     Task.trace_id := Some (traceId e);
     Task.parent_id := None;
     Task.span_name := None;
     Task.prompt_version := None;
     Task.prompt_template_id := None;
     Task.original_request :=
       JSON.stringify
         (JSON.Obj (("model", JSON.Str m) :: ("messages", JSON.Arr msgs) :: rest b)) |}.

(** [UPDATE tasks SET status = 'success', ... WHERE id = ?]; a cost that is
    [NaN] is stored as [NULL] *)
Definition set_success (dur : Z) (c : option Q) (text : string) (tin tout : Z)
    (now : string) (r : Task.row) : Task.row :=
  {| Task.id := Task.id r;
     Task.api_key_id := Task.api_key_id r;
     Task.account_id := Task.account_id r;
     Task.agent_name := Task.agent_name r;
     Task.description := Task.description r;
     Task.status := success;
     Task.started_at := Task.started_at r;
     Task.completed_at := Some now;
     Task.duration_ms := dur;
     Task.cost := c;
     Task.error := Task.error r;
     Task.provider := Task.provider r;
     Task.metadata := Task.metadata r;
     Task.created_at := Task.created_at r;
     Task.model := Task.model r;
     Task.prompt := Task.prompt r;
     Task.completion := Some text;
     Task.tokens_in := Some tin;
     Task.tokens_out := Some tout;
     Task.trace_id := Task.trace_id r;
     Task.parent_id := Task.parent_id r;
     Task.span_name := Task.span_name r;
     Task.prompt_version := Task.prompt_version r;
     Task.prompt_template_id := Task.prompt_template_id r;
     Task.original_request := Task.original_request r |}.

(** [UPDATE tasks SET status = 'failed', duration_ms = ?, error = ?,
    completed_at = ? WHERE id = ?] *)
Definition set_failed (dur : Z) (message now : string) (r : Task.row) : Task.row :=
  {| Task.id := Task.id r;
     Task.api_key_id := Task.api_key_id r;
     Task.account_id := Task.account_id r;
     Task.agent_name := Task.agent_name r;
     Task.description := Task.description r;
     Task.status := failed;
     Task.started_at := Task.started_at r;
     Task.completed_at := Some now;
     Task.duration_ms := dur;
     Task.cost := Task.cost r;
     Task.error := Some message;
     Task.provider := Task.provider r;
     Task.metadata := Task.metadata r;
     Task.created_at := Task.created_at r;
     Task.model := Task.model r;
     Task.prompt := Task.prompt r;
     Task.completion := Task.completion r;
     Task.tokens_in := Task.tokens_in r;
     Task.tokens_out := Task.tokens_out r;
     Task.trace_id := Task.trace_id r;
     Task.parent_id := Task.parent_id r;
     Task.span_name := Task.span_name r;
     Task.prompt_version := Task.prompt_version r;
     Task.prompt_template_id := Task.prompt_template_id r;
     Task.original_request := Task.original_request r |}.

Definition by_id (id : string) (r : Task.row) : bool := String.eqb (Task.id r) id.

(** the [catch] block of the handler *)
Definition fail (e : env) (db : database) (message : string) (frames : list string)
  : response * database :=
  (match frames with
   | [] => ProxyError message  (* [!res.headersSent] *)
   | _ => Cut frames
   end,
   with_tasks db (fst (sql_update (by_id (taskId e))
                         (set_failed (durationMs e) message (now_final e))
                         (tasks db)))).

(** the handler of [POST /v1/chat/completions] on the path where the
    provider is Anthropic and the request asks for a stream.  The request
    that goes upstream is not part of the model; [up] is the answer. *)
Definition handler (hashKey : string -> string) (e : env) (db : database)
    (authorization : option string) (b : body) (up : Upstream.response)
  : response * database :=
  match JS.or_str (model b) None, messages b with
  | Some m, Some msgs =>
      match authorization with
      | None => (MissingAuthorization, db)
      | Some authHeader =>
          if negb (JS.startsWith authHeader "Bearer ") then (MissingAuthorization, db)
          else
            let providerKey := JS.replace authHeader "Bearer " EmptyString in
            let p := match detectProviderFromKey (Some providerKey) with
                     | Some p => p
                     | None => detectProviderFromModel (Some m)
                     end in
            match getOrCreateAccount (accounts db) (hashKey providerKey)
                    (provider_name p) (uuid_account e) (now_account e) (now_account e) with
            | None => (Crash, db)
            | Some (account, accts) =>
                let db1 := with_accounts db accts in
                match promptText msgs with
                | None => (Crash, db1)
                | Some prompt =>
                    match insert_task (tasks db1) (open_row e account p m b msgs prompt) with
                    | None => (Crash, db1)
                    | Some t =>
                        let db2 := with_tasks db1 t in
                        match p, stream b, up with
                        | anthropic, true, Upstream.FetchFails message =>
                            fail e db2 message []
                        | anthropic, true, Upstream.HttpError status text =>
                            fail e db2 ("Anthropic error: " +:+ pretty status
                                        +:+ " - " +:+ text) []
                        | anthropic, true, Upstream.Ok chunks failure =>
                            let st := run_relay e m chunks in
                            match failure with
                            | Some message => fail e db2 message (written st)
                            | None =>
                                let c := calculateCost m (inject_Z (tokensIn st))
                                                         (inject_Z (tokensOut st)) in
                                (Streamed (written st),
                                 with_tasks db2
                                   (fst (sql_update (by_id (taskId e))
                                           (set_success (durationMs e) c
                                              (completionText st) (tokensIn st)
                                              (tokensOut st) (now_final e))
                                           (tasks db2))))
                            end
                        | _, _, _ => (OtherBranch, db2)
                        end
                    end
                end
            end
      end
  | _, _ => (BadRequest, db)
  end.

End Chat.

(** ** The Anthropic messages proxy, [POST /v1/messages] *)

Module Messages.

(** the storage limit of the prompt and completion columns, in code units *)
Definition LIMIT : nat := Z.to_nat 50000.

Record body : Set := {
  model : option string;
  messages : option (list JSON.value);
  system : JSON.value;
  stream : bool;
  json : JSON.value   (** [req.body] itself, as it is stored and forwarded *)
}.

Record env : Set := {
  uuid_account : string;
  taskId : string;
  traceId : string;
  now_account : string;
  now_insert : string;
  now_final : string;
  durationMs : Z;
  syntax_error : string;   (** the message of the engine's [SyntaxError] *)
  type_error : string      (** the message of the engine's [TypeError] *)
}.

(** [content.replace(/\s+/g, ' ')]: every run of white space becomes one
    space *)
Fixpoint collapse_ws (s : string) : string :=
  match s with
  | EmptyString => EmptyString
  | String c s' =>
      if JS.is_space c then
        match s' with
        | String c' _ => if JS.is_space c' then collapse_ws s'
                         else String " " (collapse_ws s')
        | EmptyString => " "
        end
      else String c (collapse_ws s')
  end.

Definition is_user (m : JSON.value) : option bool :=
  match JSON.prop m "role" with
  | Some (JSON.Str r) => Some (String.eqb r "user")
  | Some _ => Some false
  | None => None
  end.

(** [Array.prototype.find] with a predicate that may throw *)
Fixpoint find_throwing {A : Type} (p : A -> option bool) (l : list A)
  : option (option A) :=
  match l with
  | [] => Some None
  | x :: l' =>
      match p x with
      | None => None
      | Some true => Some (Some x)
      | Some false => find_throwing p l'
      end
  end.

Definition is_text_part (p : JSON.value) : option bool :=
  match JSON.prop p "type" with
  | Some (JSON.Str t) => Some (String.eqb t "text")
  | Some _ => Some false
  | None => None
  end.

(** [extractTaskDescription(messages)]; [None] is a [TypeError] *)
Definition extractTaskDescription (messages : list JSON.value) : option string :=
  match messages with
  | [] => Some "Claude Code task"
  | _ =>
      match find_throwing is_user (rev messages) with
      | None => None
      | Some None => Some "Claude Code task"
      | Some (Some lastUser) =>
          let content :=
            match JSON.opt_prop lastUser "content" with
            | JSON.Str s => Some s
            | JSON.Arr parts =>
                match find_throwing is_text_part parts with
                | None => None
                | Some None => Some EmptyString
                | Some (Some textPart) =>
                    match JSON.or (JSON.opt_prop textPart "text") (JSON.Str EmptyString) with
                    | JSON.Str s => Some s
                    | _ => None (* [content.replace] is not a function *)
                    end
                end
            | _ => Some EmptyString
            end in
          match content with
          | None => None
          | Some content =>
              let cleaned := JS.trim (collapse_ws content) in
              Some (default "Claude Code task"
                      (JS.or_str (Some (JS.substring0 cleaned 100)) None))
          end
      end
  end.

(** [messages.map(m => ...).join('\n')] with [JSON.stringify] for a content
    that is not a string *)
Definition promptText (messages : list JSON.value) : option string :=
  match mapM (fun m => match JSON.prop m "role", JSON.prop m "content" with
                       | Some r, Some c =>
                           let content :=
                             match c with
                             | JSON.Str s => s
                             | _ => default "undefined" (JSON.stringify c)
                             end in
                           Some (JSON.to_string r +:+ ": " +:+ content)
                       | _, _ => None
                       end) messages with
  | Some parts => Some (JS.join nl parts)
  | None => None
  end.

(** the [INSERT] that opens the span *)
Definition open_row (e : env) (account : Account.obj) (m : string) (b : body)
    (msgs : list JSON.value) (taskDescription prompt : string) : Task.row :=
  {| Task.id := taskId e;
     Task.api_key_id := None;
     Task.account_id := Some (Account.o_id account);
     Task.agent_name := "Claude Code";
     Task.description := taskDescription;
     Task.status := running;
     Task.started_at := Some (now_insert e);
     Task.completed_at := None;
     Task.duration_ms := 0;
     Task.cost := Some 0%Q;
     Task.error := None;
     Task.provider := Some "anthropic";
     Task.metadata :=
       JSON.stringify
         (JSON.Obj [("stream", JSON.Bool (stream b));
                    ("message_count", JSON.Num (Z.of_nat (length msgs)));
                    ("has_system", JSON.Bool (JSON.truthy (system b)))]);
     Task.created_at := Some (now_insert e);
     Task.model := Some m;
     Task.prompt := Some (JS.substring0 prompt LIMIT);
     Task.completion := None;
     Task.tokens_in := Some 0%Z;
     Task.tokens_out := Some 0%Z;
     Task.trace_id := Some (traceId e);
     Task.parent_id := None;
     Task.span_name := None;
     Task.prompt_version := None;
     Task.prompt_template_id := None;
     Task.original_request := JSON.stringify (json b) |}.

(** the [usage] accumulator of the streaming branch *)
Record counters : Set := {
  c_input : Z; c_output : Z; c_cache_read : Z; c_cache_creation : Z
}.

Definition usage_of (c : counters) : usage :=
  {| input_tokens := Some (inject_Z (c_input c));
     output_tokens := Some (inject_Z (c_output c));
     cache_read_input_tokens := Some (inject_Z (c_cache_read c));
     cache_creation_input_tokens := Some (inject_Z (c_cache_creation c)) |}.

(** the loop variables of the streaming branch, and what went to [res] *)
Record relay : Set := {
  fullCompletion : string;
  counts : counters;
  messageId : JSON.value;
  written : list string
}.

Definition relay0 : relay :=
  {| fullCompletion := EmptyString;
     counts := {| c_input := 0; c_output := 0; c_cache_read := 0; c_cache_creation := 0 |};
     messageId := JSON.Null; written := [] |}.

Definition is_type (ty : JSON.value) (name : string) : bool :=
  match ty with
  | JSON.Str s => String.eqb s name
  | _ => false
  end.

(** the three [if] statements inside the [try] *)
Definition on_event (st : relay) (event : JSON.value) : relay :=
  match JSON.prop event "type" with
  | None => st
  | Some ty =>
      let message := JSON.opt_prop event "message" in
      let st1 :=
        if is_type ty "message_start" && JSON.truthy message then
          let u := JSON.opt_prop message "usage" in
          {| fullCompletion := fullCompletion st;
             counts :=
               if JSON.truthy u then
                 {| c_input := count_or0 (JSON.opt_prop u "input_tokens");
                    c_output := c_output (counts st);
                    c_cache_read := count_or0 (JSON.opt_prop u "cache_read_input_tokens");
                    c_cache_creation :=
                      count_or0 (JSON.opt_prop u "cache_creation_input_tokens") |}
               else counts st;
             messageId := JSON.opt_prop message "id";
             written := written st |}
        else st in
      let text := JSON.opt_prop (JSON.opt_prop event "delta") "text" in
      let st2 :=
        if is_type ty "content_block_delta" && JSON.truthy text then
          {| fullCompletion := fullCompletion st1 +:+ JSON.to_string text;
             counts := counts st1; messageId := messageId st1;
             written := written st1 |}
        else st1 in
      let u := JSON.opt_prop event "usage" in
      if is_type ty "message_delta" && JSON.truthy u then
        {| fullCompletion := fullCompletion st2;
           counts := {| c_input := c_input (counts st2);
                        c_output := count_or0 (JSON.opt_prop u "output_tokens");
                        c_cache_read := c_cache_read (counts st2);
                        c_cache_creation := c_cache_creation (counts st2) |};
           messageId := messageId st2; written := written st2 |}
      else st2
  end.

(** what the loop forwards for one upstream line *)
Definition forwarded (line : string) : string :=
  if JS.truthy_str (Some (JS.trim line)) then line +:+ nl else nl.

(** the body of [for (const line of lines)] *)
Definition on_line (st : relay) (line : string) : relay :=
  let st' := {| fullCompletion := fullCompletion st;
                counts := counts st; messageId := messageId st;
                written := written st ++ [forwarded line] |} in
  if JS.startsWith line "data: " then
    let data := JS.slice line 6 in
    if JS.truthy_str (Some (JS.trim data)) && negb (String.eqb data "[DONE]") then
      match JSON.parse data with
      | Some event => on_event st' event
      | None => st'
      end
    else st'
  else st'.

(** [if (buffer.trim()) res.write(buffer + '\n')] after the loop *)
Definition flush (buffer : string) (st : relay) : relay :=
  if JS.truthy_str (Some (JS.trim buffer)) then
    {| fullCompletion := fullCompletion st; counts := counts st;
       messageId := messageId st; written := written st ++ [buffer +:+ nl] |}
  else st.

(** the read loop inside its own [try]: a failed read skips the flush *)
Definition run_relay (chunks : list string) (failure : option string) : relay :=
  let (buffer, st) := read_all on_line relay0 chunks in
  match failure with
  | None => flush buffer st
  | Some _ => st
  end.

Inductive response : Set :=
| BadRequest                              (** 400 *)
| MissingKey                              (** 401 *)
| Crash                                   (** an exception leaves the handler *)
| UpstreamError (status : Z) (text : string) (** the upstream's own error *)
| ApiError (message : string)             (** 500 *)
| Streamed (frames : list string)         (** forwarded lines, [res.end()] *)
| Replied (data : JSON.value).            (** [res.json(data)] *)

Definition update_by_id (e : env) (db : database) (set : Task.row -> Task.row)
  : database :=
  with_tasks db (fst (sql_update (Chat.by_id (taskId e)) set (tasks db))).

(** the [UPDATE] of both [!response.ok] blocks *)
Definition http_failure (e : env) (db : database) (status : Z) (text : string)
  : response * database :=
  (UpstreamError status text,
   update_by_id e db
     (Chat.set_failed (durationMs e)
        ("HTTP " +:+ pretty status +:+ ": " +:+ JS.substring0 text 500)
        (now_final e))).

(** the outer [catch], reached before anything was written *)
Definition api_failure (e : env) (db : database) (message : string)
  : response * database :=
  (ApiError message,
   update_by_id e db (Chat.set_failed (durationMs e) message (now_final e))).

(** the non-streaming branch once [data] is there; [None] is a [TypeError] *)
Definition finish_body (e : env) (db : database) (m : string) (data : JSON.value)
  : option (response * database) :=
  match JSON.prop data "content" with
  | None => None
  | Some content =>
      match JSON.or (JSON.opt_prop (JSON.opt_index content 0) "text")
                    (JSON.Str EmptyString) with
      | JSON.Str completionText =>
          let u := JSON.or (JSON.opt_prop data "usage") (JSON.Obj []) in
          let count k := match JSON.opt_prop u k with
                         | JSON.Num n => Some (inject_Z n)
                         | _ => None
                         end in
          let c := calculateAnthropicCost m
                     (Some {| input_tokens := count "input_tokens";
                              output_tokens := count "output_tokens";
                              cache_read_input_tokens := count "cache_read_input_tokens";
                              cache_creation_input_tokens :=
                                count "cache_creation_input_tokens" |}) in
          Some (Replied data,
                update_by_id e db
                  (Chat.set_success (durationMs e) c
                     (JS.substring0 completionText LIMIT)
                     (count_or0 (JSON.opt_prop u "input_tokens")
                      + count_or0 (JSON.opt_prop u "cache_read_input_tokens")
                      + count_or0 (JSON.opt_prop u "cache_creation_input_tokens"))
                     (count_or0 (JSON.opt_prop u "output_tokens"))
                     (now_final e)))
      | _ => None (* [completionText.substring] is not a function *)
      end
  end.

(** the handler of [POST /v1/messages] *)
Definition handler (hashKey : string -> string) (e : env) (db : database)
    (x_api_key authorization : option string) (b : body) (up : Upstream.response)
  : response * database :=
  match JS.or_str (model b) None, messages b with
  | Some m, Some msgs =>
      let apiKey :=
        if JS.truthy_str x_api_key then x_api_key
        else if JS.truthy_str authorization then
          Some (JS.replace (default EmptyString authorization) "Bearer " EmptyString)
        else x_api_key in
      if negb (JS.truthy_str apiKey) then (MissingKey, db) else
      match getOrCreateAccount (accounts db) (hashKey (default EmptyString apiKey))
              "anthropic" (uuid_account e) (now_account e) (now_account e) with
      | None => (Crash, db)
      | Some (account, accts) =>
          let db1 := with_accounts db accts in
          match extractTaskDescription msgs, promptText msgs with
          | Some taskDescription, Some prompt =>
              match insert_task (tasks db1)
                      (open_row e account m b msgs taskDescription prompt) with
              | None => (Crash, db1)
              | Some t =>
                  let db2 := with_tasks db1 t in
                  match up with
                  | Upstream.FetchFails message => api_failure e db2 message
                  | Upstream.HttpError status text => http_failure e db2 status text
                  | Upstream.Ok chunks failure =>
                      if stream b then
                        let st := run_relay chunks failure in
                        let c := calculateAnthropicCost m (Some (usage_of (counts st))) in
                        (Streamed (written st),
                         update_by_id e db2
                           (Chat.set_success (durationMs e) c
                              (JS.substring0 (fullCompletion st) LIMIT)
                              (c_input (counts st) + c_cache_read (counts st)
                               + c_cache_creation (counts st))
                              (c_output (counts st))
                              (now_final e)))
                      else
                        match failure with
                        | Some message => api_failure e db2 message
                        | None =>
                            match JSON.parse (Upstream.body_text chunks) with
                            | None => api_failure e db2 (syntax_error e)
                            | Some data =>
                                match finish_body e db2 m data with
                                | Some result => result
                                | None => api_failure e db2 (type_error e)
                                end
                            end
                        end
                  end
              end
          | _, _ => (Crash, db1)
          end
      end
  | _, _ => (BadRequest, db)
  end.

End Messages.

(** ** Vocabulary of the statements *)

(** the model-name families [detectProviderFromModel] tells apart, on the
    lower-cased name *)
Definition openai_family (m : string) : bool :=
  JS.startsWith m "gpt-" || JS.startsWith m "o1" || JS.includes m "openai".

Definition named_family (m : string) : bool :=
  openai_family m || JS.startsWith m "claude-" || JS.startsWith m "gemini-"
  || JS.startsWith m "grok-".







(** the span [id] is not running: no row of that id has status [running] *)
Definition not_running (id : string) (t : list Task.row) : Prop :=
  Forall (fun r => Task.id r = id -> Task.status r <> running) t.

(** a completion request that passes the handler's two input checks *)
Definition well_formed (b : Complete.body) : bool :=
  match Complete.durationMs b, Complete.status b with
  | Some _, Some s => bool_decide (is_Some (Complete.terminal_status s))
  | _, _ => false
  end.

(** one call of the completion endpoint *)
Record completion_call : Set := {
  by_whom : auth;
  target : string;
  payload : Complete.body;
  at_time : string
}.

(** the stored status of the span [id] *)
Definition status_of (id : string) (t : list Task.row) : option task_status :=
  match find (fun r => String.eqb (Task.id r) id) t with
  | Some r => Some (Task.status r)
  | None => None
  end.

(** is the span [id] running in [t]? *)
Definition is_running (id : string) (t : list Task.row) : bool :=
  match status_of id t with
  | Some running => true
  | _ => false
  end.

(** how often the span [id] leaves the running state while the calls are
    served one after the other *)
Fixpoint transitions (id : string) (t : list Task.row) (calls : list completion_call)
  : nat :=
  match calls with
  | [] => 0
  | c :: calls' =>
      let t' := snd (Complete.handler t (by_whom c) (target c) (payload c) (at_time c)) in
      (if is_running id t && negb (is_running id t') then 1 else 0)
      + transitions id t' calls'
  end.



(** the [UPDATE accounts SET last_seen_at] as a map over the table *)
Definition touched (id now : string) (accts : list Account.row) : list Account.row :=
  map (fun r => if String.eqb (Account.id r) id then touch_account now r else r) accts.

(** the role tag a prompt line starts with, and the role it opens *)
Definition tag_of (line : string) : option (string * string) :=
  if JS.startsWith line "system:" then Some ("system", "system:")
  else if JS.startsWith line "user:" then Some ("user", "user:")
  else if JS.startsWith line "assistant:" then Some ("assistant", "assistant:")
  else None.

Definition untagged (line : string) : Prop := tag_of line = None.

(** a block of lines that is empty or starts with a role tag *)
Definition opens_turn (lines : list string) : Prop :=
  match lines with
  | [] => True
  | line :: _ => tag_of line <> None
  end.

(** the message a tagged line and the untagged lines after it make up *)
Definition turn (r tag line : string) (more : list string) : Replay.message :=
  {| Replay.role := r;
     Replay.content :=
       JS.trim (JS.join Replay.nl (JS.trim (JS.replace line tag EmptyString) :: more)) |}.

(** two loop states that differ by a prefix of finished messages *)
Definition ahead (pfx : list Replay.message) (st st' : Replay.state) : Prop :=
  Replay.messages st = pfx ++ Replay.messages st'
  /\ Replay.currentRole st = Replay.currentRole st'
  /\ Replay.currentContent st = Replay.currentContent st'.

Definition terse_prompt : string := "system: be terse" +:+ Replay.nl +:+ "user: hi".








(** the length of a stored text column, 0 for [NULL] *)
Definition stored_length (column : option string) : nat :=
  match column with
  | Some s => String.length s
  | None => 0
  end.

(** the prompt and completion columns of a row respect the storage limit *)
Definition within_limit (r : Task.row) : Prop :=
  (stored_length (Task.prompt r) <= Messages.LIMIT)%nat
  /\ (stored_length (Task.completion r) <= Messages.LIMIT)%nat.

(** the complete lines of an upstream body, and the unterminated rest *)
Definition body_lines (body : string) : list string :=
  removelast (JS.split "010" body).

Definition body_rest (body : string) : string :=
  List.last (JS.split "010" body) EmptyString.

(** what the streaming branch of the messages proxy forwards for a body *)
Definition forwarded_frames (body : string) : list string :=
  map Messages.forwarded (body_lines body)
  ++ (if JS.truthy_str (Some (JS.trim (body_rest body)))
      then [body_rest body +:+ nl] else []).

(** a line the messages proxy forwards as it is: an empty one, or one with
    something else than white space in it *)
Definition plain_line (line : string) : Prop :=
  line = EmptyString \/ JS.trim line <> EmptyString.

Definition is_plain_line (line : string) : bool :=
  String.eqb line EmptyString || negb (String.eqb (JS.trim line) EmptyString).

(** *** Sample data *)

Definition finished_span : Task.row :=
  {| Task.id := "span-1"; Task.api_key_id := Some "key-1"; Task.account_id := None;
     Task.agent_name := "bot"; Task.description := "job"; Task.status := success;
     Task.started_at := Some "t0"; Task.completed_at := Some "t1";
     Task.duration_ms := 10; Task.cost := Some 0%Q; Task.error := None;
     Task.provider := Some "custom"; Task.metadata := Some "{}";
     Task.created_at := Some "t0"; Task.model := None; Task.prompt := None;
     Task.completion := Some "done"; Task.tokens_in := Some 1%Z;
     Task.tokens_out := Some 2%Z; Task.trace_id := Some "trace-1";
     Task.parent_id := None; Task.span_name := None; Task.prompt_version := None;
     Task.prompt_template_id := None; Task.original_request := None |}.

Definition late_close : Complete.body :=
  {| Complete.status := Some "failed"; Complete.durationMs := Some 99%Z;
     Complete.cost := None; Complete.error := Some "late"; Complete.model := None;
     Complete.prompt := None; Complete.completion := None;
     Complete.tokens_in := None; Complete.tokens_out := None;
     Complete.metadata := None |}.

Definition key_1 : auth :=
  Legacy {| ApiKey.id := "key-1"; ApiKey.key := "agentlog_1"; ApiKey.name := None;
            ApiKey.created_at := None; ApiKey.last_used_at := None |}.


Definition failed_span : Task.row :=
  {| Task.id := "span-2"; Task.api_key_id := Some "key-1"; Task.account_id := None;
     Task.agent_name := "bot"; Task.description := "job"; Task.status := failed;
     Task.started_at := Some "t0"; Task.completed_at := Some "t1";
     Task.duration_ms := 10; Task.cost := Some 0%Q; Task.error := Some "boom";
     Task.provider := Some "openai"; Task.metadata := Some "{}";
     Task.created_at := Some "t0"; Task.model := Some "gpt-4o";
     Task.prompt := Some "user: hi"; Task.completion := None;
     Task.tokens_in := Some 1%Z; Task.tokens_out := Some 0%Z;
     Task.trace_id := Some "trace-2"; Task.parent_id := None;
     Task.span_name := None; Task.prompt_version := None;
     Task.prompt_template_id := None; Task.original_request := None |}.



(** one server-sent event of the upstream, as it is on the wire *)
Definition sse (name payload : string) : string :=
  "event: " +:+ name +:+ nl +:+ "data: " +:+ dq payload +:+ nl +:+ nl.

(** the upstream stream of the relay scenario: a start with 10 input
    tokens, the text deltas "Hello", " world" and "!", a delta with 3 output
    tokens, and the stop *)
Definition hello_stream : string :=
  sse "message_start"
      "{'type':'message_start','message':{'id':'msg_1','type':'message','role':'assistant','content':[],'usage':{'input_tokens':10,'output_tokens':1}}}"
  +:+ sse "content_block_delta"
      "{'type':'content_block_delta','index':0,'delta':{'type':'text_delta','text':'Hello'}}"
  +:+ sse "content_block_delta"
      "{'type':'content_block_delta','index':0,'delta':{'type':'text_delta','text':' world'}}"
  +:+ sse "content_block_delta"
      "{'type':'content_block_delta','index':0,'delta':{'type':'text_delta','text':'!'}}"
  +:+ sse "message_delta"
      "{'type':'message_delta','delta':{'stop_reason':'end_turn','stop_sequence':null},'usage':{'output_tokens':3}}"
  +:+ sse "message_stop" "{'type':'message_stop'}".

(** a canonical chunk as it is on the wire: one server-sent event whose
    data is the JSON text of a [chat.completion.chunk] object with the given
    id, time stamp and model and one choice, whose [delta] and
    [finish_reason] are the JSON texts given *)
Definition wire_chunk (id : string) (created : Z) (model delta finish_reason : string)
  : string :=
  dq "data: {'id':" +:+ JSON.quoted ("chatcmpl-" +:+ id)
  +:+ dq ",'object':'chat.completion.chunk','created':" +:+ Number.integer_text created
  +:+ dq ",'model':" +:+ JSON.quoted model
  +:+ dq ",'choices':[{'index':0,'delta':" +:+ delta
  +:+ dq ",'finish_reason':" +:+ finish_reason +:+ "}]}" +:+ nl +:+ nl.

(** the frames the relay scenario expects: the three deltas, the terminal
    chunk with an empty delta and the finish reason "stop", and the done
    marker; the [n]-th frame is stamped with the second in which it is
    written *)
Definition hello_frames (e : Chat.env) (m : string) : list string :=
  let stamp (n : nat) := (Chat.Date_now e n / 1000)%Z in
  [wire_chunk (Chat.taskId e) (stamp 0%nat) m (dq "{'content':'Hello'}") "null";
   wire_chunk (Chat.taskId e) (stamp 1%nat) m (dq "{'content':' world'}") "null";
   wire_chunk (Chat.taskId e) (stamp 2%nat) m (dq "{'content':'!'}") "null";
   wire_chunk (Chat.taskId e) (stamp 3%nat) m "{}" (dq "'stop'");
   "data: [DONE]" +:+ nl +:+ nl].

(** the provider the chat handler settles on *)
Definition chat_provider (authHeader m : string) : provider :=
  match detectProviderFromKey (Some (JS.replace authHeader "Bearer " EmptyString)) with
  | Some p => p
  | None => detectProviderFromModel (Some m)
  end.

Definition chat_env : Chat.env :=
  {| Chat.uuid_account := "acc-1"; Chat.taskId := "task-1"; Chat.traceId := "trace-1";
     Chat.now_account := "t0"; Chat.now_insert := "t1"; Chat.now_final := "t2";
     Chat.Date_now := fun n => (1700000000000 + 1000 * Z.of_nat n)%Z;
     Chat.durationMs := 42 |}.

Definition chat_body : Chat.body :=
  {| Chat.model := Some "claude-3-opus-20240229";
     Chat.messages :=
       Some [JSON.Obj [("role", JSON.Str "user"); ("content", JSON.Str "Say hello")]];
     Chat.stream := true;
     Chat.rest := [("max_tokens", JSON.Num 100)] |}.

Definition empty_db : database := {| api_keys := []; accounts := []; tasks := [] |}.

(** a stand-in for SHA-256 *)
Definition toy_hash (k : string) : string := "h:" +:+ k.

(** the scenario stream cut at two awkward places *)
Definition hello_chunks : list string :=
  [JS.substring0 hello_stream 40;
   String.substring 40 200 hello_stream;
   JS.drop 240 hello_stream].

Definition messages_env : Messages.env :=
  {| Messages.uuid_account := "acc-1"; Messages.taskId := "task-1";
     Messages.traceId := "trace-1"; Messages.now_account := "t0";
     Messages.now_insert := "t1"; Messages.now_final := "t2";
     Messages.durationMs := 42; Messages.syntax_error := "Unexpected token";
     Messages.type_error := "Cannot read properties of null" |}.

Definition hello_request : list JSON.value :=
  [JSON.Obj [("role", JSON.Str "user"); ("content", JSON.Str "Say hello")]].

Definition messages_body : Messages.body :=
  {| Messages.model := Some "claude-3-opus-20240229";
     Messages.messages := Some hello_request;
     Messages.system := JSON.Undefined;
     Messages.stream := true;
     Messages.json :=
       JSON.Obj [("model", JSON.Str "claude-3-opus-20240229");
                 ("max_tokens", JSON.Num 64);
                 ("stream", JSON.Bool true);
                 ("messages", JSON.Arr hello_request)] |}.

(** ** Vocabulary of the further properties *)

(** the four key families of [detectProviderFromKey] *)
Definition key_families (key : string) : bool :=
  JS.startsWith key "sk-" || JS.startsWith key "AIza" || JS.startsWith key "xai-".


(** what an accepted request leaves behind, for the key the header carries *)
Definition authorized_as (hashKey : string -> string) (db : database)
    (key now : string) (a : auth) (db' : database) : Prop :=
  tasks db' = tasks db
  /\ match a with
     | Legacy k =>
         In k (api_keys db) /\ ApiKey.key k = key
         /\ accounts db' = accounts db
         /\ map ApiKey.id (api_keys db') = map ApiKey.id (api_keys db)
         /\ map ApiKey.key (api_keys db') = map ApiKey.key (api_keys db)
         /\ Forall (fun r => ApiKey.id r = ApiKey.id k ->
                             ApiKey.last_used_at r = Some now) (api_keys db')
     | ByProvider account providerKey =>
         providerKey = key
         /\ api_keys db' = api_keys db
         /\ Forall (fun k => ApiKey.key k <> key) (api_keys db)
         /\ detectProviderFromKey (Some key) <> None
         /\ exists row, In row (accounts db')
                        /\ Account.id row = Account.o_id account
                        /\ Account.key_hash row = hashKey key
                        /\ Account.last_seen_at row = Some now
     end.

(** the wire form of a role-tagged turn, as the chat proxy receives it *)
Definition chat_message (m : Replay.message) : JSON.value :=
  JSON.Obj [("role", JSON.Str (Replay.role m)); ("content", JSON.Str (Replay.content m))].

Definition is_role (r : string) : bool :=
  String.eqb r "system" || String.eqb r "user" || String.eqb r "assistant".

(** a turn the prompt text keeps intact: one of the three roles, a content
    without white space around it or at the end of its first line, and no
    later line of the content that looks like a role tag *)
Definition replayable (m : Replay.message) : Prop :=
  is_role (Replay.role m) = true
  /\ JS.trim (Replay.content m) = Replay.content m
  /\ match JS.split "010" (Replay.content m) with
     | first :: more => JS.trim first = first /\ Forall untagged more
     | [] => False
     end.

(** the line block a turn becomes in the prompt text *)
Definition prompt_line (m : Replay.message) : string :=
  Replay.role m +:+ ": " +:+ Replay.content m.

Definition two_turns : list Replay.message :=
  [{| Replay.role := "system"; Replay.content := "be terse" |};
   {| Replay.role := "user";
      Replay.content := "list:" +:+ nl +:+ "- one" +:+ nl +:+ "- two" |}].

(** ** Span ledger: starting a task and reading it back *)

Module Start.

(** the members of the body of [POST /api/tasks/start] the handler reads;
    [None] is a member the request leaves out *)
Record body : Set := {
  agent : option string;
  task : option string;
  provider : option string;
  metadata : option JSON.value;
  trace_id : option string;
  parent_id : option string;
  span_name : option string
}.

Inductive response : Set :=
| MissingFields                               (* 400 *)
| Started (taskId traceId startTime : string) (* 200 *)
| InsertFailed.                               (* the [INSERT] throws *)

(** [trace_id || crypto.randomUUID()] *)
Definition generatedTraceId (b : body) (uuid : string) : string :=
  default uuid (JS.or_str (trace_id b) (Some uuid)).

(** the row of the [INSERT]; the columns it does not name take the defaults
    of the schema *)
Definition started_row (a : auth) (b : body) (id uuid now : string) : Task.row :=
  {| Task.id := id;
     Task.api_key_id := apiKeyId a;
     Task.account_id := getAccountId a;
     Task.agent_name := default EmptyString (agent b);
     Task.description := default EmptyString (task b);
     Task.status := running;
     Task.started_at := Some now;
     Task.completed_at := None;
     Task.duration_ms := 0;
     Task.cost := Some 0%Q;
     Task.error := None;
     Task.provider := JS.or_str (provider b) (Some "custom");
     Task.metadata :=
       JSON.stringify (JSON.or (default JSON.Undefined (metadata b)) (JSON.Obj []));
     Task.created_at := Some now;
     Task.model := None;
     Task.prompt := None;
     Task.completion := None;
     Task.tokens_in := Some 0%Z;
     Task.tokens_out := Some 0%Z;
     Task.trace_id := Some (generatedTraceId b uuid);
     Task.parent_id := JS.or_str (parent_id b) None;
     Task.span_name := JS.or_str (span_name b) None;
     Task.prompt_version := None;
     Task.prompt_template_id := None;
     Task.original_request := None |}.

(** the handler of [POST /api/tasks/start], after the middleware; [id] and
    [uuid] are what the two [crypto.randomUUID()] return *)
Definition handler (t : list Task.row) (a : auth) (b : body) (id uuid now : string)
  : response * list Task.row :=
  if negb (JS.truthy_str (agent b)) || negb (JS.truthy_str (task b))
  then (MissingFields, t)
  else match insert_task t (started_row a b id uuid now) with
       | Some t' => (Started id (generatedTraceId b uuid) now, t')
       | None => (InsertFailed, t)
       end.

End Start.

Module GetTask.

(** the handler of [GET /api/tasks/:id], after the middleware; [None] is
    the answer 404 *)
Definition handler (t : list Task.row) (a : auth) (id : string) : option Task.row :=
  sql_get (fun r => String.eqb (Task.id r) id && owned_by a r) t.

End GetTask.

Definition start_body : Start.body :=
  {| Start.agent := Some "indexer"; Start.task := Some "crawl docs";
     Start.provider := None; Start.metadata := None; Start.trace_id := None;
     Start.parent_id := None; Start.span_name := None |}.

Definition done_body : Complete.body :=
  {| Complete.status := Some "success"; Complete.durationMs := Some 1200%Z;
     Complete.cost := None; Complete.error := None; Complete.model := None;
     Complete.prompt := None; Complete.completion := Some "42 pages";
     Complete.tokens_in := None; Complete.tokens_out := None;
     Complete.metadata := None |}.

Definition account_of (id : string) : auth :=
  ByProvider {| Account.o_id := id; Account.o_key_hash := "h"; Account.o_provider := "openai";
                Account.o_created_at := None; Account.o_last_seen_at := None;
                Account.o_created := false |} "sk-key".

(** ** The account lookup endpoint *)

Module Lookup.

(** the two members of the body of [POST /api/account/lookup] *)
Record body : Set := { key_hash : option string; provider : option string }.

Inductive response : Set :=
| MissingFields                                          (* 400 *)
| InvalidProvider (error : string)                       (* 400 *)
| Found (account_id provider : string) (created : bool)  (* 200 *)
| InsertFailed.                                          (* the [INSERT] throws *)

Definition validProviders : list string := ["openai"; "anthropic"; "google"; "xai"].

(** the handler; [uuid] is what [crypto.randomUUID()] returns if it is
    called, [now] what [new Date().toISOString()] returns *)
Definition handler (accts : list Account.row) (b : body) (uuid now : string)
  : response * list Account.row :=
  if negb (JS.truthy_str (key_hash b)) || negb (JS.truthy_str (provider b))
  then (MissingFields, accts)
  else
    let key_hash := default EmptyString (key_hash b) in
    let provider := default EmptyString (provider b) in
    if negb (existsb (String.eqb provider) validProviders)
    then (InvalidProvider ("Invalid provider. Must be: " +:+ JS.join ", " validProviders),
          accts)
    else
      match sql_get (fun r => String.eqb (Account.key_hash r) key_hash) accts with
      | None =>
          match insert_account accts
                  {| Account.id := uuid; Account.key_hash := key_hash;
                     Account.provider := provider;
                     Account.created_at := Some now;
                     Account.last_seen_at := None |} with
          | Some accts' => (Found uuid provider true, accts')
          | None => (InsertFailed, accts)
          end
      | Some account =>
          (Found (Account.id account) (Account.provider account) false,
           fst (sql_update (fun r => String.eqb (Account.id r) (Account.id account))
                  (touch_account now) accts))
      end.

End Lookup.

Definition lookup_body : Lookup.body :=
  {| Lookup.key_hash := Some "h:sk-ant-key"; Lookup.provider := Some "anthropic" |}.

(** ** Prompt versioning *)

Module PromptTemplate.
Record row : Set := {
  id : string;
  api_key_id : option string;
  account_id : option string;
  name : string;
  template : string;
  variables : option string;
  version : Z;
  is_active : Z;
  created_at : option string;
  metrics : option string
}.
End PromptTemplate.

Module Prompts.

(** the body of [POST /api/prompts] *)
Record body : Set := {
  name : option string;
  template : option string;
  variables : option JSON.value
}.

Inductive response : Set :=
| MissingFields                                            (* 400 *)
| Saved (id name : string) (version : Z) (message : string) (* 200 *)
| InsertFailed.                                            (* the [INSERT] throws *)

(** [(api_key_id = ? OR account_id = ?)] with the caller's two identifiers *)
Definition owned (a : auth) (r : PromptTemplate.row) : bool :=
  sql_eq (PromptTemplate.api_key_id r) (apiKeyId a)
  || sql_eq (PromptTemplate.account_id r) (getAccountId a).

(** the [WHERE] clause of the [SELECT] for [existing] *)
Definition is_existing (a : auth) (name : string) (r : PromptTemplate.row) : bool :=
  owned a r && String.eqb (PromptTemplate.name r) name
  && (PromptTemplate.is_active r =? 1)%Z.

(** [UPDATE prompt_templates SET is_active = 0] *)
Definition deactivate (r : PromptTemplate.row) : PromptTemplate.row :=
  {| PromptTemplate.id := PromptTemplate.id r;
     PromptTemplate.api_key_id := PromptTemplate.api_key_id r;
     PromptTemplate.account_id := PromptTemplate.account_id r;
     PromptTemplate.name := PromptTemplate.name r;
     PromptTemplate.template := PromptTemplate.template r;
     PromptTemplate.variables := PromptTemplate.variables r;
     PromptTemplate.version := PromptTemplate.version r;
     PromptTemplate.is_active := 0;
     PromptTemplate.created_at := PromptTemplate.created_at r;
     PromptTemplate.metrics := PromptTemplate.metrics r |}.

(** the row of the [INSERT] *)
Definition new_row (a : auth) (b : body) (id : string) (version : Z) (now : string)
  : PromptTemplate.row :=
  {| PromptTemplate.id := id;
     PromptTemplate.api_key_id := apiKeyId a;
     PromptTemplate.account_id := getAccountId a;
     PromptTemplate.name := default EmptyString (name b);
     PromptTemplate.template := default EmptyString (template b);
     PromptTemplate.variables :=
       JSON.stringify (JSON.or (default JSON.Undefined (variables b)) (JSON.Arr []));
     PromptTemplate.version := version;
     PromptTemplate.is_active := 1;
     PromptTemplate.created_at := Some now;
     PromptTemplate.metrics := Some "{}" |}.

Definition insert_template (t : list PromptTemplate.row) (r : PromptTemplate.row)
  : option (list PromptTemplate.row) :=
  if existsb (fun r' => String.eqb (PromptTemplate.id r') (PromptTemplate.id r)) t
  then None else Some (t ++ [r]).

(** [`Prompt template ${existing ? 'updated' : 'created'} (v${version})`] *)
Definition message (existing : bool) (version : Z) : string :=
  "Prompt template " +:+ (if existing then "updated" else "created")
  +:+ " (v" +:+ pretty version +:+ ")".

(** the handler of [POST /api/prompts], after the middleware.  The
    [UPDATE] and the [INSERT] are two statements: when the [INSERT] throws,
    the [UPDATE] has happened. *)
Definition handler (t : list PromptTemplate.row) (a : auth) (b : body)
    (id now : string) : response * list PromptTemplate.row :=
  if negb (JS.truthy_str (name b)) || negb (JS.truthy_str (template b))
  then (MissingFields, t)
  else
    let name := default EmptyString (name b) in
    let existing := sql_get (is_existing a name) t in
    let version :=
      match existing with
      | Some e => (PromptTemplate.version e + 1)%Z
      | None => 1%Z
      end in
    let t1 :=
      match existing with
      | Some e =>
          fst (sql_update
                 (fun r => String.eqb (PromptTemplate.id r) (PromptTemplate.id e))
                 deactivate t)
      | None => t
      end in
    match insert_template t1 (new_row a b id version now) with
    | Some t2 =>
        (Saved id name version
           (message (match existing with Some _ => true | None => false end) version),
         t2)
    | None => (InsertFailed, t1)
    end.

(** the rows [GET /api/prompts/:name] selects *)
Definition versions (t : list PromptTemplate.row) (a : auth) (name : string)
  : list PromptTemplate.row :=
  List.filter (fun r => owned a r && String.eqb (PromptTemplate.name r) name) t.

(** [current_version] of [GET /api/prompts/:name]: the version of the first
    row under [ORDER BY version DESC], that is the largest one; [None] is
    the answer 404 *)
Definition current_version (t : list PromptTemplate.row) (a : auth) (name : string)
  : option Z :=
  match versions t a name with
  | [] => None
  | r :: rs =>
      Some (fold_left Z.max (map PromptTemplate.version rs) (PromptTemplate.version r))
  end.

End Prompts.

(** one save of a template: the text, the variables, and what
    [crypto.randomUUID()] and the clock give during the call *)
Record save : Set := {
  s_template : string;
  s_variables : option JSON.value;
  s_uuid : string;
  s_now : string
}.

(** a save the handler does not refuse for a missing template *)
Definition has_text (s : save) : Prop := s_template s <> EmptyString.

Definition save_body (name : string) (s : save) : Prompts.body :=
  {| Prompts.name := Some name; Prompts.template := Some (s_template s);
     Prompts.variables := s_variables s |}.

(** the saves of one caller under one name, served one after the other *)
Fixpoint save_all (t : list PromptTemplate.row) (a : auth) (name : string)
    (saves : list save) : list Prompts.response * list PromptTemplate.row :=
  match saves with
  | [] => ([], t)
  | s :: rest =>
      let (r, t1) := Prompts.handler t a (save_body name s) (s_uuid s) (s_now s) in
      let (rs, t2) := save_all t1 a name rest in
      (r :: rs, t2)
  end.

(** the answers to saves that each find an active version: [v], [v+1], ... *)
Fixpoint updates (name : string) (v : Z) (saves : list save) : list Prompts.response :=
  match saves with
  | [] => []
  | s :: rest =>
      Prompts.Saved (s_uuid s) name v (Prompts.message true v)
      :: updates name (v + 1) rest
  end.

(** the rows a run of saves leaves: version [v] from [s], then one version
    per later save, all but the last switched off *)
Fixpoint chain (a : auth) (name : string) (s : save) (v : Z) (later : list save)
  : list PromptTemplate.row :=
  let row := Prompts.new_row a (save_body name s) (s_uuid s) v (s_now s) in
  match later with
  | [] => [row]
  | s' :: rest => Prompts.deactivate row :: chain a name s' (v + 1) rest
  end.

Definition save_of (text id : string) : save :=
  {| s_template := text; s_variables := None; s_uuid := id; s_now := "t0" |}.

(** ** The chat proxy, [POST /v1/chat/completions], on all its paths *)

(** [endpoints[provider] || endpoints.openai] *)
Definition getProviderEndpoint (p : provider) : string :=
  match p with
  | openai => "https://api.openai.com/v1/chat/completions"
  | anthropic => "https://api.anthropic.com/v1/messages"
  | google => "https://generativelanguage.googleapis.com/v1beta/models"
  | xai => "https://api.x.ai/v1/chat/completions"
  | openrouter => "https://openrouter.ai/api/v1/chat/completions"
  end.

(** [v?.[0]]: the first item of an array, the first code unit of a string,
    the member [0] of an object *)
Definition first_of (v : JSON.value) : JSON.value :=
  match v with
  | JSON.Obj members => JSON.lookup_member members "0"
  | _ => JSON.opt_index v 0
  end.

(** ToNumber of a value that is no string, array or object; [None] is
    [NaN] *)
Definition as_number (v : JSON.value) : option Number.t :=
  match v with
  | JSON.Num n => Some (Number.Integer n)
  | JSON.Frac s p => Some (Number.Fraction s p)
  | JSON.Inf negative => Some (Number.Infinite negative)
  | JSON.Bool true => Some (Number.Integer 1)
  | JSON.Bool false | JSON.Null => Some (Number.Integer 0)
  | _ => None
  end.

(** ToPrimitive gives a string *)
Definition is_text (v : JSON.value) : bool :=
  match v with
  | JSON.Str _ | JSON.Arr _ | JSON.Obj _ => true
  | _ => false
  end.

(** [a + b]: a string, an array or an object on either side makes it the
    concatenation of the two as strings; otherwise the two are added as
    numbers, that is, as doubles *)
Definition js_add (a b : JSON.value) : JSON.value :=
  if is_text a || is_text b then JSON.Str (JSON.to_string a +:+ JSON.to_string b)
  else match as_number a, as_number b with
       | Some x, Some y =>
           match Number.add x y with
           | Some z => JSON.of_number z
           | None => JSON.NaN
           end
       | _, _ => JSON.NaN
       end.

(** [convertFromAnthropic(anthropicResponse, model)]; [uuid] is what
    [crypto.randomUUID()] returns if it is called, [now] is [Date.now()];
    [None] is the [TypeError] of a [null] response *)
Definition convertFromAnthropic (anthropicResponse : JSON.value) (model uuid : string)
    (now : Z) : option JSON.value :=
  match JSON.prop anthropicResponse "id" with
  | None => None
  | Some id =>
      let member := JSON.opt_prop anthropicResponse in
      let usage := member "usage" in
      let input_tokens := JSON.or (JSON.opt_prop usage "input_tokens") (JSON.Num 0) in
      let output_tokens := JSON.or (JSON.opt_prop usage "output_tokens") (JSON.Num 0) in
      Some (JSON.Obj
        [("id", JSON.or id (JSON.Str ("chatcmpl-" +:+ uuid)));
         ("object", JSON.Str "chat.completion");
         ("created", JSON.Num (now / 1000));
         ("model", JSON.Str model);
         ("choices",
          JSON.Arr
            [JSON.Obj
               [("index", JSON.Num 0);
                ("message",
                 JSON.Obj
                   [("role", JSON.Str "assistant");
                    ("content",
                     JSON.or (JSON.opt_prop (first_of (member "content")) "text")
                       (JSON.Str EmptyString))]);
                ("finish_reason",
                 if Chat.is_type (member "stop_reason") "end_turn"
                 then JSON.Str "stop" else member "stop_reason")]]);
         ("usage",
          JSON.Obj [("prompt_tokens", input_tokens);
                    ("completion_tokens", output_tokens);
                    ("total_tokens", js_add input_tokens output_tokens)])])
  end.

(** [convertFromGemini(geminiResponse, model)] *)
Definition convertFromGemini (geminiResponse : JSON.value) (model uuid : string)
    (now : Z) : option JSON.value :=
  match JSON.prop geminiResponse "candidates" with
  | None => None
  | Some candidates =>
      let candidate := first_of candidates in
      let parts := JSON.opt_prop (JSON.opt_prop candidate "content") "parts" in
      let content :=
        JSON.or (JSON.opt_prop (first_of parts) "text") (JSON.Str EmptyString) in
      let usageMetadata := JSON.opt_prop geminiResponse "usageMetadata" in
      let count k := JSON.or (JSON.opt_prop usageMetadata k) (JSON.Num 0) in
      Some (JSON.Obj
        [("id", JSON.Str ("chatcmpl-" +:+ uuid));
         ("object", JSON.Str "chat.completion");
         ("created", JSON.Num (now / 1000));
         ("model", JSON.Str model);
         ("choices",
          JSON.Arr
            [JSON.Obj
               [("index", JSON.Num 0);
                ("message",
                 JSON.Obj [("role", JSON.Str "assistant"); ("content", content)]);
                ("finish_reason",
                 if Chat.is_type (JSON.opt_prop candidate "finishReason") "STOP"
                 then JSON.Str "stop" else JSON.Str "length")]]);
         ("usage",
          JSON.Obj [("prompt_tokens", count "promptTokenCount");
                    ("completion_tokens", count "candidatesTokenCount");
                    ("total_tokens", count "totalTokenCount")])])
  end.

Module Proxy.

(** the environment of one call: that of the streaming Anthropic path, plus
    the [crypto.randomUUID()] of a converted response and the messages of
    the engine's [SyntaxError] and [TypeError] *)
Record env : Set := {
  base : Chat.env;
  uuid_response : string;
  syntax_error : string;
  type_error : string
}.

Inductive response : Set :=
| BadRequest                                  (** 400 *)
| MissingAuthorization                        (** 401 *)
| Crash                                       (** an exception leaves the handler *)
| ProxyError (message provider : string)      (** 500, JSON error body *)
| Streamed (frames : list string)             (** SSE frames, then [res.end()] *)
| Cut (frames : list string)                  (** SSE frames, then the failure *)
| Replied (responseData : JSON.value).        (** [res.json(responseData)] *)

(** the outcome of the part of the [try] block before the final [UPDATE] *)
Inductive attempt (A : Type) : Type :=
| Done (a : A)
| Throw (message : string).

Arguments Done {A} a.
Arguments Throw {A} message.

Definition bind {A B : Type} (x : attempt A) (f : A -> attempt B) : attempt B :=
  match x with
  | Done a => f a
  | Throw message => Throw message
  end.

#[global] Instance attempt_bind : MBind attempt := fun A B f x => bind x f.

(** a value where the code goes on to read a member: [null] throws *)
Definition non_null (e : env) (v : option JSON.value) : attempt JSON.value :=
  match v with
  | Some x => Done x
  | None => Throw (type_error e)
  end.

(** [v || ''] for a completion.  The upstream protocols type the text as a
    string; a missing, [null] or empty text gives the empty string, and so
    does, in this model, a value that is not a string. *)
Definition text_or_empty (v : JSON.value) : string :=
  match v with
  | JSON.Str s => s
  | _ => EmptyString
  end.

(** [fetch], the check of [response.ok] and [await response.json()];
    [label] is the head of the error message *)
Definition fetch_json (e : env) (label : string) (up : Upstream.response)
  : attempt JSON.value :=
  match up with
  | Upstream.FetchFails message => Throw message
  | Upstream.HttpError status text =>
      Throw (label +:+ " error: " +:+ pretty status +:+ " - " +:+ text)
  | Upstream.Ok _ (Some message) => Throw message
  | Upstream.Ok chunks None =>
      match JSON.parse (Upstream.body_text chunks) with
      | Some data => Done data
      | None => Throw (syntax_error e)
      end
  end.

(** the loop variable of the pass-through relay, and what has been written *)
Record relay : Set := { completionText : string; written : list string }.

(** the body of [for (const line of lines)] on the OpenAI-style path *)
Definition on_line (st : relay) (line : string) : relay :=
  if JS.startsWith line "data: " then
    let st1 := {| completionText := completionText st;
                  written := written st ++ [line +:+ nl +:+ nl] |} in
    let data := JS.slice line 6 in
    if String.eqb data "[DONE]" then st1
    else match JSON.parse data with
         | Some chunk =>
             match JSON.prop chunk "choices" with
             | None => st1 (* [chunk] is [null]: the [TypeError] is caught *)
             | Some choices =>
                 let delta :=
                   JSON.opt_prop (JSON.opt_prop (first_of choices) "delta") "content" in
                 if JSON.truthy delta then
                   {| completionText := completionText st1 +:+ JSON.to_string delta;
                      written := written st1 |}
                 else st1
             end
         | None => st1
         end
  else st.

Definition relay0 : relay := {| completionText := EmptyString; written := [] |}.

Definition run_relay (chunks : list string) : relay :=
  snd (read_all on_line relay0 chunks).

(** what the [try] block hands to the final [UPDATE] *)
Record served : Set := {
  answer : response;
  tokensIn : Z;
  tokensOut : Z;
  completion : string
}.

(** the three reads after a converted response:
    [responseData.usage.prompt_tokens], [responseData.usage.completion_tokens]
    and [responseData.choices[0]?.message?.content || ''], and
    [res.json(responseData)] *)
Definition read_converted (responseData : JSON.value) : served :=
  let usage := JSON.opt_prop responseData "usage" in
  {| answer := Replied responseData;
     tokensIn := count_or0 (JSON.opt_prop usage "prompt_tokens");
     tokensOut := count_or0 (JSON.opt_prop usage "completion_tokens");
     completion :=
       text_or_empty
         (JSON.opt_prop
            (JSON.opt_prop (first_of (JSON.opt_prop responseData "choices")) "message")
            "content") |}.

(** the [catch] block *)
Definition fail (e : env) (p : provider) (db : database) (message : string)
    (frames : list string) : response * database :=
  (match frames with
   | [] => ProxyError message (provider_name p)
   | _ => Cut frames
   end,
   with_tasks db
     (fst (sql_update (Chat.by_id (Chat.taskId (base e)))
             (Chat.set_failed (Chat.durationMs (base e)) message
                (Chat.now_final (base e)))
             (tasks db)))).

(** the [UPDATE] at the end of the [try] block *)
Definition succeed (e : env) (m : string) (db : database) (s : served)
  : response * database :=
  (answer s,
   with_tasks db
     (fst (sql_update (Chat.by_id (Chat.taskId (base e)))
             (Chat.set_success (Chat.durationMs (base e))
                (calculateCost m (inject_Z (tokensIn s)) (inject_Z (tokensOut s)))
                (completion s) (tokensIn s) (tokensOut s) (Chat.now_final (base e)))
             (tasks db)))).

(** the end of the [try] block, or the [catch] when it threw before
    anything was written *)
Definition settled (e : env) (db : database) (p : provider) (m : string)
    (x : attempt served) : response * database :=
  match x with
  | Done s => succeed e m db s
  | Throw message => fail e p db message []
  end.

(** an upstream answer that is converted: [fetch], [response.json()], the
    conversion [conv] and the reads after it; [label] is the head of the
    error message *)
Definition converted (e : env) (label : string) (up : Upstream.response)
    (conv : JSON.value -> option JSON.value) : attempt served :=
  data ← fetch_json e label up;
  responseData ← non_null e (conv data);
  Done (read_converted responseData).

(** the answer of a pass-through provider without streaming, with the
    three reads [responseData.usage?.prompt_tokens || estimateTokens(promptText)],
    [responseData.usage?.completion_tokens || 0] and
    [responseData.choices?.[0]?.message?.content || ''] *)
Definition passed (e : env) (p : provider) (prompt : string) (up : Upstream.response)
  : attempt served :=
  responseData ← fetch_json e (provider_name p) up;
  usage ← non_null e (JSON.prop responseData "usage");
  Done {| answer := Replied responseData;
          tokensIn :=
            count_or0 (JSON.or (JSON.opt_prop usage "prompt_tokens")
                         (JSON.Num (estimateTokens (Some prompt))));
          tokensOut := count_or0 (JSON.opt_prop usage "completion_tokens");
          completion :=
            text_or_empty
              (JSON.opt_prop
                 (JSON.opt_prop (first_of (JSON.opt_prop responseData "choices"))
                    "message")
                 "content") |}.

(** the stream of a pass-through provider *)
Definition relayed (e : env) (db : database) (p : provider) (m prompt : string)
    (up : Upstream.response) : response * database :=
  match up with
  | Upstream.FetchFails message => fail e p db message []
  | Upstream.HttpError status text =>
      fail e p db (provider_name p +:+ " error: " +:+ pretty status +:+ " - " +:+ text) []
  | Upstream.Ok chunks failure =>
      let st := run_relay chunks in
      match failure with
      | Some message => fail e p db message (written st)
      | None =>
          succeed e m db
            {| answer := Streamed (written st);
               tokensIn := estimateTokens (Some prompt);
               tokensOut := estimateTokens (Some (completionText st));
               completion := completionText st |}
      end
  end.

(** the stream of Anthropic, converted event by event *)
Definition converted_stream (e : env) (db : database) (p : provider) (m : string)
    (up : Upstream.response) : response * database :=
  match up with
  | Upstream.FetchFails message => fail e p db message []
  | Upstream.HttpError status text =>
      fail e p db ("Anthropic error: " +:+ pretty status +:+ " - " +:+ text) []
  | Upstream.Ok chunks failure =>
      let st := Chat.run_relay (base e) m chunks in
      match failure with
      | Some message => fail e p db message (Chat.written st)
      | None =>
          succeed e m db
            {| answer := Streamed (Chat.written st);
               tokensIn := Chat.tokensIn st; tokensOut := Chat.tokensOut st;
               completion := Chat.completionText st |}
      end
  end.

(** the [try] block and its [catch], once the span is open in [db] *)
Definition dispatch (e : env) (db : database) (p : provider) (m prompt : string)
    (stream : bool) (up : Upstream.response) : response * database :=
  match p, stream with
  | anthropic, true => converted_stream e db p m up
  | anthropic, false =>
      settled e db p m
        (converted e "Anthropic" up
           (fun anthropicData =>
              convertFromAnthropic anthropicData m (uuid_response e)
                (Chat.Date_now (base e) 0)))
  | google, _ =>
      settled e db p m
        (converted e "Gemini" up
           (fun geminiData =>
              convertFromGemini geminiData m (uuid_response e)
                (Chat.Date_now (base e) 0)))
  | _, true => relayed e db p m prompt up
  | _, false => settled e db p m (passed e p prompt up)
  end.

(** the handler of [POST /v1/chat/completions].  The request that goes
    upstream is not part of the model; [up] is the answer. *)
Definition handler (hashKey : string -> string) (e : env) (db : database)
    (authorization : option string) (b : Chat.body) (up : Upstream.response)
  : response * database :=
  match JS.or_str (Chat.model b) None, Chat.messages b with
  | Some m, Some msgs =>
      match authorization with
      | None => (MissingAuthorization, db)
      | Some authHeader =>
          if negb (JS.startsWith authHeader "Bearer ") then (MissingAuthorization, db)
          else
            let providerKey := JS.replace authHeader "Bearer " EmptyString in
            let p := match detectProviderFromKey (Some providerKey) with
                     | Some p => p
                     | None => detectProviderFromModel (Some m)
                     end in
            match getOrCreateAccount (accounts db) (hashKey providerKey)
                    (provider_name p) (Chat.uuid_account (base e))
                    (Chat.now_account (base e)) (Chat.now_account (base e)) with
            | None => (Crash, db)
            | Some (account, accts) =>
                let db1 := with_accounts db accts in
                match Chat.promptText msgs with
                | None => (Crash, db1)
                | Some prompt =>
                    match insert_task (tasks db1)
                            (Chat.open_row (base e) account p m b msgs prompt) with
                    | None => (Crash, db1)
                    | Some t =>
                        dispatch e (with_tasks db1 t) p m prompt (Chat.stream b) up
                    end
                end
            end
      end
  | _, _ => (BadRequest, db)
  end.

End Proxy.


(** an answer that gives the client what it asked for *)
Definition delivered (r : Proxy.response) : Prop :=
  (exists frames, r = Proxy.Streamed frames) \/ (exists data, r = Proxy.Replied data).

(** a provider whose requests and answers the chat proxy passes through *)
Definition passes_through (p : provider) : bool :=
  match p with
  | anthropic | google => false
  | _ => true
  end.

Definition is_data (line : string) : bool := JS.startsWith line "data: ".

(** the frames of a pass-through stream: every data line of the body, each
    closed by an empty line *)
Definition data_frames (body : string) : list string :=
  map (fun line => line +:+ nl +:+ nl) (List.filter is_data (body_lines body)).

(** the text a line of a stream carries: the [content] of the [delta] of
    the first choice of the JSON text after [data: ], if the line is a data
    line with such a text and the content is not empty or missing *)
Definition delta_text (line : string) : string :=
  if is_data line then
    match JSON.parse (JS.slice line 6) with
    | Some chunk =>
        let content :=
          JSON.opt_prop
            (JSON.opt_prop (first_of (JSON.opt_prop chunk "choices")) "delta")
            "content" in
        if JSON.truthy content then JSON.to_string content else EmptyString
    | None => EmptyString
    end
  else EmptyString.

(** the members of a chat completion the ledger is compared with *)
Definition reply_usage (responseData : JSON.value) (k : string) : JSON.value :=
  JSON.opt_prop (JSON.opt_prop responseData "usage") k.

Definition reply_content (responseData : JSON.value) : JSON.value :=
  JSON.opt_prop
    (JSON.opt_prop (first_of (JSON.opt_prop responseData "choices")) "message")
    "content".

Definition proxy_env : Proxy.env :=
  {| Proxy.base := chat_env; Proxy.uuid_response := "resp-1";
     Proxy.syntax_error := "Unexpected token";
     Proxy.type_error := "Cannot read properties of null" |}.

Definition openai_body (stream : bool) : Chat.body :=
  {| Chat.model := Some "gpt-4o"; Chat.messages := Some hello_request;
     Chat.stream := stream; Chat.rest := [] |}.

Definition openai_stream : string :=
  dq "data: {'choices':[{'delta':{'content':'Hel'}}]}" +:+ nl +:+ nl +:+
  ": keep-alive" +:+ nl +:+
  dq "data: {'choices':[{'delta':{'content':'lo'}}]}" +:+ nl +:+ nl +:+
  "data: [DONE]" +:+ nl +:+ nl.

Definition anthropic_answer : string :=
  dq "{'id':'msg_1','content':[{'type':'text','text':'Hello'}],'stop_reason':'end_turn','usage':{'input_tokens':12,'output_tokens':3}}".

Definition claude_body : Chat.body :=
  {| Chat.model := Some "claude-3-opus-20240229"; Chat.messages := Some hello_request;
     Chat.stream := false; Chat.rest := [] |}.

(** ** Task descriptions *)

(** a one-line text with single blanks: no white space but the blank, and
    never two blanks in a row *)
Fixpoint single_spaced (s : string) : bool :=
  match s with
  | EmptyString => true
  | String c s' =>
      (negb (JS.is_space c) || Ascii.eqb c " ")
      && match s' with
         | String c' _ => negb (JS.is_space c && JS.is_space c')
         | EmptyString => true
         end
      && single_spaced s'
  end.

Definition starts_with_space (s : string) : bool :=
  match s with
  | String c _ => JS.is_space c
  | EmptyString => false
  end.

Definition messy_request : list JSON.value :=
  [JSON.Obj [("role", JSON.Str "user");
             ("content",
              JSON.Arr [JSON.Obj [("type", JSON.Str "text");
                                  ("text", JSON.Str ("  fix   the" +:+ nl +:+ "build  "))]])];
   JSON.Obj [("role", JSON.Str "assistant"); ("content", JSON.Str "ok")]].

(** ** Requests converted for Anthropic and Gemini *)

(** [m.role === r]; [None] is the [TypeError] of a [null] message *)
Definition role_is (r : string) (m : JSON.value) : option bool :=
  match JSON.prop m "role" with
  | Some role => Some (Chat.is_type role r)
  | None => None
  end.

(** [Array.prototype.filter] with a predicate that may throw *)
Fixpoint filter_throwing {A : Type} (p : A -> option bool) (l : list A)
  : option (list A) :=
  match l with
  | [] => Some []
  | x :: l' =>
      match p x with
      | None => None
      | Some keep =>
          match filter_throwing p l' with
          | None => None
          | Some kept => Some (if keep then x :: kept else kept)
          end
      end
  end.

(** [messages.find(m => m.role === 'system')] and
    [messages.filter(m => m.role !== 'system')]; [None] is a [TypeError]: of
    a [messages] that is not an array, or of a [null] message *)
Definition split_system (messages : JSON.value)
  : option (option JSON.value * list JSON.value) :=
  match messages with
  | JSON.Arr items =>
      match Messages.find_throwing (role_is "system") items with
      | None => None
      | Some systemMessage =>
          match filter_throwing (fun m => option_map negb (role_is "system" m)) items with
          | None => None
          | Some otherMessages => Some (systemMessage, otherMessages)
          end
      end
  | _ => None
  end.

(** [...(temperature !== undefined && { temperature })] *)
Definition temperature_member (temperature : JSON.value) : list (string * JSON.value) :=
  match temperature with
  | JSON.Undefined => []
  | _ => [("temperature", temperature)]
  end.

Definition anthropic_turn (m : JSON.value) : JSON.value :=
  JSON.Obj [("role", JSON.Str (if Chat.is_type (JSON.opt_prop m "role") "assistant"
                               then "assistant" else "user"));
            ("content", JSON.opt_prop m "content")].

(** [convertToAnthropic(openaiRequest)]; [None] is a [TypeError] *)
Definition convertToAnthropic (openaiRequest : JSON.value) : option JSON.value :=
  match JSON.prop openaiRequest "model" with
  | None => None
  | Some model =>
      let member := JSON.opt_prop openaiRequest in
      match split_system (member "messages") with
      | None => None
      | Some (systemMessage, otherMessages) =>
          Some (JSON.Obj
                  ([("model", model);
                    ("max_tokens", JSON.or (member "max_tokens") (JSON.Num 4096));
                    ("messages", JSON.Arr (map anthropic_turn otherMessages))]
                   ++ match systemMessage with
                      | Some s => [("system", JSON.opt_prop s "content")]
                      | None => []
                      end
                   ++ temperature_member (member "temperature")
                   ++ [("stream", JSON.or (member "stream") (JSON.Bool false))]))
      end
  end.

Definition gemini_turn (m : JSON.value) : JSON.value :=
  JSON.Obj [("role", JSON.Str (if Chat.is_type (JSON.opt_prop m "role") "assistant"
                               then "model" else "user"));
            ("parts", JSON.Arr [JSON.Obj [("text", JSON.opt_prop m "content")]])].

(** [convertToGemini(openaiRequest)] *)
Definition convertToGemini (openaiRequest : JSON.value) : option JSON.value :=
  match JSON.prop openaiRequest "messages" with
  | None => None
  | Some messages =>
      let member := JSON.opt_prop openaiRequest in
      match split_system messages with
      | None => None
      | Some (systemMessage, otherMessages) =>
          Some (JSON.Obj
                  ([("contents", JSON.Arr (map gemini_turn otherMessages))]
                   ++ match systemMessage with
                      | Some s =>
                          [("systemInstruction",
                            JSON.Obj [("parts",
                                       JSON.Arr [JSON.Obj
                                                   [("text", JSON.opt_prop s "content")]])])]
                      | None => []
                      end
                   ++ [("generationConfig",
                        JSON.Obj
                          ((if JSON.truthy (member "max_tokens")
                            then [("maxOutputTokens", member "max_tokens")] else [])
                           ++ temperature_member (member "temperature")))]))
      end
  end.

(** the text of a turn, in the three request formats *)
Definition turn_content (m : JSON.value) : JSON.value := JSON.opt_prop m "content".

Definition gemini_text (m : JSON.value) : JSON.value :=
  JSON.opt_prop (first_of (JSON.opt_prop m "parts")) "text".

(** the role of a turn is one of the two the upstream accepts *)
Definition role_among (a b : string) (m : JSON.value) : Prop :=
  JSON.opt_prop m "role" = JSON.Str a \/ JSON.opt_prop m "role" = JSON.Str b.

Definition is_system (m : JSON.value) : bool :=
  Chat.is_type (JSON.opt_prop m "role") "system".

Definition tool_request : JSON.value :=
  JSON.Obj [("model", JSON.Str "claude-3-opus-20240229");
            ("messages",
             JSON.Arr [JSON.Obj [("role", JSON.Str "system"); ("content", JSON.Str "be terse")];
                       JSON.Obj [("role", JSON.Str "user"); ("content", JSON.Str "2+2?")];
                       JSON.Obj [("role", JSON.Str "system"); ("content", JSON.Str "be kind")];
                       JSON.Obj [("role", JSON.Str "tool"); ("content", JSON.Str "4")];
                       JSON.Obj [("role", JSON.Str "assistant"); ("content", JSON.Str "4")]]);
            ("temperature", JSON.Num 0)].

(** ** The replay endpoint, [POST /api/tasks/:id/replay] *)

Module ReplayRun.

Record env : Set := {
  replayId : string;
  replayTraceId : string;
  now : string;           (** [created_at] and [started_at] of the replay span *)
  now_final : string;     (** [completed_at] *)
  durationMs : Z;         (** [Date.now() - startTime] at finalisation *)
  syntax_error : string;
  type_error : string
}.

Inductive response : Set :=
| NotFound        (** 404 *)
| CannotReplay    (** 400, no request data *)
| NoProviderKey   (** 400 *)
| Crash           (** an exception leaves the handler *)
| Succeeded (replay_task_id original_task_id : string) (duration_ms : Z)
    (cost : option Q)
    (completion : string)
| Failed (replay_task_id original_task_id error : string). (** 500 *)

(** the request the handler settles on, as the object it is *)
Definition request_json (r : Replay.request) : JSON.value :=
  match r with
  | Replay.Snapshot originalRequest => originalRequest
  | Replay.Rebuilt model messages =>
      JSON.Obj [("model", JSON.Str model);
                ("messages", JSON.Arr (map chat_message messages))]
  end.

(** [req.providerKey || req.headers['x-provider-key']] *)
Definition providerKey (a : auth) (x_provider_key : option string) : option string :=
  match a with
  | ByProvider _ key => JS.or_str (Some key) x_provider_key
  | Legacy _ => x_provider_key
  end.

(** the row of the [INSERT] *)
Definition replay_row (e : env) (a : auth) (originalTask : Task.row)
    (originalRequest : JSON.value) : Task.row :=
  {| Task.id := replayId e;
     Task.api_key_id := apiKeyId a;
     Task.account_id := getAccountId a;
     Task.agent_name := Task.agent_name originalTask;
     Task.description := "[REPLAY] " +:+ Task.description originalTask;
     Task.status := running;
     Task.started_at := Some (now e);
     Task.completed_at := None;
     Task.duration_ms := 0;
     Task.cost := Some 0%Q;
     Task.error := None;
     Task.provider := Task.provider originalTask;
     Task.metadata :=
       JSON.stringify
         (JSON.Obj [("original_task_id", JSON.Str (Task.id originalTask));
                    ("replay", JSON.Bool true)]);
     Task.created_at := Some (now e);
     Task.model := Task.model originalTask;
     Task.prompt := Task.prompt originalTask;
     Task.completion := None;
     Task.tokens_in := Some 0%Z;
     Task.tokens_out := Some 0%Z;
     Task.trace_id := Some (replayTraceId e);
     Task.parent_id := Some (Task.id originalTask);
     Task.span_name := Some "replay";
     Task.prompt_version := None;
     Task.prompt_template_id := None;
     Task.original_request := JSON.stringify originalRequest |}.

(** [detectProviderFromKey(providerKey) || detectProviderFromModel(model)];
    [None] is the [TypeError] of a model that is neither missing nor a
    string *)
Definition detect (key : string) (model : JSON.value) : option provider :=
  match detectProviderFromKey (Some key) with
  | Some p => Some p
  | None =>
      match model with
      | JSON.Str s => Some (detectProviderFromModel (Some s))
      | _ => if JSON.truthy model then None else Some (detectProviderFromModel None)
      end
  end.

(** [fetch], the check of [response.ok] and [await response.json()] *)
Definition fetch_json (e : env) (label : string) (up : Upstream.response)
  : Proxy.attempt JSON.value :=
  match up with
  | Upstream.FetchFails message => Proxy.Throw message
  | Upstream.HttpError status text =>
      Proxy.Throw (label +:+ " error: " +:+ pretty status +:+ " - " +:+ text)
  | Upstream.Ok _ (Some message) => Proxy.Throw message
  | Upstream.Ok chunks None =>
      match JSON.parse (Upstream.body_text chunks) with
      | Some data => Proxy.Done data
      | None => Proxy.Throw (syntax_error e)
      end
  end.

Definition non_null (e : env) {A : Type} (v : option A) : Proxy.attempt A :=
  match v with
  | Some x => Proxy.Done x
  | None => Proxy.Throw (type_error e)
  end.

(** [calculateCost(originalRequest.model, tokensIn, tokensOut)] for the
    model of a stored request, which need not be a string.  An array is
    looked up under its text, and its [includes] looks for an item that is
    the key; any other value is no key and has no [includes], which is a
    [TypeError]. *)
Definition cost_of (e : env) (model : JSON.value) (tokensIn tokensOut : Z)
  : Proxy.attempt (option Q) :=
  match model with
  | JSON.Str s => Proxy.Done (calculateCost s (inject_Z tokensIn) (inject_Z tokensOut))
  | JSON.Arr items =>
      let name := JSON.to_string model in
      let is_key (key : string) (x : JSON.value) : bool :=
        match x with
        | JSON.Str s => String.eqb s key
        | _ => false
        end in
      Proxy.Done
        (match get MODEL_COSTS name with
         | Missing =>
             match find (fun key => existsb (is_key key) items || JS.includes key name)
                        (keys MODEL_COSTS) with
             | Some matchedKey =>
                 price (get MODEL_COSTS matchedKey) (inject_Z tokensIn)
                   (inject_Z tokensOut)
             | None => Some 0%Q
             end
         | costs => price costs (inject_Z tokensIn) (inject_Z tokensOut)
         end)
  | _ => Proxy.Throw (type_error e)
  end.

(** what the [try] block hands to the final [UPDATE] *)
Record served : Set := {
  tokensIn : Z;
  tokensOut : Z;
  completionText : string;
  cost : option Q
}.

(** the three reads of the upstream answer, the cost and the parameters of
    the [UPDATE]; [counters] names the member with the usage and its two
    counters, [content] reads the text *)
Definition read_answer (e : env) (model data : JSON.value)
    (counters : string * string * string) (content : JSON.value -> JSON.value)
  : Proxy.attempt served :=
  let '(usage, input, output) := counters in
  usage ← non_null e (JSON.prop data usage);
  let tokensIn := count_or0 (JSON.opt_prop usage input) in
  let tokensOut := count_or0 (JSON.opt_prop usage output) in
  let completionText := Proxy.text_or_empty (content data) in
  c ← cost_of e model tokensIn tokensOut;
  Proxy.Done {| tokensIn := tokensIn; tokensOut := tokensOut;
                completionText := completionText; cost := c |}.

(** the [try] block up to the [UPDATE] *)
Definition attempt_replay (e : env) (p : provider) (originalRequest : JSON.value)
    (up : Upstream.response) : Proxy.attempt served :=
  let model := JSON.opt_prop originalRequest "model" in
  match p with
  | anthropic =>
      _ ← non_null e (convertToAnthropic originalRequest);
      data ← fetch_json e "Anthropic" up;
      read_answer e model data ("usage", "input_tokens", "output_tokens")
        (fun data => JSON.opt_prop (first_of (JSON.opt_prop data "content")) "text")
  | google =>
      _ ← non_null e (convertToGemini originalRequest);
      data ← fetch_json e "Gemini" up;
      read_answer e model data
        ("usageMetadata", "promptTokenCount", "candidatesTokenCount")
        (fun data =>
           JSON.opt_prop
             (first_of
                (JSON.opt_prop
                   (JSON.opt_prop (first_of (JSON.opt_prop data "candidates")) "content")
                   "parts"))
             "text")
  | _ =>
      data ← fetch_json e (provider_name p) up;
      read_answer e model data ("usage", "prompt_tokens", "completion_tokens")
        (fun data =>
           JSON.opt_prop
             (JSON.opt_prop (first_of (JSON.opt_prop data "choices")) "message")
             "content")
  end.

Definition update_by_id (e : env) (t : list Task.row) (set : Task.row -> Task.row)
  : list Task.row :=
  fst (sql_update (Chat.by_id (replayId e)) set t).

(** the handler, after the middleware; [up] is the answer of the upstream *)
Definition handler (t : list Task.row) (a : auth) (id : string)
    (x_provider_key : option string) (e : env) (up : Upstream.response)
  : response * list Task.row :=
  match sql_get (fun r => String.eqb (Task.id r) id && owned_by a r) t with
  | None => (NotFound, t)
  | Some originalTask =>
      match Replay.build_replay_request originalTask with
      | None => (CannotReplay, t)
      | Some request =>
          let originalRequest := request_json request in
          match JS.or_str (providerKey a x_provider_key) None with
          | None => (NoProviderKey, t) (* [!providerKey] *)
          | Some key =>
              match insert_task t (replay_row e a originalTask originalRequest) with
              | None => (Crash, t)
              | Some t1 =>
                  match detect key (JSON.opt_prop originalRequest "model") with
                  | None => (Crash, t1)
                  | Some p =>
                      match attempt_replay e p originalRequest up with
                      | Proxy.Done s =>
                          (Succeeded (replayId e) (Task.id originalTask) (durationMs e)
                             (cost s) (completionText s),
                           update_by_id e t1
                             (Chat.set_success (durationMs e) (cost s) (completionText s)
                                (tokensIn s) (tokensOut s) (now_final e)))
                      | Proxy.Throw message =>
                          (Failed (replayId e) (Task.id originalTask) message,
                           update_by_id e t1
                             (Chat.set_failed (durationMs e) message (now_final e)))
                      end
                  end
              end
          end
      end
  end.

End ReplayRun.

(** what a call of the replay endpoint leaves in the span table, by its
    answer *)
Definition replay_ledger (e : ReplayRun.env) (a : auth) (id : string)
    (before after : list Task.row) (resp : ReplayRun.response) : Prop :=
  let replayed (st : task_status) (rid oid : string) (row : Task.row) : Prop :=
    exists orig,
      In orig before /\ Task.id orig = id /\ owned_by a orig = true
      /\ oid = id /\ rid = ReplayRun.replayId e
      /\ after = before ++ [row]
      /\ Task.id row = rid /\ Task.status row = st
      /\ Task.parent_id row = Some id /\ Task.span_name row = Some "replay"
      /\ owned_by a row = true
      /\ Task.model row = Task.model orig /\ Task.prompt row = Task.prompt orig
      /\ Task.completed_at row = Some (ReplayRun.now_final e) in
  match resp with
  | ReplayRun.NotFound | ReplayRun.CannotReplay | ReplayRun.NoProviderKey =>
      after = before
  | ReplayRun.Crash =>
      after = before \/ exists row, after = before ++ [row] /\ Task.status row = running
  | ReplayRun.Succeeded rid oid dur c completion =>
      exists row, replayed success rid oid row
        /\ Task.cost row = c /\ Task.completion row = Some completion
        /\ Task.duration_ms row = dur /\ Task.error row = None
  | ReplayRun.Failed rid oid message =>
      exists row, replayed failed rid oid row
        /\ Task.error row = Some message /\ Task.completion row = None
  end.

Definition replay_env : ReplayRun.env :=
  {| ReplayRun.replayId := "replay-1"; ReplayRun.replayTraceId := "trace-7";
     ReplayRun.now := "t5"; ReplayRun.now_final := "t6"; ReplayRun.durationMs := 30;
     ReplayRun.syntax_error := "Unexpected token";
     ReplayRun.type_error := "Cannot read properties of null" |}.

Definition openai_answer : string :=
  dq "{'choices':[{'message':{'role':'assistant','content':'hello'}}],'usage':{'prompt_tokens':2,'completion_tokens':1}}".

Definition openai_request : JSON.value :=
  JSON.Obj [("model", JSON.Str "gpt-4o"); ("messages", JSON.Arr hello_request)].

(** ** JSON texts read back *)

(** no key twice *)
Fixpoint distinct (keys : list string) : bool :=
  match keys with
  | [] => true
  | k :: rest => negb (existsb (String.eqb k) rest) && distinct rest
  end.

(** the keys are in the order of own keys: no key is listed before one
    that precedes it *)
Fixpoint ordered (keys : list string) : bool :=
  match keys with
  | [] => true
  | k :: rest => forallb (fun k' => negb (JSON.listed_before k' k)) rest && ordered rest
  end.

Definition number_eqb (x y : Number.t) : bool :=
  match x, y with
  | Number.Integer a, Number.Integer b => (a =? b)%Z
  | Number.Fraction s p, Number.Fraction s' p' => (s =? s')%Z && (p =? p')%positive
  | Number.Infinite a, Number.Infinite b => Bool.eqb a b
  | _, _ => false
  end.

(** [x] is a finite double, written as the engine writes it: an integer up
    to [2 ^ 53], or the number that its own decimal denotes *)
Definition finite_double (x : Number.t) : bool :=
  match x with
  | Number.Integer n =>
      (Z.abs n <=? Number.safe)%Z
      || number_eqb (Number.of_decimal (n <? 0)%Z (Z.abs n) 0) x
  | Number.Fraction s p =>
      number_eqb (Number.of_decimal (s <? 0)%Z (Z.abs s) (Z.neg p)) x
  | Number.Infinite _ => false
  end.

(** a value of a JavaScript program that [JSON.stringify] writes in full:
    there is no [undefined], infinity or [NaN] in it, every number is a
    double, and the keys of every object are distinct and in the order of
    own keys *)
Fixpoint storable (v : JSON.value) : bool :=
  match v with
  | JSON.Undefined | JSON.Inf _ | JSON.NaN => false
  | JSON.Num n => finite_double (Number.Integer n)
  | JSON.Frac s p => finite_double (Number.Fraction s p)
  | JSON.Arr items => forallb storable items
  | JSON.Obj members =>
      forallb (fun kv => storable (snd kv)) members
      && distinct (map fst members) && ordered (map fst members)
  | _ => true
  end.

(** the text of a value inside an array *)
Definition render (v : JSON.value) : string := default "null" (JSON.stringify v).

(** the text of a member of an object *)
Definition member_text (kv : string * JSON.value) : string :=
  JSON.quoted (fst kv) +:+ ":" +:+ render (snd kv).

(** what may follow a value in a text *)
Definition closes (rest : string) : Prop :=
  match rest with
  | EmptyString => True
  | String c _ => c = ","%char \/ c = "]"%char \/ c = "}"%char
  end.

(** the first character of a rendered value *)
Definition opens (c : ascii) : Prop :=
  In c ["n"; "t"; "f"; "034"; "["; "{"; "-"; "0"; "1"; "2"; "3"; "4"; "5"; "6"; "7"; "8";
        "9"]%char.

(** the parser reads the text of [v] back, whatever follows it, with any
    fuel above the length of the text *)
Definition parses (v : JSON.value) : Prop :=
  storable v = true ->
  forall fuel rest,
    (String.length (render v) < fuel)%nat -> closes rest ->
    JSON.parse_value fuel (render v +:+ rest) = Some (v, rest).

(** the request the chat proxy stores with the span *)
Definition stored_request (m : string) (msgs : list JSON.value) (b : Chat.body)
  : JSON.value :=
  JSON.Obj (("model", JSON.Str m) :: ("messages", JSON.Arr msgs) :: Chat.rest b).

(** a chat request with a sampling temperature *)
Definition tuned_body : Chat.body :=
  {| Chat.model := Some "gpt-4o"; Chat.messages := Some hello_request;
     Chat.stream := false;
     Chat.rest := [("temperature", JSON.Frac 7 1); ("max_tokens", JSON.Num 100)] |}.

Definition tuned_request : JSON.value :=
  JSON.Obj [("model", JSON.Str "gpt-4o"); ("messages", JSON.Arr hello_request);
            ("temperature", JSON.Frac 7 1); ("max_tokens", JSON.Num 100)].

(** a messages request with a sampling temperature *)
Definition tuned_messages_body : Messages.body :=
  {| Messages.model := Some "claude-3-opus-20240229";
     Messages.messages := Some hello_request;
     Messages.system := JSON.Undefined;
     Messages.stream := true;
     Messages.json :=
       JSON.Obj [("model", JSON.Str "claude-3-opus-20240229");
                 ("max_tokens", JSON.Num 64);
                 ("temperature", JSON.Frac 7 1);
                 ("stream", JSON.Bool true);
                 ("messages", JSON.Arr hello_request)] |}.

(** an answer of Gemini, with the average of the log probabilities *)
Definition gemini_answer : string :=
  dq "{'candidates':[{'content':{'parts':[{'text':'hello'}],'role':'model'},'finishReason':'STOP','avgLogprobs':-0.25}],'usageMetadata':{'promptTokenCount':2,'candidatesTokenCount':1,'totalTokenCount':3}}".

Definition gemini_request : JSON.value :=
  JSON.Obj [("model", JSON.Str "gemini-1.5-pro"); ("messages", JSON.Arr hello_request);
            ("temperature", JSON.Frac 7 1)].

(** a finished span of the first key that kept its model and its prompt,
    but not the request *)
Definition prompted_span : Task.row :=
  {| Task.id := "span-1"; Task.api_key_id := Some "key-1"; Task.account_id := None;
     Task.agent_name := "bot"; Task.description := "job"; Task.status := success;
     Task.started_at := Some "t0"; Task.completed_at := Some "t1";
     Task.duration_ms := 10; Task.cost := Some 0%Q; Task.error := None;
     Task.provider := Some "openai"; Task.metadata := Some "{}";
     Task.created_at := Some "t0"; Task.model := Some "gpt-4o";
     Task.prompt := Some "user: Say hello";
     Task.completion := Some "hello"; Task.tokens_in := Some 2%Z;
     Task.tokens_out := Some 1%Z; Task.trace_id := Some "trace-1";
     Task.parent_id := None; Task.span_name := None; Task.prompt_version := None;
     Task.prompt_template_id := None; Task.original_request := None |}.

(** a finished span of the first key that kept the request *)
Definition snapshot_span : Task.row :=
  {| Task.id := "span-1"; Task.api_key_id := Some "key-1"; Task.account_id := None;
     Task.agent_name := "bot"; Task.description := "job"; Task.status := success;
     Task.started_at := Some "t0"; Task.completed_at := Some "t1";
     Task.duration_ms := 10; Task.cost := Some 0%Q; Task.error := None;
     Task.provider := Some "openai"; Task.metadata := Some "{}";
     Task.created_at := Some "t0"; Task.model := Some "gpt-4o";
     Task.prompt := Some "user: Say hello";
     Task.completion := Some "hello"; Task.tokens_in := Some 2%Z;
     Task.tokens_out := Some 1%Z; Task.trace_id := Some "trace-1";
     Task.parent_id := None; Task.span_name := None; Task.prompt_version := None;
     Task.prompt_template_id := None;
     Task.original_request :=
       Some (dq "{'model':'gpt-4o','messages':[{'role':'user','content':'Say hello'}],'temperature':0.7,'max_tokens':100}") |}.

(** ** Span ledger: logging a finished task in one call *)

Module Track.

(** the members of the body of [POST /api/track]; [None] is a member the
    request leaves out *)
Record body : Set := {
  agent : option string;
  task : option string;
  status : option string;
  durationMs : option Z;
  cost : option Q;
  error : option string;
  provider : option string;
  metadata : option JSON.value;
  model : option string;
  prompt : option string;
  completion : option string;
  tokens_in : option Z;
  tokens_out : option Z;
  trace_id : option string;
  parent_id : option string;
  span_name : option string;
  prompt_version : option string;
  prompt_template_id : option string
}.

Inductive response : Set :=
| MissingFields                      (* 400 *)
| InvalidStatus                      (* 400 *)
| Logged (taskId traceId : string)   (* 200 *)
| InsertFailed.                      (* the [INSERT] throws *)

(** [['pending', 'running', 'success', 'failed', 'slow'].includes(status)] *)
Definition known_status (s : string) : option task_status :=
  if String.eqb s "pending" then Some pending
  else if String.eqb s "running" then Some running
  else if String.eqb s "success" then Some success
  else if String.eqb s "failed" then Some failed
  else if String.eqb s "slow" then Some slow
  else None.

(** [trace_id || crypto.randomUUID()] *)
Definition generatedTraceId (b : body) (uuid : string) : string :=
  default uuid (JS.or_str (trace_id b) (Some uuid)).

(** the row of the [INSERT]; the columns it does not name take the defaults
    of the schema *)
Definition tracked_row (a : auth) (b : body) (st : task_status) (dur : Z)
    (id uuid now : string) : Task.row :=
  {| Task.id := id;
     Task.api_key_id := apiKeyId a;
     Task.account_id := getAccountId a;
     Task.agent_name := default EmptyString (agent b);
     Task.description := default EmptyString (task b);
     Task.status := st;
     Task.started_at := None;
     Task.completed_at := None;
     Task.duration_ms := dur;
     Task.cost := Some (or0 (cost b));
     Task.error := JS.or_str (error b) None;
     Task.provider := JS.or_str (provider b) (Some "custom");
     Task.metadata :=
       JSON.stringify (JSON.or (default JSON.Undefined (metadata b)) (JSON.Obj []));
     Task.created_at := Some now;
     Task.model := JS.or_str (model b) None;
     Task.prompt := JS.or_str (prompt b) None;
     Task.completion := JS.or_str (completion b) None;
     Task.tokens_in := Some (Complete.or0Z (tokens_in b));
     Task.tokens_out := Some (Complete.or0Z (tokens_out b));
     Task.trace_id := Some (generatedTraceId b uuid);
     Task.parent_id := JS.or_str (parent_id b) None;
     Task.span_name := JS.or_str (span_name b) None;
     Task.prompt_version := JS.or_str (prompt_version b) None;
     Task.prompt_template_id := JS.or_str (prompt_template_id b) None;
     Task.original_request := None |}.

(** the handler of [POST /api/track], after the middleware; [id] and [uuid]
    are what the two [crypto.randomUUID()] return *)
Definition handler (t : list Task.row) (a : auth) (b : body) (id uuid now : string)
  : response * list Task.row :=
  if negb (JS.truthy_str (agent b)) || negb (JS.truthy_str (task b))
     || negb (JS.truthy_str (status b))
  then (MissingFields, t)
  else match durationMs b with
       | None => (MissingFields, t)
       | Some dur =>
           match known_status (default EmptyString (status b)) with
           | None => (InvalidStatus, t)
           | Some st =>
               match insert_task t (tracked_row a b st dur id uuid now) with
               | Some t' => (Logged id (generatedTraceId b uuid), t')
               | None => (InsertFailed, t)
               end
           end
       end.

End Track.

(** a span logged as pending, with its model and prompt *)
Definition queued_body : Track.body :=
  {| Track.agent := Some "indexer"; Track.task := Some "crawl docs";
     Track.status := Some "pending"; Track.durationMs := Some 0%Z;
     Track.cost := None; Track.error := None; Track.provider := Some "openai";
     Track.metadata := None; Track.model := Some "gpt-4o";
     Track.prompt := Some "user: Say hello"; Track.completion := None;
     Track.tokens_in := None; Track.tokens_out := None; Track.trace_id := None;
     Track.parent_id := None; Track.span_name := None;
     Track.prompt_version := None; Track.prompt_template_id := None |}.

(** * Properties *)

(** ** Strings *)

Lemma prefix_toLowerCase (p s : string) :
  String.prefix p s = true ->
  String.prefix (JS.toLowerCase p) (JS.toLowerCase s) = true.
Proof.
  revert s. induction p as [|c p IH]; intros [|d s]; simpl; try easy.
  destruct (ascii_dec c d) as [->|]; [|easy].
  intros H. destruct (ascii_dec (JS.lower_ascii d) (JS.lower_ascii d)); [|easy].
  now apply IH.
Qed.

Lemma lower_ascii_slash (c : ascii) :
  Ascii.eqb (JS.lower_ascii c) "/" = Ascii.eqb c "/".
Proof.
  destruct c as [[] [] [] [] [] [] [] []]; reflexivity.
Qed.

Lemma prefix_slash (c : ascii) (s : string) :
  String.prefix "/" (String c s) = Ascii.eqb c "/".
Proof.
  cbn [String.prefix]. destruct (ascii_dec "/" c) as [<-|n].
  - now destruct s.
  - symmetry. apply Ascii.eqb_neq. congruence.
Qed.

Lemma includes_slash_toLowerCase (s : string) :
  JS.includes (JS.toLowerCase s) "/" = JS.includes s "/".
Proof.
  induction s as [|c s IH]; [reflexivity|].
  cbn [JS.toLowerCase JS.includes]. rewrite IH, !prefix_slash.
  now rewrite lower_ascii_slash.
Qed.

(** ** Provider registry *)

Lemma detect_unfold (model : string) :
  model <> EmptyString ->
  detectProviderFromModel (Some model) =
    let m := JS.toLowerCase model in
    if openai_family m then openai
    else if JS.startsWith m "claude-" then anthropic
    else if JS.startsWith m "gemini-" then google
    else if JS.startsWith m "grok-" then xai
    else if JS.includes m "/" then openrouter
    else openai.
Proof.
  intros H. unfold detectProviderFromModel, openai_family. simpl.
  destruct model; [contradiction|reflexivity].
Qed.

Lemma startsWith_nonempty (s p : string) :
  p <> EmptyString -> JS.startsWith s p = true -> s <> EmptyString.
Proof.
  intros Hp H ->. destruct p; [contradiction|discriminate].
Qed.

Lemma prefix_comparable (p q s : string) :
  String.prefix p s = true -> String.prefix q s = true ->
  String.prefix p q = true \/ String.prefix q p = true.
Proof.
  revert q s. induction p as [|a p IH]; intros q s.
  { intros _ _. left. now destruct q. }
  destruct q as [|b q].
  { intros _ _. right. reflexivity. }
  destruct s as [|c s]; [discriminate|].
  cbn [String.prefix].
  destruct (ascii_dec a c) as [->|]; [|discriminate].
  destruct (ascii_dec b c) as [->|]; [|discriminate].
  destruct (ascii_dec c c); [|congruence].
  apply IH.
Qed.

(** two family prefixes that are not prefixes of one another never match
    the same name *)
Lemma startsWith_exclusive (s p q : string) :
  String.prefix p q = false -> String.prefix q p = false ->
  JS.startsWith s p = true -> JS.startsWith s q = false.
Proof.
  intros Hpq Hqp Hp. destruct (JS.startsWith s q) eqn:Hq; [|reflexivity].
  destruct (prefix_comparable p q s Hp Hq); congruence.
Qed.

(** C3, as amended.  [detectProviderFromModel] is total: it returns one of
    the five providers for every model, a missing or empty one included.
    The families are tried in the order of the source, on the lower-cased
    name: a name that starts with "gpt-" or "o1", or contains "openai", is
    OpenAI; failing that, a name starting with "claude-" is Anthropic, with
    "gemini-" Google, with "grok-" xAI; failing all of these, a name
    containing '/' goes to OpenRouter; and every other name gets the
    default, OpenAI. *)
Theorem detectProviderFromModel_families (model : string) :
  (exists p, detectProviderFromModel (Some model) = p)
  /\ detectProviderFromModel None = openai
  /\ (let m := JS.toLowerCase model in
      (JS.startsWith m "gpt-" = true \/ JS.startsWith m "o1" = true
       \/ JS.includes m "openai" = true ->
       detectProviderFromModel (Some model) = openai)
      /\ (openai_family m = false ->
          (JS.startsWith m "claude-" = true ->
           detectProviderFromModel (Some model) = anthropic)
          /\ (JS.startsWith m "gemini-" = true ->
              detectProviderFromModel (Some model) = google)
          /\ (JS.startsWith m "grok-" = true ->
              detectProviderFromModel (Some model) = xai))
      /\ (JS.includes m "openai" = false ->
          (JS.startsWith m "claude-" = true ->
           detectProviderFromModel (Some model) = anthropic)
          /\ (JS.startsWith m "gemini-" = true ->
              detectProviderFromModel (Some model) = google)
          /\ (JS.startsWith m "grok-" = true ->
              detectProviderFromModel (Some model) = xai))
      /\ (named_family m = false ->
          (JS.includes m "/" = true ->
           detectProviderFromModel (Some model) = openrouter)
          /\ (JS.includes m "/" = false ->
              detectProviderFromModel (Some model) = openai))).
Proof.
  split; [eauto|]. split; [reflexivity|]. cbv zeta.
  assert (Hlow : forall p, p <> EmptyString ->
                 JS.startsWith (JS.toLowerCase model) p = true -> model <> EmptyString).
  { intros p Hp H ->. destruct p; [contradiction|discriminate]. }
  assert (Hs : forall a p, String a p <> EmptyString) by discriminate.
  assert (Hfam : openai_family (JS.toLowerCase model) = false ->
            (JS.startsWith (JS.toLowerCase model) "claude-" = true ->
             detectProviderFromModel (Some model) = anthropic)
            /\ (JS.startsWith (JS.toLowerCase model) "gemini-" = true ->
                detectProviderFromModel (Some model) = google)
            /\ (JS.startsWith (JS.toLowerCase model) "grok-" = true ->
                detectProviderFromModel (Some model) = xai)).
  { intros Ho. repeat split; intros H;
      rewrite (detect_unfold _ (Hlow _ (Hs _ _) H)); cbv zeta; rewrite Ho.
    - now rewrite H.
    - rewrite (startsWith_exclusive _ "gemini-" "claude-") by easy.
      now rewrite H.
    - rewrite (startsWith_exclusive _ "grok-" "claude-") by easy.
      rewrite (startsWith_exclusive _ "grok-" "gemini-") by easy.
      now rewrite H. }
  split; [|split; [exact Hfam|split]].
  - intros H.
    assert (Ho : openai_family (JS.toLowerCase model) = true).
    { unfold openai_family. destruct H as [H|[H|H]]; rewrite H;
        now rewrite ?orb_true_r. }
    assert (model <> EmptyString) by (intros ->; discriminate).
    rewrite detect_unfold by assumption. cbv zeta. now rewrite Ho.
  - intros Hno.
    assert (Hgo : forall p, JS.startsWith (JS.toLowerCase model) p = true ->
                  String.prefix p "gpt-" = false -> String.prefix "gpt-" p = false ->
                  String.prefix p "o1" = false -> String.prefix "o1" p = false ->
                  openai_family (JS.toLowerCase model) = false).
    { intros p H G1 G2 O1 O2. unfold openai_family.
      rewrite (startsWith_exclusive _ p "gpt-" G1 G2 H).
      rewrite (startsWith_exclusive _ p "o1" O1 O2 H).
      now rewrite Hno. }
    repeat split; intros H; apply Hfam; try exact H; now apply (Hgo _ H).
  - intros Hno. unfold named_family in Hno.
    apply orb_false_elim in Hno as [Hno Hk]. apply orb_false_elim in Hno as [Hno Hg].
    apply orb_false_elim in Hno as [Ho Hc].
    split; intros H.
    + assert (model <> EmptyString) by (intros ->; discriminate).
      rewrite detect_unfold by assumption. cbv zeta.
      now rewrite Ho, Hc, Hg, Hk, H.
    + destruct model; [reflexivity|].
      rewrite detect_unfold by easy. cbv zeta.
      now rewrite Ho, Hc, Hg, Hk, H.
Qed.

Lemma detectProviderFromModel_families_witness :
  detectProviderFromModel (Some "GPT-4o") = openai
  /\ detectProviderFromModel (Some "vendor-OpenAI-x") = openai
  /\ detectProviderFromModel (Some "Claude-3-opus") = anthropic
  /\ detectProviderFromModel (Some "Gemini-1.5-pro") = google
  /\ detectProviderFromModel (Some "meta/Llama-3") = openrouter
  /\ detectProviderFromModel (Some "Mistral-large") = openai.
Proof.
  pose proof (detectProviderFromModel_families "GPT-4o") as (_ & _ & H1 & _).
  pose proof (detectProviderFromModel_families "vendor-OpenAI-x") as (_ & _ & H2 & _).
  pose proof (detectProviderFromModel_families "Claude-3-opus")
    as (_ & _ & _ & _ & H3 & _).
  pose proof (detectProviderFromModel_families "Gemini-1.5-pro")
    as (_ & _ & _ & H4 & _).
  pose proof (detectProviderFromModel_families "meta/Llama-3")
    as (_ & _ & _ & _ & _ & H5).
  pose proof (detectProviderFromModel_families "Mistral-large")
    as (_ & _ & _ & _ & _ & H6).
  cbv zeta in *.
  split; [apply H1; left; reflexivity|].
  split; [apply H2; right; right; reflexivity|].
  split; [apply H3; reflexivity|].
  split; [apply H4; reflexivity|].
  split; [apply H5; reflexivity|apply H6; reflexivity].
Defined.

(** C3, as stated, fails: a name can start with "claude-" and still be
    OpenAI's, and a name containing '/' can belong to a named family. *)
Lemma detectProviderFromModel_slash_counterexample :
  (JS.includes "claude-3/opus" "/" = true
   /\ detectProviderFromModel (Some "claude-3/opus") <> openrouter)
  /\ (JS.startsWith "claude-openai" "claude-" = true
      /\ detectProviderFromModel (Some "claude-openai") <> anthropic).
Proof. repeat split; discriminate. Qed.

(** ** Cost accountant *)

Section Tables.

Variable t : table.







End Tables.

















(** ** Span ledger: completion *)

Lemma sql_update_untouched {row : Type} (where_ : row -> bool) (set : row -> row)
    (t : list row) :
  Forall (fun r => where_ r = false) t -> sql_update where_ set t = (t, 0%nat).
Proof.
  unfold sql_update. induction 1 as [|r t Hr _ IH]; [reflexivity|].
  injection IH as IH1 IH2. simpl. rewrite Hr. simpl. now rewrite IH1, IH2.
Qed.

Lemma not_running_no_target (a : auth) (id : string) (t : list Task.row) :
  not_running id t -> Forall (fun r => Complete.is_target a id r = false) t.
Proof.
  apply List.Forall_impl. intros r H. unfold Complete.is_target.
  destruct (String.eqb (Task.id r) id) eqn:E; [|reflexivity].
  apply String.eqb_eq in E. specialize (H E).
  destruct (Task.status r); try contradiction; now rewrite andb_false_r.
Qed.

Lemma terminal_status_not_running (s : string) (st : task_status) :
  Complete.terminal_status s = Some st -> st <> running.
Proof.
  unfold Complete.terminal_status.
  repeat (destruct (String.eqb s _)); intros [= <-]; discriminate.
Qed.

(** a completion never brings a span (back) to the running state *)
Lemma handler_is_running (t : list Task.row) (a : auth) (id : string)
    (b : Complete.body) (now : string) (id' : string) :
  is_running id' (snd (Complete.handler t a id b now)) = true ->
  is_running id' t = true.
Proof.
  unfold Complete.handler.
  destruct (negb (JS.truthy_str (Complete.status b))); [easy|].
  destruct (Complete.durationMs b) as [dur|]; [|easy].
  destruct (Complete.terminal_status _) as [st|] eqn:Est; [|easy].
  apply terminal_status_not_running in Est.
  destruct (sql_update _ _ t) as [t' changes] eqn:E.
  assert (Ht' : t' = map (fun r => if Complete.is_target a id r
                                  then Complete.finalize st b dur now r else r) t)
    by (unfold sql_update in E; congruence).
  assert (snd (if (changes =? 0)%nat
               then (Complete.NotFoundOrNotRunning, t')
               else (Complete.Completed id st, t')) = t') as -> by now destruct (_ =? _)%nat.
  subst t'. clear E changes. unfold is_running, status_of.
  induction t as [|r t IH]; [easy|]. simpl.
  destruct (Complete.is_target a id r) eqn:Et.
  - simpl. destruct (String.eqb (Task.id r) id') eqn:Eid; [|exact IH].
    destruct st; try contradiction; discriminate.
  - destruct (String.eqb (Task.id r) id'); [easy|exact IH].
Qed.

Lemma transitions_stopped (id : string) (calls : list completion_call)
    (t : list Task.row) :
  is_running id t = false -> transitions id t calls = 0%nat.
Proof.
  revert t. induction calls as [|c calls IH]; intros t H; [reflexivity|].
  simpl. rewrite H. simpl. apply IH.
  destruct (is_running id (snd _)) eqn:E; [|reflexivity].
  apply handler_is_running in E. congruence.
Qed.

(** C1.  When the span is not running, a completion call leaves the whole
    table of spans, and so every stored field of that span, as it was; it
    never answers with success, and a request that passes the input checks
    is answered 404 "not found or not in running state".  Consequently,
    however many completion calls are served in a row, a span leaves the
    running state at most once. *)
Theorem complete_not_running_is_noop (t : list Task.row) (a : auth) (id : string)
    (b : Complete.body) (now : string) :
  (not_running id t ->
   snd (Complete.handler t a id b now) = t
   /\ Complete.code (fst (Complete.handler t a id b now)) <> 200%Z
   /\ (well_formed b = true ->
       fst (Complete.handler t a id b now) = Complete.NotFoundOrNotRunning))
  /\ forall calls, (transitions id t calls <= 1)%nat.
Proof.
  split.
  - intros H. apply (not_running_no_target a) in H.
    assert (Hwf : forall s, Complete.terminal_status s = None ->
                  bool_decide (is_Some (Complete.terminal_status s)) = false).
    { intros s ->. reflexivity. }
    unfold Complete.handler, well_formed.
    destruct (Complete.status b) as [s|];
      cbn [JS.truthy_str default from_option Datatypes.id negb];
      [|now destruct (Complete.durationMs b)].
    destruct (String.eqb s EmptyString) eqn:Es; cbn [negb].
    { apply String.eqb_eq in Es as ->. rewrite Hwf by reflexivity.
      now destruct (Complete.durationMs b). }
    destruct (Complete.durationMs b) as [dur|]; [|easy].
    destruct (Complete.terminal_status s) as [st|] eqn:Est.
    + rewrite (sql_update_untouched _ _ _ H). cbn. easy.
    + repeat split; easy.
  - intros calls. revert t. induction calls as [|c calls IH]; intros t; [simpl; lia|].
    simpl. destruct (is_running id t) eqn:E; simpl.
    + destruct (is_running id (snd _)) eqn:E'; simpl.
      * apply IH.
      * rewrite (transitions_stopped _ _ _ E'). lia.
    + apply IH.
Qed.

Lemma complete_not_running_is_noop_witness :
  snd (Complete.handler [finished_span] key_1 "span-1" late_close "t2") = [finished_span]
  /\ fst (Complete.handler [finished_span] key_1 "span-1" late_close "t2")
     = Complete.NotFoundOrNotRunning.
Proof.
  destruct (complete_not_running_is_noop [finished_span] key_1 "span-1" late_close "t2")
    as [H _].
  destruct H as (H1 & _ & H3).
  - constructor; [|constructor]. intros _. discriminate.
  - split; [exact H1|apply H3; reflexivity].
Defined.

(** ** Accounts *)

Section Accounts.

Implicit Types (accts : list Account.row) (r : Account.row).

Lemma touched_ids id now accts :
  map Account.id (touched id now accts) = map Account.id accts.
Proof.
  unfold touched. rewrite map_map. apply map_ext. intros r.
  now destruct (String.eqb (Account.id r) id).
Qed.

Lemma touched_last_seen id now accts :
  Forall (fun r => Account.id r = id -> Account.last_seen_at r = Some now)
         (touched id now accts).
Proof.
  unfold touched. apply List.Forall_forall. intros r' Hin.
  apply in_map_iff in Hin as (r & <- & _).
  destruct (String.eqb (Account.id r) id) eqn:E; [reflexivity|].
  intros H. apply String.eqb_neq in E. contradiction.
Qed.

Lemma find_touched id now h accts :
  find (fun r => String.eqb (Account.key_hash r) h) (touched id now accts)
  = option_map (fun r => if String.eqb (Account.id r) id then touch_account now r else r)
      (find (fun r => String.eqb (Account.key_hash r) h) accts).
Proof.
  induction accts as [|r accts IH]; [reflexivity|]. simpl.
  assert (Account.key_hash (if String.eqb (Account.id r) id
                            then touch_account now r else r) = Account.key_hash r) as ->
    by now destruct (String.eqb (Account.id r) id).
  destruct (String.eqb (Account.key_hash r) h); [reflexivity|exact IH].
Qed.

Lemma find_app_None {A : Type} (f : A -> bool) (l : list A) (x : A) :
  find f l = None -> f x = true -> find f (l ++ [x]) = Some x.
Proof.
  induction l as [|y l IH]; simpl; intros H Hx; [now rewrite Hx|].
  destruct (f y); [discriminate|]. now apply IH.
Qed.

Lemma getOrCreateAccount_found accts h p u n1 n2 r :
  find (fun r => String.eqb (Account.key_hash r) h) accts = Some r ->
  getOrCreateAccount accts h p u n1 n2
  = Some (Account.of_row r, touched (Account.id r) n2 accts).
Proof.
  intros H. unfold getOrCreateAccount, sql_get. now rewrite H.
Qed.

Lemma getOrCreateAccount_new accts h p u n1 n2 :
  find (fun r => String.eqb (Account.key_hash r) h) accts = None ->
  existsb (fun r => String.eqb (Account.id r) u) accts = false ->
  exists a,
    getOrCreateAccount accts h p u n1 n2
    = Some (a, touched u n2
                 (accts ++ [{| Account.id := u; Account.key_hash := h;
                               Account.provider := p;
                               Account.created_at := Some n1;
                               Account.last_seen_at := None |}]))
    /\ Account.o_id a = u /\ Account.o_created a = true.
Proof.
  intros H Hu. unfold getOrCreateAccount, sql_get, insert_account.
  rewrite H. cbn [Account.id]. rewrite Hu. eexists. split; [reflexivity|]. easy.
Qed.

End Accounts.

(** C8.  Whenever a call of [getOrCreateAccount] for a key hash returns, a
    second call for the same hash returns too, with the same account
    identifier; the second call adds no row (the table keeps its
    identifiers, in order); a row with the returned identifier and the hash
    is in the table; and after each call every row of that identifier
    carries the call's own time as [last_seen_at].  The first call returns
    whenever the hash is known or the fresh identifier is unused. *)
Theorem getOrCreateAccount_idempotent (accts : list Account.row)
    (keyHash p1 p2 u1 u2 n1 n2 n3 n4 : string) :
  (find (fun r => String.eqb (Account.key_hash r) keyHash) accts <> None
   \/ existsb (fun r => String.eqb (Account.id r) u1) accts = false ->
   is_Some (getOrCreateAccount accts keyHash p1 u1 n1 n2))
  /\ forall a1 accts1,
       getOrCreateAccount accts keyHash p1 u1 n1 n2 = Some (a1, accts1) ->
       exists a2 accts2,
         getOrCreateAccount accts1 keyHash p2 u2 n3 n4 = Some (a2, accts2)
         /\ Account.o_id a2 = Account.o_id a1
         /\ Account.o_created a2 = false
         /\ map Account.id accts2 = map Account.id accts1
         /\ (exists r, In r accts1 /\ Account.id r = Account.o_id a1
                       /\ Account.key_hash r = keyHash)
         /\ Forall (fun r => Account.id r = Account.o_id a1 ->
                             Account.last_seen_at r = Some n2) accts1
         /\ Forall (fun r => Account.id r = Account.o_id a1 ->
                             Account.last_seen_at r = Some n4) accts2.
Proof.
  split.
  - intros [H|H].
    + destruct (find _ accts) as [r|] eqn:E; [|contradiction].
      rewrite (getOrCreateAccount_found _ _ _ _ _ _ _ E). eauto.
    + destruct (find (fun r => String.eqb (Account.key_hash r) keyHash) accts)
        as [r|] eqn:E.
      * rewrite (getOrCreateAccount_found _ _ _ _ _ _ _ E). eauto.
      * destruct (getOrCreateAccount_new _ _ p1 _ n1 n2 E H) as (a & -> & _). eauto.
  - intros a1 accts1 H1.
    assert (exists r0 base,
              accts1 = touched (Account.id r0) n2 base
              /\ Account.o_id a1 = Account.id r0
              /\ find (fun r => String.eqb (Account.key_hash r) keyHash) base = Some r0)
      as (r0 & base & -> & Hid & Hfind).
    { destruct (find (fun r => String.eqb (Account.key_hash r) keyHash) accts)
        as [r|] eqn:E.
      - rewrite (getOrCreateAccount_found _ _ _ _ _ _ _ E) in H1.
        injection H1 as <- <-. exists r, accts. easy.
      - unfold getOrCreateAccount, sql_get, insert_account in H1. rewrite E in H1.
        cbn [Account.id] in H1.
        destruct (existsb _ accts); [discriminate|].
        injection H1 as <- <-.
        set (new := {| Account.id := u1; Account.key_hash := keyHash;
                       Account.provider := p1; Account.created_at := Some n1;
                       Account.last_seen_at := None |}).
        exists new, (accts ++ [new]).
        split; [reflexivity|]. split; [reflexivity|].
        apply find_app_None; [exact E|]. cbn. apply String.eqb_refl. }
    pose proof (find_touched (Account.id r0) n2 keyHash base) as Hf.
    rewrite Hfind in Hf. cbn [option_map] in Hf. rewrite String.eqb_refl in Hf.
    rewrite (getOrCreateAccount_found _ _ p2 u2 n3 n4 _ Hf).
    eexists _, _. split; [reflexivity|].
    cbn [Account.of_row Account.o_id Account.o_created touch_account Account.id].
    rewrite Hid. repeat split.
    + apply touched_ids.
    + exists (touch_account n2 r0). apply find_some in Hf as [Hin Hk].
      split; [exact Hin|]. split; [reflexivity|].
      now apply String.eqb_eq in Hk.
    + apply touched_last_seen.
    + apply touched_last_seen.
Qed.

Lemma getOrCreateAccount_idempotent_witness :
  exists a1 accts1 a2 accts2,
    getOrCreateAccount [] "hash-1" "openai" "uuid-1" "t0" "t1" = Some (a1, accts1)
    /\ getOrCreateAccount accts1 "hash-1" "openai" "uuid-2" "t2" "t3" = Some (a2, accts2)
    /\ Account.o_id a2 = Account.o_id a1
    /\ map Account.id accts2 = map Account.id accts1.
Proof.
  destruct (getOrCreateAccount_idempotent [] "hash-1" "openai" "openai"
              "uuid-1" "uuid-2" "t0" "t1" "t2" "t3") as [Hfirst Hsecond].
  destruct Hfirst as [[a1 accts1] H1]; [right; reflexivity|].
  destruct (Hsecond a1 accts1 H1) as (a2 & accts2 & H2 & Hid & _ & Hrows & _).
  exists a1, accts1, a2, accts2. easy.
Defined.

(** ** Retry *)

(** C9.  For a task the caller can see, and fresh identifiers from
    [crypto.randomUUID()], the retry handler appends one row: its status is
    pending, its parent is the original task, its span name is "retry", its
    prompt is the modified prompt when the request carries a non-empty one
    and the original prompt otherwise, and its trace identifier is the
    freshly generated one, which differs from the original task's. *)
Theorem retry_creates_pending_child (t : list Task.row) (a : auth) (id : string)
    (modified_prompt : option string) (retryId retryTraceId now : string)
    (originalTask : Task.row) :
  sql_get (fun r => String.eqb (Task.id r) id && owned_by a r) t = Some originalTask ->
  existsb (fun r => String.eqb (Task.id r) retryId) t = false ->
  Forall (fun r => Task.trace_id r <> Some retryTraceId) t ->
  exists row,
    Retry.handler t a id modified_prompt retryId retryTraceId now
    = (Retry.Created retryId id (Task.prompt row), t ++ [row])
    /\ Task.id row = retryId
    /\ Task.status row = pending
    /\ Task.parent_id row = Some id
    /\ Task.parent_id row = Some (Task.id originalTask)
    /\ Task.span_name row = Some "retry"
    /\ Task.prompt row = (if JS.truthy_str modified_prompt then modified_prompt
                          else Task.prompt originalTask)
    /\ Task.trace_id row = Some retryTraceId
    /\ Task.trace_id row <> Task.trace_id originalTask.
Proof.
  intros Hget Hfresh Htrace. unfold Retry.handler, insert_task. rewrite Hget.
  cbn [Retry.retry_row Task.id]. rewrite Hfresh.
  apply find_some in Hget as [Hin Hid].
  apply andb_true_iff in Hid as [Hid _]. apply String.eqb_eq in Hid.
  exists (Retry.retry_row a originalTask modified_prompt retryId retryTraceId now).
  split; [rewrite Hid; reflexivity|].
  cbn [Retry.retry_row Task.id Task.status Task.parent_id Task.span_name
       Task.prompt Task.trace_id].
  rewrite Hid. repeat split.
  rewrite List.Forall_forall in Htrace. intros E. exact (Htrace _ Hin (eq_sym E)).
Qed.

Lemma retry_creates_pending_child_witness :
  exists row,
    Retry.handler [failed_span] key_1 "span-2" (Some "user: hi again")
      "span-3" "trace-3" "t2"
    = (Retry.Created "span-3" "span-2" (Task.prompt row), [failed_span] ++ [row])
    /\ Task.status row = pending
    /\ Task.prompt row = Some "user: hi again"
    /\ Task.trace_id row <> Task.trace_id failed_span.
Proof.
  destruct (retry_creates_pending_child [failed_span] key_1 "span-2"
              (Some "user: hi again") "span-3" "trace-3" "t2" failed_span)
    as (row & H & _ & Hst & _ & _ & _ & Hp & _ & Ht).
  - reflexivity.
  - reflexivity.
  - constructor; [discriminate|constructor].
  - exists row. easy.
Defined.

(** ** Replay: rebuilding the messages from the prompt text *)

Lemma split_nonempty (sep : ascii) (s : string) : JS.split sep s <> [].
Proof.
  destruct s as [|c s]; simpl; [discriminate|].
  destruct (Ascii.eqb c sep); [discriminate|]. now destruct (JS.split sep s).
Qed.

Lemma join_cons (sep p : string) (ps : list string) :
  ps <> [] -> JS.join sep (p :: ps) = p +:+ sep +:+ JS.join sep ps.
Proof. destruct ps; [contradiction|reflexivity]. Qed.

Lemma append_cons (c : ascii) (s t : string) :
  String c s +:+ t = String c (s +:+ t).
Proof. reflexivity. Qed.

Lemma join_split (s : string) : JS.join nl (JS.split "010" s) = s.
Proof.
  induction s as [|c s IH]; [reflexivity|]. cbn [JS.split].
  destruct (Ascii.eqb c "010") eqn:E.
  - apply Ascii.eqb_eq in E as ->.
    rewrite join_cons by apply split_nonempty. now rewrite IH.
  - pose proof (split_nonempty "010" s) as Hne.
    destruct (JS.split "010" s) as [|l ls]; [contradiction|].
    destruct ls as [|l' ls].
    + cbn in *. now rewrite IH.
    + rewrite (join_cons nl (String c l)) by discriminate.
      rewrite (join_cons nl l) in IH by discriminate.
      rewrite !append_cons. now rewrite IH.
Qed.

Section ReplayLoop.

Import Replay.

Lemma step_untagged (st : state) (line : string) :
  untagged line ->
  step st line = {| messages := messages st; currentRole := currentRole st;
                    currentContent := currentContent st ++ [line] |}.
Proof.
  unfold untagged, tag_of, step.
  destruct (JS.startsWith line "system:"); [discriminate|].
  destruct (JS.startsWith line "user:"); [discriminate|].
  now destruct (JS.startsWith line "assistant:").
Qed.

Lemma step_tagged (st : state) (line r tag : string) :
  tag_of line = Some (r, tag) -> step st line = open_turn st r tag line.
Proof.
  unfold tag_of, step.
  destruct (JS.startsWith line "system:"); [now intros [= <- <-]|].
  destruct (JS.startsWith line "user:"); [now intros [= <- <-]|].
  destruct (JS.startsWith line "assistant:"); [now intros [= <- <-]|discriminate].
Qed.

Lemma fold_untagged (us : list string) (st : state) :
  Forall untagged us ->
  fold_left step us st
  = {| messages := messages st; currentRole := currentRole st;
       currentContent := currentContent st ++ us |}.
Proof.
  intros H. revert st. induction H as [|u us Hu _ IH]; intros st.
  - cbn. rewrite app_nil_r. now destruct st.
  - cbn [fold_left]. rewrite IH, (step_untagged _ _ Hu). cbn.
    now rewrite <- app_assoc.
Qed.

Lemma flush_ahead (pfx : list message) (st st' : state) :
  ahead pfx st st' -> flush st = pfx ++ flush st'.
Proof.
  intros (Hm & Hr & Hc). unfold flush. rewrite Hm, Hr, Hc.
  destruct (currentContent st'); [reflexivity|]. now rewrite app_assoc.
Qed.

Lemma step_ahead (pfx : list message) (st st' : state) (line : string) :
  ahead pfx st st' -> ahead pfx (step st line) (step st' line).
Proof.
  intros H. destruct (tag_of line) as [[r tag]|] eqn:E.
  - rewrite !(step_tagged _ _ _ _ E). unfold ahead, open_turn. cbn.
    split; [now apply flush_ahead|easy].
  - rewrite !(step_untagged _ _ E). destruct H as (Hm & Hr & Hc).
    unfold ahead. cbn. now rewrite Hm, Hr, Hc.
Qed.

Lemma fold_ahead (pfx : list message) (lines : list string) (st st' : state) :
  ahead pfx st st' -> ahead pfx (fold_left step lines st) (fold_left step lines st').
Proof.
  revert st st'. induction lines as [|l lines IH]; intros st st' H; [exact H|].
  cbn. apply IH. now apply step_ahead.
Qed.

Lemma parse_lines_app (l1 l2 : list string) :
  opens_turn l2 -> parse_lines (l1 ++ l2) = parse_lines l1 ++ parse_lines l2.
Proof.
  unfold parse_lines. destruct l2 as [|line l2]; intros H.
  - now rewrite !app_nil_r.
  - cbn in H. destruct (tag_of line) as [[r tag]|] eqn:E; [clear H|contradiction].
    rewrite fold_left_app. cbn [fold_left].
    rewrite !(step_tagged _ _ _ _ E).
    apply flush_ahead, fold_ahead. unfold ahead, open_turn. cbn.
    now rewrite app_nil_r.
Qed.

Lemma parse_lines_turn (line r tag : string) (us : list string) :
  tag_of line = Some (r, tag) -> Forall untagged us ->
  parse_lines (line :: us) = [turn r tag line us].
Proof.
  intros E H. unfold parse_lines. cbn [fold_left].
  rewrite (step_tagged _ _ _ _ E), (fold_untagged _ _ H). reflexivity.
Qed.

Lemma parse_lines_untagged (us : list string) :
  us <> [] -> Forall untagged us ->
  parse_lines us = [{| role := "user"; content := JS.trim (JS.join nl us) |}].
Proof.
  intros Hne H. unfold parse_lines. rewrite (fold_untagged _ _ H).
  unfold flush. cbn. now destruct us.
Qed.

Lemma parse_lines_nonempty (lines : list string) :
  lines <> [] -> parse_lines lines <> [].
Proof.
  intros Hne. unfold parse_lines.
  assert (H : forall st, currentContent st <> [] -> flush st <> []).
  { intros st. unfold flush. destruct (currentContent st); [easy|].
    intros _. now destruct (messages st). }
  apply H.
  assert (G : forall l st, (l <> [] \/ currentContent st <> []) ->
                           currentContent (fold_left step l st) <> []).
  { clear. induction l as [|x l IH]; intros st [Hl|Hc]; try easy.
    - cbn. apply IH. right. unfold step, open_turn.
      repeat (destruct (JS.startsWith x _)); cbn; try discriminate.
      now destruct (currentContent st).
    - cbn. apply IH. right. unfold step, open_turn.
      repeat (destruct (JS.startsWith x _)); cbn; try discriminate.
      now destruct (currentContent st). }
  apply G. now left.
Qed.

End ReplayLoop.

Lemma reconstruct_parse_lines (prompt : string) :
  Replay.reconstruct prompt = Replay.parse_lines (JS.split "010" prompt).
Proof.
  unfold Replay.reconstruct.
  pose proof (parse_lines_nonempty _ (split_nonempty "010" prompt)).
  now destruct (Replay.parse_lines _).
Qed.

(** C7.  Without a stored snapshot, [build_replay_request] rebuilds the
    messages from the lines of the prompt: the prompt
    "system: be terse\nuser: hi" gives the system message "be terse"
    followed by the user message "hi"; in general every line that starts
    with a role tag opens a message, which collects the untagged lines up to
    the next tagged line, untagged lines at the start go to a user message,
    and a prompt without any role tag yields the single user message with
    the trimmed prompt. *)
Theorem build_replay_request_reconstructs (originalTask : Task.row) (m p : string) :
  Task.original_request originalTask = None ->
  Task.model originalTask = Some m -> m <> EmptyString ->
  Task.prompt originalTask = Some p -> p <> EmptyString ->
  Replay.build_replay_request originalTask
  = Some (Replay.Rebuilt m (Replay.parse_lines (JS.split "010" p)))
  /\ (p = terse_prompt ->
      Replay.build_replay_request originalTask
      = Some (Replay.Rebuilt m [{| Replay.role := "system"; Replay.content := "be terse" |};
                                {| Replay.role := "user"; Replay.content := "hi" |}]))
  /\ (forall l1 l2, opens_turn l2 ->
      Replay.parse_lines (l1 ++ l2) = Replay.parse_lines l1 ++ Replay.parse_lines l2)
  /\ (forall line r tag us, tag_of line = Some (r, tag) -> Forall untagged us ->
      Replay.parse_lines (line :: us) = [turn r tag line us])
  /\ (forall us, us <> [] -> Forall untagged us ->
      Replay.parse_lines us
      = [{| Replay.role := "user"; Replay.content := JS.trim (JS.join Replay.nl us) |}])
  /\ (Forall untagged (JS.split "010" p) ->
      Replay.build_replay_request originalTask
      = Some (Replay.Rebuilt m [{| Replay.role := "user"; Replay.content := JS.trim p |}])).
Proof.
  intros Ho Hm Hmne Hp Hpne.
  assert (Hb : Replay.build_replay_request originalTask
               = Some (Replay.Rebuilt m (Replay.parse_lines (JS.split "010" p)))).
  { unfold Replay.build_replay_request. rewrite Ho, Hm, Hp.
    cbn [JS.truthy_str JSON.truthy default from_option Datatypes.id].
    apply String.eqb_neq in Hmne, Hpne. rewrite Hmne, Hpne. cbn [negb andb].
    now rewrite reconstruct_parse_lines. }
  split; [exact Hb|]. split; [|split; [|split; [|split]]].
  - intros ->. rewrite Hb. reflexivity.
  - apply parse_lines_app.
  - apply parse_lines_turn.
  - apply parse_lines_untagged.
  - intros H. rewrite Hb.
    rewrite (parse_lines_untagged _ (split_nonempty _ _) H).
    change Replay.nl with nl. now rewrite join_split.
Qed.

Lemma build_replay_request_reconstructs_witness :
  Replay.build_replay_request
    {| Task.id := "span-4"; Task.api_key_id := None; Task.account_id := Some "acc-1";
       Task.agent_name := "proxy"; Task.description := "Proxy: gpt-4o";
       Task.status := success; Task.started_at := None; Task.completed_at := None;
       Task.duration_ms := 5; Task.cost := None; Task.error := None;
       Task.provider := Some "openai"; Task.metadata := None; Task.created_at := None;
       Task.model := Some "gpt-4o"; Task.prompt := Some terse_prompt;
       Task.completion := None; Task.tokens_in := None; Task.tokens_out := None;
       Task.trace_id := None; Task.parent_id := None; Task.span_name := None;
       Task.prompt_version := None; Task.prompt_template_id := None;
       Task.original_request := None |}
  = Some (Replay.Rebuilt "gpt-4o"
            [{| Replay.role := "system"; Replay.content := "be terse" |};
             {| Replay.role := "user"; Replay.content := "hi" |}]).
Proof.
  eapply (build_replay_request_reconstructs _ "gpt-4o" terse_prompt);
    try reflexivity; discriminate.
Defined.

(** ** Trace assembly *)

Section Forest.

Import Trace.






End Forest.

Lemma existsb_id (spans : list Task.row) (q : string) :
  existsb (fun p => String.eqb (Task.id p) q) spans = true <-> In q (map Task.id spans).
Proof.
  rewrite existsb_exists, in_map_iff. split.
  - intros (p & Hin & E). apply String.eqb_eq in E. eauto.
  - intros (p & E & Hin). exists p. split; [exact Hin|]. now apply String.eqb_eq.
Qed.








(** ** Reading a stream line by line *)

Lemma append_nil_r (s : string) : s +:+ EmptyString = s.
Proof. induction s as [|c s IH]; [reflexivity|]. now rewrite append_cons, IH. Qed.

Lemma append_assoc (a b c : string) : (a +:+ b) +:+ c = a +:+ (b +:+ c).
Proof. induction a as [|x a IH]; [reflexivity|]. now rewrite !append_cons, IH. Qed.

Lemma removelast_cons {A : Type} (x : A) (l : list A) :
  l <> [] -> removelast (x :: l) = x :: removelast l.
Proof. now destruct l. Qed.

Lemma last_cons {A : Type} (x d : A) (l : list A) :
  l <> [] -> List.last (x :: l) d = List.last l d.
Proof. now destruct l. Qed.

Lemma last_append {A : Type} (l1 l2 : list A) (d : A) :
  l2 <> [] -> List.last (l1 ++ l2) d = List.last l2 d.
Proof.
  intros H. induction l1 as [|x l1 IH]; [reflexivity|].
  cbn [app]. rewrite last_cons; [exact IH|]. now destruct l1, l2.
Qed.

(** splitting a text in two pieces: the lines of the first piece but the
    last, then the lines of that last one continued by the second piece *)
Lemma split_app (sep : ascii) (x y : string) :
  JS.split sep (x +:+ y)
  = removelast (JS.split sep x)
    ++ JS.split sep (List.last (JS.split sep x) EmptyString +:+ y).
Proof.
  induction x as [|c x IH]; [reflexivity|].
  rewrite append_cons. cbn [JS.split].
  pose proof (split_nonempty sep x) as Hx.
  destruct (Ascii.eqb c sep) eqn:E.
  - rewrite removelast_cons, last_cons by exact Hx. now rewrite IH.
  - rewrite IH. destruct (JS.split sep x) as [|l ls]; [contradiction|].
    destruct ls as [|l' ls].
    + cbn [removelast List.last app]. rewrite append_cons. cbn [JS.split].
      now rewrite E.
    + rewrite !removelast_cons, !last_cons by discriminate. reflexivity.
Qed.

Lemma take_lines_app (buffer c1 c2 : string) :
  take_lines buffer (c1 +:+ c2)
  = ((take_lines buffer c1).1 ++ (take_lines (take_lines buffer c1).2 c2).1,
     (take_lines (take_lines buffer c1).2 c2).2).
Proof.
  unfold take_lines. cbn [fst snd].
  rewrite <- append_assoc, split_app.
  set (tl := JS.split _ (_ +:+ c2)).
  assert (Htl : tl <> []) by apply split_nonempty.
  f_equal.
  - now apply removelast_app.
  - now apply last_append.
Qed.

Section Reader.

Context {St : Type} (on_line : St -> string -> St).

Lemma read_chunk_twice (acc : string * St) (c1 c2 : string) :
  read_chunk on_line (read_chunk on_line acc c1) c2
  = read_chunk on_line acc (c1 +:+ c2).
Proof.
  unfold read_chunk. rewrite take_lines_app.
  destruct (take_lines acc.1 c1) as [l1 r1]. cbn [fst snd].
  destruct (take_lines r1 c2) as [l2 r2]. cbn [fst snd].
  now rewrite fold_left_app.
Qed.

Lemma read_chunks_from (chunks : list string) (acc : string * St) (c0 : string) :
  fold_left (read_chunk on_line) chunks (read_chunk on_line acc c0)
  = read_chunk on_line acc (c0 +:+ Upstream.body_text chunks).
Proof.
  revert c0. induction chunks as [|c chunks IH]; intros c0.
  - unfold Upstream.body_text. cbn [fold_left fold_right]. now rewrite append_nil_r.
  - change (Upstream.body_text (c :: chunks)) with (c +:+ Upstream.body_text chunks).
    cbn [fold_left]. rewrite read_chunk_twice, IH. now rewrite append_assoc.
Qed.

(** the read loop does not depend on how the body is cut into chunks *)
Lemma read_all_body_text (st : St) (chunks : list string) :
  read_all on_line st chunks
  = read_chunk on_line (EmptyString, st) (Upstream.body_text chunks).
Proof.
  unfold read_all. destruct chunks as [|c chunks]; [reflexivity|].
  cbn [fold_left]. now rewrite read_chunks_from.
Qed.

End Reader.

(** ** The Anthropic stream relay of the chat endpoint *)

(** the text the handler writes for a canonical chunk *)
Lemma chunk_frame_wire (e : Chat.env) (m : string) (n : nat)
    (delta finish_reason : JSON.value) (dtext ftext : string) :
  JSON.stringify delta = Some dtext -> JSON.stringify finish_reason = Some ftext ->
  Chat.chunk_frame e m n delta finish_reason
  = wire_chunk (Chat.taskId e) (Chat.Date_now e n / 1000) m dtext ftext.
Proof.
  intros Hd Hf. unfold Chat.chunk_frame, wire_chunk.
  cbn [JSON.stringify flat_map map snd fst app]. rewrite Hd, Hf.
  cbn [default from_option Datatypes.id flat_map map snd fst app JS.join].
  rewrite !append_assoc. reflexivity.
Qed.

Lemma relay_hello_stream (e : Chat.env) (m : string) :
  snd (read_chunk (Chat.on_line e m) (EmptyString, Chat.relay0) hello_stream)
  = {| Chat.tokensIn := 10; Chat.tokensOut := 3;
       Chat.completionText := "Hello world!";
       Chat.written := hello_frames e m |}.
Proof.
  transitivity
    {| Chat.tokensIn := 10; Chat.tokensOut := 3;
       Chat.completionText := "Hello world!";
       Chat.written :=
         [Chat.chunk_frame e m 0 (JSON.Obj [("content", JSON.Str "Hello")]) JSON.Null;
          Chat.chunk_frame e m 1 (JSON.Obj [("content", JSON.Str " world")]) JSON.Null;
          Chat.chunk_frame e m 2 (JSON.Obj [("content", JSON.Str "!")]) JSON.Null;
          Chat.chunk_frame e m 3 (JSON.Obj []) (JSON.Str "stop");
          Chat.done_frame] |}; [reflexivity|].
  unfold hello_frames. cbv zeta.
  rewrite (chunk_frame_wire e m 0 (JSON.Obj [("content", JSON.Str "Hello")]) JSON.Null
             (dq "{'content':'Hello'}") "null" eq_refl eq_refl).
  rewrite (chunk_frame_wire e m 1 (JSON.Obj [("content", JSON.Str " world")]) JSON.Null
             (dq "{'content':' world'}") "null" eq_refl eq_refl).
  rewrite (chunk_frame_wire e m 2 (JSON.Obj [("content", JSON.Str "!")]) JSON.Null
             (dq "{'content':'!'}") "null" eq_refl eq_refl).
  rewrite (chunk_frame_wire e m 3 (JSON.Obj []) (JSON.Str "stop")
             "{}" (dq "'stop'") eq_refl eq_refl).
  reflexivity.
Qed.

(** an [UPDATE ... WHERE id = ?] right after the [INSERT] of that id
    touches the new row only *)
Lemma sql_update_inserted (t : list Task.row) (r : Task.row) (set : Task.row -> Task.row) :
  existsb (fun r' => String.eqb (Task.id r') (Task.id r)) t = false ->
  fst (sql_update (Chat.by_id (Task.id r)) set (t ++ [r])) = t ++ [set r].
Proof.
  intros H. unfold sql_update. cbn [fst]. rewrite map_app. cbn [map].
  unfold Chat.by_id at 2. rewrite String.eqb_refl. f_equal.
  induction t as [|x t IH]; [reflexivity|]. cbn in H.
  apply orb_false_elim in H as [Hx Ht]. cbn [map]. unfold Chat.by_id at 1.
  rewrite Hx. f_equal. now apply IH.
Qed.

Lemma or_str_Some (s : string) : s <> EmptyString -> JS.or_str (Some s) None = Some s.
Proof.
  intros H. unfold JS.or_str, JS.truthy_str.
  apply String.eqb_neq in H. now rewrite H.
Qed.

(** C2.  On the Anthropic streaming path of the chat endpoint, when the
    upstream body is the scenario stream (start with 10 input tokens, the
    deltas "Hello", " world", "!", 3 output tokens, stop), however it is cut
    into chunks, the handler forwards exactly three canonical chunks with
    these deltas in order, then the terminal chunk (empty delta, finish
    reason "stop") and the done marker, each as the server-sent event
    [hello_frames] spells out, and closes the span as a success with
    completion "Hello world!", 10 input tokens and 3 output tokens. *)
Theorem anthropic_stream_relay (hashKey : string -> string) (e : Chat.env)
    (db : database) (authHeader : string) (b : Chat.body) (m : string)
    (msgs : list JSON.value) (prompt : string) (account : Account.obj)
    (accts : list Account.row) (chunks : list string) :
  Chat.model b = Some m -> m <> EmptyString ->
  Chat.messages b = Some msgs -> Chat.promptText msgs = Some prompt ->
  Chat.stream b = true ->
  JS.startsWith authHeader "Bearer " = true ->
  chat_provider authHeader m = anthropic ->
  getOrCreateAccount (accounts db)
    (hashKey (JS.replace authHeader "Bearer " EmptyString)) "anthropic"
    (Chat.uuid_account e) (Chat.now_account e) (Chat.now_account e)
  = Some (account, accts) ->
  existsb (fun r => String.eqb (Task.id r) (Chat.taskId e)) (tasks db) = false ->
  Upstream.body_text chunks = hello_stream ->
  exists row,
    Chat.handler hashKey e db (Some authHeader) b (Upstream.Ok chunks None)
    = (Chat.Streamed (hello_frames e m),
       {| api_keys := api_keys db; accounts := accts; tasks := tasks db ++ [row] |})
    /\ Task.id row = Chat.taskId e
    /\ Task.status row = success
    /\ Task.completion row = Some "Hello world!"
    /\ Task.tokens_in row = Some 10%Z
    /\ Task.tokens_out row = Some 3%Z.
Proof.
  intros Hm Hne Hmsgs Hprompt Hstream Hauth Hp Hacct Hfresh Hbody.
  unfold Chat.handler. rewrite Hm, (or_str_Some _ Hne), Hmsgs, Hauth. cbn [negb].
  unfold chat_provider in Hp. rewrite Hp. cbn [provider_name].
  rewrite Hacct, Hprompt. unfold insert_task.
  cbn [Chat.open_row Task.id with_accounts tasks]. rewrite Hfresh, Hstream.
  unfold Chat.run_relay. rewrite read_all_body_text, Hbody, relay_hello_stream.
  cbn [Chat.written Chat.tokensIn Chat.tokensOut Chat.completionText with_tasks
       tasks api_keys accounts].
  set (row0 := Chat.open_row e account anthropic m b msgs prompt).
  change (Chat.taskId e) with (Task.id row0) at 1.
  rewrite sql_update_inserted by exact Hfresh.
  eexists. split; [reflexivity|]. easy.
Qed.

Lemma anthropic_stream_relay_witness :
  exists row,
    Chat.handler toy_hash chat_env empty_db (Some "Bearer sk-ant-key") chat_body
      (Upstream.Ok hello_chunks None)
    = (Chat.Streamed
         [dq "data: {'id':'chatcmpl-task-1','object':'chat.completion.chunk','created':1700000000,'model':'claude-3-opus-20240229','choices':[{'index':0,'delta':{'content':'Hello'},'finish_reason':null}]}" +:+ nl +:+ nl;
          dq "data: {'id':'chatcmpl-task-1','object':'chat.completion.chunk','created':1700000001,'model':'claude-3-opus-20240229','choices':[{'index':0,'delta':{'content':' world'},'finish_reason':null}]}" +:+ nl +:+ nl;
          dq "data: {'id':'chatcmpl-task-1','object':'chat.completion.chunk','created':1700000002,'model':'claude-3-opus-20240229','choices':[{'index':0,'delta':{'content':'!'},'finish_reason':null}]}" +:+ nl +:+ nl;
          dq "data: {'id':'chatcmpl-task-1','object':'chat.completion.chunk','created':1700000003,'model':'claude-3-opus-20240229','choices':[{'index':0,'delta':{},'finish_reason':'stop'}]}" +:+ nl +:+ nl;
          "data: [DONE]" +:+ nl +:+ nl],
       {| api_keys := [];
          accounts := [{| Account.id := "acc-1"; Account.key_hash := "h:sk-ant-key";
                          Account.provider := "anthropic";
                          Account.created_at := Some "t0";
                          Account.last_seen_at := Some "t0" |}];
          tasks := [row] |})
    /\ Task.completion row = Some "Hello world!"
    /\ Task.tokens_in row = Some 10%Z
    /\ Task.tokens_out row = Some 3%Z.
Proof.
  destruct (anthropic_stream_relay toy_hash chat_env empty_db "Bearer sk-ant-key"
              chat_body "claude-3-opus-20240229"
              [JSON.Obj [("role", JSON.Str "user"); ("content", JSON.Str "Say hello")]]
              "user: Say hello"
              {| Account.o_id := "acc-1"; Account.o_key_hash := "h:sk-ant-key";
                 Account.o_provider := "anthropic"; Account.o_created_at := None;
                 Account.o_last_seen_at := None; Account.o_created := true |}
              [{| Account.id := "acc-1"; Account.key_hash := "h:sk-ant-key";
                  Account.provider := "anthropic"; Account.created_at := Some "t0";
                  Account.last_seen_at := Some "t0" |}]
              hello_chunks eq_refl ltac:(discriminate) eq_refl eq_refl eq_refl
              eq_refl eq_refl eq_refl eq_refl eq_refl)
    as (row & H & _ & _ & Hc & Hi & Ho).
  exists row. split; [rewrite H; vm_compute; reflexivity|].
  split; [exact Hc|]. split; [exact Hi|exact Ho].
Defined.

(** the frames of the scenario as they are on the wire, for one task, model
    and clock *)
Example hello_frames_on_the_wire :
  hello_frames chat_env "claude-3-opus-20240229"
  = [dq "data: {'id':'chatcmpl-task-1','object':'chat.completion.chunk','created':1700000000,'model':'claude-3-opus-20240229','choices':[{'index':0,'delta':{'content':'Hello'},'finish_reason':null}]}" +:+ nl +:+ nl;
     dq "data: {'id':'chatcmpl-task-1','object':'chat.completion.chunk','created':1700000001,'model':'claude-3-opus-20240229','choices':[{'index':0,'delta':{'content':' world'},'finish_reason':null}]}" +:+ nl +:+ nl;
     dq "data: {'id':'chatcmpl-task-1','object':'chat.completion.chunk','created':1700000002,'model':'claude-3-opus-20240229','choices':[{'index':0,'delta':{'content':'!'},'finish_reason':null}]}" +:+ nl +:+ nl;
     dq "data: {'id':'chatcmpl-task-1','object':'chat.completion.chunk','created':1700000003,'model':'claude-3-opus-20240229','choices':[{'index':0,'delta':{},'finish_reason':'stop'}]}" +:+ nl +:+ nl;
     "data: [DONE]" +:+ nl +:+ nl].
Proof. vm_compute. reflexivity. Qed.

(** ** The messages proxy: storage limit and forwarding *)

Lemma substring0_length (n : nat) (s : string) :
  String.length (JS.substring0 s n) = Nat.min n (String.length s).
Proof.
  unfold JS.substring0. revert s. induction n as [|n IH]; intros [|c s]; cbn;
    try reflexivity. now rewrite IH.
Qed.

Lemma substring0_prefix (n : nat) (s : string) :
  String.prefix (JS.substring0 s n) s = true.
Proof.
  unfold JS.substring0. revert s. induction n as [|n IH]; intros [|c s]; cbn;
    try reflexivity. destruct (ascii_dec c c); [apply IH|contradiction].
Qed.

Lemma substring0_within (n : nat) (s : string) :
  (stored_length (Some (JS.substring0 s n)) <= n)%nat.
Proof. cbn. rewrite substring0_length. lia. Qed.

Section MessagesRelay.

Import Messages.

Lemma on_event_written (st : relay) (event : JSON.value) :
  written (on_event st event) = written st.
Proof.
  unfold on_event. destruct (JSON.prop event "type") as [ty|]; [|reflexivity].
  repeat match goal with
         | |- context [if ?c then _ else _] => destruct c; cbn [written]
         end; reflexivity.
Qed.

Lemma on_line_written (st : relay) (line : string) :
  written (on_line st line) = written st ++ [forwarded line].
Proof.
  unfold on_line.
  destruct (JS.startsWith line "data: "); [|reflexivity].
  destruct (_ && _); [|reflexivity].
  destruct (JSON.parse _); [|reflexivity].
  now rewrite on_event_written.
Qed.

Lemma fold_on_line_written (lines : list string) (st : relay) :
  written (fold_left on_line lines st) = written st ++ map forwarded lines.
Proof.
  revert st. induction lines as [|l lines IH]; intros st; cbn [fold_left map].
  - now rewrite app_nil_r.
  - rewrite IH, on_line_written. now rewrite <- app_assoc.
Qed.

(** the frames of a stream that ends without a failed read *)
Lemma run_relay_written (chunks : list string) :
  written (run_relay chunks None) = forwarded_frames (Upstream.body_text chunks).
Proof.
  unfold run_relay. rewrite read_all_body_text. unfold read_chunk, take_lines.
  cbn [fst snd String.append]. unfold flush, forwarded_frames, body_lines, body_rest.
  destruct (JS.truthy_str _); cbn [written]; rewrite fold_on_line_written;
    [reflexivity|now rewrite app_nil_r].
Qed.

End MessagesRelay.

(** the lines of a text, each with its newline back, and the rest give the
    text again *)
Lemma lines_rest (s : string) :
  fold_right String.append (body_rest s) (map (fun l => l +:+ nl) (body_lines s)) = s.
Proof.
  unfold body_lines, body_rest. induction s as [|c s IH]; [reflexivity|].
  cbn [JS.split]. pose proof (split_nonempty "010" s) as Hne.
  destruct (Ascii.eqb c "010") eqn:E.
  - apply Ascii.eqb_eq in E as ->.
    rewrite removelast_cons, last_cons by exact Hne. cbn [map fold_right].
    now rewrite IH.
  - destruct (JS.split "010" s) as [|l ls]; [contradiction|].
    destruct ls as [|l' ls].
    + cbn in *. now rewrite IH.
    + rewrite !removelast_cons, !last_cons in * by discriminate.
      cbn [map fold_right] in *. rewrite !append_cons. now rewrite IH.
Qed.

Lemma forwarded_plain (line : string) :
  plain_line line -> Messages.forwarded line = line +:+ nl.
Proof.
  unfold Messages.forwarded, JS.truthy_str. intros [->|H]; [reflexivity|].
  apply String.eqb_neq in H. now rewrite H.
Qed.

Lemma plain_lines_check (lines : list string) :
  forallb is_plain_line lines = true -> Forall plain_line lines.
Proof.
  induction lines as [|l lines IH]; cbn [forallb]; [constructor|].
  intros H. apply andb_true_iff in H as [Hl Hls].
  constructor; [|now apply IH].
  apply orb_true_iff in Hl as [Hl|Hl].
  - left. now apply String.eqb_eq.
  - right. now apply String.eqb_neq, negb_true_iff.
Qed.

(** a body of plain lines that ends with a newline is forwarded verbatim *)
Lemma forwarded_verbatim (body : string) :
  Forall plain_line (body_lines body) -> body_rest body = EmptyString ->
  Upstream.body_text (forwarded_frames body) = body.
Proof.
  intros Hplain Hrest. unfold forwarded_frames. rewrite Hrest. cbn [JS.trim
    JS.trimStart JS.trimEnd JS.truthy_str String.eqb negb]. rewrite app_nil_r.
  rewrite <- (lines_rest body) at 2. rewrite Hrest. unfold Upstream.body_text.
  induction Hplain as [|l ls Hl _ IH]; [reflexivity|].
  cbn [map fold_right]. now rewrite IH, (forwarded_plain _ Hl).
Qed.

Lemma insert_then_update (t0 t : list Task.row) (row0 : Task.row)
    (set : Task.row -> Task.row) :
  insert_task t0 row0 = Some t ->
  fst (sql_update (Chat.by_id (Task.id row0)) set t) = t0 ++ [set row0].
Proof.
  unfold insert_task. destruct (existsb _ t0) eqn:E; [discriminate|].
  intros [= <-]. now apply sql_update_inserted.
Qed.

(** the shape of the span table after a call of the messages proxy: it is
    untouched, or it has gained the one row of this call, whose prompt is
    the head of the prompt text and whose completion, if any, is the head
    of a text *)
Lemma messages_handler_tasks (hashKey : string -> string) (e : Messages.env)
    (db : database) (x_api_key authorization : option string) (b : Messages.body)
    (up : Upstream.response) :
  tasks (Messages.handler hashKey e db x_api_key authorization b up).2 = tasks db
  \/ exists msgs prompt row,
       tasks (Messages.handler hashKey e db x_api_key authorization b up).2
       = tasks db ++ [row]
       /\ Task.id row = Messages.taskId e
       /\ Messages.messages b = Some msgs
       /\ Messages.promptText msgs = Some prompt
       /\ Task.prompt row = Some (JS.substring0 prompt Messages.LIMIT)
       /\ (Task.completion row = None
           \/ exists text, Task.completion row = Some (JS.substring0 text Messages.LIMIT)).
Proof.
  unfold Messages.handler.
  destruct (JS.or_str (Messages.model b) None) as [m|]; [|now left].
  destruct (Messages.messages b) as [msgs|]; [|now left].
  destruct (negb _); [now left|].
  destruct (getOrCreateAccount _ _ _ _ _ _) as [[account accts]|]; [|now left].
  destruct (Messages.extractTaskDescription msgs) as [d|]; [|now left].
  destruct (Messages.promptText msgs) as [prompt|] eqn:Hp; [|now left].
  destruct (insert_task _ _) as [t|] eqn:Hins; [|now left].
  right. set (row0 := Messages.open_row e account m b msgs d prompt) in *.
  cbn [with_accounts tasks] in Hins.
  assert (Hup : forall set, tasks (Messages.update_by_id e
                                     (with_tasks (with_accounts db accts) t) set)
                            = tasks db ++ [set row0]).
  { intros set. unfold Messages.update_by_id. cbn [with_tasks tasks].
    change (Messages.taskId e) with (Task.id row0).
    now apply insert_then_update. }
  assert (Hfail : forall dur msg now,
            exists row, tasks db ++ [Chat.set_failed dur msg now row0] = tasks db ++ [row]
              /\ Task.id row = Messages.taskId e
              /\ Some msgs = Some msgs /\ Messages.promptText msgs = Some prompt
              /\ Task.prompt row = Some (JS.substring0 prompt Messages.LIMIT)
              /\ (Task.completion row = None
                  \/ exists text, Task.completion row
                                  = Some (JS.substring0 text Messages.LIMIT))).
  { intros. eexists. split; [reflexivity|]. split; [reflexivity|].
    split; [reflexivity|]. split; [exact Hp|]. split; [reflexivity|]. cbn. eauto. }
  assert (Hok : forall dur c text tin tout now,
            exists row, tasks db ++ [Chat.set_success dur c
                                       (JS.substring0 text Messages.LIMIT)
                                       tin tout now row0] = tasks db ++ [row]
              /\ Task.id row = Messages.taskId e
              /\ Some msgs = Some msgs /\ Messages.promptText msgs = Some prompt
              /\ Task.prompt row = Some (JS.substring0 prompt Messages.LIMIT)
              /\ (Task.completion row = None
                  \/ exists text, Task.completion row
                                  = Some (JS.substring0 text Messages.LIMIT))).
  { intros. eexists. split; [reflexivity|]. split; [reflexivity|].
    split; [reflexivity|]. split; [exact Hp|]. split; [reflexivity|]. cbn. eauto. }
  exists msgs, prompt.
  destruct up as [message|status text|chunks failure].
  - unfold Messages.api_failure. cbn [snd]. rewrite Hup. apply Hfail.
  - unfold Messages.http_failure. cbn [snd]. rewrite Hup. apply Hfail.
  - destruct (Messages.stream b).
    + cbn [snd]. rewrite Hup. apply Hok.
    + destruct failure as [message|].
      { unfold Messages.api_failure. cbn [snd]. rewrite Hup. apply Hfail. }
      destruct (JSON.parse _) as [data|].
      2:{ unfold Messages.api_failure. cbn [snd]. rewrite Hup. apply Hfail. }
      destruct (Messages.finish_body _ _ m data) as [result|] eqn:Hfin.
      2:{ unfold Messages.api_failure. cbn [snd]. rewrite Hup. apply Hfail. }
      unfold Messages.finish_body in Hfin.
      destruct (JSON.prop data "content") as [content|]; [|discriminate].
      destruct (JSON.or _ _) as [| | | | | | |completionText| |]; try discriminate.
      injection Hfin as <-. cbn [snd]. rewrite Hup. apply Hok.
Qed.


(** a call of the messages proxy that ends as a forwarded stream went
    through the streaming branch *)
Lemma messages_handler_streamed (hashKey : string -> string) (e : Messages.env)
    (db : database) (x_api_key authorization : option string) (b : Messages.body)
    (up : Upstream.response) (frames : list string) :
  (Messages.handler hashKey e db x_api_key authorization b up).1
  = Messages.Streamed frames ->
  exists chunks failure row,
    up = Upstream.Ok chunks failure
    /\ Messages.stream b = true
    /\ frames = Messages.written (Messages.run_relay chunks failure)
    /\ tasks (Messages.handler hashKey e db x_api_key authorization b up).2
       = tasks db ++ [row]
    /\ Task.id row = Messages.taskId e
    /\ Task.status row = success
    /\ Task.completion row
       = Some (JS.substring0
                 (Messages.fullCompletion (Messages.run_relay chunks failure))
                 Messages.LIMIT).
Proof.
  unfold Messages.handler.
  destruct (JS.or_str (Messages.model b) None) as [m|]; [|discriminate].
  destruct (Messages.messages b) as [msgs|]; [|discriminate].
  destruct (negb _); [discriminate|].
  destruct (getOrCreateAccount _ _ _ _ _ _) as [[account accts]|]; [|discriminate].
  destruct (Messages.extractTaskDescription msgs) as [d|]; [|discriminate].
  destruct (Messages.promptText msgs) as [prompt|] eqn:Hp; [|discriminate].
  destruct (insert_task _ _) as [t|] eqn:Hins; [|discriminate].
  set (row0 := Messages.open_row e account m b msgs d prompt) in *.
  cbn [with_accounts tasks] in Hins.
  destruct up as [message|status text|chunks failure]; try discriminate.
  destruct (Messages.stream b).
  - cbn [fst snd]. intros [= <-]. eexists chunks, failure, _.
    split; [reflexivity|]. split; [reflexivity|]. split; [reflexivity|].
    split.
    { unfold Messages.update_by_id. cbn [with_tasks tasks].
      change (Messages.taskId e) with (Task.id row0).
      now apply insert_then_update. }
    easy.
  - destruct failure as [message|]; [discriminate|].
    destruct (JSON.parse _) as [data|]; [|discriminate].
    destruct (Messages.finish_body _ _ m data) as [result|] eqn:Hfin; [|discriminate].
    unfold Messages.finish_body in Hfin.
    destruct (JSON.prop data "content") as [content|]; [|discriminate].
    destruct (JSON.or _ _); try discriminate.
    injection Hfin as <-. discriminate.
Qed.

(** a call that ends with [res.json(data)] went through the other branch,
    and [data] is the whole upstream body, parsed *)
Lemma messages_handler_replied (hashKey : string -> string) (e : Messages.env)
    (db : database) (x_api_key authorization : option string) (b : Messages.body)
    (up : Upstream.response) (data : JSON.value) :
  (Messages.handler hashKey e db x_api_key authorization b up).1
  = Messages.Replied data ->
  exists chunks text row,
    up = Upstream.Ok chunks None
    /\ Messages.stream b = false
    /\ JSON.parse (Upstream.body_text chunks) = Some data
    /\ JSON.or (JSON.opt_prop (JSON.opt_index (JSON.opt_prop data "content") 0) "text")
               (JSON.Str EmptyString) = JSON.Str text
    /\ tasks (Messages.handler hashKey e db x_api_key authorization b up).2
       = tasks db ++ [row]
    /\ Task.id row = Messages.taskId e
    /\ Task.status row = success
    /\ Task.completion row = Some (JS.substring0 text Messages.LIMIT).
Proof.
  unfold Messages.handler.
  destruct (JS.or_str (Messages.model b) None) as [m|]; [|discriminate].
  destruct (Messages.messages b) as [msgs|]; [|discriminate].
  destruct (negb _); [discriminate|].
  destruct (getOrCreateAccount _ _ _ _ _ _) as [[account accts]|]; [|discriminate].
  destruct (Messages.extractTaskDescription msgs) as [d|]; [|discriminate].
  destruct (Messages.promptText msgs) as [prompt|] eqn:Hp; [|discriminate].
  destruct (insert_task _ _) as [t|] eqn:Hins; [|discriminate].
  set (row0 := Messages.open_row e account m b msgs d prompt) in *.
  cbn [with_accounts tasks] in Hins.
  destruct up as [message|status text|chunks failure]; try discriminate.
  destruct (Messages.stream b); [discriminate|].
  destruct failure as [message|]; [discriminate|].
  destruct (JSON.parse _) as [data'|] eqn:Hparse; [|discriminate].
  destruct (Messages.finish_body _ _ m data') as [result|] eqn:Hfin; [|discriminate].
  unfold Messages.finish_body in Hfin.
  destruct (JSON.prop data' "content") as [content|] eqn:Hc; [|discriminate].
  destruct (JSON.or _ _) as [| | | | | | |completionText| |] eqn:Ht; try discriminate.
  injection Hfin as <-. cbn [fst snd]. intros [= <-].
  exists chunks, completionText. eexists.
  split; [reflexivity|]. split; [reflexivity|]. split; [exact Hparse|].
  split.
  { unfold JSON.opt_prop at 2. now rewrite Hc. }
  split.
  { unfold Messages.update_by_id. cbn [with_tasks tasks].
    change (Messages.taskId e) with (Task.id row0).
    now apply insert_then_update. }
  easy.
Qed.

(** C10.  Whatever the request and the upstream's answer, a call of the
    messages proxy leaves the other spans alone, and the span it opens
    stores at most 50,000 characters of prompt and of completion: the
    prompt column holds the head of the prompt text, and after a streamed
    or a non-streamed success the completion column holds the head of the
    completion text.  What goes back to the caller is not cut: a stream is
    forwarded line by line (verbatim when the body ends with a newline and
    has no line of white space only), and a non-streamed answer is the
    whole upstream body. *)
Theorem messages_storage_limit (hashKey : string -> string) (e : Messages.env)
    (db : database) (x_api_key authorization : option string) (b : Messages.body)
    (up : Upstream.response) :
  Z.of_nat Messages.LIMIT = 50000%Z
  /\ (forall r, In r (tasks (Messages.handler hashKey e db x_api_key authorization b up).2) ->
     In r (tasks db)
     \/ (Task.id r = Messages.taskId e /\ within_limit r
         /\ exists msgs prompt,
              Messages.messages b = Some msgs
              /\ Messages.promptText msgs = Some prompt
              /\ Task.prompt r = Some (JS.substring0 prompt Messages.LIMIT)
              /\ String.prefix (JS.substring0 prompt Messages.LIMIT) prompt = true
              /\ String.length (JS.substring0 prompt Messages.LIMIT)
                 = Nat.min Messages.LIMIT (String.length prompt)))
  /\ (forall frames,
        (Messages.handler hashKey e db x_api_key authorization b up).1
        = Messages.Streamed frames ->
        exists chunks failure row,
          up = Upstream.Ok chunks failure
          /\ In row (tasks (Messages.handler hashKey e db x_api_key authorization b up).2)
          /\ Task.id row = Messages.taskId e
          /\ Task.status row = success
          /\ Task.completion row
             = Some (JS.substring0
                       (Messages.fullCompletion (Messages.run_relay chunks failure))
                       Messages.LIMIT)
          /\ (failure = None ->
              frames = forwarded_frames (Upstream.body_text chunks)
              /\ (Forall plain_line (body_lines (Upstream.body_text chunks)) ->
                  body_rest (Upstream.body_text chunks) = EmptyString ->
                  Upstream.body_text frames = Upstream.body_text chunks)))
  /\ (forall data,
        (Messages.handler hashKey e db x_api_key authorization b up).1
        = Messages.Replied data ->
        exists chunks text row,
          up = Upstream.Ok chunks None
          /\ JSON.parse (Upstream.body_text chunks) = Some data
          /\ JSON.or (JSON.opt_prop (JSON.opt_index (JSON.opt_prop data "content") 0)
                        "text") (JSON.Str EmptyString) = JSON.Str text
          /\ In row (tasks (Messages.handler hashKey e db x_api_key authorization b up).2)
          /\ Task.id row = Messages.taskId e
          /\ Task.status row = success
          /\ Task.completion row = Some (JS.substring0 text Messages.LIMIT)).
Proof.
  split; [reflexivity|]. split; [|split].
  - intros r Hin.
    destruct (messages_handler_tasks hashKey e db x_api_key authorization b up)
      as [Hsame|(msgs & prompt & row & Ht & Hid & Hm & Hp & Hprompt & Hcompl)].
    + left. now rewrite <- Hsame.
    + rewrite Ht in Hin. apply in_app_iff in Hin as [Hin|[<-|[]]]; [now left|].
      right. split; [exact Hid|]. split.
      * unfold within_limit. rewrite Hprompt. split; [apply substring0_within|].
        destruct Hcompl as [->|[text ->]]; [cbn; lia|apply substring0_within].
      * exists msgs, prompt. repeat split; try assumption.
        -- apply substring0_prefix.
        -- apply substring0_length.
  - intros frames H.
    destruct (messages_handler_streamed _ _ _ _ _ _ _ _ H)
      as (chunks & failure & row & -> & _ & -> & Ht & Hid & Hst & Hc).
    exists chunks, failure, row. split; [reflexivity|].
    split; [rewrite Ht; apply in_app_iff; right; now left|].
    split; [exact Hid|]. split; [exact Hst|]. split; [exact Hc|].
    intros ->. rewrite run_relay_written. split; [reflexivity|].
    apply forwarded_verbatim.
  - intros data H.
    destruct (messages_handler_replied _ _ _ _ _ _ _ _ H)
      as (chunks & text & row & -> & _ & Hparse & Htext & Ht & Hid & Hst & Hc).
    exists chunks, text, row. split; [reflexivity|]. split; [exact Hparse|].
    split; [exact Htext|].
    split; [rewrite Ht; apply in_app_iff; right; now left|]. easy.
Qed.

Lemma messages_storage_limit_witness :
  exists row,
    In row (tasks (Messages.handler toy_hash messages_env empty_db (Some "sk-ant-key")
                     None messages_body (Upstream.Ok hello_chunks None)).2)
    /\ Task.status row = success
    /\ Task.completion row
       = Some (JS.substring0
                 (Messages.fullCompletion (Messages.run_relay hello_chunks None))
                 Messages.LIMIT)
    /\ Upstream.body_text (forwarded_frames (Upstream.body_text hello_chunks))
       = Upstream.body_text hello_chunks.
Proof.
  destruct (messages_storage_limit toy_hash messages_env empty_db (Some "sk-ant-key")
              None messages_body (Upstream.Ok hello_chunks None)) as (_ & _ & H & _).
  destruct (H (Messages.written (Messages.run_relay hello_chunks None)) eq_refl)
    as (chunks & failure & row & Hup & Hin & _ & Hst & Hc & Hf).
  injection Hup as <- <-. exists row.
  split; [exact Hin|]. split; [exact Hst|]. split; [exact Hc|].
  destruct (Hf eq_refl) as [_ Hv]. apply Hv.
  - apply plain_lines_check. vm_compute. reflexivity.
  - vm_compute. reflexivity.
Defined.

(** * Further properties of the gateway *)

(** ** Provider detection from the credential *)

Lemma startsWith_weaken (s p q : string) :
  String.prefix q p = true -> JS.startsWith s p = true -> JS.startsWith s q = true.
Proof.
  unfold JS.startsWith. revert p s. induction q as [|c q IH]; intros p s Hqp Hp.
  - now destruct s.
  - destruct p as [|d p]; [discriminate|]. destruct s as [|x s]; [discriminate|].
    cbn [String.prefix] in *.
    destruct (ascii_dec c d) as [->|]; [|discriminate].
    destruct (ascii_dec d x) as [->|]; [|discriminate].
    now apply (IH p).
Qed.

(** X1.  [detectProviderFromKey] sorts a credential by its prefix, and the
    families do not overlap: "sk-ant-" is Anthropic, any other "sk-" is
    OpenAI, "AIza" is Google, "xai-" is xAI, everything else (the empty and
    the missing key included) is unrecognised.  OpenRouter is never
    detected from a key. *)
Theorem detectProviderFromKey_families (key : string) :
  (detectProviderFromKey (Some key) = Some anthropic
   <-> JS.startsWith key "sk-ant-" = true)
  /\ (detectProviderFromKey (Some key) = Some openai
      <-> JS.startsWith key "sk-" = true /\ JS.startsWith key "sk-ant-" = false)
  /\ (detectProviderFromKey (Some key) = Some google
      <-> JS.startsWith key "AIza" = true)
  /\ (detectProviderFromKey (Some key) = Some xai
      <-> JS.startsWith key "xai-" = true)
  /\ (detectProviderFromKey (Some key) = None <-> key_families key = false)
  /\ detectProviderFromKey (Some key) <> Some openrouter
  /\ detectProviderFromKey None = None.
Proof.
  assert (Hant : JS.startsWith key "sk-ant-" = true -> JS.startsWith key "sk-" = true)
    by now apply startsWith_weaken.
  assert (Hg : JS.startsWith key "AIza" = true -> JS.startsWith key "sk-" = false)
    by now apply startsWith_exclusive.
  assert (Hx : JS.startsWith key "xai-" = true -> JS.startsWith key "sk-" = false)
    by now apply startsWith_exclusive.
  assert (Hxg : JS.startsWith key "xai-" = true -> JS.startsWith key "AIza" = false)
    by now apply startsWith_exclusive.
  unfold detectProviderFromKey, key_families.
  destruct key as [|c key]; [cbn; intuition congruence|].
  cbn [JS.truthy_str String.eqb negb default from_option Datatypes.id].
  destruct (JS.startsWith (String c key) "sk-") eqn:E1,
           (JS.startsWith (String c key) "sk-ant-") eqn:E2,
           (JS.startsWith (String c key) "AIza") eqn:E3,
           (JS.startsWith (String c key) "xai-") eqn:E4;
    cbn [andb orb negb];
    try (specialize (Hant eq_refl)); try (specialize (Hg eq_refl));
    try (specialize (Hx eq_refl)); try (specialize (Hxg eq_refl));
    try discriminate; intuition congruence.
Qed.

(** ** Token estimate *)

(** X2.  [estimateTokens] is the length divided by four, rounded up: four
    times the estimate covers the text and overshoots it by less than four
    code units; it is zero exactly for the empty text (and for a missing
    one), and it grows with the length. *)
Theorem estimateTokens_bounds (text text' : string) :
  (4 * estimateTokens (Some text) - 4 < Z.of_nat (String.length text)
   <= 4 * estimateTokens (Some text))%Z
  /\ (estimateTokens (Some text) = 0%Z <-> text = EmptyString)
  /\ estimateTokens None = 0%Z
  /\ ((String.length text <= String.length text')%nat ->
      (estimateTokens (Some text) <= estimateTokens (Some text'))%Z).
Proof.
  assert (H : forall s, estimateTokens (Some s) = ((Z.of_nat (String.length s) + 3) / 4)%Z).
  { intros [|c s]; [reflexivity|]. unfold estimateTokens. reflexivity. }
  rewrite !H. repeat split.
  - pose proof (Z.mul_div_le (Z.of_nat (String.length text) + 3) 4). lia.
  - pose proof (Z.mul_succ_div_gt (Z.of_nat (String.length text) + 3) 4). lia.
  - intros E. destruct text; [reflexivity|]. cbn [String.length] in E.
    pose proof (Z.mul_succ_div_gt (Z.of_nat (S (String.length text)) + 3) 4). lia.
  - now intros ->.
  - intros Hle. apply Z.div_le_mono; lia.
Qed.

Lemma estimateTokens_bounds_witness :
  (estimateTokens (Some "abcde") <= estimateTokens (Some "abcdefghi"))%Z.
Proof.
  apply (estimateTokens_bounds "abcde" "abcdefghi"). cbn. lia.
Defined.

(** ** Chunk boundaries *)

Lemma chat_run_relay_body (e : Chat.env) (m : string) (chunks chunks' : list string) :
  Upstream.body_text chunks = Upstream.body_text chunks' ->
  Chat.run_relay e m chunks = Chat.run_relay e m chunks'.
Proof.
  intros H. unfold Chat.run_relay. now rewrite !read_all_body_text, H.
Qed.

Lemma messages_run_relay_body (chunks chunks' : list string) (failure : option string) :
  Upstream.body_text chunks = Upstream.body_text chunks' ->
  Messages.run_relay chunks failure = Messages.run_relay chunks' failure.
Proof.
  intros H. unfold Messages.run_relay. now rewrite !read_all_body_text, H.
Qed.

(** X3.  Both proxy handlers depend on the upstream body only, not on how
    the transport cuts it into chunks: two deliveries of the same bytes
    give the same response to the caller and the same database. *)
Theorem handlers_ignore_chunk_boundaries (hashKey : string -> string)
    (db : database) (chunks chunks' : list string) (failure : option string) :
  Upstream.body_text chunks = Upstream.body_text chunks' ->
  (forall e authorization b,
     Chat.handler hashKey e db authorization b (Upstream.Ok chunks failure)
     = Chat.handler hashKey e db authorization b (Upstream.Ok chunks' failure))
  /\ (forall e x_api_key authorization b,
        Messages.handler hashKey e db x_api_key authorization b
          (Upstream.Ok chunks failure)
        = Messages.handler hashKey e db x_api_key authorization b
            (Upstream.Ok chunks' failure)).
Proof.
  intros H. split.
  - intros e authorization b. unfold Chat.handler.
    destruct (JS.or_str (Chat.model b) None) as [m|]; [|reflexivity].
    now rewrite (chat_run_relay_body e m _ _ H).
  - intros e x_api_key authorization b. unfold Messages.handler.
    now rewrite (messages_run_relay_body _ _ failure H), H.
Qed.

Lemma handlers_ignore_chunk_boundaries_witness :
  Chat.handler toy_hash chat_env empty_db (Some "Bearer sk-ant-key") chat_body
    (Upstream.Ok hello_chunks None)
  = Chat.handler toy_hash chat_env empty_db (Some "Bearer sk-ant-key") chat_body
      (Upstream.Ok [hello_stream] None).
Proof.
  apply (handlers_ignore_chunk_boundaries toy_hash empty_db hello_chunks
           [hello_stream] None).
  vm_compute. reflexivity.
Defined.

(** ** The messages proxy closes every span it opens *)




(** ** The authentication middleware *)

Lemma getOrCreateAccount_row (accts accts' : list Account.row)
    (h p u n1 n2 : string) (account : Account.obj) :
  getOrCreateAccount accts h p u n1 n2 = Some (account, accts') ->
  exists row, In row accts' /\ Account.id row = Account.o_id account
              /\ Account.key_hash row = h /\ Account.last_seen_at row = Some n2.
Proof.
  intros H.
  assert (exists r0 base,
            accts' = touched (Account.id r0) n2 base
            /\ Account.o_id account = Account.id r0
            /\ find (fun r => String.eqb (Account.key_hash r) h) base = Some r0)
    as (r0 & base & -> & Hid & Hfind).
  { destruct (find (fun r => String.eqb (Account.key_hash r) h) accts) as [r|] eqn:E.
    - rewrite (getOrCreateAccount_found _ _ _ _ _ _ _ E) in H.
      injection H as <- <-. exists r, accts. easy.
    - unfold getOrCreateAccount, sql_get, insert_account in H. rewrite E in H.
      cbn [Account.id] in H. destruct (existsb _ accts); [discriminate|].
      injection H as <- <-.
      set (new := {| Account.id := u; Account.key_hash := h; Account.provider := p;
                     Account.created_at := Some n1; Account.last_seen_at := None |}).
      exists new, (accts ++ [new]). split; [reflexivity|]. split; [reflexivity|].
      apply find_app_None; [exact E|]. cbn. apply String.eqb_refl. }
  pose proof (find_touched (Account.id r0) n2 h base) as Hf.
  rewrite Hfind in Hf. cbn [option_map] in Hf. rewrite String.eqb_refl in Hf.
  apply find_some in Hf as [Hin Hk]. exists (touch_account n2 r0).
  split; [exact Hin|]. split; [now rewrite Hid|]. split; [|reflexivity].
  now apply String.eqb_eq in Hk.
Qed.

Lemma find_none_forall {A : Type} (f : A -> bool) (l : list A) :
  find f l = None -> Forall (fun x => f x = false) l.
Proof.
  induction l as [|x l IH]; cbn; [constructor|].
  destruct (f x) eqn:E; [discriminate|]. intros H. constructor; auto.
Qed.

(** X6.  The middleware refuses a request whose header is missing or does
    not start with "Bearer ", and one whose key is neither a stored legacy
    key nor of a known provider family.  A request it lets through never
    changes the spans.  A stored legacy key wins over the provider
    families and only gets its time of last use set; a provider key is
    backed, afterwards, by an account row that carries its hash and the
    time of the call. *)
Theorem validateApiKey_effects (hashKey : string -> string) (db : database)
    (authorization : option string) (uuid now : string) :
  (authorization = None ->
   validateApiKey hashKey db authorization uuid now
   = Unauthorized "Missing or invalid Authorization header")
  /\ (forall authHeader, authorization = Some authHeader ->
      JS.startsWith authHeader "Bearer " = false ->
      validateApiKey hashKey db authorization uuid now
      = Unauthorized "Missing or invalid Authorization header")
  /\ (forall authHeader, authorization = Some authHeader ->
      JS.startsWith authHeader "Bearer " = true ->
      let key := JS.replace authHeader "Bearer " EmptyString in
      (Forall (fun k => ApiKey.key k <> key) (api_keys db) ->
       detectProviderFromKey (Some key) = None ->
       validateApiKey hashKey db authorization uuid now = Unauthorized "Invalid API key")
      /\ (forall k, In k (api_keys db) -> ApiKey.key k = key ->
          exists k' db', validateApiKey hashKey db authorization uuid now
                         = Authorized (Legacy k') db')
      /\ (forall a db', validateApiKey hashKey db authorization uuid now
                        = Authorized a db' ->
          authorized_as hashKey db key now a db')).
Proof.
  split; [now intros ->|]. split.
  { intros authHeader -> H. unfold validateApiKey. now rewrite H. }
  intros authHeader -> Hb key. unfold validateApiKey. rewrite Hb. cbn [negb].
  fold key. unfold sql_get.
  destruct (find (fun r => String.eqb (ApiKey.key r) key) (api_keys db)) as [k0|] eqn:Ef.
  - apply find_some in Ef as [Hin Hk]. apply String.eqb_eq in Hk.
    split; [|split].
    + intros Hall _. rewrite List.Forall_forall in Hall. now destruct (Hall _ Hin).
    + intros k _ _. eauto.
    + intros a db' [= <- <-]. split; [reflexivity|].
      split; [exact Hin|]. split; [exact Hk|]. split; [reflexivity|].
      unfold sql_update. cbn [fst with_api_keys api_keys]. rewrite !map_map.
      split; [|split].
      * apply map_ext. intros r. now destruct (String.eqb _ _).
      * apply map_ext. intros r. now destruct (String.eqb _ _).
      * apply List.Forall_forall. intros r Hr.
        apply in_map_iff in Hr as (r0 & <- & _).
        destruct (String.eqb (ApiKey.id r0) (ApiKey.id k0)) eqn:E; [reflexivity|].
        apply String.eqb_neq in E. intros E'. contradiction.
  - apply find_none_forall in Ef.
    assert (Hnone : Forall (fun k => ApiKey.key k <> key) (api_keys db)).
    { revert Ef. apply List.Forall_impl. intros k. apply String.eqb_neq. }
    split; [|split].
    + intros _ ->. reflexivity.
    + intros k Hin Hk. rewrite List.Forall_forall in Hnone. now destruct (Hnone _ Hin).
    + intros a db'. destruct (detectProviderFromKey (Some key)) as [p|] eqn:Ep;
        [|discriminate].
      destruct (getOrCreateAccount _ _ _ _ _ _) as [[account accts]|] eqn:Eg;
        [|discriminate].
      intros [= <- <-]. split; [reflexivity|].
      split; [reflexivity|]. split; [reflexivity|]. split; [exact Hnone|].
      split; [rewrite Ep; discriminate|]. cbn [with_accounts accounts].
      exact (getOrCreateAccount_row _ _ _ _ _ _ _ _ Eg).
Qed.

Lemma validateApiKey_effects_witness :
  exists a db',
    validateApiKey toy_hash empty_db (Some "Bearer sk-ant-key") "acc-1" "t0"
    = Authorized a db'
    /\ authorized_as toy_hash empty_db "sk-ant-key" "t0" a db'.
Proof.
  destruct (validateApiKey_effects toy_hash empty_db (Some "Bearer sk-ant-key")
              "acc-1" "t0") as (_ & _ & H).
  destruct (H "Bearer sk-ant-key" eq_refl eq_refl) as (_ & _ & Hok).
  eexists _, _. split; [reflexivity|]. apply Hok. reflexivity.
Defined.

(** ** The prompt text and its reconstruction *)

Lemma split_sep_app (sep : ascii) (a b : string) :
  JS.split sep (a +:+ String sep b) = JS.split sep a ++ JS.split sep b.
Proof.
  induction a as [|c a IH].
  - cbn [JS.split]. change (EmptyString +:+ String sep b) with (String sep b).
    cbn [JS.split]. now rewrite Ascii.eqb_refl.
  - rewrite append_cons. cbn [JS.split]. rewrite IH.
    destruct (Ascii.eqb c sep); [reflexivity|].
    pose proof (split_nonempty sep a) as Hne.
    now destruct (JS.split sep a).
Qed.

Lemma split_join (parts : list string) :
  parts <> [] ->
  JS.split "010" (JS.join nl parts) = concat (map (JS.split "010") parts).
Proof.
  induction parts as [|p parts IH]; [easy|]. intros _.
  destruct parts as [|q parts].
  - cbn. now rewrite app_nil_r.
  - rewrite join_cons by discriminate.
    change (p +:+ nl +:+ JS.join nl (q :: parts))
      with (p +:+ String "010" (JS.join nl (q :: parts))).
    rewrite split_sep_app, IH by discriminate. reflexivity.
Qed.

Lemma split_prefix (sep : ascii) (p s : string) :
  JS.split sep p = [p] ->
  JS.split sep (p +:+ s)
  = match JS.split sep s with
    | first :: more => (p +:+ first) :: more
    | [] => []
    end.
Proof.
  induction p as [|c p IH]; intros H.
  - change (EmptyString +:+ s) with s. now destruct (JS.split sep s).
  - rewrite append_cons. cbn [JS.split] in *.
    destruct (Ascii.eqb c sep); [discriminate|].
    pose proof (split_nonempty sep p) as Hne.
    destruct (JS.split sep p) as [|l ls] eqn:E; [contradiction|].
    injection H as -> ->. rewrite (IH eq_refl).
    pose proof (split_nonempty sep s) as Hs.
    now destruct (JS.split sep s).
Qed.

Lemma is_role_cases (r : string) :
  is_role r = true -> r = "system" \/ r = "user" \/ r = "assistant".
Proof.
  unfold is_role. rewrite !orb_true_iff, !String.eqb_eq. tauto.
Qed.

(** the line block of one turn and what the loop reads off its first line *)
Lemma prompt_line_block (m : Replay.message) (first : string) (more : list string) :
  is_role (Replay.role m) = true ->
  JS.split "010" (Replay.content m) = first :: more ->
  JS.trim first = first ->
  exists line tag,
    JS.split "010" (prompt_line m) = line :: more
    /\ tag_of line = Some (Replay.role m, tag)
    /\ JS.trim (JS.replace line tag EmptyString) = first.
Proof.
  intros Hr Hs Ht. unfold prompt_line. destruct m as [r c]. cbn [Replay.role Replay.content] in *.
  apply is_role_cases in Hr as [->| [->| ->]].
  - exists ("system: " +:+ first), "system:".
    change ("system" +:+ ": " +:+ c) with ("system: " +:+ c).
    rewrite split_prefix, Hs by reflexivity.
    split; [reflexivity|]. split; [reflexivity|].
    transitivity (JS.trim first); [reflexivity|exact Ht].
  - exists ("user: " +:+ first), "user:".
    change ("user" +:+ ": " +:+ c) with ("user: " +:+ c).
    rewrite split_prefix, Hs by reflexivity.
    split; [reflexivity|]. split; [reflexivity|].
    transitivity (JS.trim first); [reflexivity|exact Ht].
  - exists ("assistant: " +:+ first), "assistant:".
    change ("assistant" +:+ ": " +:+ c) with ("assistant: " +:+ c).
    rewrite split_prefix, Hs by reflexivity.
    split; [reflexivity|]. split; [reflexivity|].
    transitivity (JS.trim first); [reflexivity|exact Ht].
Qed.

Lemma prompt_lines_open (msgs : list Replay.message) :
  Forall replayable msgs ->
  opens_turn (concat (map (JS.split "010") (map prompt_line msgs))).
Proof.
  intros H. destruct H as [|m msgs (Hr & _ & Hc) _]; [exact I|].
  destruct (JS.split "010" (Replay.content m)) as [|first more] eqn:Es; [contradiction|].
  destruct Hc as [Ht _].
  destruct (prompt_line_block m first more Hr Es Ht) as (line & tag & Hl & Htag & _).
  cbn [map concat]. rewrite Hl. cbn. now rewrite Htag.
Qed.

Lemma parse_prompt_lines (msgs : list Replay.message) :
  Forall replayable msgs ->
  Replay.parse_lines (concat (map (JS.split "010") (map prompt_line msgs))) = msgs.
Proof.
  induction 1 as [|m msgs Hm Hms IH]; [reflexivity|].
  cbn [map concat].
  rewrite parse_lines_app by now apply prompt_lines_open.
  rewrite IH. destruct Hm as (Hr & Htrim & Hc).
  destruct (JS.split "010" (Replay.content m)) as [|first more] eqn:Es; [contradiction|].
  destruct Hc as [Ht Hu].
  destruct (prompt_line_block m first more Hr Es Ht) as (line & tag & -> & Htag & Hfirst).
  rewrite (parse_lines_turn _ _ _ _ Htag Hu). unfold turn. rewrite Hfirst, <- Es.
  change Replay.nl with nl. rewrite join_split, Htrim. now destruct m.
Qed.

Lemma mapM_map_Some {A B C : Type} (f : B -> option C) (g : A -> B) (h : A -> C)
    (l : list A) :
  (forall x, f (g x) = Some (h x)) -> mapM f (map g l) = Some (map h l).
Proof.
  intros H. induction l as [|x l IH]; [reflexivity|].
  cbn [map mapM]. rewrite H, IH. reflexivity.
Qed.

Lemma promptText_chat_messages (msgs : list Replay.message) :
  Chat.promptText (map chat_message msgs) = Some (JS.join nl (map prompt_line msgs))
  /\ Messages.promptText (map chat_message msgs) = Some (JS.join nl (map prompt_line msgs)).
Proof.
  unfold Chat.promptText, Messages.promptText.
  split; now rewrite (mapM_map_Some _ chat_message prompt_line).
Qed.

(** X7.  The prompt text both proxies store can be read back: for turns
    with a role among system, user and assistant, whose content has no
    white space around it or at the end of its first line and no later
    line starting with a role tag, the reconstruction gives back exactly
    the turns the prompt text was built from, and a stored span without a
    request snapshot is replayed with these turns. *)
Theorem prompt_text_round_trip (msgs : list Replay.message) :
  msgs <> [] -> Forall replayable msgs ->
  exists p,
    Chat.promptText (map chat_message msgs) = Some p
    /\ Messages.promptText (map chat_message msgs) = Some p
    /\ Replay.reconstruct p = msgs
    /\ forall (t : Task.row) (model : string),
         Task.original_request t = None -> Task.prompt t = Some p ->
         Task.model t = Some model -> model <> EmptyString ->
         Replay.build_replay_request t = Some (Replay.Rebuilt model msgs).
Proof.
  intros Hne H. exists (JS.join nl (map prompt_line msgs)).
  destruct (promptText_chat_messages msgs) as [Hc Hm].
  assert (Hrec : Replay.reconstruct (JS.join nl (map prompt_line msgs)) = msgs).
  { rewrite reconstruct_parse_lines, split_join by now destruct msgs.
    now apply parse_prompt_lines. }
  split; [exact Hc|]. split; [exact Hm|]. split; [exact Hrec|].
  intros t model Ho Hp Hmodel Hmne.
  unfold Replay.build_replay_request. rewrite Ho, Hp, Hmodel.
  cbn [JS.truthy_str JSON.truthy default from_option Datatypes.id].
  apply String.eqb_neq in Hmne. rewrite Hmne.
  assert (Hpne : String.eqb (JS.join nl (map prompt_line msgs)) EmptyString = false).
  { apply String.eqb_neq. intros E. rewrite E in Hrec.
    destruct msgs as [|m [|m' msgs]]; [easy| |discriminate].
    inversion H as [|? ? (Hr & _) _]; subst.
    injection Hrec as <-. discriminate. }
  rewrite Hpne. cbn [negb andb]. now rewrite Hrec.
Qed.

Lemma prompt_text_round_trip_witness :
  exists p, Chat.promptText (map chat_message two_turns) = Some p
            /\ Replay.reconstruct p = two_turns.
Proof.
  assert (Hr : Forall replayable two_turns).
  { repeat constructor; unfold untagged; reflexivity. }
  destruct (prompt_text_round_trip two_turns ltac:(discriminate) Hr)
    as (p & Hc & _ & Hrec & _).
  exists p. split; [exact Hc|exact Hrec].
Defined.

(** ** The life of a span: start, complete, read *)

Lemma sql_update_app {row : Type} (where_ : row -> bool) (set : row -> row)
    (l1 l2 : list row) :
  sql_update where_ set (l1 ++ l2)
  = ((sql_update where_ set l1).1 ++ (sql_update where_ set l2).1,
     ((sql_update where_ set l1).2 + (sql_update where_ set l2).2)%nat).
Proof.
  unfold sql_update. cbn [fst snd].
  now rewrite map_app, List.filter_app, length_app.
Qed.

Lemma fresh_no_match (t : list Task.row) (id : string) (f : Task.row -> bool) :
  ~ In id (map Task.id t) ->
  Forall (fun r => String.eqb (Task.id r) id && f r = false) t.
Proof.
  intros H. apply List.Forall_forall. intros r Hr.
  destruct (String.eqb (Task.id r) id) eqn:E; [|reflexivity].
  apply String.eqb_eq in E. destruct H. apply in_map_iff. eauto.
Qed.

Lemma find_fresh (t : list Task.row) (id : string) (f : Task.row -> bool) (r : Task.row) :
  ~ In id (map Task.id t) -> Task.id r = id -> f r = true ->
  find (fun r => String.eqb (Task.id r) id && f r) (t ++ [r]) = Some r.
Proof.
  intros H Hid Hf. apply find_app_None.
  - apply fresh_no_match with (f := f) in H.
    induction H as [|x t Hx _ IH]; [reflexivity|]. cbn. now rewrite Hx.
  - now rewrite Hid, String.eqb_refl, Hf.
Qed.

Lemma find_fresh_none (t : list Task.row) (id : string) (f : Task.row -> bool) (r : Task.row) :
  ~ In id (map Task.id t) -> f r = false ->
  find (fun r => String.eqb (Task.id r) id && f r) (t ++ [r]) = None.
Proof.
  intros H Hf. apply fresh_no_match with (f := f) in H.
  induction H as [|x t Hx _ IH]; cbn.
  - now rewrite Hf, andb_false_r.
  - now rewrite Hx.
Qed.

Lemma owned_by_own (a : auth) (r : Task.row) :
  Task.account_id r = getAccountId a -> owned_by a r = true.
Proof.
  intros H. unfold owned_by. rewrite H.
  destruct a; cbn; rewrite String.eqb_refl; apply orb_true_r.
Qed.

Lemma owned_by_other (a a' : auth) (r : Task.row) :
  Task.api_key_id r = apiKeyId a -> Task.account_id r = getAccountId a ->
  getAccountId a' <> getAccountId a -> owned_by a' r = false.
Proof.
  intros H1 H2 Hne. unfold owned_by. rewrite H1, H2.
  assert (E2 : sql_eq (getAccountId a) (getAccountId a') = false).
  { destruct a, a'; cbn in *; apply String.eqb_neq; congruence. }
  rewrite E2, orb_false_r.
  destruct a as [k|], a' as [k'|]; cbn in *; try reflexivity.
  - unfold JS.or_str, JS.truthy_str.
    destruct (String.eqb (ApiKey.id k) EmptyString), (String.eqb (ApiKey.id k') EmptyString);
      cbn; try reflexivity.
    apply String.eqb_neq. congruence.
  - unfold JS.or_str, JS.truthy_str.
    now destruct (String.eqb (ApiKey.id k) EmptyString).
Qed.

Lemma complete_only_row (t : list Task.row) (a : auth) (id : string)
    (st : task_status) (b : Complete.body) (dur : Z) (now : string) (r : Task.row) :
  ~ In id (map Task.id t) ->
  sql_update (Complete.is_target a id) (Complete.finalize st b dur now) (t ++ [r])
  = (t ++ [if Complete.is_target a id r then Complete.finalize st b dur now r else r],
     if Complete.is_target a id r then 1%nat else 0%nat).
Proof.
  intros H. rewrite sql_update_app, sql_update_untouched.
  - unfold sql_update. cbn. now destruct (Complete.is_target a id r).
  - apply fresh_no_match with (f := fun r => owned_by a r
        && match Task.status r with running => true | _ => false end) in H.
    revert H. apply List.Forall_impl. intros x Hx. unfold Complete.is_target.
    now rewrite <- andb_assoc.
Qed.

(** X8.  A span opened by [POST /api/tasks/start] under a fresh id is a
    running row the caller can read back; the same caller completes it
    exactly once, after which the row carries the final status, the given
    duration and the completion time, keeps its start time, and a second
    completion is refused without a change.  A caller with another
    identity can neither read nor complete the span.  The rows that were
    there before are never touched. *)
Theorem start_complete_get (t : list Task.row) (a a' : auth) (b : Start.body)
    (cb : Complete.body) (id uuid now0 now1 s : string) (st : task_status) (dur : Z) :
  JS.truthy_str (Start.agent b) = true -> JS.truthy_str (Start.task b) = true ->
  ~ In id (map Task.id t) ->
  Complete.status cb = Some s -> Complete.terminal_status s = Some st ->
  Complete.durationMs cb = Some dur ->
  getAccountId a' <> getAccountId a ->
  let row := Start.started_row a b id uuid now0 in
  let final := Complete.finalize st cb dur now1 row in
  Start.handler t a b id uuid now0
  = (Start.Started id (Start.generatedTraceId b uuid) now0, t ++ [row])
  /\ GetTask.handler (t ++ [row]) a id = Some row
  /\ GetTask.handler (t ++ [row]) a' id = None
  /\ Complete.handler (t ++ [row]) a' id cb now1
     = (Complete.NotFoundOrNotRunning, t ++ [row])
  /\ Complete.handler (t ++ [row]) a id cb now1 = (Complete.Completed id st, t ++ [final])
  /\ GetTask.handler (t ++ [final]) a id = Some final
  /\ GetTask.handler (t ++ [final]) a' id = None
  /\ Task.status final = st /\ st <> running
  /\ Task.duration_ms final = dur
  /\ Task.started_at final = Some now0 /\ Task.completed_at final = Some now1
  /\ Complete.handler (t ++ [final]) a id cb now1
     = (Complete.NotFoundOrNotRunning, t ++ [final]).
Proof.
  intros Hagent Htask Hfresh Hs Hst Hdur Hne row final.
  assert (Hex : existsb (fun r' => String.eqb (Task.id r') id) t = false).
  { destruct (existsb _ t) eqn:E; [|reflexivity].
    apply existsb_id in E. contradiction. }
  assert (Hown : owned_by a row = true) by now apply owned_by_own.
  assert (Hother : owned_by a' row = false) by now apply (owned_by_other a).
  assert (Hstrue : negb (JS.truthy_str (Complete.status cb)) = false).
  { rewrite Hs. cbn. destruct (String.eqb s EmptyString) eqn:E; [|reflexivity].
    apply String.eqb_eq in E. subst s. discriminate. }
  assert (Hrun := terminal_status_not_running _ _ Hst).
  assert (Hcomplete : forall who r,
            Complete.handler (t ++ [r]) who id cb now1
            = if Complete.is_target who id r
              then (Complete.Completed id st, t ++ [Complete.finalize st cb dur now1 r])
              else (Complete.NotFoundOrNotRunning, t ++ [r])).
  { intros who r. unfold Complete.handler. rewrite Hstrue, Hdur, Hs.
    cbn [default from_option Datatypes.id]. rewrite Hst.
    rewrite (complete_only_row _ _ _ _ _ _ _ _ Hfresh).
    now destruct (Complete.is_target who id r). }
  split.
  { unfold Start.handler, insert_task. rewrite Hagent, Htask. cbn [negb orb].
    cbn [Task.id Start.started_row]. now rewrite Hex. }
  split; [now apply find_fresh|].
  split; [now apply find_fresh_none|].
  split.
  { rewrite Hcomplete. unfold Complete.is_target. now rewrite Hother, andb_false_r. }
  split.
  { rewrite Hcomplete. unfold Complete.is_target. rewrite Hown.
    cbn [Task.id Task.status Start.started_row row]. now rewrite String.eqb_refl. }
  split; [now apply find_fresh|].
  split; [now apply find_fresh_none|].
  split; [reflexivity|]. split; [exact Hrun|].
  split; [reflexivity|]. split; [reflexivity|]. split; [reflexivity|].
  rewrite Hcomplete. unfold Complete.is_target.
  cbn [Task.status Complete.finalize final].
  destruct st; try (now rewrite andb_false_r). contradiction.
Qed.

Lemma start_complete_get_witness :
  GetTask.handler
    (Complete.handler (Start.handler [] (account_of "acc-1") start_body
                         "span-1" "trace-1" "t0").2
       (account_of "acc-1") "span-1" done_body "t1").2
    (account_of "acc-2") "span-1"
  = None.
Proof.
  destruct (start_complete_get [] (account_of "acc-1") (account_of "acc-2") start_body
              done_body "span-1" "trace-1" "t0" "t1" "success" success 1200
              eq_refl eq_refl ltac:(cbn; tauto) eq_refl eq_refl eq_refl
              ltac:(discriminate))
    as (Hstart & _ & _ & _ & Hdone & _).
  rewrite Hstart. cbn [snd]. rewrite Hdone. reflexivity.
Defined.

(** X9.  The placeholder that the retry endpoint creates is a pending
    span, and the completion endpoint only finishes running spans: whoever
    calls it and whatever the body, the placeholder is never completed and
    the table stays as it is, while its owner can read it back as
    pending. *)
Theorem retry_placeholder_never_completes (t t' : list Task.row) (a : auth)
    (id : string) (modified_prompt : option string) (retryId retryTraceId now : string)
    (rid orig : string) (used : option string) :
  Retry.handler t a id modified_prompt retryId retryTraceId now
  = (Retry.Created rid orig used, t') ->
  rid = retryId
  /\ (exists row, GetTask.handler t' a rid = Some row /\ Task.status row = pending
                  /\ Task.parent_id row = Some orig)
  /\ forall (who : auth) (cb : Complete.body) (now' : string),
       (Complete.handler t' who rid cb now').2 = t'
       /\ forall i st, (Complete.handler t' who rid cb now').1 <> Complete.Completed i st.
Proof.
  unfold Retry.handler.
  destruct (sql_get _ t) as [originalTask|]; [|discriminate].
  unfold insert_task.
  set (row := Retry.retry_row a originalTask modified_prompt retryId retryTraceId now).
  destruct (existsb _ t) eqn:Hex; [discriminate|].
  intros [= <- <- <- <-].
  assert (Hfresh : ~ In retryId (map Task.id t)).
  { intros Hin. apply existsb_id in Hin. cbn [Task.id Retry.retry_row row] in Hex.
    congruence. }
  split; [reflexivity|]. split.
  { exists row. split; [|split; reflexivity].
    apply find_fresh; [exact Hfresh|reflexivity|now apply owned_by_own]. }
  intros who cb now'. unfold Complete.handler.
  destruct (negb (JS.truthy_str (Complete.status cb))); [easy|].
  destruct (Complete.durationMs cb) as [dur|]; [|easy].
  destruct (Complete.terminal_status _) as [st|]; [|easy].
  rewrite (complete_only_row _ _ _ _ _ _ _ _ Hfresh).
  assert (E : Complete.is_target who retryId row = false).
  { unfold Complete.is_target. cbn [Task.status Retry.retry_row row].
    apply andb_false_r. }
  rewrite E. cbn. easy.
Qed.

Lemma retry_placeholder_never_completes_witness :
  (Complete.handler
     (Retry.handler [failed_span] key_1 (Task.id failed_span) None
        "retry-1" "trace-9" "t5").2
     key_1 "retry-1" done_body "t6").1
  <> Complete.Completed "retry-1" success.
Proof.
  pose proof (retry_placeholder_never_completes [failed_span] _ key_1
                (Task.id failed_span) None "retry-1" "trace-9" "t5" _ _ _ eq_refl)
    as (_ & _ & H).
  destruct (H key_1 done_body "t6") as [_ Hno].
  apply Hno.
Defined.

(** ** The account lookup endpoint and the middleware *)

Lemma lookup_found_row (accts accts' : list Account.row) (b : Lookup.body)
    (uuid now id p : string) (created : bool) :
  Lookup.handler accts b uuid now = (Lookup.Found id p created, accts') ->
  exists kh row,
    Lookup.key_hash b = Some kh /\ kh <> EmptyString
    /\ find (fun r => String.eqb (Account.key_hash r) kh) accts' = Some row
    /\ Account.id row = id /\ Account.provider row = p
    /\ map Account.id accts' = map Account.id accts ++ (if created then [uuid] else [])
    /\ (created = true ->
        id = uuid /\ Lookup.provider b = Some p
        /\ find (fun r => String.eqb (Account.key_hash r) kh) accts = None)
    /\ (created = false ->
        exists row0, find (fun r => String.eqb (Account.key_hash r) kh) accts = Some row0
                     /\ Account.id row0 = id /\ Account.provider row0 = p
                     /\ Account.last_seen_at row = Some now).
Proof.
  unfold Lookup.handler.
  destruct (Lookup.key_hash b) as [kh|]; [|discriminate].
  cbn [JS.truthy_str]. destruct (String.eqb kh EmptyString) eqn:Ekh; [discriminate|].
  apply String.eqb_neq in Ekh.
  destruct (Lookup.provider b) as [pv|]; [|discriminate].
  cbn [JS.truthy_str]. destruct (String.eqb pv EmptyString); [discriminate|].
  cbn [negb orb default from_option Datatypes.id].
  destruct (negb (existsb _ Lookup.validProviders)); [discriminate|].
  unfold sql_get, insert_account.
  destruct (find _ accts) as [r|] eqn:Ef.
  - intros [= <- <- <- <-]. exists kh, (touch_account now r).
    split; [reflexivity|]. split; [exact Ekh|].
    fold (touched (Account.id r) now accts). split.
    { rewrite find_touched, Ef. cbn. now rewrite String.eqb_refl. }
    split; [reflexivity|]. split; [reflexivity|]. split.
    { now rewrite touched_ids, app_nil_r. }
    split; [discriminate|]. intros _. exists r. easy.
  - cbn [Account.id]. destruct (existsb _ accts); [discriminate|].
    intros [= <- <- <- <-]. eexists kh, _.
    split; [reflexivity|]. split; [exact Ekh|]. split.
    { apply find_app_None; [exact Ef|]. cbn. apply String.eqb_refl. }
    split; [reflexivity|]. split; [reflexivity|]. split.
    { now rewrite map_app. }
    split; [easy|discriminate].
Qed.

(** X10.  The account id that [POST /api/account/lookup] hands out is the
    one the rest of the service uses for the same key hash: afterwards
    [getOrCreateAccount], and with it the middleware, finds this account
    and creates no other, and a second lookup of the hash answers the same
    id with [created: false].  The provider on record is the one of the
    first registration, whatever provider a later call names; an account
    is created only for a hash that was not on record. *)
Theorem lookup_is_stable (accts accts' : list Account.row) (b : Lookup.body)
    (uuid now id p : string) (created : bool) :
  Lookup.handler accts b uuid now = (Lookup.Found id p created, accts') ->
  exists kh,
    Lookup.key_hash b = Some kh
    /\ (forall q u n1 n2,
        exists account accts'',
          getOrCreateAccount accts' kh q u n1 n2 = Some (account, accts'')
          /\ Account.o_id account = id /\ Account.o_provider account = p
          /\ Account.o_created account = false
          /\ map Account.id accts'' = map Account.id accts')
    /\ (forall q uuid' now',
        In q Lookup.validProviders ->
        exists accts'',
          Lookup.handler accts' {| Lookup.key_hash := Some kh; Lookup.provider := Some q |}
            uuid' now'
          = (Lookup.Found id p false, accts'')
          /\ map Account.id accts'' = map Account.id accts')
    /\ (created = true <->
        find (fun r => String.eqb (Account.key_hash r) kh) accts = None)
    /\ (created = true -> id = uuid /\ Lookup.provider b = Some p).
Proof.
  intros H.
  destruct (lookup_found_row _ _ _ _ _ _ _ _ H)
    as (kh & row & Hkh & Hne & Hfind & Hid & Hp & _ & Hnew & Hold).
  exists kh. split; [exact Hkh|]. split; [|split; [|split]].
  - intros q u n1 n2. rewrite (getOrCreateAccount_found _ _ _ _ _ _ _ Hfind).
    eexists _, _. split; [reflexivity|]. cbn. rewrite touched_ids. easy.
  - intros q uuid' now' Hq. unfold Lookup.handler. cbn [Lookup.key_hash Lookup.provider].
    assert (Hqne : q <> EmptyString).
    { intros ->. cbn in Hq. intuition discriminate. }
    assert (Hvalid : existsb (String.eqb q) Lookup.validProviders = true).
    { apply existsb_exists. exists q. split; [exact Hq|apply String.eqb_refl]. }
    apply String.eqb_neq in Hne, Hqne.
    cbn [JS.truthy_str default from_option Datatypes.id].
    rewrite Hne, Hqne, Hvalid. cbn [negb orb]. unfold sql_get. rewrite Hfind.
    eexists. split; [now rewrite Hid, Hp|].
    fold (touched (Account.id row) now' accts'). apply touched_ids.
  - destruct created.
    + split; [intros _; now apply Hnew|reflexivity].
    + destruct (Hold eq_refl) as (row0 & E & _). rewrite E. split; discriminate.
  - intros Hc. destruct (Hnew Hc) as (? & ? & _). easy.
Qed.

Lemma lookup_is_stable_witness :
  exists account accts,
    getOrCreateAccount (Lookup.handler [] lookup_body "acc-7" "t0").2
      (toy_hash "sk-ant-key") "anthropic" "acc-8" "t1" "t1"
    = Some (account, accts)
    /\ Account.o_id account = "acc-7" /\ map Account.id accts = ["acc-7"].
Proof.
  destruct (lookup_is_stable [] _ lookup_body "acc-7" "t0" "acc-7" "anthropic" true eq_refl)
    as (kh & Hkh & Hget & _).
  injection Hkh as <-.
  destruct (Hget "anthropic" "acc-8" "t1" "t1") as (account & accts & Hg & Hid & _ & _ & Hids).
  exists account, accts. split; [exact Hg|]. split; [exact Hid|exact Hids].
Defined.

(** ** Prompt versioning *)

Lemma forall_find_none {A : Type} (f : A -> bool) (l : list A) :
  Forall (fun x => f x = false) l -> find f l = None.
Proof. induction 1 as [|x l Hx _ IH]; cbn; [reflexivity|]. now rewrite Hx. Qed.

Lemma owned_new_row (a : auth) (b : Prompts.body) (id : string) (v : Z) (now : string) :
  Prompts.owned a (Prompts.new_row a b id v now) = true.
Proof.
  unfold Prompts.owned. cbn [PromptTemplate.account_id Prompts.new_row].
  destruct a; cbn; rewrite String.eqb_refl, ?orb_true_r; reflexivity.
Qed.

Lemma template_update_one (T : list PromptTemplate.row) (r : PromptTemplate.row)
    (set : PromptTemplate.row -> PromptTemplate.row) :
  ~ In (PromptTemplate.id r) (map PromptTemplate.id T) ->
  fst (sql_update (fun x => String.eqb (PromptTemplate.id x) (PromptTemplate.id r)) set
         (T ++ [r]))
  = T ++ [set r].
Proof.
  intros H. unfold sql_update. cbn [fst]. rewrite map_app. cbn [map].
  rewrite String.eqb_refl. f_equal.
  induction T as [|x T IH]; [reflexivity|]. cbn [map].
  destruct (String.eqb (PromptTemplate.id x) (PromptTemplate.id r)) eqn:E.
  - apply String.eqb_eq in E. destruct H. left. exact E.
  - f_equal. apply IH. intros Hin. apply H. now right.
Qed.

Lemma template_fresh (T : list PromptTemplate.row) (id : string) :
  ~ In id (map PromptTemplate.id T) ->
  existsb (fun r' => String.eqb (PromptTemplate.id r') id) T = false.
Proof.
  intros H. destruct (existsb _ T) eqn:E; [|reflexivity].
  apply existsb_exists in E as (x & Hx & Ex). apply String.eqb_eq in Ex.
  destruct H. apply in_map_iff. eauto.
Qed.

Section Saves.

Variables (a : auth) (name : string).
Hypothesis name_given : name <> EmptyString.

Lemma save_checks (s : save) :
  has_text s ->
  negb (JS.truthy_str (Prompts.name (save_body name s)))
  || negb (JS.truthy_str (Prompts.template (save_body name s))) = false.
Proof.
  intros H. cbn. apply String.eqb_neq in name_given, H. now rewrite name_given, H.
Qed.

Lemma save_all_chain (saves : list save) :
  forall (T : list PromptTemplate.row) (s : save) (v : Z),
    Forall has_text saves ->
    NoDup (map PromptTemplate.id T ++ s_uuid s :: map s_uuid saves) ->
    Forall (fun r => Prompts.is_existing a name r = false) T ->
    save_all (T ++ [Prompts.new_row a (save_body name s) (s_uuid s) v (s_now s)])
      a name saves
    = (updates name (v + 1) saves, T ++ chain a name s v saves).
Proof.
  induction saves as [|q saves IH]; intros T s v Hgiven Hnodup Hnone; [reflexivity|].
  inversion Hgiven as [|? ? Hq Hrest]; subst.
  set (row := Prompts.new_row a (save_body name s) (s_uuid s) v (s_now s)).
  assert (Hs_fresh : ~ In (s_uuid s) (map PromptTemplate.id T)).
  { apply NoDup_app in Hnodup as (_ & Hd & _). intros Hin.
    apply (Hd (s_uuid s)); [now apply list_elem_of_In|]. apply list_elem_of_In. now left. }
  assert (Hq_fresh : ~ In (s_uuid q) (map PromptTemplate.id (T ++ [Prompts.deactivate row]))).
  { rewrite map_app, in_app_iff. cbn. intros [Hin|[Hin|[]]].
    - apply NoDup_app in Hnodup as (_ & Hd & _).
      apply (Hd (s_uuid q)); [now apply list_elem_of_In|].
      apply list_elem_of_In. right. now left.
    - apply NoDup_app in Hnodup as (_ & _ & Hd).
      apply NoDup_cons in Hd as [Hd _]. apply Hd. rewrite Hin.
      apply list_elem_of_In. now left. }
  cbn [save_all chain]. fold row. unfold Prompts.handler.
  rewrite (save_checks q Hq).
  cbn [save_body Prompts.name default from_option Datatypes.id].
  assert (Hfound : sql_get (Prompts.is_existing a name) (T ++ [row]) = Some row).
  { apply find_app_None; [now apply forall_find_none|].
    unfold Prompts.is_existing, row. rewrite owned_new_row.
    cbn [PromptTemplate.name Prompts.new_row row save_body Prompts.name default
         from_option Datatypes.id PromptTemplate.is_active].
    now rewrite String.eqb_refl. }
  rewrite Hfound.
  rewrite (template_update_one T row Prompts.deactivate Hs_fresh).
  change (PromptTemplate.version row) with v.
  unfold Prompts.insert_template. cbn [PromptTemplate.id Prompts.new_row].
  rewrite (template_fresh _ _ Hq_fresh).
  change (Prompts.new_row a
            {| Prompts.name := Some name; Prompts.template := Some (s_template q);
               Prompts.variables := s_variables q |} (s_uuid q) (v + 1) (s_now q))
    with (Prompts.new_row a (save_body name q) (s_uuid q) (v + 1) (s_now q)).
  rewrite (IH (T ++ [Prompts.deactivate row]) q (v + 1)%Z Hrest).
  - cbn [updates]. now rewrite <- app_assoc.
  - rewrite map_app, <- app_assoc. exact Hnodup.
  - apply Forall_app. split; [exact Hnone|]. constructor; [|constructor].
    unfold Prompts.is_existing. cbn. apply andb_false_r.
Qed.

Lemma chain_versions (saves : list save) :
  forall (s : save) (v : Z),
    map PromptTemplate.version (chain a name s v saves)
    = seqZ v (Z.of_nat (S (length saves)))
    /\ map PromptTemplate.is_active (chain a name s v saves)
       = repeat 0%Z (length saves) ++ [1%Z]
    /\ map PromptTemplate.id (chain a name s v saves) = map s_uuid (s :: saves)
    /\ map PromptTemplate.template (chain a name s v saves)
       = map s_template (s :: saves)
    /\ Forall (fun r => Prompts.owned a r && String.eqb (PromptTemplate.name r) name
                        = true) (chain a name s v saves).
Proof.
  induction saves as [|q saves IH]; intros s v.
  - cbn [chain length]. repeat split; try reflexivity.
    constructor; [|constructor]. rewrite owned_new_row. cbn. apply String.eqb_refl.
  - destruct (IH q (v + 1)%Z) as (Hv & Ha & Hi & Ht & Ho).
    cbn [chain map length repeat app]. rewrite Hv, Ha, Hi, Ht.
    split; [|repeat split; try reflexivity].
    + rewrite (seqZ_cons v) by lia. f_equal. f_equal; lia.
    + constructor; [|exact Ho].
      pose proof (owned_new_row a (save_body name s) (s_uuid s) v (s_now s)) as Hown.
      unfold Prompts.owned in *. cbn in *. rewrite Hown. apply String.eqb_refl.
Qed.

Lemma max_seqZ (n : nat) : forall v : Z,
  fold_left Z.max (seqZ (v + 1) (Z.of_nat n)) v = (v + Z.of_nat n)%Z.
Proof.
  induction n as [|n IH]; intros v.
  - rewrite seqZ_nil by lia. cbn [fold_left]. lia.
  - rewrite (seqZ_cons (v + 1)) by lia. cbn [fold_left].
    replace (Z.max v (v + 1)) with (v + 1)%Z by lia.
    replace (Z.pred (Z.of_nat (S n))) with (Z.of_nat n) by lia.
    replace (Z.succ (v + 1)) with (v + 1 + 1)%Z by lia.
    rewrite IH. lia.
Qed.

(** X11.  Saving a prompt template under a name the caller has not used
    yet, and then again and again, numbers the versions 1, 2, 3, ...: the
    first answer says created, the later ones updated, every save adds one
    row and switches the previous version off, so that exactly the newest
    version is active, the rows of other names and callers are not
    touched, and [GET /api/prompts/:name] reports the number of saves as
    the current version. *)
Theorem prompt_versions_count_up (t : list PromptTemplate.row) (s : save)
    (later : list save) :
  Forall has_text (s :: later) ->
  NoDup (map PromptTemplate.id t ++ map s_uuid (s :: later)) ->
  Prompts.versions t a name = [] ->
  let k := Z.of_nat (S (length later)) in
  let rows := chain a name s 1 later in
  save_all t a name (s :: later)
  = (Prompts.Saved (s_uuid s) name 1 (Prompts.message false 1) :: updates name 2 later,
     t ++ rows)
  /\ map PromptTemplate.version rows = seqZ 1 k
  /\ map PromptTemplate.is_active rows = repeat 0%Z (length later) ++ [1%Z]
  /\ map PromptTemplate.id rows = map s_uuid (s :: later)
  /\ map PromptTemplate.template rows = map s_template (s :: later)
  /\ Prompts.versions (t ++ rows) a name = rows
  /\ Prompts.current_version (t ++ rows) a name = Some k.
Proof.
  intros Hgiven Hnodup Hnone k rows.
  inversion Hgiven as [|? ? Hs Hlater]; subst.
  assert (Hmine : Forall (fun r => Prompts.owned a r
                                   && String.eqb (PromptTemplate.name r) name = false) t).
  { apply List.Forall_forall. intros r Hr.
    destruct (Prompts.owned a r && String.eqb (PromptTemplate.name r) name) eqn:E;
      [|reflexivity].
    assert (Hin : In r (Prompts.versions t a name)) by (apply filter_In; easy).
    rewrite Hnone in Hin. destruct Hin. }
  assert (Hex : Forall (fun r => Prompts.is_existing a name r = false) t).
  { revert Hmine. apply List.Forall_impl. intros r Hr. unfold Prompts.is_existing.
    now rewrite Hr. }
  assert (Hfresh : ~ In (s_uuid s) (map PromptTemplate.id t)).
  { apply NoDup_app in Hnodup as (_ & Hd & _). intros Hin.
    apply (Hd (s_uuid s)); [now apply list_elem_of_In|]. apply list_elem_of_In. now left. }
  destruct (chain_versions later s 1) as (Hv & Ha & Hi & Ht & Ho).
  split.
  { cbn [save_all]. unfold Prompts.handler. rewrite (save_checks s Hs).
    cbn [save_body Prompts.name default from_option Datatypes.id].
    unfold sql_get. rewrite (forall_find_none _ _ Hex).
    unfold Prompts.insert_template. cbn [PromptTemplate.id Prompts.new_row].
    rewrite (template_fresh _ _ Hfresh).
    change (Prompts.new_row a
              {| Prompts.name := Some name; Prompts.template := Some (s_template s);
                 Prompts.variables := s_variables s |} (s_uuid s) 1 (s_now s))
      with (Prompts.new_row a (save_body name s) (s_uuid s) 1 (s_now s)).
    now rewrite (save_all_chain later t s 1 Hlater Hnodup Hex). }
  split; [exact Hv|]. split; [exact Ha|]. split; [exact Hi|]. split; [exact Ht|].
  assert (Hvers : Prompts.versions (t ++ rows) a name = rows).
  { unfold Prompts.versions in *. rewrite List.filter_app, Hnone. cbn [app].
    apply forallb_filter_id. apply forallb_forall. intros r Hr.
    rewrite List.Forall_forall in Ho. now apply Ho. }
  split; [exact Hvers|].
  unfold Prompts.current_version. rewrite Hvers.
  subst rows. rewrite (seqZ_cons 1) in Hv by lia.
  destruct (chain a name s 1 later) as [|r rs]; [discriminate|].
  cbn [map] in Hv. injection Hv as Hr Hrs.
  rewrite Hr, Hrs. f_equal. subst k.
  replace (Z.pred (Z.of_nat (S (length later)))) with (Z.of_nat (length later)) by lia.
  change (Z.succ 1) with (1 + 1)%Z. rewrite (max_seqZ (length later) 1). lia.
Qed.

End Saves.

Lemma prompt_versions_count_up_witness :
  Prompts.current_version
    (save_all [] (account_of "acc-1") "greeting"
       [save_of "Hi {name}" "p1"; save_of "Hello {name}" "p2";
        save_of "Dear {name}" "p3"]).2
    (account_of "acc-1") "greeting"
  = Some 3%Z.
Proof.
  pose proof (prompt_versions_count_up (account_of "acc-1") "greeting"
                ltac:(discriminate) [] (save_of "Hi {name}" "p1")
                [save_of "Hello {name}" "p2"; save_of "Dear {name}" "p3"]) as H.
  cbv zeta in H.
  destruct H as (Hrun & _ & _ & _ & _ & _ & Hcur).
  - repeat constructor; discriminate.
  - apply (bool_decide_unpack _). vm_compute. exact I.
  - reflexivity.
  - rewrite Hrun. exact Hcur.
Defined.

(** ** The chat proxy on all its paths *)

Lemma count_or0_or (v : JSON.value) (n : Z) :
  JSON.or v (JSON.Num 0) = JSON.Num n -> count_or0 v = n.
Proof.
  unfold JSON.or. destruct (JSON.truthy v) eqn:E; [now intros ->|].
  intros [= <-]. destruct v; try reflexivity. cbn in E.
  apply negb_false_iff, Z.eqb_eq in E. exact E.
Qed.

Lemma count_or0_falsy (v : JSON.value) : JSON.truthy v = false -> count_or0 v = 0%Z.
Proof. intros E. apply count_or0_or. unfold JSON.or. now rewrite E. Qed.

Lemma count_or0_or0 (v : JSON.value) : count_or0 (JSON.or v (JSON.Num 0)) = count_or0 v.
Proof.
  unfold JSON.or. destruct (JSON.truthy v) eqn:E; [reflexivity|].
  now rewrite (count_or0_falsy _ E).
Qed.

Lemma text_or_empty_or (v : JSON.value) (c : string) :
  JSON.or v (JSON.Str EmptyString) = JSON.Str c -> Proxy.text_or_empty v = c.
Proof.
  unfold JSON.or. destruct (JSON.truthy v) eqn:E; [now intros ->|].
  intros [= <-]. destruct v as [| | | | | | |t| |]; try reflexivity. cbn in E.
  apply negb_false_iff, String.eqb_eq in E. exact E.
Qed.

Lemma text_or_empty_or_empty (v : JSON.value) :
  Proxy.text_or_empty (JSON.or v (JSON.Str EmptyString)) = Proxy.text_or_empty v.
Proof.
  unfold JSON.or. destruct (JSON.truthy v) eqn:E; [reflexivity|].
  symmetry. apply text_or_empty_or. unfold JSON.or. now rewrite E.
Qed.

Lemma or_or (v d : JSON.value) :
  JSON.truthy d = false -> JSON.or (JSON.or v d) d = JSON.or v d.
Proof.
  intros Hd. unfold JSON.or. destruct (JSON.truthy v) eqn:E; [now rewrite E|].
  now rewrite Hd.
Qed.

Section ChatProxy.

Import Proxy.

Variable hashKey : string -> string.

(** the handler either stops before the span is opened, or opens it and
    goes on with [dispatch] *)
Lemma handler_prologue (e : env) (db : database) (authorization : option string)
    (b : Chat.body) (up : Upstream.response) :
  (handler hashKey e db authorization b up = (BadRequest, db))
  \/ (handler hashKey e db authorization b up = (MissingAuthorization, db))
  \/ (exists db', handler hashKey e db authorization b up = (Crash, db')
                  /\ api_keys db' = api_keys db /\ tasks db' = tasks db)
  \/ (exists m msgs authHeader account accts prompt t,
        JS.or_str (Chat.model b) None = Some m
        /\ Chat.messages b = Some msgs
        /\ authorization = Some authHeader
        /\ Chat.promptText msgs = Some prompt
        /\ insert_task (tasks db)
             (Chat.open_row (base e) account (chat_provider authHeader m) m b msgs prompt)
           = Some t
        /\ handler hashKey e db authorization b up
           = dispatch e (with_tasks (with_accounts db accts) t)
               (chat_provider authHeader m) m prompt (Chat.stream b) up).
Proof.
  unfold handler.
  destruct (JS.or_str (Chat.model b) None) as [m|] eqn:Hm; [|now left].
  destruct (Chat.messages b) as [msgs|] eqn:Hmsgs; [|now left].
  destruct authorization as [authHeader|]; [|now right; left].
  destruct (negb _); [now right; left|].
  fold (chat_provider authHeader m).
  destruct (getOrCreateAccount _ _ _ _ _ _) as [[account accts]|];
    [|right; right; left; now exists db].
  destruct (Chat.promptText msgs) as [prompt|] eqn:Hp;
    [|right; right; left; now eexists].
  destruct (insert_task _ _) as [t|] eqn:Hins;
    [|right; right; left; now eexists].
  right; right; right. exists m, msgs, authHeader, account, accts, prompt, t.
  split; [reflexivity|]. split; [reflexivity|]. split; [reflexivity|].
  split; [exact Hp|]. split; [exact Hins|reflexivity].
Qed.

(** [dispatch], path by path *)
Lemma dispatch_paths (e : env) (db : database) (p : provider) (m prompt : string)
    (stream : bool) (up : Upstream.response) :
  dispatch e db p m prompt stream up
  = match p with
    | anthropic =>
        if stream then converted_stream e db p m up
        else settled e db p m
               (converted e "Anthropic" up
                  (fun data => convertFromAnthropic data m (uuid_response e)
                                 (Chat.Date_now (base e) 0)))
    | google =>
        settled e db p m
          (converted e "Gemini" up
             (fun data => convertFromGemini data m (uuid_response e)
                            (Chat.Date_now (base e) 0)))
    | _ =>
        if stream then relayed e db p m prompt up
        else settled e db p m (passed e p prompt up)
    end.
Proof. destruct p, stream; reflexivity. Qed.

Lemma settled_cases (e : env) (db : database) (p : provider) (m : string)
    (x : attempt served) :
  (forall s, x = Done s -> delivered (answer s)) ->
  (exists message frames, settled e db p m x = fail e p db message frames)
  \/ (exists s, settled e db p m x = succeed e m db s /\ delivered (answer s)).
Proof.
  intros H. destruct x as [s|message].
  - right. exists s. auto.
  - left. cbn. eauto.
Qed.

Lemma converted_Done (e : env) (label : string) (up : Upstream.response)
    (conv : JSON.value -> option JSON.value) (s : served) :
  converted e label up conv = Done s ->
  exists data responseData,
    fetch_json e label up = Done data /\ conv data = Some responseData
    /\ s = read_converted responseData.
Proof.
  unfold converted, mbind, attempt_bind, bind.
  destruct (fetch_json e label up) as [data|]; [|discriminate].
  destruct (conv data) as [responseData|] eqn:Ec; cbn; [|discriminate].
  intros [= <-]. eauto.
Qed.

Lemma passed_Done (e : env) (p : provider) (prompt : string) (up : Upstream.response)
    (s : served) :
  passed e p prompt up = Done s ->
  exists responseData usage,
    fetch_json e (provider_name p) up = Done responseData
    /\ JSON.prop responseData "usage" = Some usage
    /\ s = {| answer := Replied responseData;
              tokensIn :=
                count_or0 (JSON.or (JSON.opt_prop usage "prompt_tokens")
                             (JSON.Num (estimateTokens (Some prompt))));
              tokensOut := count_or0 (JSON.opt_prop usage "completion_tokens");
              completion := text_or_empty (reply_content responseData) |}.
Proof.
  unfold passed, mbind, attempt_bind, bind.
  destruct (fetch_json e _ up) as [responseData|]; [|discriminate].
  destruct (JSON.prop responseData "usage") as [usage|] eqn:Eu; cbn; [|discriminate].
  intros [= <-]. eauto.
Qed.

Lemma fetch_json_Done (e : env) (label : string) (up : Upstream.response)
    (data : JSON.value) :
  fetch_json e label up = Done data ->
  exists chunks, up = Upstream.Ok chunks None
                 /\ JSON.parse (Upstream.body_text chunks) = Some data.
Proof.
  unfold fetch_json. destruct up as [message|status text|chunks [message|]];
    try discriminate.
  destruct (JSON.parse _) as [x|] eqn:E; [|discriminate]. intros [= <-]. eauto.
Qed.

Lemma dispatch_cases (e : env) (db : database) (p : provider) (m prompt : string)
    (stream : bool) (up : Upstream.response) :
  (exists message frames, dispatch e db p m prompt stream up = fail e p db message frames)
  \/ (exists s, dispatch e db p m prompt stream up = succeed e m db s
                /\ delivered (answer s)).
Proof.
  assert (Hconv : forall label conv,
            (exists message frames,
                settled e db p m (converted e label up conv) = fail e p db message frames)
            \/ (exists s, settled e db p m (converted e label up conv) = succeed e m db s
                          /\ delivered (answer s))).
  { intros label conv. apply settled_cases. intros s Hs.
    apply converted_Done in Hs as (data & responseData & _ & _ & ->). right. cbn. eauto. }
  assert (Hpass : (exists message frames,
                      (if stream then relayed e db p m prompt up
                       else settled e db p m (passed e p prompt up))
                      = fail e p db message frames)
                  \/ (exists s,
                         (if stream then relayed e db p m prompt up
                          else settled e db p m (passed e p prompt up))
                         = succeed e m db s /\ delivered (answer s))).
  { destruct stream.
    - destruct up as [message|status text|chunks [message|]]; cbn [relayed].
      + left. eauto.
      + left. eauto.
      + left. eauto.
      + right. eexists. split; [reflexivity|]. left. cbn. eauto.
    - apply settled_cases. intros s Hs.
      apply passed_Done in Hs as (responseData & usage & _ & _ & ->). right. cbn. eauto. }
  rewrite dispatch_paths. destruct p; try exact Hpass.
  - destruct stream; [|apply Hconv].
    destruct up as [message|status text|chunks [message|]].
    + left. eauto.
    + left. eauto.
    + left. eauto.
    + right. eexists. split; [reflexivity|]. left. cbn. eauto.
  - apply Hconv.
Qed.


(** the pass-through relay treats every line on its own: it forwards a
    data line and adds the text the line carries *)
Lemma passthrough_on_line (st : relay) (line : string) :
  on_line st line
  = {| completionText := completionText st +:+ delta_text line;
       written := written st ++ (if is_data line then [line +:+ nl +:+ nl] else []) |}.
Proof.
  unfold delta_text, on_line, is_data. destruct st as [c w].
  cbn [completionText written].
  destruct (JS.startsWith line "data: "); [|now rewrite append_nil_r, app_nil_r].
  destruct (String.eqb (JS.slice line 6) "[DONE]") eqn:E.
  { apply String.eqb_eq in E. rewrite E.
    assert (JSON.parse "[DONE]" = None) as -> by (vm_compute; reflexivity).
    now rewrite append_nil_r. }
  destruct (JSON.parse _) as [chunk|]; [|now rewrite append_nil_r].
  destruct (JSON.prop chunk "choices") as [choices|] eqn:Ep.
  - assert (JSON.opt_prop chunk "choices" = choices) as ->
      by (unfold JSON.opt_prop; now rewrite Ep).
    destruct (JSON.truthy _); [reflexivity|now rewrite append_nil_r].
  - destruct chunk; try discriminate; cbn; now rewrite append_nil_r.
Qed.

Lemma passthrough_fold (lines : list string) (st : relay) :
  fold_left on_line lines st
  = {| completionText :=
         completionText st +:+ fold_right String.append EmptyString (map delta_text lines);
       written :=
         written st ++ map (fun line => line +:+ nl +:+ nl) (List.filter is_data lines) |}.
Proof.
  revert st. induction lines as [|line lines IH]; intros st.
  - cbn. destruct st. now rewrite append_nil_r, app_nil_r.
  - cbn [fold_left]. rewrite IH, passthrough_on_line.
    cbn [completionText written map fold_right List.filter].
    rewrite append_assoc, <- app_assoc. f_equal. f_equal.
    now destruct (is_data line).
Qed.

Lemma passthrough_run_relay (chunks : list string) :
  run_relay chunks
  = {| completionText :=
         fold_right String.append EmptyString
           (map delta_text (body_lines (Upstream.body_text chunks)));
       written := data_frames (Upstream.body_text chunks) |}.
Proof.
  unfold run_relay. rewrite read_all_body_text.
  change (read_chunk on_line (EmptyString, relay0) (Upstream.body_text chunks)).2
    with (fold_left on_line (body_lines (Upstream.body_text chunks)) relay0).
  now rewrite passthrough_fold.
Qed.

(** X13.  For the providers whose protocol the chat proxy passes through,
    a streamed answer is relayed line by line: every data line of the
    upstream body goes to the client unchanged and closed by an empty
    line, every other line is dropped, and the completion is the
    concatenation of the texts that the data lines carry in the delta of
    their first choice.  The token counts of the span are not read from the
    upstream but estimated from the lengths of the prompt and the
    completion, and the cost is computed from these estimates.  A stream
    that breaks off closes the span as failed with the message of the
    failure. *)
Theorem passthrough_stream (e : env) (db : database) (authHeader : string)
    (b : Chat.body) (m : string) (msgs : list JSON.value) (chunks : list string)
    (failure : option string) :
  JS.or_str (Chat.model b) None = Some m ->
  Chat.messages b = Some msgs ->
  Chat.stream b = true ->
  passes_through (chat_provider authHeader m) = true ->
  (handler hashKey e db (Some authHeader) b (Upstream.Ok chunks failure)).1
  <> MissingAuthorization ->
  (handler hashKey e db (Some authHeader) b (Upstream.Ok chunks failure)).1 <> Crash ->
  let out := handler hashKey e db (Some authHeader) b (Upstream.Ok chunks failure) in
  let body := Upstream.body_text chunks in
  let text := fold_right String.append EmptyString (map delta_text (body_lines body)) in
  exists prompt row,
    Chat.promptText msgs = Some prompt
    /\ tasks out.2 = tasks db ++ [row]
    /\ match failure with
       | None =>
           out.1 = Streamed (data_frames body)
           /\ Task.status row = success
           /\ Task.completion row = Some text
           /\ Task.tokens_in row = Some (estimateTokens (Some prompt))
           /\ Task.tokens_out row = Some (estimateTokens (Some text))
           /\ Task.cost row
              = (calculateCost m (inject_Z (estimateTokens (Some prompt)))
                        (inject_Z (estimateTokens (Some text))))
       | Some message =>
           out.1 = match data_frames body with
                   | [] => ProxyError message
                             (provider_name (chat_provider authHeader m))
                   | frames => Cut frames
                   end
           /\ Task.status row = failed
           /\ Task.error row = Some message
           /\ Task.completion row = None
       end.
Proof.
  intros Hm Hmsgs Hstream Hp. unfold handler. rewrite Hm, Hmsgs, Hstream.
  destruct (negb _); [easy|].
  fold (chat_provider authHeader m). set (p := chat_provider authHeader m) in *.
  destruct (getOrCreateAccount _ _ _ _ _ _) as [[account accts]|]; [|easy].
  destruct (Chat.promptText msgs) as [prompt|]; [|easy].
  destruct (insert_task _ _) as [t|] eqn:Hins; [|easy].
  intros _ _. cbn [with_accounts tasks] in Hins.
  set (row0 := Chat.open_row (base e) account p m b msgs prompt) in *.
  assert (Hd : dispatch e (with_tasks (with_accounts db accts) t) p m prompt true
                 (Upstream.Ok chunks failure)
               = relayed e (with_tasks (with_accounts db accts) t) p m prompt
                   (Upstream.Ok chunks failure))
    by (rewrite dispatch_paths; destruct p; try discriminate; reflexivity).
  rewrite Hd. cbn [relayed]. rewrite passthrough_run_relay. cbn [completionText written].
  exists prompt. destruct failure as [message|].
  - cbn [fail fst snd with_tasks tasks].
    change (Chat.taskId (base e)) with (Task.id row0).
    rewrite (insert_then_update _ _ _ _ Hins).
    eexists. split; [reflexivity|]. split; [reflexivity|].
    split; [now destruct (data_frames _)|now cbn].
  - cbn [succeed fst snd with_tasks tasks answer tokensIn tokensOut completion].
    change (Chat.taskId (base e)) with (Task.id row0).
    rewrite (insert_then_update _ _ _ _ Hins).
    eexists. split; [reflexivity|]. split; [reflexivity|]. now cbn.
Qed.

(** the sum of two counters is exact as long as it is a safe integer *)
Lemma js_add_counters (tin tout : Z) :
  (Z.abs tin <= 2 ^ 53)%Z -> (Z.abs tout <= 2 ^ 53)%Z -> (Z.abs (tin + tout) <= 2 ^ 53)%Z ->
  js_add (JSON.Num tin) (JSON.Num tout) = JSON.Num (tin + tout).
Proof.
  intros Hin Hout Hsum. unfold js_add. cbn [is_text orb as_number]. unfold Number.add.
  assert (H1 : (Z.abs tin <=? Number.safe)%Z = true) by now apply Z.leb_le.
  assert (H2 : (Z.abs tout <=? Number.safe)%Z = true) by now apply Z.leb_le.
  assert (H3 : (Z.abs (tin + tout) <=? Number.safe)%Z = true) by now apply Z.leb_le.
  rewrite H1, H2, H3. reflexivity.
Qed.

Lemma convertFromAnthropic_usage (r : JSON.value) (model uuid : string) (now : Z)
    (data : JSON.value) :
  convertFromAnthropic r model uuid now = Some data ->
  reply_usage data "total_tokens"
  = js_add (reply_usage data "prompt_tokens") (reply_usage data "completion_tokens").
Proof.
  unfold convertFromAnthropic. destruct (JSON.prop r "id") as [id|]; [|discriminate].
  intros [= <-]. reflexivity.
Qed.

(** X14.  A JSON answer of the chat proxy and the span it records agree.
    Whenever the client gets a JSON answer whose completion tokens are an
    integer, or missing, and whose first choice has a string, or nothing,
    as its content, the call has added one span, and if the prompt tokens
    of the answer are an integer too, the span is a success that stores
    these two counts, this text and, as its cost, the price of the two
    counts.  Missing completion tokens count 0 and a missing content is the
    empty text.  For Anthropic and Google, whose answers are converted,
    missing prompt tokens count 0, and the total of a converted Anthropic
    answer is the sum of the two counts, as long as that sum is a safe
    integer.  For the other providers the answer is the parsed upstream
    body as it came, and missing prompt tokens are estimated from the
    length of the prompt.  The counts are safe integers, at most [2 ^ 53]
    in absolute value, which a double holds exactly. *)
Theorem chat_reply_matches_ledger (e : env) (db : database) (authHeader : string)
    (b : Chat.body) (m : string) (msgs : list JSON.value) (up : Upstream.response)
    (data : JSON.value) (tout : Z) (c : string) :
  JS.or_str (Chat.model b) None = Some m ->
  Chat.messages b = Some msgs ->
  (handler hashKey e db (Some authHeader) b up).1 = Replied data ->
  JSON.or (reply_usage data "completion_tokens") (JSON.Num 0) = JSON.Num tout ->
  (Z.abs tout <= 2 ^ 53)%Z ->
  JSON.or (reply_content data) (JSON.Str EmptyString) = JSON.Str c ->
  exists row prompt,
    tasks (handler hashKey e db (Some authHeader) b up).2 = tasks db ++ [row]
    /\ Chat.promptText msgs = Some prompt
    /\ (passes_through (chat_provider authHeader m) = true ->
        exists chunks, up = Upstream.Ok chunks None
                       /\ JSON.parse (Upstream.body_text chunks) = Some data)
    /\ forall tin,
         JSON.or (reply_usage data "prompt_tokens")
           (JSON.Num (if passes_through (chat_provider authHeader m)
                      then estimateTokens (Some prompt) else 0))
         = JSON.Num tin ->
         (Z.abs tin <= 2 ^ 53)%Z ->
         Task.status row = success
         /\ Task.tokens_in row = Some tin /\ Task.tokens_out row = Some tout
         /\ Task.completion row = Some c
         /\ Task.cost row = calculateCost m (inject_Z tin) (inject_Z tout)
         /\ (chat_provider authHeader m = anthropic ->
             (Z.abs (tin + tout) <= 2 ^ 53)%Z ->
             reply_usage data "total_tokens" = JSON.Num (tin + tout)).
Proof.
  intros Hm Hmsgs. unfold handler. rewrite Hm, Hmsgs.
  destruct (negb _); [easy|].
  fold (chat_provider authHeader m). set (p := chat_provider authHeader m) in *.
  destruct (getOrCreateAccount _ _ _ _ _ _) as [[account accts]|]; [|easy].
  destruct (Chat.promptText msgs) as [prompt|] eqn:Hprompt; [|easy].
  destruct (insert_task _ _) as [t|] eqn:Hins; [|easy].
  cbn [with_accounts tasks] in Hins.
  set (row0 := Chat.open_row (base e) account p m b msgs prompt) in *.
  set (db2 := with_tasks (with_accounts db accts) t).
  intros Hreplied Hout Hsafe Hc.
  assert (Hfail : forall message frames, (fail e p db2 message frames).1 <> Replied data).
  { intros message [|f frames]; discriminate. }
  assert (Hrow : forall s,
            tasks (succeed e m db2 s).2
            = tasks db
              ++ [Chat.set_success (Chat.durationMs (base e))
                    (calculateCost m (inject_Z (tokensIn s)) (inject_Z (tokensOut s)))
                    (completion s) (tokensIn s) (tokensOut s)
                    (Chat.now_final (base e)) row0]).
  { intros s. cbn [succeed fst snd db2 with_tasks tasks].
    change (Chat.taskId (base e)) with (Task.id row0).
    now rewrite (insert_then_update _ _ _ _ Hins). }
  assert (Hsettled : forall x,
            (settled e db2 p m x).1 = Replied data ->
            exists s, x = Done s /\ answer s = Replied data
                      /\ settled e db2 p m x = succeed e m db2 s).
  { intros [s|message] H; [eauto|now apply Hfail in H]. }
  pose proof Hout as Hout0. apply count_or0_or in Hout. apply text_or_empty_or in Hc.
  (* the converted answers *)
  assert (Hconverted : forall label conv,
            passes_through p = false ->
            (forall r d, conv r = Some d ->
               reply_usage d "prompt_tokens"
               = JSON.or (reply_usage d "prompt_tokens") (JSON.Num 0)) ->
            (p = anthropic ->
             forall r d, conv r = Some d ->
               reply_usage d "total_tokens"
               = js_add (reply_usage d "prompt_tokens")
                   (reply_usage d "completion_tokens")) ->
            (forall r d, conv r = Some d ->
               reply_usage d "completion_tokens"
               = JSON.or (reply_usage d "completion_tokens") (JSON.Num 0)) ->
            dispatch e db2 p m prompt (Chat.stream b) up
            = settled e db2 p m (converted e label up conv) ->
            (dispatch e db2 p m prompt (Chat.stream b) up).1 = Replied data ->
            exists row prompt0,
              tasks (dispatch e db2 p m prompt (Chat.stream b) up).2 = tasks db ++ [row]
              /\ Some prompt = Some prompt0
              /\ (passes_through p = true ->
                  exists chunks, up = Upstream.Ok chunks None
                                 /\ JSON.parse (Upstream.body_text chunks) = Some data)
              /\ forall tin,
                   JSON.or (reply_usage data "prompt_tokens")
                     (JSON.Num (if passes_through p
                                then estimateTokens (Some prompt0) else 0))
                   = JSON.Num tin ->
                   (Z.abs tin <= 2 ^ 53)%Z ->
                   Task.status row = success
                   /\ Task.tokens_in row = Some tin /\ Task.tokens_out row = Some tout
                   /\ Task.completion row = Some c
                   /\ Task.cost row = calculateCost m (inject_Z tin) (inject_Z tout)
                   /\ (p = anthropic ->
                       (Z.abs (tin + tout) <= 2 ^ 53)%Z ->
                       reply_usage data "total_tokens" = JSON.Num (tin + tout))).
  { intros label conv Hp Hprompt_or Htotal Hcompletion_or Hd H. rewrite Hd in *.
    apply Hsettled in H as (s & Hx & Ha & ->).
    apply converted_Done in Hx as (r & responseData & _ & Hconv & ->).
    cbn [read_converted answer] in Ha. injection Ha as ->.
    eexists _, prompt. split; [apply Hrow|]. split; [reflexivity|].
    split; [rewrite Hp; discriminate|].
    rewrite Hp. intros tin Hin Hsafe_in. pose proof Hin as Hin0.
    apply count_or0_or in Hin.
    cbn [read_converted tokensIn tokensOut completion answer Chat.set_success
         Task.status Task.tokens_in Task.tokens_out Task.completion Task.cost].
    fold (reply_usage data "prompt_tokens") (reply_usage data "completion_tokens")
      (reply_content data).
    rewrite Hin, Hout, Hc. repeat (split; [reflexivity|]).
    intros Hant Hsum. rewrite (Htotal Hant _ _ Hconv).
    assert (Ein : reply_usage data "prompt_tokens" = JSON.Num tin)
      by (rewrite (Hprompt_or _ _ Hconv); exact Hin0).
    assert (Eout : reply_usage data "completion_tokens" = JSON.Num tout)
      by (rewrite (Hcompletion_or _ _ Hconv); exact Hout0).
    rewrite Ein, Eout. now apply js_add_counters. }
  assert (Hpassed : passes_through p = true ->
            dispatch e db2 p m prompt (Chat.stream b) up
            = settled e db2 p m (passed e p prompt up) ->
            (dispatch e db2 p m prompt (Chat.stream b) up).1 = Replied data ->
            exists row prompt0,
              tasks (dispatch e db2 p m prompt (Chat.stream b) up).2 = tasks db ++ [row]
              /\ Some prompt = Some prompt0
              /\ (passes_through p = true ->
                  exists chunks, up = Upstream.Ok chunks None
                                 /\ JSON.parse (Upstream.body_text chunks) = Some data)
              /\ forall tin,
                   JSON.or (reply_usage data "prompt_tokens")
                     (JSON.Num (if passes_through p
                                then estimateTokens (Some prompt0) else 0))
                   = JSON.Num tin ->
                   (Z.abs tin <= 2 ^ 53)%Z ->
                   Task.status row = success
                   /\ Task.tokens_in row = Some tin /\ Task.tokens_out row = Some tout
                   /\ Task.completion row = Some c
                   /\ Task.cost row = calculateCost m (inject_Z tin) (inject_Z tout)
                   /\ (p = anthropic ->
                       (Z.abs (tin + tout) <= 2 ^ 53)%Z ->
                       reply_usage data "total_tokens" = JSON.Num (tin + tout))).
  { intros Hp Hd H. rewrite Hd in *.
    apply Hsettled in H as (s & Hx & Ha & ->).
    apply passed_Done in Hx as (responseData & usage & Hf & Hu & ->).
    cbn [answer] in Ha. injection Ha as ->.
    eexists _, prompt. split; [apply Hrow|]. split; [reflexivity|].
    split; [intros _; now apply (fetch_json_Done _ _ _ _ Hf)|].
    rewrite Hp. intros tin Hin Hsafe_in.
    assert (Hus : forall k, JSON.opt_prop usage k = reply_usage data k).
    { intros k. unfold reply_usage. unfold JSON.opt_prop at 3. now rewrite Hu. }
    cbn [tokensIn tokensOut completion answer Chat.set_success
         Task.status Task.tokens_in Task.tokens_out Task.completion Task.cost].
    fold (reply_content data).
    rewrite !Hus, Hin, Hout, Hc. cbn [count_or0]. repeat (split; [reflexivity|]).
    intros ->. discriminate Hp. }
  assert (Hstream : forall st : response * database,
            (exists message frames, st = fail e p db2 message frames)
            \/ (exists s frames, st = succeed e m db2 s /\ answer s = Streamed frames) ->
            st.1 <> Replied data).
  { intros st [(message & frames & ->)|(s & frames & -> & Hs)]; [apply Hfail|].
    cbn [succeed fst]. rewrite Hs. discriminate. }
  destruct p eqn:Ep.
  - (* openai *)
    destruct (Chat.stream b) eqn:Es; [|now apply Hpassed].
    exfalso. revert Hreplied. apply Hstream. cbn [dispatch relayed].
    destruct up as [message|status text|chunks [message|]];
      [left; eauto|left; eauto|left; eauto|right; eexists _, _; split; reflexivity].
  - (* anthropic *)
    destruct (Chat.stream b) eqn:Es.
    + exfalso. revert Hreplied. apply Hstream. cbn [dispatch converted_stream].
      destruct up as [message|status text|chunks [message|]];
        [left; eauto|left; eauto|left; eauto|right; eexists _, _; split; reflexivity].
    + apply (Hconverted "Anthropic"
               (fun data => convertFromAnthropic data m (uuid_response e)
                              (Chat.Date_now (base e) 0))); try reflexivity;
        try exact Hreplied.
      * intros r d. unfold convertFromAnthropic.
        destruct (JSON.prop r "id") as [id|]; [|discriminate]. intros [= <-].
        unfold reply_usage. cbn. now rewrite or_or.
      * intros _ r d. apply convertFromAnthropic_usage.
      * intros r d. unfold convertFromAnthropic.
        destruct (JSON.prop r "id") as [id|]; [|discriminate]. intros [= <-].
        unfold reply_usage. cbn. now rewrite or_or.
  - (* google *)
    apply (Hconverted "Gemini"
             (fun data => convertFromGemini data m (uuid_response e)
                            (Chat.Date_now (base e) 0))); try reflexivity;
      try exact Hreplied.
    + intros r d. unfold convertFromGemini.
      destruct (JSON.prop r "candidates") as [cs|]; [|discriminate]. intros [= <-].
      unfold reply_usage. cbn. now rewrite or_or.
    + discriminate.
    + intros r d. unfold convertFromGemini.
      destruct (JSON.prop r "candidates") as [cs|]; [|discriminate]. intros [= <-].
      unfold reply_usage. cbn. now rewrite or_or.
  - (* xai *)
    destruct (Chat.stream b) eqn:Es; [|now apply Hpassed].
    exfalso. revert Hreplied. apply Hstream. cbn [dispatch relayed].
    destruct up as [message|status text|chunks [message|]];
      [left; eauto|left; eauto|left; eauto|right; eexists _, _; split; reflexivity].
  - (* openrouter *)
    destruct (Chat.stream b) eqn:Es; [|now apply Hpassed].
    exfalso. revert Hreplied. apply Hstream. cbn [dispatch relayed].
    destruct up as [message|status text|chunks [message|]];
      [left; eauto|left; eauto|left; eauto|right; eexists _, _; split; reflexivity].
Qed.

End ChatProxy.

Lemma passthrough_stream_witness :
  (Proxy.handler toy_hash proxy_env empty_db (Some "Bearer sk-proj-key")
     (openai_body true) (Upstream.Ok [openai_stream] None)).1
  = Proxy.Streamed
      [dq "data: {'choices':[{'delta':{'content':'Hel'}}]}" +:+ nl +:+ nl;
       dq "data: {'choices':[{'delta':{'content':'lo'}}]}" +:+ nl +:+ nl;
       "data: [DONE]" +:+ nl +:+ nl]
  /\ exists row,
       tasks (Proxy.handler toy_hash proxy_env empty_db (Some "Bearer sk-proj-key")
                (openai_body true) (Upstream.Ok [openai_stream] None)).2 = [row]
       /\ Task.status row = success
       /\ Task.completion row = Some "Hello"
       /\ Task.tokens_out row = Some 2%Z.
Proof.
  destruct (passthrough_stream toy_hash proxy_env empty_db "Bearer sk-proj-key"
              (openai_body true) "gpt-4o" hello_request [openai_stream] None
              eq_refl eq_refl eq_refl eq_refl
              ltac:(vm_compute; discriminate) ltac:(vm_compute; discriminate))
    as (prompt & row & _ & Ht & Hout & Hst & Hc & _ & Htout & _).
  split; [rewrite Hout; vm_compute; reflexivity|].
  exists row. split; [exact Ht|]. split; [exact Hst|].
  split; [rewrite Hc|rewrite Htout]; vm_compute; reflexivity.
Defined.

Lemma chat_reply_matches_ledger_witness :
  exists data row,
    (Proxy.handler toy_hash proxy_env empty_db (Some "Bearer sk-ant-key")
       claude_body (Upstream.Ok [anthropic_answer] None)).1 = Proxy.Replied data
    /\ tasks (Proxy.handler toy_hash proxy_env empty_db (Some "Bearer sk-ant-key")
                claude_body (Upstream.Ok [anthropic_answer] None)).2
       = [row]
    /\ Task.status row = success
    /\ Task.tokens_in row = Some 12%Z /\ Task.tokens_out row = Some 3%Z
    /\ Task.completion row = Some "Hello"
    /\ reply_usage data "total_tokens" = JSON.Num 15.
Proof.
  eexists.
  destruct (chat_reply_matches_ledger toy_hash proxy_env empty_db "Bearer sk-ant-key"
              claude_body "claude-3-opus-20240229" hello_request
              (Upstream.Ok [anthropic_answer] None) _ 3 "Hello" eq_refl eq_refl
              ltac:(vm_compute; reflexivity) ltac:(vm_compute; reflexivity)
              ltac:(vm_compute; discriminate) ltac:(vm_compute; reflexivity))
    as (row & prompt & Ht & _ & _ & Hrow).
  destruct (Hrow 12%Z ltac:(vm_compute; reflexivity) ltac:(vm_compute; discriminate))
    as (Hst & Hin & Hout & Hc & _ & Htotal).
  exists row. split; [vm_compute; reflexivity|]. split; [exact Ht|].
  split; [exact Hst|]. split; [exact Hin|]. split; [exact Hout|]. split; [exact Hc|].
  apply (Htotal ltac:(vm_compute; reflexivity)). vm_compute. discriminate.
Defined.

(** ** Task descriptions *)

Lemma collapse_ws_head (s : string) :
  match s with
  | EmptyString => Messages.collapse_ws s = EmptyString
  | String c _ =>
      exists t, Messages.collapse_ws s = String (if JS.is_space c then " "%char else c) t
  end.
Proof.
  induction s as [|c s IH]; [reflexivity|]. cbn [Messages.collapse_ws].
  destruct (JS.is_space c) eqn:Ec; [|eauto].
  destruct s as [|c' s']; [eauto|].
  destruct (JS.is_space c') eqn:Ec'; [|eauto].
  destruct IH as [t Ht]. rewrite ?Ec' in Ht. eauto.
Qed.

Lemma single_spaced_collapse_ws (s : string) :
  single_spaced (Messages.collapse_ws s) = true.
Proof.
  induction s as [|c s IH]; [reflexivity|]. cbn [Messages.collapse_ws].
  pose proof (collapse_ws_head s) as Hhead.
  destruct (JS.is_space c) eqn:Ec.
  - destruct s as [|c' s']; [reflexivity|].
    destruct (JS.is_space c') eqn:Ec'; [exact IH|].
    destruct Hhead as [t Ht]. rewrite ?Ec' in Ht. rewrite Ht in *.
    change (single_spaced (String " " (String c' t)))
      with ((negb (JS.is_space " ") || Ascii.eqb " " " ")
            && negb (JS.is_space " " && JS.is_space c')
            && single_spaced (String c' t)).
    rewrite Ec', IH. reflexivity.
  - destruct (Messages.collapse_ws s) as [|d t] eqn:Et.
    + cbn [single_spaced]. now rewrite Ec.
    + change (single_spaced (String c (String d t)))
        with ((negb (JS.is_space c) || Ascii.eqb c " ")
              && negb (JS.is_space c && JS.is_space d)
              && single_spaced (String d t)).
      now rewrite Ec, IH.
Qed.

Lemma single_spaced_tail (c : ascii) (s : string) :
  single_spaced (String c s) = true -> single_spaced s = true.
Proof. cbn [single_spaced]. intros H. now apply andb_true_iff in H. Qed.

Lemma single_spaced_trimStart (s : string) :
  single_spaced s = true ->
  single_spaced (JS.trimStart s) = true /\ starts_with_space (JS.trimStart s) = false.
Proof.
  induction s as [|c s IH]; [easy|]. intros H. cbn [JS.trimStart].
  destruct (JS.is_space c) eqn:Ec.
  - apply IH. now apply single_spaced_tail in H.
  - split; [exact H|exact Ec].
Qed.

Lemma single_spaced_prefix (p s : string) :
  String.prefix p s = true -> single_spaced s = true -> single_spaced p = true.
Proof.
  revert s. induction p as [|c p IH]; intros s Hp Hs; [reflexivity|].
  destruct s as [|d s]; [discriminate|]. cbn [String.prefix] in Hp.
  destruct (ascii_dec c d) as [<-|]; [|discriminate].
  cbn [single_spaced] in *. apply andb_true_iff in Hs as [Hs Hrest].
  apply andb_true_iff in Hs as [Hc Hpair]. rewrite Hc, (IH _ Hp Hrest).
  destruct p as [|c' p]; [reflexivity|].
  destruct s as [|d' s]; [discriminate|]. cbn [String.prefix] in Hp.
  destruct (ascii_dec c' d') as [<-|]; [|discriminate]. now rewrite Hpair.
Qed.

Lemma starts_with_space_prefix (p s : string) :
  String.prefix p s = true -> starts_with_space s = false -> starts_with_space p = false.
Proof.
  destruct p as [|c p]; [reflexivity|]. destruct s as [|d s]; [discriminate|].
  cbn [String.prefix]. destruct (ascii_dec c d) as [<-|]; [|discriminate]. easy.
Qed.

Lemma trimEnd_prefix (s : string) : String.prefix (JS.trimEnd s) s = true.
Proof.
  induction s as [|c s IH]; [reflexivity|]. cbn [JS.trimEnd].
  destruct (JS.trimEnd s) as [|d t].
  - destruct (JS.is_space c); [reflexivity|]. cbn [String.prefix].
    destruct (ascii_dec c c); [|contradiction]. now destruct s.
  - cbn [String.prefix] in *. destruct (ascii_dec c c); [exact IH|contradiction].
Qed.

Lemma prefix_trans (p q s : string) :
  String.prefix p q = true -> String.prefix q s = true -> String.prefix p s = true.
Proof.
  revert q s. induction p as [|c p IH]; intros q s Hpq Hqs; [now destruct s|].
  destruct q as [|d q]; [discriminate|]. destruct s as [|x s]; [discriminate|].
  cbn [String.prefix] in *.
  destruct (ascii_dec c d) as [<-|]; [|discriminate].
  destruct (ascii_dec c x) as [<-|]; [|discriminate]. now apply (IH q).
Qed.

(** X15.  Whenever [extractTaskDescription] returns, the description is
    fit for a one-line column: it is not empty, at most 100 code units
    long, it does not start with white space, and the only white space in
    it are single blanks (no line break, no tab, never two blanks in a
    row). *)
Theorem extractTaskDescription_tidy (messages : list JSON.value) (d : string) :
  Messages.extractTaskDescription messages = Some d ->
  d <> EmptyString
  /\ (String.length d <= 100)%nat
  /\ single_spaced d = true
  /\ starts_with_space d = false.
Proof.
  assert (Hdefault : "Claude Code task" <> EmptyString
                     /\ (String.length "Claude Code task" <= 100)%nat
                     /\ single_spaced "Claude Code task" = true
                     /\ starts_with_space "Claude Code task" = false).
  { split; [discriminate|]. split; [cbn; lia|]. split; reflexivity. }
  unfold Messages.extractTaskDescription.
  destruct messages as [|m0 ms]; [now intros [= <-]|].
  destruct (Messages.find_throwing Messages.is_user _) as [[lastUser|]|];
    [|now intros [= <-]|discriminate].
  match goal with
  | |- match ?c with Some _ => _ | None => _ end = _ -> _ =>
      destruct c as [content|]; [|discriminate]
  end.
  intros [= <-].
  set (cleaned := JS.trim (Messages.collapse_ws content)).
  assert (Hclean : single_spaced cleaned = true /\ starts_with_space cleaned = false).
  { unfold cleaned, JS.trim.
    destruct (single_spaced_trimStart _ (single_spaced_collapse_ws content)) as [H1 H2].
    split.
    - now apply (single_spaced_prefix _ _ (trimEnd_prefix _)).
    - now apply (starts_with_space_prefix _ _ (trimEnd_prefix _)). }
  unfold JS.or_str, JS.truthy_str.
  destruct (String.eqb (JS.substring0 cleaned 100) EmptyString) eqn:E;
    cbn [negb default from_option Datatypes.id]; [exact Hdefault|].
  apply String.eqb_neq in E. split; [exact E|].
  split; [rewrite substring0_length; lia|].
  destruct Hclean as [H1 H2]. split.
  - now apply (single_spaced_prefix _ _ (substring0_prefix 100 cleaned)).
  - now apply (starts_with_space_prefix _ _ (substring0_prefix 100 cleaned)).
Qed.

Lemma extractTaskDescription_tidy_witness :
  Messages.extractTaskDescription messy_request = Some "fix the build"
  /\ single_spaced "fix the build" = true.
Proof.
  split; [reflexivity|].
  apply (extractTaskDescription_tidy messy_request "fix the build" eq_refl).
Defined.

(** ** Requests converted for Anthropic and Gemini *)

Lemma role_is_system (m : JSON.value) :
  JSON.prop m "role" <> None -> role_is "system" m = Some (is_system m).
Proof.
  unfold role_is, is_system, JSON.opt_prop.
  destruct (JSON.prop m "role"); [reflexivity|contradiction].
Qed.

Lemma find_throwing_total (msgs : list JSON.value) :
  Forall (fun m => JSON.prop m "role" <> None) msgs ->
  Messages.find_throwing (role_is "system") msgs = Some (find is_system msgs).
Proof.
  induction 1 as [|m msgs Hm _ IH]; [reflexivity|].
  cbn [Messages.find_throwing find]. rewrite (role_is_system m Hm).
  now destruct (is_system m).
Qed.

Lemma filter_throwing_total (msgs : list JSON.value) :
  Forall (fun m => JSON.prop m "role" <> None) msgs ->
  filter_throwing (fun m => option_map negb (role_is "system" m)) msgs
  = Some (List.filter (fun m => negb (is_system m)) msgs).
Proof.
  induction 1 as [|m msgs Hm _ IH]; [reflexivity|].
  cbn [filter_throwing List.filter]. rewrite (role_is_system m Hm), IH.
  cbn [option_map]. now destruct (is_system m).
Qed.

Lemma temperature_member_other (t : JSON.value) (k : string)
    (rest : list (string * JSON.value)) :
  String.eqb "temperature" k = false ->
  JSON.lookup_member (temperature_member t ++ rest) k = JSON.lookup_member rest k.
Proof.
  intros H. destruct t; cbn [temperature_member app JSON.lookup_member];
    now rewrite ?H.
Qed.

(** X16.  Both request conversions send the conversation itself
    unchanged: the turns that are not system messages go upstream in
    their order with their content, under the role assistant (model for
    Gemini) when they are assistant turns and user otherwise, whatever
    role they had.  Of the system messages only the first is sent, as the
    system text; the others are dropped.  A request whose messages are not
    [null] is always converted. *)
Theorem conversions_keep_turns (req : JSON.value) (msgs : list JSON.value) :
  JSON.prop req "messages" = Some (JSON.Arr msgs) ->
  Forall (fun m => JSON.prop m "role" <> None) msgs ->
  let others := List.filter (fun m => negb (is_system m)) msgs in
  let system_text :=
    match find is_system msgs with
    | Some s => turn_content s
    | None => JSON.Undefined
    end in
  exists a g ta tg,
    convertToAnthropic req = Some a /\ convertToGemini req = Some g
    /\ JSON.opt_prop a "messages" = JSON.Arr ta
    /\ JSON.opt_prop g "contents" = JSON.Arr tg
    /\ map turn_content ta = map turn_content others
    /\ map gemini_text tg = map turn_content others
    /\ Forall (role_among "user" "assistant") ta
    /\ Forall (role_among "user" "model") tg
    /\ map (fun m => Chat.is_type (JSON.opt_prop m "role") "assistant") ta
       = map (fun m => Chat.is_type (JSON.opt_prop m "role") "assistant") others
    /\ map (fun m => Chat.is_type (JSON.opt_prop m "role") "model") tg
       = map (fun m => Chat.is_type (JSON.opt_prop m "role") "assistant") others
    /\ JSON.opt_prop a "system" = system_text
    /\ JSON.opt_prop
         (first_of (JSON.opt_prop (JSON.opt_prop g "systemInstruction") "parts")) "text"
       = system_text.
Proof.
  intros Hreq Hmsgs others system_text.
  assert (Hmodel : exists model, JSON.prop req "model" = Some model).
  { destruct req; try discriminate; cbn; eauto. }
  destruct Hmodel as [model Hmodel].
  assert (Hmember : JSON.opt_prop req "messages" = JSON.Arr msgs).
  { unfold JSON.opt_prop. now rewrite Hreq. }
  unfold convertToAnthropic, convertToGemini. rewrite Hmodel, Hreq, Hmember.
  unfold split_system. rewrite (find_throwing_total _ Hmsgs), (filter_throwing_total _ Hmsgs).
  fold others. eexists _, _, (map anthropic_turn others), (map gemini_turn others).
  split; [reflexivity|]. split; [reflexivity|].
  split; [reflexivity|]. split; [reflexivity|].
  split; [rewrite map_map; now apply map_ext|].
  split; [rewrite map_map; now apply map_ext|].
  split.
  { apply List.Forall_forall. intros t Ht. apply in_map_iff in Ht as (m & <- & _).
    unfold role_among, anthropic_turn. cbn.
    destruct (Chat.is_type _ "assistant"); auto. }
  split.
  { apply List.Forall_forall. intros t Ht. apply in_map_iff in Ht as (m & <- & _).
    unfold role_among, gemini_turn. cbn.
    destruct (Chat.is_type _ "assistant"); auto. }
  split.
  { rewrite map_map. apply map_ext. intros m. unfold anthropic_turn. cbn.
    now destruct (Chat.is_type _ "assistant"). }
  split.
  { rewrite map_map. apply map_ext. intros m. unfold gemini_turn. cbn.
    now destruct (Chat.is_type _ "assistant"). }
  unfold system_text. destruct (find is_system msgs) as [s|].
  - split; reflexivity.
  - split; [|reflexivity]. unfold JSON.opt_prop, JSON.prop.
    cbn [default from_option Datatypes.id app JSON.lookup_member String.eqb Ascii.eqb
         Bool.eqb].
    now rewrite temperature_member_other.
Qed.

Lemma conversions_keep_turns_witness :
  exists a,
    convertToAnthropic tool_request = Some a
    /\ JSON.opt_prop a "messages"
       = JSON.Arr [JSON.Obj [("role", JSON.Str "user"); ("content", JSON.Str "2+2?")];
                   JSON.Obj [("role", JSON.Str "user"); ("content", JSON.Str "4")];
                   JSON.Obj [("role", JSON.Str "assistant"); ("content", JSON.Str "4")]]
    /\ JSON.opt_prop a "system" = JSON.Str "be terse".
Proof.
  destruct (conversions_keep_turns tool_request _ eq_refl) as (a & g & ta & tg & Ha & _).
  - repeat constructor; discriminate.
  - exists a. split; [exact Ha|]. vm_compute in Ha. injection Ha as <-.
    split; reflexivity.
Defined.

(** ** The replay endpoint *)

(** X17.  A replay never changes the span it replays or any other span
    that was there: it adds at most one span.  An answer 404 or 400 adds
    none.  An answer with the result, or with the error, adds exactly one
    span under the generated id, owned by the caller, with the replayed
    span as its parent and the span name replay, the model and the prompt
    of the replayed span, and closed as success with the cost and the
    completion of the answer, or as failed with the error of the answer.
    The replayed span is one the caller owns. *)
Theorem replay_adds_one_linked_span (t : list Task.row) (a : auth) (id : string)
    (x_provider_key : option string) (e : ReplayRun.env) (up : Upstream.response) :
  replay_ledger e a id t (ReplayRun.handler t a id x_provider_key e up).2
    (ReplayRun.handler t a id x_provider_key e up).1.
Proof.
  unfold ReplayRun.handler, sql_get.
  destruct (find _ t) as [orig|] eqn:Hfind; [|reflexivity].
  apply find_some in Hfind as [Hin Hown]. apply andb_true_iff in Hown as [Hid Hown].
  apply String.eqb_eq in Hid.
  destruct (Replay.build_replay_request orig) as [request|]; [|reflexivity].
  destruct (JS.or_str _ None) as [key|]; [|reflexivity].
  set (row0 := ReplayRun.replay_row e a orig (ReplayRun.request_json request)).
  destruct (insert_task t row0) as [t1|] eqn:Hins; [|now left].
  assert (Ht1 : t1 = t ++ [row0]).
  { unfold insert_task in Hins. destruct (existsb _ t); congruence. }
  destruct (ReplayRun.detect _ _) as [p|]; [|right; now exists row0].
  assert (Hup : forall set, ReplayRun.update_by_id e t1 set = t ++ [set row0]).
  { intros set. unfold ReplayRun.update_by_id.
    change (ReplayRun.replayId e) with (Task.id row0).
    now apply insert_then_update. }
  assert (Hrow_own : owned_by a row0 = true) by now apply owned_by_own.
  destruct (ReplayRun.attempt_replay e p _ up) as [s|message];
    cbn [fst snd replay_ledger].
  - rewrite Hup.
    exists (Chat.set_success (ReplayRun.durationMs e) (ReplayRun.cost s)
              (ReplayRun.completionText s) (ReplayRun.tokensIn s) (ReplayRun.tokensOut s)
              (ReplayRun.now_final e) row0).
    split; [|now cbn].
    exists orig.
    repeat (split; [first [assumption|exact Hrow_own|reflexivity
                           |cbn; now rewrite Hid]|]).
    reflexivity.
  - rewrite Hup.
    exists (Chat.set_failed (ReplayRun.durationMs e) message (ReplayRun.now_final e) row0).
    split; [|now cbn].
    exists orig.
    repeat (split; [first [assumption|exact Hrow_own|reflexivity
                           |cbn; now rewrite Hid]|]).
    reflexivity.
Qed.

Lemma bind_Done {A B : Type} (x : Proxy.attempt A) (f : A -> Proxy.attempt B) (b : B) :
  Proxy.bind x f = Proxy.Done b -> exists a, x = Proxy.Done a /\ f a = Proxy.Done b.
Proof. destruct x as [a|]; cbn; [eauto|discriminate]. Qed.

Lemma replay_read_answer (e : ReplayRun.env) (model data : JSON.value)
    (usage input output : string) (content : JSON.value -> JSON.value)
    (s : ReplayRun.served) :
  ReplayRun.read_answer e model data (usage, input, output) content = Proxy.Done s ->
  exists u,
    JSON.prop data usage = Some u
    /\ ReplayRun.tokensIn s = count_or0 (JSON.opt_prop u input)
    /\ ReplayRun.tokensOut s = count_or0 (JSON.opt_prop u output)
    /\ ReplayRun.completionText s = Proxy.text_or_empty (content data)
    /\ ReplayRun.cost_of e model (ReplayRun.tokensIn s) (ReplayRun.tokensOut s)
       = Proxy.Done (ReplayRun.cost s).
Proof.
  unfold ReplayRun.read_answer, mbind, Proxy.attempt_bind. intros H.
  apply bind_Done in H as (u & Hu & H). exists u.
  destruct (JSON.prop data usage) as [u'|]; [|discriminate]. injection Hu as ->.
  split; [reflexivity|].
  apply bind_Done in H as (c & Hc & H). injection H as <-.
  cbn [ReplayRun.tokensIn ReplayRun.tokensOut ReplayRun.completionText ReplayRun.cost].
  now repeat split.
Qed.

(** X18.  A replay measures an upstream answer as the chat proxy does.
    Whenever the replay of a request with the model [m] gets through its
    [try] block, the chat proxy, given the same provider, model and
    upstream answer on its path without streaming, succeeds as well and
    records the same completion and the same completion tokens.  The
    prompt tokens and the cost are the same too, except when a
    pass-through provider reports no prompt tokens: then the replay
    records 0 where the proxy records its estimate from the length of the
    prompt. *)
Theorem replay_measures_like_proxy (pe : Proxy.env) (re : ReplayRun.env)
    (db : database) (p : provider) (m prompt : string) (stream : bool)
    (originalRequest : JSON.value) (up : Upstream.response) (s : ReplayRun.served) :
  JSON.opt_prop originalRequest "model" = JSON.Str m ->
  Proxy.syntax_error pe = ReplayRun.syntax_error re ->
  p = google \/ stream = false ->
  ReplayRun.attempt_replay re p originalRequest up = Proxy.Done s ->
  exists ps,
    Proxy.dispatch pe db p m prompt stream up = Proxy.succeed pe m db ps
    /\ Proxy.completion ps = ReplayRun.completionText s
    /\ Proxy.tokensOut ps = ReplayRun.tokensOut s
    /\ ((Proxy.tokensIn ps = ReplayRun.tokensIn s
         /\ calculateCost m (inject_Z (Proxy.tokensIn ps)) (inject_Z (Proxy.tokensOut ps))
            = ReplayRun.cost s)
        \/ (passes_through p = true /\ ReplayRun.tokensIn s = 0%Z
            /\ Proxy.tokensIn ps = estimateTokens (Some prompt))).
Proof.
  intros Hmodel Hsyn Hstream Hreplay.
  assert (Hfetch : forall label data,
            ReplayRun.fetch_json re label up = Proxy.Done data ->
            Proxy.fetch_json pe label up = Proxy.Done data).
  { intros label data. unfold ReplayRun.fetch_json, Proxy.fetch_json.
    destruct up as [message|status text|chunks [message|]]; try discriminate.
    now rewrite Hsyn. }
  assert (Hcost : forall tin tout c,
            ReplayRun.cost_of re (JSON.Str m) tin tout = Proxy.Done c ->
            calculateCost m (inject_Z tin) (inject_Z tout) = c).
  { intros tin tout c [= <-]. reflexivity. }
  unfold ReplayRun.attempt_replay in Hreplay. rewrite Hmodel in Hreplay.
  unfold mbind, Proxy.attempt_bind in Hreplay.
  assert (Hthrough : passes_through p = true ->
            forall data,
              ReplayRun.fetch_json re (provider_name p) up = Proxy.Done data ->
              ReplayRun.read_answer re (JSON.Str m) data
                ("usage", "prompt_tokens", "completion_tokens")
                (fun data => reply_content data) = Proxy.Done s ->
              exists ps,
                Proxy.dispatch pe db p m prompt stream up = Proxy.succeed pe m db ps
                /\ Proxy.completion ps = ReplayRun.completionText s
                /\ Proxy.tokensOut ps = ReplayRun.tokensOut s
                /\ ((Proxy.tokensIn ps = ReplayRun.tokensIn s
                     /\ calculateCost m (inject_Z (Proxy.tokensIn ps))
                          (inject_Z (Proxy.tokensOut ps)) = ReplayRun.cost s)
                    \/ (passes_through p = true /\ ReplayRun.tokensIn s = 0%Z
                        /\ Proxy.tokensIn ps = estimateTokens (Some prompt)))).
  { intros Hp data Hf Hr.
    assert (Hs : stream = false).
    { destruct Hstream as [->|Hs]; [discriminate|exact Hs]. }
    apply Hfetch in Hf.
    apply replay_read_answer in Hr as (u & Hu & Hin & Hout & Hc & Hcst).
    apply Hcost in Hcst.
    assert (Hd : Proxy.dispatch pe db p m prompt stream up
                 = Proxy.settled pe db p m (Proxy.passed pe p prompt up))
      by (rewrite Hs; destruct p; try discriminate; reflexivity).
    rewrite Hd. unfold Proxy.passed, mbind, Proxy.attempt_bind. rewrite Hf.
    cbn [Proxy.bind]. rewrite Hu. cbn [Proxy.non_null Proxy.bind Proxy.settled].
    eexists. split; [reflexivity|].
    cbn [Proxy.completion Proxy.tokensOut Proxy.tokensIn].
    split; [now rewrite Hc|]. split; [now rewrite Hout|].
    unfold JSON.or. destruct (JSON.truthy (JSON.opt_prop u "prompt_tokens")) eqn:E.
    - left. rewrite <- Hin, <- Hout. split; [reflexivity|exact Hcst].
    - right. split; [exact Hp|]. split; [|reflexivity].
      rewrite Hin. now apply count_or0_falsy. }
  assert (Hconverted : forall label conv usage input output content,
            passes_through p = false ->
            Proxy.dispatch pe db p m prompt stream up
            = Proxy.settled pe db p m (Proxy.converted pe label up conv) ->
            (forall data u, JSON.prop data usage = Some u ->
               exists responseData,
                 conv data = Some responseData
                 /\ reply_usage responseData "prompt_tokens"
                    = JSON.or (JSON.opt_prop u input) (JSON.Num 0)
                 /\ reply_usage responseData "completion_tokens"
                    = JSON.or (JSON.opt_prop u output) (JSON.Num 0)
                 /\ reply_content responseData
                    = JSON.or (content data) (JSON.Str EmptyString)) ->
            forall data,
              ReplayRun.fetch_json re label up = Proxy.Done data ->
              ReplayRun.read_answer re (JSON.Str m) data (usage, input, output) content
              = Proxy.Done s ->
              exists ps,
                Proxy.dispatch pe db p m prompt stream up = Proxy.succeed pe m db ps
                /\ Proxy.completion ps = ReplayRun.completionText s
                /\ Proxy.tokensOut ps = ReplayRun.tokensOut s
                /\ ((Proxy.tokensIn ps = ReplayRun.tokensIn s
                     /\ calculateCost m (inject_Z (Proxy.tokensIn ps))
                          (inject_Z (Proxy.tokensOut ps)) = ReplayRun.cost s)
                    \/ (passes_through p = true /\ ReplayRun.tokensIn s = 0%Z
                        /\ Proxy.tokensIn ps = estimateTokens (Some prompt)))).
  { intros label conv usage input output content Hp Hd Hconv data Hf Hr.
    apply Hfetch in Hf.
    apply replay_read_answer in Hr as (u & Hu & Hin & Hout & Hc & Hcst).
    apply Hcost in Hcst.
    destruct (Hconv data u Hu) as (responseData & Hrd & Hpt & Hct & Hcontent).
    rewrite Hd. unfold Proxy.converted, mbind, Proxy.attempt_bind. rewrite Hf.
    cbn [Proxy.bind]. rewrite Hrd. cbn [Proxy.non_null Proxy.bind Proxy.settled].
    eexists. split; [reflexivity|].
    cbn [Proxy.read_converted Proxy.completion Proxy.tokensOut Proxy.tokensIn].
    fold (reply_usage responseData "prompt_tokens")
      (reply_usage responseData "completion_tokens") (reply_content responseData).
    rewrite Hpt, Hct, Hcontent, !count_or0_or0, text_or_empty_or_empty.
    split; [now rewrite Hc|]. split; [now rewrite Hout|].
    left. rewrite <- Hin, <- Hout. split; [reflexivity|exact Hcst]. }
  destruct p.
  - (* openai *)
    apply bind_Done in Hreplay as (data & Hf & Hr). now apply (Hthrough eq_refl data).
  - (* anthropic *)
    destruct Hstream as [Hg| ->]; [discriminate|].
    apply bind_Done in Hreplay as (req & _ & Hreplay).
    apply bind_Done in Hreplay as (data & Hf & Hr).
    apply (Hconverted "Anthropic"
             (fun data => convertFromAnthropic data m (Proxy.uuid_response pe)
                            (Chat.Date_now (Proxy.base pe) 0))
             "usage" "input_tokens" "output_tokens"
             (fun data => JSON.opt_prop (first_of (JSON.opt_prop data "content")) "text")
             eq_refl eq_refl) with (data := data); [|exact Hf|exact Hr].
    intros d u Hu. unfold convertFromAnthropic.
    assert (Hid : exists id, JSON.prop d "id" = Some id)
      by (destruct d; try discriminate; cbn; eauto).
    destruct Hid as [id ->]. eexists. split; [reflexivity|].
    assert (Hu' : JSON.opt_prop d "usage" = u) by (unfold JSON.opt_prop; now rewrite Hu).
    unfold reply_usage, reply_content. cbn. rewrite Hu'. now repeat split.
  - (* google *)
    apply bind_Done in Hreplay as (req & _ & Hreplay).
    apply bind_Done in Hreplay as (data & Hf & Hr).
    apply (Hconverted "Gemini"
             (fun data => convertFromGemini data m (Proxy.uuid_response pe)
                            (Chat.Date_now (Proxy.base pe) 0))
             "usageMetadata" "promptTokenCount" "candidatesTokenCount"
             (fun data =>
                JSON.opt_prop
                  (first_of
                     (JSON.opt_prop
                        (JSON.opt_prop (first_of (JSON.opt_prop data "candidates"))
                           "content")
                        "parts"))
                  "text")
             eq_refl) with (data := data); [now destruct stream| |exact Hf|exact Hr].
    intros d u Hu. unfold convertFromGemini.
    assert (Hid : exists c, JSON.prop d "candidates" = Some c)
      by (destruct d; try discriminate; cbn; eauto).
    destruct Hid as [cands Hcands]. rewrite Hcands. eexists. split; [reflexivity|].
    assert (Hu' : JSON.opt_prop d "usageMetadata" = u)
      by (unfold JSON.opt_prop; now rewrite Hu).
    assert (Hcands' : JSON.opt_prop d "candidates" = cands)
      by (unfold JSON.opt_prop; now rewrite Hcands).
    unfold reply_usage, reply_content. cbn. rewrite Hu', Hcands'. now repeat split.
  - (* xai *)
    apply bind_Done in Hreplay as (data & Hf & Hr). now apply (Hthrough eq_refl data).
  - (* openrouter *)
    apply bind_Done in Hreplay as (data & Hf & Hr). now apply (Hthrough eq_refl data).
Qed.

Lemma replay_measures_like_proxy_witness :
  exists ps,
    Proxy.dispatch proxy_env empty_db google "gemini-1.5-pro" "user: Say hello" false
      (Upstream.Ok [gemini_answer] None)
    = Proxy.succeed proxy_env "gemini-1.5-pro" empty_db ps
    /\ Proxy.completion ps = "hello"
    /\ Proxy.tokensIn ps = 2%Z /\ Proxy.tokensOut ps = 1%Z.
Proof.
  destruct (replay_measures_like_proxy proxy_env replay_env empty_db google
              "gemini-1.5-pro" "user: Say hello" false gemini_request
              (Upstream.Ok [gemini_answer] None) _ eq_refl eq_refl
              (or_introl eq_refl) ltac:(vm_compute; reflexivity))
    as (ps & Hd & Hc & Hout & [[Hin _]|(Hp & _)]); [|discriminate Hp].
  exists ps. split; [exact Hd|]. split; [exact Hc|]. split; [exact Hin|exact Hout].
Defined.

(** ** JSON texts read back *)

Lemma parse_chars_escape_ascii (c : ascii) (tail t r : string) :
  JSON.parse_chars tail = Some (t, r) ->
  JSON.parse_chars (JSON.escape_ascii c +:+ tail) = Some (String c t, r).
Proof.
  intros H.
  assert (Hstep : forall e : ascii,
            JSON.parse_chars (String "092" (String e tail))
            = (if Ascii.eqb e JSON.quote then Some (String JSON.quote t, r)
               else if Ascii.eqb e JSON.backslash then Some (String JSON.backslash t, r)
               else if Ascii.eqb e "/" then Some (String "/" t, r)
               else if Ascii.eqb e "b" then Some (String "008" t, r)
               else if Ascii.eqb e "f" then Some (String "012" t, r)
               else if Ascii.eqb e "n" then Some (String "010" t, r)
               else if Ascii.eqb e "r" then Some (String "013" t, r)
               else if Ascii.eqb e "t" then Some (String "009" t, r)
               else JSON.parse_chars (String "092" (String e tail)))).
  { intros e. cbn [JSON.parse_chars]. change (Ascii.eqb "092" JSON.quote) with false.
    change (Ascii.eqb "092" JSON.backslash) with true. cbv iota. rewrite H.
    repeat (match goal with |- context [if ?b then _ else _] => destruct b end;
            try reflexivity). }
  assert (Hu : forall (h3 h4 : ascii) (u : N),
            JSON.hex4 "0" "0" h3 h4 = Some u -> (u < 128)%N ->
            JSON.parse_chars
              (String "092"
                 (String "u" (String "0" (String "0" (String h3 (String h4 tail))))))
            = Some (String (ascii_of_N u) t, r)).
  { intros h3 h4 u Hh Hlt. cbn [JSON.parse_chars].
    change (Ascii.eqb "092" JSON.quote) with false.
    change (Ascii.eqb "092" JSON.backslash) with true. cbv iota.
    change (Ascii.eqb "u" JSON.quote) with false.
    change (Ascii.eqb "u" JSON.backslash) with false.
    change (Ascii.eqb "u" "/") with false. change (Ascii.eqb "u" "b") with false.
    change (Ascii.eqb "u" "f") with false. change (Ascii.eqb "u" "n") with false.
    change (Ascii.eqb "u" "r") with false. change (Ascii.eqb "u" "t") with false.
    change (Ascii.eqb "u" "u") with true. cbv iota.
    rewrite Hh. cbv zeta.
    assert (Hhigh : JSON.high_surrogate u = false).
    { unfold JSON.high_surrogate. apply andb_false_iff. left. apply N.leb_gt. lia. }
    assert (Hone : JSON.utf8 u = String (ascii_of_N u) EmptyString).
    { unfold JSON.utf8. now apply N.ltb_lt in Hlt as ->. }
    rewrite Hhigh, Hone, H. cbn [andb].
    destruct tail as [|x0 [|x1 [|x2 [|x3 [|x4 [|x5 tail']]]]]]; try reflexivity.
    now destruct (JSON.hex4 x2 x3 x4 x5). }
  destruct (Ascii.eqb c JSON.quote) eqn:Hq.
  { apply Ascii.eqb_eq in Hq as ->.
    change (JSON.escape_ascii JSON.quote) with (String "092" (String JSON.quote EmptyString)).
    rewrite !append_cons. change (EmptyString +:+ tail) with tail.
    rewrite Hstep. reflexivity. }
  destruct (Ascii.eqb c JSON.backslash) eqn:Hb.
  { apply Ascii.eqb_eq in Hb as ->.
    change (JSON.escape_ascii JSON.backslash) with (String "092" (String "092" EmptyString)).
    rewrite !append_cons. change (EmptyString +:+ tail) with tail.
    rewrite Hstep. reflexivity. }
  destruct (nat_of_ascii c <? 32)%nat eqn:E32.
  - clear Hq Hb. apply Nat.ltb_lt in E32.
    assert (Hc : c = ascii_of_nat (nat_of_ascii c)) by (symmetry; apply ascii_nat_embedding).
    revert Hc. generalize dependent (nat_of_ascii c). intros n Hn ->.
    do 32 (destruct n as [|n];
           [match goal with
            | |- context [JSON.escape_ascii ?a] =>
                let e := eval vm_compute in (JSON.escape_ascii a) in
                let a' := eval vm_compute in a in
                let Ee := fresh "Ee" in
                let Ea := fresh "Ea" in
                assert (Ee : JSON.escape_ascii a = e) by (vm_compute; reflexivity);
                assert (Ea : a = a') by (vm_compute; reflexivity);
                rewrite Ee, Ea
            end;
            rewrite !append_cons; change (EmptyString +:+ tail) with tail;
            first [rewrite Hstep; reflexivity
                  |match goal with
                   | |- JSON.parse_chars
                          (String _ (String _ (String _ (String _
                             (String ?h3 (String ?h4 _)))))) = _ =>
                       let u := eval vm_compute in (JSON.hex4 "0" "0" h3 h4) in
                       match u with
                       | Some ?u' =>
                           rewrite (Hu h3 h4 u' ltac:(vm_compute; reflexivity)
                                      ltac:(vm_compute; reflexivity));
                           do 2 f_equal; vm_compute; reflexivity
                       end
                   end]|]).
    lia.
  - unfold JSON.escape_ascii.
    apply Nat.ltb_ge in E32 as Hge.
    rewrite Hq, Hb.
    rewrite !(proj2 (Nat.eqb_neq (nat_of_ascii c) _)) by lia.
    rewrite E32, append_cons. change (EmptyString +:+ tail) with tail.
    cbn [JSON.parse_chars]. now rewrite Hq, Hb, E32, H.
Qed.

Lemma parse_chars_escape (s rest : string) :
  JSON.parse_chars (JSON.escape s +:+ String JSON.quote rest) = Some (s, rest).
Proof.
  induction s as [|c s IH].
  - cbn. reflexivity.
  - cbn [JSON.escape]. rewrite append_assoc. now apply parse_chars_escape_ascii.
Qed.

Lemma parse_chars_quoted (s rest : string) :
  exists tail, JSON.quoted s +:+ rest = String JSON.quote tail
               /\ JSON.parse_chars tail = Some (s, rest).
Proof.
  unfold JSON.quoted. rewrite append_cons, append_assoc. eexists. split; [reflexivity|].
  rewrite append_cons. apply parse_chars_escape.
Qed.

(** numbers *)
Lemma append_nil_l (s : string) : EmptyString +:+ s = s.
Proof. reflexivity. Qed.
(** numbers *)
Lemma pretty_N_go_app (x : N) : forall s, pretty_N_go x s = pretty_N_go x EmptyString +:+ s.
Proof.
  induction (N.lt_wf_0 x) as [x _ IH]. intros s.
  destruct (decide (x = 0)%N) as [->|Hx].
  - now rewrite !pretty_N_go_0.
  - assert (0 < x)%N by lia.
    assert (Hlt : (x / 10 < x)%N) by (apply N.div_lt; lia).
    rewrite (pretty_N_go_step x s), (pretty_N_go_step x EmptyString) by assumption.
    rewrite (IH _ Hlt (String (pretty_N_char (x mod 10)) s)).
    rewrite (IH _ Hlt (String (pretty_N_char (x mod 10)) EmptyString)).
    now rewrite append_assoc.
Qed.

Lemma digits_value_snoc (d : string) (c : ascii) : forall acc,
  JSON.digits_value acc (d +:+ String c EmptyString)
  = (10 * JSON.digits_value acc d + Z.of_nat (nat_of_ascii c - 48))%Z.
Proof.
  induction d as [|x d IH]; intros acc; [reflexivity|].
  rewrite append_cons. cbn [JSON.digits_value]. apply IH.
Qed.

Lemma pretty_N_char_value (x : N) :
  (x < 10)%N ->
  Z.of_nat (nat_of_ascii (pretty_N_char x) - 48) = Z.of_N x
  /\ JS.is_digit (pretty_N_char x) = true.
Proof.
  intros H.
  assert (x = 0 \/ x = 1 \/ x = 2 \/ x = 3 \/ x = 4 \/ x = 5 \/ x = 6 \/ x = 7
          \/ x = 8 \/ x = 9)%N as Hc by lia.
  repeat (destruct Hc as [->|Hc]; [split; reflexivity|]). subst. split; reflexivity.
Qed.

Lemma all_digits_app (a b : string) :
  JS.all_digits (a +:+ b) = JS.all_digits a && JS.all_digits b.
Proof.
  induction a as [|c a IH]; [reflexivity|].
  rewrite append_cons. cbn [JS.all_digits]. now rewrite IH, andb_assoc.
Qed.

Lemma pretty_N_go_digits (x : N) :
  JSON.digits_value 0 (pretty_N_go x EmptyString) = Z.of_N x
  /\ JS.all_digits (pretty_N_go x EmptyString) = true
  /\ ((0 < x)%N ->
      exists c t, pretty_N_go x EmptyString = String c t /\ c <> "0"%char).
Proof.
  induction (N.lt_wf_0 x) as [x _ IH].
  destruct (decide (x = 0)%N) as [->|Hx].
  - rewrite pretty_N_go_0. split; [reflexivity|]. split; [reflexivity|]. lia.
  - assert (Hpos : (0 < x)%N) by lia.
    rewrite (pretty_N_go_step x) by assumption. rewrite pretty_N_go_app.
    destruct (IH (x / 10)%N) as (Hv & Hd & Hz); [apply N.div_lt; lia|].
    destruct (pretty_N_char_value (x mod 10)%N) as [Hcv Hcd]; [apply N.mod_lt; lia|].
    split; [|split].
    + rewrite digits_value_snoc, Hv, Hcv.
      rewrite N2Z.inj_div, N2Z.inj_mod.
      pose proof (Z.div_mod (Z.of_N x) 10 ltac:(lia)). change (Z.of_N 10) with 10%Z. lia.
    + rewrite all_digits_app, Hd. cbn [JS.all_digits]. now rewrite Hcd.
    + intros _. destruct (decide (x / 10 = 0)%N) as [E|E].
      * rewrite E, pretty_N_go_0. eexists _, _. split; [reflexivity|].
        assert (x < 10)%N by (apply N.div_small_iff in E; lia).
        rewrite N.mod_small by assumption.
        assert (x = 1 \/ x = 2 \/ x = 3 \/ x = 4 \/ x = 5 \/ x = 6 \/ x = 7
                \/ x = 8 \/ x = 9)%N as Hc by lia.
        repeat (destruct Hc as [->|Hc]; [discriminate|]). subst. discriminate.
      * destruct Hz as (c & t & Hct & Hc); [now apply N.neq_0_lt_0|]. rewrite Hct.
        eexists _, _. split; [reflexivity|exact Hc].
Qed.

(** the decimal digits of a natural number *)
Lemma pretty_N_digits (x : N) :
  JSON.digits_value 0 (pretty x) = Z.of_N x
  /\ JS.all_digits (pretty x) = true
  /\ exists c t, pretty x = String c t /\ JS.is_digit c = true
                 /\ (c <> "0"%char \/ t = EmptyString).
Proof.
  unfold pretty, pretty_N. destruct (decide (x = 0)%N) as [->|Hx].
  - split; [reflexivity|]. split; [reflexivity|].
    exists "0"%char, EmptyString. auto.
  - destruct (pretty_N_go_digits x) as (Hv & Hd & Hz).
    destruct Hz as (c & t & Hct & Hc); [lia|].
    split; [exact Hv|]. split; [exact Hd|]. exists c, t. split; [exact Hct|].
    split; [|now left]. rewrite Hct in Hd. cbn [JS.all_digits] in Hd.
    now apply andb_true_iff in Hd.
Qed.

Lemma take_digits_app (d rest : string) :
  JS.all_digits d = true ->
  match rest with String c _ => JS.is_digit c = false | EmptyString => True end ->
  JSON.take_digits (d +:+ rest) = (d, rest).
Proof.
  intros Hd Hrest. induction d as [|c d IH].
  - change (EmptyString +:+ rest) with rest. destruct rest as [|c r]; [reflexivity|].
    cbn [JSON.take_digits]. now rewrite Hrest.
  - rewrite append_cons. cbn [JS.all_digits] in Hd. apply andb_true_iff in Hd as [Hc Hd].
    cbn [JSON.take_digits]. now rewrite Hc, (IH Hd).
Qed.

Lemma is_digit_cases (c : ascii) :
  JS.is_digit c = true ->
  In c ["0"; "1"; "2"; "3"; "4"; "5"; "6"; "7"; "8"; "9"]%char.
Proof.
  destruct c as [[] [] [] [] [] [] [] []]; intros H; vm_compute in H;
    try discriminate; cbn; tauto.
Qed.

Lemma parse_sign_digit (c : ascii) (s : string) :
  JS.is_digit c = true -> JSON.parse_sign (String c s) = (false, String c s).
Proof.
  intros H. apply is_digit_cases in H. cbn [In] in H.
  repeat (destruct H as [<-|H]; [reflexivity|]). destruct H.
Qed.

Lemma integer_part_ok (c : ascii) (t : string) :
  JS.is_digit c = true -> c <> "0"%char \/ t = EmptyString ->
  JSON.integer_part (String c t) = true.
Proof.
  intros H Hz. apply is_digit_cases in H. cbn [In] in H.
  destruct H as [<-|H]; [destruct Hz as [Hz| ->]; [contradiction|reflexivity]|].
  repeat (destruct H as [<-|H]; [reflexivity|]). destruct H.
Qed.

Lemma parse_fraction_none (r : string) :
  match r with String c _ => c <> "."%char | EmptyString => True end ->
  JSON.parse_fraction r = Some (EmptyString, r).
Proof.
  destruct r as [|c r]; [reflexivity|]. intros H.
  destruct c as [[] [] [] [] [] [] [] []]; try reflexivity. now contradiction H.
Qed.

Lemma parse_fraction_some (fp r : string) :
  JS.all_digits fp = true -> fp <> EmptyString ->
  match r with String c _ => JS.is_digit c = false | EmptyString => True end ->
  JSON.parse_fraction (String "." (fp +:+ r)) = Some (fp, r).
Proof.
  intros Hd Hne Hr.
  change (JSON.parse_fraction (String "." (fp +:+ r)))
    with (match JSON.take_digits (fp +:+ r) with
          | (EmptyString, _) => None
          | (fp, r'') => Some (fp, r'')
          end).
  rewrite (take_digits_app _ _ Hd Hr). now destruct fp.
Qed.

Lemma closes_stops (rest : string) :
  closes rest ->
  match rest with
  | String c _ => JS.is_digit c = false /\ c <> "."%char /\ JSON.is_e c = false
  | EmptyString => True
  end.
Proof.
  destruct rest as [|c r]; [easy|]. intros [->|[->| ->]]; repeat split; discriminate.
Qed.

Lemma parse_exponent_none (rest : string) :
  closes rest -> JSON.parse_exponent rest = Some (None, rest).
Proof.
  intros H. apply closes_stops in H. destruct rest as [|c r]; [reflexivity|].
  destruct H as (_ & _ & H). cbn [JSON.parse_exponent]. now rewrite H.
Qed.

Lemma parse_exponent_some (e : Z) (rest : string) :
  closes rest ->
  JSON.parse_exponent
    (String "e" ((if (0 <=? e)%Z then "+" else "-") +:+ pretty (Z.to_N (Z.abs e)) +:+ rest))
  = Some (Some e, rest).
Proof.
  intros H. apply closes_stops in H.
  assert (Hr : match rest with String c _ => JS.is_digit c = false | EmptyString => True end).
  { destruct rest; [exact I|]. now destruct H. }
  destruct (pretty_N_digits (Z.to_N (Z.abs e))) as (Hv & Hd & c & t & Hct & _).
  pose proof (take_digits_app _ _ Hd Hr) as Ht. rewrite Hct in Ht, Hv.
  destruct (0 <=? e)%Z eqn:E.
  - change (JSON.parse_exponent
              (String "e" ("+" +:+ pretty (Z.to_N (Z.abs e)) +:+ rest)))
      with (match JSON.take_digits (pretty (Z.to_N (Z.abs e)) +:+ rest) with
            | (EmptyString, _) => None
            | (ed, r2) =>
                Some (Some (Number.signed false (JSON.digits_value 0 ed)), r2)
            end).
    rewrite Hct, Ht, Hv. cbn [Number.signed]. do 3 f_equal. apply Z.leb_le in E. lia.
  - change (JSON.parse_exponent
              (String "e" ("-" +:+ pretty (Z.to_N (Z.abs e)) +:+ rest)))
      with (match JSON.take_digits (pretty (Z.to_N (Z.abs e)) +:+ rest) with
            | (EmptyString, _) => None
            | (ed, r2) =>
                Some (Some (Number.signed true (JSON.digits_value 0 ed)), r2)
            end).
    rewrite Hct, Ht, Hv. cbn [Number.signed]. do 3 f_equal. apply Z.leb_gt in E. lia.
Qed.

(** a literal is read as its parts *)
Lemma parse_number_literal (negative : bool) (ip fp tail rest : string) (ex : option Z) :
  JS.all_digits ip = true ->
  (exists c t, ip = String c t /\ (c <> "0"%char \/ t = EmptyString)) ->
  JS.all_digits fp = true ->
  JSON.parse_exponent tail = Some (ex, rest) ->
  match tail with
  | String c _ => JS.is_digit c = false /\ c <> "."%char
  | EmptyString => True
  end ->
  JSON.parse_number
    ((if negative then "-" else EmptyString) +:+ ip
     +:+ match fp with EmptyString => EmptyString | _ => "." +:+ fp end +:+ tail)
  = Some (JSON.literal_value negative ip fp ex, rest).
Proof.
  intros Hip (c & t & -> & Hc) Hfp Hex Htail.
  assert (Hd : JS.is_digit c = true).
  { cbn [JS.all_digits] in Hip. now apply andb_true_iff in Hip. }
  assert (Hstop : match tail with
                  | String c _ => JS.is_digit c = false
                  | EmptyString => True
                  end) by (destruct tail; [exact I|now destruct Htail]).
  unfold JSON.parse_number.
  set (frac := match fp with EmptyString => EmptyString | _ => "." +:+ fp end).
  assert (Hsign : JSON.parse_sign ((if negative then "-" else EmptyString)
                                   +:+ String c t +:+ frac +:+ tail)
                  = (negative, String c t +:+ frac +:+ tail)).
  { destruct negative; [reflexivity|]. rewrite append_nil_l, append_cons.
    now apply parse_sign_digit. }
  rewrite Hsign.
  assert (Htake : JSON.take_digits (String c t +:+ frac +:+ tail)
                  = (String c t, frac +:+ tail)).
  { apply take_digits_app; [exact Hip|]. subst frac.
    destruct fp; [exact Hstop|reflexivity]. }
  rewrite Htake, (integer_part_ok _ _ Hd Hc).
  assert (Hfrac : JSON.parse_fraction (frac +:+ tail) = Some (fp, tail)).
  { subst frac. destruct fp as [|f fp].
    - rewrite append_nil_l. apply parse_fraction_none.
      destruct tail; [exact I|now destruct Htail].
    - change (("." +:+ String f fp) +:+ tail) with (String "." (String f fp +:+ tail)).
      now apply parse_fraction_some. }
  now rewrite Hfrac, Hex.
Qed.

Lemma digits_value_app (a b : string) : forall acc,
  JSON.digits_value acc (a +:+ b) = JSON.digits_value (JSON.digits_value acc a) b.
Proof.
  induction a as [|c a IH]; intros acc; [reflexivity|].
  rewrite append_cons. cbn [JSON.digits_value]. apply IH.
Qed.

Lemma zeros_facts (n : nat) :
  String.length (Number.zeros n) = n
  /\ JS.all_digits (Number.zeros n) = true
  /\ forall acc, JSON.digits_value acc (Number.zeros n) = (acc * 10 ^ Z.of_nat n)%Z.
Proof.
  induction n as [|n (Hl & Hd & Hv)].
  - split; [reflexivity|]. split; [reflexivity|]. intros acc. cbn. lia.
  - split; [cbn; now rewrite Hl|]. split; [cbn [Number.zeros JS.all_digits]; now rewrite Hd|].
    intros acc. cbn [Number.zeros JSON.digits_value]. rewrite Hv.
    rewrite Nat2Z.inj_succ, Z.pow_succ_r by lia.
    change (Z.of_nat (nat_of_ascii "0" - 48)) with 0%Z. lia.
Qed.

Lemma length_append (a b : string) :
  String.length (a +:+ b) = (String.length a + String.length b)%nat.
Proof. induction a as [|c a IH]; [reflexivity|]. rewrite append_cons. cbn. now rewrite IH. Qed.

Lemma substring0_drop (s : string) : forall n,
  JS.substring0 s n +:+ JS.drop n s = s
  /\ String.length (JS.drop n s) = (String.length s - n)%nat
  /\ (JS.all_digits s = true ->
      JS.all_digits (JS.substring0 s n) = true /\ JS.all_digits (JS.drop n s) = true).
Proof.
  unfold JS.substring0. induction s as [|c s IH]; intros [|n].
  - now cbn.
  - now cbn.
  - cbn [String.substring JS.drop]. split; [reflexivity|]. split; [cbn; lia|]. now intros ->.
  - destruct (IH n) as (H1 & H2 & H3). cbn [String.substring JS.drop String.length].
    rewrite append_cons, H1. split; [reflexivity|]. split; [exact H2|].
    cbn [JS.all_digits]. intros H. apply andb_true_iff in H as [Hc H].
    destruct (H3 H) as [Ha Hb]. now rewrite Hc, Ha.
Qed.

Lemma literal_plain (negative : bool) (ip : string) :
  JSON.literal_value negative ip EmptyString None
  = if (JSON.digits_value 0 ip <=? Number.safe)%Z
    then JSON.Num (Number.signed negative (JSON.digits_value 0 ip))
    else JSON.of_number (Number.of_decimal negative (JSON.digits_value 0 ip) 0).
Proof. unfold JSON.literal_value. rewrite append_nil_r. reflexivity. Qed.

Lemma literal_fraction (negative : bool) (ip : string) (f : ascii) (fp : string)
    (ex : option Z) :
  JSON.literal_value negative ip (String f fp) ex
  = JSON.of_number
      (Number.of_decimal negative (JSON.digits_value 0 (ip +:+ String f fp))
         (default 0 ex - Z.of_nat (String.length (String f fp)))%Z).
Proof. reflexivity. Qed.

Lemma literal_exponent (negative : bool) (ip fp : string) (e : Z) :
  JSON.literal_value negative ip fp (Some e)
  = JSON.of_number
      (Number.of_decimal negative (JSON.digits_value 0 (ip +:+ fp))
         (e - Z.of_nat (String.length fp))%Z).
Proof. unfold JSON.literal_value. now destruct fp. Qed.

(** what [Number::toString] writes is read as the decimal it writes: the
    digits of the integer [x], with the decimal point after [pt] of them *)
Lemma parse_format (negative : bool) (x : N) (pt : Z) (rest : string) :
  (0 < x)%N -> closes rest ->
  JSON.parse_number
    ((if negative then "-" else EmptyString) +:+ Number.format (pretty x) pt +:+ rest)
  = Some (if (Z.of_nat (String.length (pretty x)) <=? pt)%Z && (pt <=? 21)%Z
          then JSON.literal_value negative
                 (pretty x
                  +:+ Number.zeros (Z.to_nat (pt - Z.of_nat (String.length (pretty x)))))
                 EmptyString None
          else JSON.of_number
                 (Number.of_decimal negative (Z.of_N x)
                    (pt - Z.of_nat (String.length (pretty x)))),
          rest).
Proof.
  intros Hx Hrest.
  destruct (pretty_N_digits x) as (Hv & Hd & c & t & Hct & Hc & Hz).
  set (ds := pretty x) in *. set (k := Z.of_nat (String.length ds)).
  pose proof (closes_stops rest Hrest) as Hstop.
  assert (Htail : match rest with
                  | String c _ => JS.is_digit c = false /\ c <> "."%char
                  | EmptyString => True
                  end) by (destruct rest; [exact I|tauto]).
  unfold Number.format. fold k.
  destruct ((k <=? pt)%Z && (pt <=? 21)%Z) eqn:E1.
  { (* the digits, then zeros *)
    destruct (zeros_facts (Z.to_nat (pt - k))) as (_ & Hzd & _).
    pose proof (parse_number_literal negative (ds +:+ Number.zeros (Z.to_nat (pt - k)))
                  EmptyString rest rest None) as H.
    cbv iota in H. rewrite append_nil_l in H. apply H; try assumption.
    - now rewrite all_digits_app, Hd, Hzd.
    - rewrite Hct, append_cons. eexists _, _. split; [reflexivity|].
      destruct Hz as [Hz| ->]; [now left|]. left. intros ->.
      rewrite Hct in Hv. change (JSON.digits_value 0 "0") with 0%Z in Hv. lia.
    - reflexivity.
    - now apply parse_exponent_none. }
  destruct ((0 <? pt)%Z && (pt <=? 21)%Z) eqn:E2.
  { (* the point inside the digits *)
    apply andb_true_iff in E2 as [E2a E2b]. apply Z.ltb_lt in E2a. apply Z.leb_le in E2b.
    assert (Hlt : (pt < k)%Z).
    { apply andb_false_iff in E1 as [E1|E1]; [now apply Z.leb_gt in E1|].
      apply Z.leb_gt in E1. lia. }
    destruct (substring0_drop ds (Z.to_nat pt)) as (Happ & Hlen & Hall).
    destruct (Hall Hd) as [Hda Hdb].
    destruct (JS.drop (Z.to_nat pt) ds) as [|f fp] eqn:Edrop.
    { cbn [String.length] in Hlen. unfold k in Hlt. lia. }
    pose proof (parse_number_literal negative (JS.substring0 ds (Z.to_nat pt))
                  (String f fp) rest rest None) as H.
    cbv iota in H. rewrite !append_assoc in *. rewrite H; try assumption.
    - rewrite literal_fraction, Happ, Hv. do 4 f_equal.
      rewrite Hlen. cbn [default from_option Datatypes.id]. unfold k in *. lia.
    - assert (Hsub : exists n, Z.to_nat pt = S n) by (exists (Z.to_nat pt - 1)%nat; lia).
      destruct Hsub as [n Hn]. rewrite Hn, Hct. unfold JS.substring0.
      cbn [String.substring]. eexists _, _. split; [reflexivity|].
      destruct Hz as [Hz| ->]; [now left|]. right. now destruct n.
    - now apply parse_exponent_none. }
  destruct ((-6 <? pt)%Z && (pt <=? 0)%Z) eqn:E3.
  { (* zeros before the digits *)
    apply andb_true_iff in E3 as [E3a E3b]. apply Z.ltb_lt in E3a. apply Z.leb_le in E3b.
    destruct (zeros_facts (Z.to_nat (- pt))) as (Hzl & Hzd & Hzv).
    pose proof (parse_number_literal negative "0"
                  (Number.zeros (Z.to_nat (- pt)) +:+ ds) rest rest None) as H.
    assert (Hfp : exists f fp, Number.zeros (Z.to_nat (- pt)) +:+ ds = String f fp).
    { destruct (Number.zeros _) as [|z zs]; [rewrite append_nil_l, Hct|rewrite append_cons];
        eauto. }
    destruct Hfp as (f & fp & Hfp). rewrite Hfp in H. cbv iota in H.
    rewrite <- Hfp in H.
    change ("0." +:+ Number.zeros (Z.to_nat (- pt)) +:+ ds)
      with ("0" +:+ "." +:+ Number.zeros (Z.to_nat (- pt)) +:+ ds).
    rewrite !append_assoc in *. rewrite H; try assumption.
    - rewrite Hfp, literal_fraction, <- Hfp.
      assert (ES : JSON.digits_value 0 ("0" +:+ Number.zeros (Z.to_nat (- pt)) +:+ ds)
                   = Z.of_N x).
      { change ("0" +:+ Number.zeros (Z.to_nat (- pt)) +:+ ds)
          with (String "0" (Number.zeros (Z.to_nat (- pt)) +:+ ds)).
        cbn [JSON.digits_value].
        change (10 * 0 + Z.of_nat (nat_of_ascii "0" - 48))%Z with 0%Z.
        now rewrite digits_value_app, Hzv, Z.mul_0_l. }
      assert (EN : (default 0 None
                    - Z.of_nat (String.length (Number.zeros (Z.to_nat (- pt)) +:+ ds)))%Z
                   = (pt - k)%Z).
      { rewrite length_append, Hzl. cbn [default from_option Datatypes.id]. unfold k. lia. }
      now rewrite ES, EN.
    - reflexivity.
    - exists "0"%char, EmptyString. auto.
    - now rewrite all_digits_app, Hzd, Hd.
    - now apply parse_exponent_none. }
  (* the exponent form *)
  set (e := (pt - 1)%Z).
  pose proof (parse_exponent_some e rest Hrest) as Hex.
  set (tail := String "e" ((if (0 <=? e)%Z then "+" else "-")
                           +:+ pretty (Z.to_N (Z.abs e)) +:+ rest)) in *.
  assert (Htl : match tail with
                | String c _ => JS.is_digit c = false /\ c <> "."%char
                | EmptyString => True
                end) by (split; [reflexivity|discriminate]).
  assert (Hk : k = Z.of_nat (S (String.length t))).
  { unfold k. now rewrite Hct. }
  rewrite Hct in Hd, Hv |- *.
  assert (Hdc : JS.all_digits (String c EmptyString) = true).
  { cbn [JS.all_digits]. now rewrite Hc. }
  assert (Hdt : JS.all_digits t = true).
  { cbn [JS.all_digits] in Hd. now apply andb_true_iff in Hd. }
  destruct t as [|c2 r].
  - pose proof (parse_number_literal negative (String c EmptyString) EmptyString tail rest
                  (Some e) Hdc ltac:(eauto) eq_refl Hex Htl) as H.
    cbv iota in H.
    assert (Etext : (if negative then "-" else EmptyString)
                    +:+ (String c EmptyString +:+ "e"
                         +:+ (if (0 <=? e)%Z then "+" else "-")
                         +:+ pretty (Z.to_N (Z.abs e))) +:+ rest
                    = (if negative then "-" else EmptyString)
                      +:+ String c EmptyString +:+ EmptyString +:+ tail).
    { unfold tail. f_equal. rewrite !append_assoc. reflexivity. }
    rewrite Etext, H, literal_exponent, append_nil_r, Hv. do 4 f_equal.
    cbn [String.length] in *. unfold e. lia.
  - pose proof (parse_number_literal negative (String c EmptyString) (String c2 r) tail rest
                  (Some e) Hdc ltac:(eauto) Hdt Hex Htl) as H.
    cbv iota in H.
    assert (Etext : (if negative then "-" else EmptyString)
                    +:+ (String c ("." +:+ String c2 r) +:+ "e"
                         +:+ (if (0 <=? e)%Z then "+" else "-")
                         +:+ pretty (Z.to_N (Z.abs e))) +:+ rest
                    = (if negative then "-" else EmptyString)
                      +:+ String c EmptyString +:+ ("." +:+ String c2 r) +:+ tail).
    { unfold tail. f_equal. rewrite !append_assoc. reflexivity. }
    rewrite Etext, H, literal_exponent. rewrite append_cons, append_nil_l, Hv.
    do 4 f_equal. cbn [String.length] in *. unfold e. lia.
Qed.

(** [strip] keeps the value, and with fuel for every bit of [s] it leaves
    no trailing zero *)
Lemma strip_spec (fuel : nat) : forall s n : Z,
  (0 < s)%Z ->
  (0 < fst (Number.strip fuel s n))%Z
  /\ (n <= snd (Number.strip fuel s n))%Z
  /\ (fst (Number.strip fuel s n) * 10 ^ (snd (Number.strip fuel s n) - n) = s)%Z
  /\ ((s < 2 ^ (Z.of_nat fuel + 1))%Z -> (fst (Number.strip fuel s n) mod 10 <> 0)%Z).
Proof.
  induction fuel as [|fuel IH]; intros s n Hs.
  - cbn [Number.strip fst snd]. rewrite Z.sub_diag. cbn [Z.pow].
    repeat split; try lia. intros H. change (2 ^ (Z.of_nat 0 + 1))%Z with 2%Z in H.
    assert (s = 1)%Z as -> by lia. discriminate.
  - cbn [Number.strip]. destruct (s mod 10 =? 0)%Z eqn:E.
    + apply Z.eqb_eq in E. pose proof (Z.div_mod s 10 ltac:(lia)) as Hdm.
      assert (Hq : (0 < s / 10)%Z) by lia.
      destruct (IH (s / 10)%Z (n + 1)%Z Hq) as (H1 & H2 & H3 & H4).
      split; [exact H1|]. split; [lia|]. split.
      * replace (snd (Number.strip fuel (s / 10) (n + 1)) - n)%Z
          with (Z.succ (snd (Number.strip fuel (s / 10) (n + 1)) - (n + 1)))%Z by lia.
        rewrite Z.pow_succ_r by lia. lia.
      * intros Hlt. apply H4. rewrite Nat2Z.inj_succ in Hlt.
        replace (Z.succ (Z.of_nat fuel) + 1)%Z with (Z.succ (Z.of_nat fuel + 1))%Z in Hlt
          by lia.
        rewrite Z.pow_succ_r in Hlt by lia. lia.
    + apply Z.eqb_neq in E. cbn [fst snd]. rewrite Z.sub_diag. cbn [Z.pow].
      repeat split; try lia.
Qed.

Lemma normal_spec (s n : Z) :
  (0 < s)%Z ->
  (0 < fst (Number.normal s n))%Z
  /\ (n <= snd (Number.normal s n))%Z
  /\ (fst (Number.normal s n) * 10 ^ (snd (Number.normal s n) - n) = s)%Z
  /\ (fst (Number.normal s n) mod 10 <> 0)%Z.
Proof.
  intros Hs. unfold Number.normal.
  assert ((s =? 0)%Z = false) as -> by (apply Z.eqb_neq; lia).
  destruct (strip_spec (Z.to_nat (Z.log2 (Z.abs s))) s n Hs) as (H1 & H2 & H3 & H4).
  repeat split; try assumption. apply H4.
  rewrite Z.abs_eq by lia. rewrite Z2Nat.id by apply Z.log2_nonneg.
  replace (Z.log2 s + 1)%Z with (Z.succ (Z.log2 s)) by lia.
  now apply Z.log2_spec.
Qed.

Lemma normal_fixed (s n : Z) :
  (0 < s)%Z -> (s mod 10 <> 0)%Z -> Number.normal s n = (s, n).
Proof.
  intros Hs Hm. unfold Number.normal.
  assert ((s =? 0)%Z = false) as -> by (apply Z.eqb_neq; lia).
  destruct (Z.to_nat _); cbn [Number.strip]; [reflexivity|].
  now apply Z.eqb_neq in Hm as ->.
Qed.

(** the number a decimal denotes does not depend on its trailing zeros *)
Lemma of_decimal_normal (negative : bool) (S N : Z) :
  (0 < S)%Z ->
  Number.of_decimal negative (fst (Number.normal S N)) (snd (Number.normal S N))
  = Number.of_decimal negative S N.
Proof.
  intros HS. destruct (normal_spec S N HS) as (H1 & _ & _ & H4).
  unfold Number.of_decimal at 1. rewrite (normal_fixed _ _ H1 H4).
  unfold Number.of_decimal. now destruct (Number.normal S N).
Qed.

Lemma number_eqb_eq (x y : Number.t) : number_eqb x y = true -> x = y.
Proof.
  destruct x, y; cbn; try discriminate.
  - now intros ->%Z.eqb_eq.
  - intros [->%Z.eqb_eq ->%Pos.eqb_eq]%andb_true_iff. reflexivity.
  - now intros ->%Bool.eqb_prop.
Qed.

(** the text of an integer is read back *)
Lemma parse_integer_text (n : Z) (rest : string) :
  finite_double (Number.Integer n) = true -> closes rest ->
  JSON.parse_number (Number.integer_text n +:+ rest) = Some (JSON.Num n, rest).
Proof.
  intros Hn Hrest. cbn [finite_double] in Hn.
  assert (Hbig : (Z.abs n <=? Number.safe)%Z = false ->
                 Number.of_decimal (n <? 0)%Z (Z.abs n) 0 = Number.Integer n).
  { intros E. rewrite E in Hn. now apply number_eqb_eq in Hn. }
  pose proof (closes_stops rest Hrest) as Hstop.
  assert (Htail : match rest with
                  | String c _ => JS.is_digit c = false /\ c <> "."%char
                  | EmptyString => True
                  end) by (destruct rest; [exact I|tauto]).
  assert (Hplain : forall (negative : bool) (x : N),
            negative = (n <? 0)%Z -> Z.abs n = Z.of_N x ->
            JSON.parse_number ((if negative then "-" else EmptyString) +:+ pretty x +:+ rest)
            = Some (JSON.Num n, rest)).
  { intros negative x Hneg Habs.
    destruct (pretty_N_digits x) as (Hv & Hd & c & t & Hct & Hc & Hz).
    pose proof (parse_number_literal negative (pretty x) EmptyString rest rest None Hd
                  ltac:(eauto) eq_refl (parse_exponent_none rest Hrest) Htail) as H.
    cbv iota in H. rewrite append_nil_l in H. rewrite H, literal_plain, Hv, <- Habs.
    destruct (Z.abs n <=? Number.safe)%Z eqn:E.
    - do 3 f_equal. rewrite Hneg. unfold Number.signed.
      destruct (n <? 0)%Z eqn:En; [apply Z.ltb_lt in En|apply Z.ltb_ge in En]; lia.
    - rewrite Hneg, (Hbig eq_refl). reflexivity. }
  unfold Number.integer_text. destruct (Z.abs n <? 10 ^ 21)%Z eqn:E21.
  - destruct n as [|p|p].
    + apply (Hplain false 0%N); reflexivity.
    + apply (Hplain false (N.pos p)); reflexivity.
    + change (pretty (Z.neg p)) with ("-" +:+ pretty (N.pos p)). rewrite append_assoc.
      apply (Hplain true (N.pos p)); reflexivity.
  - apply Z.ltb_ge in E21.
    assert (Hpos : (0 < Z.abs n)%Z) by lia.
    assert (Hunsafe : (Z.abs n <=? Number.safe)%Z = false).
    { apply Z.leb_gt. unfold Number.safe.
      assert (2 ^ 53 < 10 ^ 21)%Z by reflexivity. lia. }
    destruct (normal_spec (Z.abs n) 0 Hpos) as (H1 & H2 & H3 & H4).
    pose proof (of_decimal_normal (n <? 0)%Z (Z.abs n) 0 Hpos) as Hnorm.
    destruct (Number.normal (Z.abs n) 0) as [s z]. cbn [fst snd] in *.
    rewrite append_assoc.
    rewrite (parse_format (n <? 0)%Z (Z.to_N s) _ rest ltac:(lia) Hrest).
    unfold Number.digits.
    replace (Z.of_nat (String.length (pretty (Z.to_N s))) + z
             - Z.of_nat (String.length (pretty (Z.to_N s))))%Z with z by lia.
    rewrite Z2N.id by lia.
    destruct (_ && _).
    + rewrite literal_plain, digits_value_app.
      destruct (zeros_facts (Z.to_nat z)) as (_ & _ & Hzv). rewrite Hzv.
      destruct (pretty_N_digits (Z.to_N s)) as (Hv & _). rewrite Hv.
      rewrite !Z2N.id, Z2Nat.id by lia. rewrite Z.sub_0_r in H3. rewrite H3, Hunsafe.
      now rewrite (Hbig Hunsafe).
    + now rewrite Hnorm, (Hbig Hunsafe).
Qed.

(** the text of a number with a fraction is read back *)
Lemma parse_fraction_text (s : Z) (p : positive) (rest : string) :
  finite_double (Number.Fraction s p) = true -> closes rest ->
  JSON.parse_number (Number.fraction_text s p +:+ rest) = Some (JSON.Frac s p, rest).
Proof.
  intros Hn Hrest. cbn [finite_double] in Hn.
  assert (Hs : s <> 0%Z) by (intros ->; discriminate Hn).
  apply number_eqb_eq in Hn.
  unfold Number.fraction_text. rewrite append_assoc.
  rewrite (parse_format (s <? 0)%Z (Z.to_N (Z.abs s)) _ rest ltac:(lia) Hrest).
  unfold Number.digits.
  assert ((Z.of_nat (String.length (pretty (Z.to_N (Z.abs s))))
           <=? Z.of_nat (String.length (pretty (Z.to_N (Z.abs s)))) - Z.pos p)%Z = false)
    as -> by (apply Z.leb_gt; lia).
  cbn [andb].
  replace (Z.of_nat (String.length (pretty (Z.to_N (Z.abs s)))) - Z.pos p
           - Z.of_nat (String.length (pretty (Z.to_N (Z.abs s)))))%Z
    with (Z.neg p) by lia.
  rewrite Z2N.id by lia. now rewrite Hn.
Qed.

Lemma format_head (x : N) (pt : Z) :
  exists c t, Number.format (pretty x) pt = String c t /\ JS.is_digit c = true.
Proof.
  destruct (pretty_N_digits x) as (_ & _ & c & t & Hct & Hc & _).
  unfold Number.format. rewrite Hct.
  destruct ((Z.of_nat (String.length (String c t)) <=? pt)%Z && (pt <=? 21)%Z);
    [rewrite append_cons; eauto|].
  destruct ((0 <? pt)%Z && (pt <=? 21)%Z) eqn:E.
  { apply andb_true_iff in E as [E _]. apply Z.ltb_lt in E.
    assert (Hsub : exists n, Z.to_nat pt = S n) by (exists (Z.to_nat pt - 1)%nat; lia).
    destruct Hsub as [n ->]. unfold JS.substring0. cbn [String.substring].
    rewrite append_cons. eauto. }
  destruct ((-6 <? pt)%Z && (pt <=? 0)%Z);
    [exists "0"%char; eexists; split; reflexivity|].
  destruct t; rewrite append_cons; eauto.
Qed.

(** the text of a number starts with a minus sign or a digit *)
Lemma number_text_head (v : JSON.value) :
  match v with JSON.Num _ | JSON.Frac _ _ => True | _ => False end ->
  exists c t, render v = String c t
              /\ In c ["-"; "0"; "1"; "2"; "3"; "4"; "5"; "6"; "7"; "8"; "9"]%char.
Proof.
  assert (Hsigned : forall (negative : bool) (x : N) (pt : Z),
            exists c t,
              (if negative then "-" else EmptyString) +:+ Number.format (pretty x) pt
              = String c t
              /\ In c ["-"; "0"; "1"; "2"; "3"; "4"; "5"; "6"; "7"; "8"; "9"]%char).
  { intros [|] x pt.
    - eexists _, _. split; [reflexivity|]. now left.
    - destruct (format_head x pt) as (c & t & -> & Hc). exists c, t.
      split; [reflexivity|]. right. now apply is_digit_cases. }
  destruct v as [| | |n|s p| | | | |]; try easy; intros _; unfold render;
    cbn [JSON.stringify default from_option Datatypes.id].
  - unfold Number.integer_text. destruct (_ <? _)%Z.
    + destruct n as [|p|p].
      * exists "0"%char, EmptyString. split; [reflexivity|]. cbn. tauto.
      * destruct (pretty_N_digits (N.pos p)) as (_ & _ & c & t & Hct & Hc & _).
        exists c, t. split; [exact Hct|]. right. now apply is_digit_cases.
      * exists "-"%char, (pretty (N.pos p)). split; [reflexivity|]. now left.
    + destruct (Number.normal _ _) as [s z]. apply Hsigned.
  - apply Hsigned.
Qed.
Lemma value_nested_ind (P : JSON.value -> Prop) :
  P JSON.Undefined -> P JSON.Null -> (forall b, P (JSON.Bool b)) ->
  (forall n, P (JSON.Num n)) -> (forall s p, P (JSON.Frac s p)) ->
  (forall negative, P (JSON.Inf negative)) -> P JSON.NaN ->
  (forall s, P (JSON.Str s)) ->
  (forall items, Forall P items -> P (JSON.Arr items)) ->
  (forall members, Forall (fun kv => P (snd kv)) members -> P (JSON.Obj members)) ->
  forall v, P v.
Proof.
  intros HU HN HB HNum HFrac HInf HNaN HS HA HO. fix IH 1.
  intros [| |b|n|s p|negative| |s|items|members].
  - exact HU.
  - exact HN.
  - apply HB.
  - apply HNum.
  - apply HFrac.
  - apply HInf.
  - exact HNaN.
  - apply HS.
  - apply HA. induction items as [|x items IHitems]; constructor; [apply IH|exact IHitems].
  - apply HO. induction members as [|[k x] members IHm]; constructor;
      [apply IH|exact IHm].
Qed.

Lemma render_Arr (items : list JSON.value) :
  render (JSON.Arr items) = "[" +:+ JS.join "," (map render items) +:+ "]".
Proof. reflexivity. Qed.

Lemma render_Obj (members : list (string * JSON.value)) :
  forallb (fun kv => storable (snd kv)) members = true ->
  render (JSON.Obj members) = "{" +:+ JS.join "," (map member_text members) +:+ "}".
Proof.
  intros H. unfold render. cbn [JSON.stringify default from_option Datatypes.id].
  do 3 f_equal. induction members as [|[k v] members IH]; [reflexivity|].
  cbn [forallb] in H. apply andb_true_iff in H as [Hv H].
  cbn [flat_map map]. rewrite (IH H). unfold member_text, render. cbn [fst snd].
  destruct v as [| |[]| | | | | | |]; try discriminate; reflexivity.
Qed.

Lemma prefix_head_ne (c d : ascii) (p s : string) :
  c <> d -> String.prefix (String c p) (String d s) = false.
Proof. intros H. cbn [String.prefix]. now destruct (ascii_dec c d). Qed.

Lemma prefix_append (p s : string) : String.prefix p (p +:+ s) = true.
Proof.
  induction p as [|c p IH]; [now destruct s|]. rewrite append_cons. cbn [String.prefix].
  now destruct (ascii_dec c c).
Qed.

Lemma skip_ws_head (c : ascii) (s : string) :
  JSON.is_ws c = false -> JSON.skip_ws (String c s) = String c s.
Proof. intros H. cbn [JSON.skip_ws]. now rewrite H. Qed.

Lemma render_head (v : JSON.value) :
  storable v = true -> exists c t, render v = String c t /\ opens c.
Proof.
  unfold opens. destruct v as [| |[]|n|s p| | |s|items|members]; intros H;
    try discriminate.
  - eexists _, _. split; [reflexivity|]. cbn. tauto.
  - eexists _, _. split; [reflexivity|]. cbn. tauto.
  - eexists _, _. split; [reflexivity|]. cbn. tauto.
  - destruct (number_text_head (JSON.Num n) I) as (c & t & Hct & Hc). exists c, t.
    split; [exact Hct|]. cbn in Hc |- *. tauto.
  - destruct (number_text_head (JSON.Frac s p) I) as (c & t & Hct & Hc). exists c, t.
    split; [exact Hct|]. cbn in Hc |- *. tauto.
  - eexists _, _. split; [reflexivity|]. cbn. tauto.
  - eexists _, _. split; [reflexivity|]. cbn. tauto.
  - eexists _, _. split; [reflexivity|]. cbn. tauto.
Qed.

Lemma opens_facts (c : ascii) :
  opens c -> JSON.is_ws c = false /\ c <> "]"%char /\ c <> "}"%char.
Proof.
  unfold opens. cbn [In]. intros H.
  repeat (destruct H as [<-|H]; [split; [reflexivity|split; discriminate]|]).
  destruct H.
Qed.

Lemma parse_value_S (fuel : nat) (s : string) :
  JSON.parse_value (S fuel) s
  = let s := JSON.skip_ws s in
    if String.prefix "null" s then Some (JSON.Null, JS.drop 4 s)
    else if String.prefix "true" s then Some (JSON.Bool true, JS.drop 4 s)
    else if String.prefix "false" s then Some (JSON.Bool false, JS.drop 5 s)
    else match s with
         | EmptyString => None
         | String c rest =>
             if Ascii.eqb c JSON.quote then
               match JSON.parse_chars rest with
               | Some (t, r) => Some (JSON.Str t, r)
               | None => None
               end
             else if Ascii.eqb c "[" then
               let r := JSON.skip_ws rest in
               if String.prefix "]" r then Some (JSON.Arr [], JS.drop 1 r)
               else JSON.parse_items fuel r []
             else if Ascii.eqb c "{" then
               let r := JSON.skip_ws rest in
               if String.prefix "}" r then Some (JSON.Obj [], JS.drop 1 r)
               else JSON.parse_members fuel r []
             else JSON.parse_number s
         end.
Proof. reflexivity. Qed.

Lemma parse_items_S (fuel : nat) (s : string) (acc : list JSON.value) :
  JSON.parse_items (S fuel) s acc
  = match JSON.parse_value fuel s with
    | Some (v, r) =>
        match JSON.skip_ws r with
        | String "," r' => JSON.parse_items fuel r' (acc ++ [v])
        | String "]" r' => Some (JSON.Arr (acc ++ [v]), r')
        | _ => None
        end
    | None => None
    end.
Proof. reflexivity. Qed.

Lemma parse_members_S (fuel : nat) (s : string) (acc : list (string * JSON.value)) :
  JSON.parse_members (S fuel) s acc
  = match JSON.skip_ws s with
    | String c rest =>
        if Ascii.eqb c JSON.quote then
          match JSON.parse_chars rest with
          | Some (k, r) =>
              match JSON.skip_ws r with
              | String ":" r1 =>
                  match JSON.parse_value fuel r1 with
                  | Some (v, r2) =>
                      match JSON.skip_ws r2 with
                      | String "," r3 =>
                          JSON.parse_members fuel r3 (JSON.set_member acc k v)
                      | String "}" r3 => Some (JSON.Obj (JSON.set_member acc k v), r3)
                      | _ => None
                      end
                  | None => None
                  end
              | _ => None
              end
          | None => None
          end
        else None
    | EmptyString => None
    end.
Proof. reflexivity. Qed.

Ltac head_of_value :=
  rewrite parse_value_S; cbv beta zeta;
  rewrite skip_ws_head by reflexivity;
  rewrite ?prefix_head_ne by discriminate;
  cbv beta iota; cbn [Ascii.eqb Bool.eqb JSON.quote andb].

Lemma parse_items_render (items : list JSON.value) :
  Forall parses items -> forallb storable items = true -> items <> [] ->
  forall acc fuel rest,
    (String.length (JS.join "," (map render items)) + 1 < fuel)%nat ->
    JSON.parse_items fuel (JS.join "," (map render items) +:+ String "]" rest) acc
    = Some (JSON.Arr (acc ++ items), rest).
Proof.
  induction 1 as [|v items Hv _ IH]; [easy|]. intros Hst _ acc fuel rest Hfuel.
  cbn [forallb] in Hst. apply andb_true_iff in Hst as [Hsv Hst].
  destruct fuel as [|fuel]; [lia|]. rewrite parse_items_S.
  destruct items as [|w items].
  - cbn [map JS.join] in *.
    rewrite (Hv Hsv fuel (String "]" rest) ltac:(lia) ltac:(cbn; auto)).
    reflexivity.
  - cbn [map] in *. rewrite join_cons in * by discriminate.
    rewrite !length_append in Hfuel. cbn [String.length] in Hfuel.
    rewrite append_assoc, append_cons, append_nil_l, append_cons.
    rewrite (Hv Hsv fuel (String "," _) ltac:(lia) ltac:(cbn; auto)).
    cbn [JSON.skip_ws]. change (JSON.is_ws ",") with false. cbv iota.
    replace (acc ++ v :: w :: items) with ((acc ++ [v]) ++ w :: items)
      by now rewrite <- app_assoc.
    apply (IH Hst); [discriminate|]. cbn [map]. lia.
Qed.

(** a new key that is listed after the keys that are there goes to the
    end *)
Lemma set_member_fresh (acc : list (string * JSON.value)) (k : string) (v : JSON.value) :
  existsb (String.eqb k) (map fst acc) = false ->
  forallb (fun k0 => negb (JSON.listed_before k k0)) (map fst acc) = true ->
  JSON.set_member acc k v = acc ++ [(k, v)].
Proof.
  induction acc as [|[k0 v0] acc IH]; [reflexivity|]. cbn [map fst existsb forallb].
  intros H Ho. apply orb_false_elim in H as [Hk H].
  apply andb_true_iff in Ho as [Hb Ho]. apply negb_true_iff in Hb.
  cbn [JSON.set_member]. rewrite String.eqb_sym, Hk, Hb. now rewrite (IH H Ho).
Qed.

Lemma ordered_app (l : list string) (k : string) (rest : list string) :
  ordered (l ++ k :: rest) = true ->
  forallb (fun k0 => negb (JSON.listed_before k k0)) l = true
  /\ ordered ((l ++ [k]) ++ rest) = true.
Proof.
  intros H. split.
  - induction l as [|x l IH]; [reflexivity|]. cbn [app ordered forallb] in *.
    apply andb_true_iff in H as [Hx H]. rewrite (IH H), andb_true_r.
    rewrite forallb_app in Hx. apply andb_true_iff in Hx as [_ Hx].
    cbn [forallb] in Hx. now apply andb_true_iff in Hx as [Hx _].
  - now rewrite <- app_assoc.
Qed.

Lemma distinct_app (l : list string) (k : string) (rest : list string) :
  distinct (l ++ k :: rest) = true ->
  existsb (String.eqb k) l = false /\ distinct ((l ++ [k]) ++ rest) = true.
Proof.
  intros H. split.
  - induction l as [|x l IH]; [reflexivity|]. cbn [app distinct existsb] in *.
    apply andb_true_iff in H as [Hx H]. rewrite (IH H), orb_false_r.
    apply negb_true_iff in Hx. rewrite existsb_app in Hx.
    apply orb_false_elim in Hx as [_ Hx]. cbn [existsb] in Hx.
    apply orb_false_elim in Hx as [Hx _]. now rewrite String.eqb_sym.
  - now rewrite <- app_assoc.
Qed.

Lemma parse_members_render (members : list (string * JSON.value)) :
  Forall (fun kv => parses (snd kv)) members ->
  forallb (fun kv => storable (snd kv)) members = true -> members <> [] ->
  forall acc fuel rest,
    distinct (map fst acc ++ map fst members) = true ->
    ordered (map fst acc ++ map fst members) = true ->
    (String.length (JS.join "," (map member_text members)) + 1 < fuel)%nat ->
    JSON.parse_members fuel (JS.join "," (map member_text members) +:+ String "}" rest) acc
    = Some (JSON.Obj (acc ++ members), rest).
Proof.
  induction 1 as [|[k v] members Hv _ IH]; [easy|].
  intros Hst _ acc fuel rest Hd Ho Hfuel.
  cbn [forallb snd] in Hst. apply andb_true_iff in Hst as [Hsv Hst].
  cbn [snd] in Hv. cbn [map fst] in Hd, Ho. apply distinct_app in Hd as [Hk Hd].
  apply ordered_app in Ho as [Hko Ho].
  destruct fuel as [|fuel]; [lia|]. rewrite parse_members_S.
  assert (Hkey : forall tail,
            JSON.skip_ws (member_text (k, v) +:+ tail)
            = String JSON.quote (JSON.escape k +:+ String JSON.quote
                                   (String ":" (render v +:+ tail)))).
  { intros tail.
    assert (E : member_text (k, v) +:+ tail
                = String JSON.quote (JSON.escape k +:+ String JSON.quote
                                       (String ":" (render v +:+ tail)))).
    { unfold member_text, JSON.quoted. cbn [fst snd].
      rewrite !append_assoc, append_cons, !append_assoc. reflexivity. }
    rewrite E. now rewrite skip_ws_head by reflexivity. }
  assert (Hlen : (String.length (member_text (k, v)) > String.length (render v))%nat).
  { unfold member_text. cbn [fst snd]. rewrite !length_append. cbn. lia. }
  destruct members as [|m members].
  - cbn [map JS.join] in *. rewrite Hkey. cbv iota. rewrite Ascii.eqb_refl.
    rewrite parse_chars_escape. cbn [JSON.skip_ws]. change (JSON.is_ws ":") with false.
    cbv iota.
    rewrite (Hv Hsv fuel (String "}" rest) ltac:(lia) ltac:(cbn; auto)).
    cbn [JSON.skip_ws]. change (JSON.is_ws "}") with false. cbv iota.
    now rewrite (set_member_fresh _ _ _ Hk Hko).
  - cbn [map] in *. rewrite join_cons in * by discriminate.
    rewrite !length_append in Hfuel. cbn [String.length] in Hfuel.
    rewrite append_assoc, append_cons, append_nil_l, append_cons.
    rewrite Hkey. cbv iota. rewrite Ascii.eqb_refl.
    rewrite parse_chars_escape. cbn [JSON.skip_ws]. change (JSON.is_ws ":") with false.
    cbv iota.
    rewrite (Hv Hsv fuel (String "," _) ltac:(lia) ltac:(cbn; auto)).
    cbn [JSON.skip_ws]. change (JSON.is_ws ",") with false. cbv iota.
    rewrite (set_member_fresh _ _ _ Hk Hko).
    replace (acc ++ (k, v) :: m :: members) with ((acc ++ [(k, v)]) ++ m :: members)
      by now rewrite <- app_assoc.
    apply (IH Hst); [discriminate| | |cbn [map]; lia].
    + rewrite map_app. exact Hd.
    + rewrite map_app. exact Ho.
Qed.

Lemma parse_value_render (v : JSON.value) : parses v.
Proof.
  induction v as [| |b|n|s p|negative| |s|items IH|members IH] using value_nested_ind;
    intros Hst fuel rest Hfuel Hrest; try discriminate;
    (destruct fuel as [|fuel]; [lia|]).
  - rewrite parse_value_S. cbv beta zeta. change (render JSON.Null) with "null".
    assert (Hs : JSON.skip_ws ("null" +:+ rest) = "null" +:+ rest) by reflexivity.
    rewrite Hs, prefix_append. reflexivity.
  - rewrite parse_value_S. cbv beta zeta. destruct b.
    + change (render (JSON.Bool true)) with "true".
      assert (Hs : JSON.skip_ws ("true" +:+ rest) = "true" +:+ rest) by reflexivity.
      assert (H1 : String.prefix "null" ("true" +:+ rest) = false) by reflexivity.
      rewrite Hs, H1, prefix_append. reflexivity.
    + change (render (JSON.Bool false)) with "false".
      assert (Hs : JSON.skip_ws ("false" +:+ rest) = "false" +:+ rest) by reflexivity.
      assert (H1 : String.prefix "null" ("false" +:+ rest) = false) by reflexivity.
      assert (H2 : String.prefix "true" ("false" +:+ rest) = false) by reflexivity.
      rewrite Hs, H1, H2, prefix_append. reflexivity.
  - destruct (number_text_head (JSON.Num n) I) as (c & t & Hct & Hc).
    pose proof (parse_integer_text n rest Hst Hrest) as Hn.
    change (Number.integer_text n) with (render (JSON.Num n)) in Hn.
    rewrite Hct in *. rewrite append_cons in *. cbn [In] in Hc.
    repeat (destruct Hc as [<-|Hc]; [head_of_value; exact Hn|]).
    destruct Hc.
  - destruct (number_text_head (JSON.Frac s p) I) as (c & t & Hct & Hc).
    pose proof (parse_fraction_text s p rest Hst Hrest) as Hn.
    change (Number.fraction_text s p) with (render (JSON.Frac s p)) in Hn.
    rewrite Hct in *. rewrite append_cons in *. cbn [In] in Hc.
    repeat (destruct Hc as [<-|Hc]; [head_of_value; exact Hn|]).
    destruct Hc.
  - unfold render. cbn [JSON.stringify default from_option Datatypes.id].
    unfold JSON.quoted. rewrite append_cons, append_assoc, append_cons, append_nil_l.
    head_of_value. now rewrite parse_chars_escape.
  - rewrite render_Arr in *. rewrite !append_assoc, append_cons, !append_nil_l, append_cons,
      append_nil_l.
    head_of_value.
    destruct items as [|x items].
    { cbn [map JS.join]. rewrite append_nil_l.
      change (JSON.skip_ws (String "]" rest)) with ("]" +:+ rest).
      now rewrite prefix_append. }
    cbn [storable] in Hst.
    assert (Hx : storable x = true) by (cbn [forallb] in Hst; now apply andb_true_iff in Hst).
    destruct (render_head x Hx) as (c & t & Hct & Hc).
    apply opens_facts in Hc as (Hws & Hc1 & _).
    assert (Hjoin : exists t', JS.join "," (map render (x :: items)) +:+ String "]" rest
                               = String c t').
    { cbn [map]. destruct items as [|y items].
      - cbn [map JS.join]. rewrite Hct, append_cons. eauto.
      - rewrite join_cons by discriminate. rewrite Hct, !append_cons. eauto. }
    destruct Hjoin as [t' Hjoin].
    rewrite Hjoin, (skip_ws_head c t' Hws), (prefix_head_ne "]" c) by congruence.
    rewrite <- Hjoin. rewrite !length_append in Hfuel. cbn [String.length] in Hfuel.
    apply (parse_items_render (x :: items) IH Hst); [discriminate|lia].
  - cbn [storable] in Hst. apply andb_true_iff in Hst as [Hst Ho].
    apply andb_true_iff in Hst as [Hst Hd].
    rewrite (render_Obj _ Hst) in *.
    rewrite !append_assoc, append_cons, !append_nil_l, append_cons, append_nil_l.
    head_of_value.
    destruct members as [|[k x] members].
    { cbn [map JS.join]. rewrite append_nil_l.
      change (JSON.skip_ws (String "}" rest)) with ("}" +:+ rest).
      now rewrite prefix_append. }
    assert (Hjoin : exists t',
              JS.join "," (map member_text ((k, x) :: members)) +:+ String "}" rest
              = String JSON.quote t').
    { cbn [map]. unfold member_text at 1, JSON.quoted. destruct members as [|y members].
      - cbn [map JS.join]. rewrite !append_cons. eauto.
      - rewrite join_cons by discriminate. rewrite !append_cons. eauto. }
    destruct Hjoin as [t' Hjoin].
    rewrite Hjoin, (skip_ws_head JSON.quote t' eq_refl),
      (prefix_head_ne "}" JSON.quote) by discriminate.
    rewrite <- Hjoin. rewrite !length_append in Hfuel. cbn [String.length] in Hfuel.
    apply (parse_members_render ((k, x) :: members) IH Hst);
      [discriminate|exact Hd|exact Ho|lia].
Qed.

(** [JSON.parse (JSON.stringify v)] is [v] for every value that is written
    in full *)
Lemma JSON_round_trip (v : JSON.value) :
  storable v = true ->
  exists text, JSON.stringify v = Some text /\ JSON.parse text = Some v.
Proof.
  intros Hst. exists (render v). split.
  - unfold render. destruct v as [| |[]| | | | | | |]; try discriminate; reflexivity.
  - unfold JSON.parse.
    pose proof (parse_value_render v Hst (S (String.length (render v))) EmptyString
                  ltac:(lia) I) as H.
    rewrite append_nil_r in H. rewrite H. reflexivity.
Qed.

(** ** Stored requests and their replay *)

(** a span that stores the text of a request is replayed with that request *)
Lemma stored_text_reads_back (v : JSON.value) (row : Task.row) :
  storable v = true -> JSON.truthy v = true ->
  Task.original_request row = JSON.stringify v ->
  Replay.build_replay_request row = Some (Replay.Snapshot v).
Proof.
  intros Hst Ht Hrow. destruct (JSON_round_trip v Hst) as (text & Htext & Hparse).
  unfold Replay.build_replay_request. rewrite Hrow, Htext.
  change (default EmptyString (Some text)) with text.
  assert (Hne : JS.truthy_str (Some text) = true).
  { destruct (render_head v Hst) as (c & t & Hr & _). unfold render in Hr.
    rewrite Htext in Hr. change (text = String c t) in Hr. now rewrite Hr. }
  rewrite Hne, Hparse, Ht. reflexivity.
Qed.

Lemma app_one_self {A} (l : list A) (x : A) : l <> l ++ [x].
Proof.
  intros H. apply (f_equal (@length A)) in H. rewrite length_app in H. cbn in H. lia.
Qed.

Lemma app_one_inj {A} (l : list A) (x y : A) : l ++ [x] = l ++ [y] -> x = y.
Proof. intros H. apply app_inv_head in H. congruence. Qed.

(** the span table after a call of the chat proxy: it is untouched, or it
    has gained the one row of this call, which holds the text of the
    request *)
Lemma chat_handler_request (hashKey : string -> string) (e : Proxy.env) (db : database)
    (authorization : option string) (b : Chat.body) (up : Upstream.response) :
  tasks (Proxy.handler hashKey e db authorization b up).2 = tasks db
  \/ exists m msgs row,
       tasks (Proxy.handler hashKey e db authorization b up).2 = tasks db ++ [row]
       /\ JS.or_str (Chat.model b) None = Some m
       /\ Chat.messages b = Some msgs
       /\ Task.original_request row = JSON.stringify (stored_request m msgs b).
Proof.
  destruct (handler_prologue hashKey e db authorization b up)
    as [H|[H|[(db' & H & Hk & Ht)|H]]].
  - rewrite H. now left.
  - rewrite H. now left.
  - rewrite H. now left.
  - destruct H as (m & msgs & authHeader & account & accts & prompt & t
                   & Hm & Hmsgs & _ & _ & Hins & ->).
    right. exists m, msgs.
    set (p := chat_provider authHeader m) in *.
    set (row0 := Chat.open_row (Proxy.base e) account p m b msgs prompt) in *.
    set (db2 := with_tasks (with_accounts db accts) t).
    assert (Hup : forall set,
              fst (sql_update (Chat.by_id (Chat.taskId (Proxy.base e))) set (tasks db2))
              = tasks db ++ [set row0]).
    { intros set. cbn [db2 with_tasks tasks].
      change (Chat.taskId (Proxy.base e)) with (Task.id row0).
      now apply insert_then_update. }
    destruct (dispatch_cases e db2 p m prompt (Chat.stream b) up)
      as [(message & frames & ->)|(s & -> & _)].
    + eexists. cbn [Proxy.fail snd with_tasks tasks]. rewrite Hup. now repeat split.
    + eexists. cbn [Proxy.succeed snd with_tasks tasks]. rewrite Hup. now repeat split.
Qed.

Lemma or_str_None (a : option string) (m : string) :
  JS.or_str a None = Some m -> a = Some m.
Proof. unfold JS.or_str. now destruct (JS.truthy_str a). Qed.

(** X19.  A span the chat proxy records can be replayed with the request
    it served: whenever a call adds a span, for a request that can be
    written in full, the replay of that span settles on the stored object,
    with the model, the messages and the other members of the request,
    sampling temperature and other numbers with a fraction included, and
    not on a reconstruction from the prompt text.  This holds for the
    failed spans as for the successful ones. *)
Theorem chat_span_replays_verbatim (hashKey : string -> string) (e : Proxy.env)
    (db : database) (authorization : option string) (b : Chat.body)
    (up : Upstream.response) (m : string) (msgs : list JSON.value) (row : Task.row) :
  Chat.model b = Some m -> Chat.messages b = Some msgs ->
  storable (stored_request m msgs b) = true ->
  tasks (Proxy.handler hashKey e db authorization b up).2 = tasks db ++ [row] ->
  Replay.build_replay_request row = Some (Replay.Snapshot (stored_request m msgs b)).
Proof.
  intros Hm Hmsgs Hst Hrow.
  destruct (chat_handler_request hashKey e db authorization b up)
    as [H|(m' & msgs' & row' & H & Hm' & Hmsgs' & Htext)].
  - rewrite H in Hrow. now apply app_one_self in Hrow.
  - rewrite H in Hrow. apply app_one_inj in Hrow as ->.
    apply or_str_None in Hm'. assert (m' = m) as -> by congruence.
    assert (msgs' = msgs) as -> by congruence.
    now apply stored_text_reads_back.
Qed.

Lemma chat_span_replays_verbatim_witness :
  exists row,
    tasks (Proxy.handler toy_hash proxy_env empty_db (Some "Bearer sk-proj-key")
             tuned_body (Upstream.Ok [openai_answer] None)).2 = [row]
    /\ Task.original_request row
       = Some (dq "{'model':'gpt-4o','messages':[{'role':'user','content':'Say hello'}],'temperature':0.7,'max_tokens':100}")
    /\ Replay.build_replay_request row = Some (Replay.Snapshot tuned_request).
Proof.
  eexists. split; [vm_compute; reflexivity|]. split; [vm_compute; reflexivity|].
  apply (chat_span_replays_verbatim toy_hash proxy_env empty_db (Some "Bearer sk-proj-key")
           tuned_body (Upstream.Ok [openai_answer] None)
           "gpt-4o" hello_request _ eq_refl eq_refl ltac:(vm_compute; reflexivity)).
  vm_compute. reflexivity.
Defined.

Lemma messages_handler_request (hashKey : string -> string) (e : Messages.env)
    (db : database) (x_api_key authorization : option string) (b : Messages.body)
    (up : Upstream.response) :
  tasks (Messages.handler hashKey e db x_api_key authorization b up).2 = tasks db
  \/ exists row,
       tasks (Messages.handler hashKey e db x_api_key authorization b up).2
       = tasks db ++ [row]
       /\ Task.original_request row = JSON.stringify (Messages.json b).
Proof.
  unfold Messages.handler.
  destruct (JS.or_str (Messages.model b) None) as [m|]; [|now left].
  destruct (Messages.messages b) as [msgs|]; [|now left].
  destruct (negb _); [now left|].
  destruct (getOrCreateAccount _ _ _ _ _ _) as [[account accts]|]; [|now left].
  destruct (Messages.extractTaskDescription msgs) as [d|]; [|now left].
  destruct (Messages.promptText msgs) as [prompt|] eqn:Hp; [|now left].
  destruct (insert_task _ _) as [t|] eqn:Hins; [|now left].
  right. set (row0 := Messages.open_row e account m b msgs d prompt) in *.
  cbn [with_accounts tasks] in Hins.
  assert (Hup : forall set, tasks (Messages.update_by_id e
                                     (with_tasks (with_accounts db accts) t) set)
                            = tasks db ++ [set row0]).
  { intros set. unfold Messages.update_by_id. cbn [with_tasks tasks].
    change (Messages.taskId e) with (Task.id row0).
    now apply insert_then_update. }
  assert (Hfail : forall dur msg now,
            exists row, tasks db ++ [Chat.set_failed dur msg now row0] = tasks db ++ [row]
              /\ Task.original_request row = JSON.stringify (Messages.json b)).
  { intros. eexists. split; reflexivity. }
  assert (Hok : forall dur c text tin tout now,
            exists row, tasks db ++ [Chat.set_success dur c text tin tout now row0]
                        = tasks db ++ [row]
              /\ Task.original_request row = JSON.stringify (Messages.json b)).
  { intros. eexists. split; reflexivity. }
  destruct up as [message|status text|chunks failure].
  - unfold Messages.api_failure. cbn [snd]. rewrite Hup. apply Hfail.
  - unfold Messages.http_failure. cbn [snd]. rewrite Hup. apply Hfail.
  - destruct (Messages.stream b).
    + cbn [snd]. rewrite Hup. apply Hok.
    + destruct failure as [message|].
      { unfold Messages.api_failure. cbn [snd]. rewrite Hup. apply Hfail. }
      destruct (JSON.parse _) as [data|].
      2:{ unfold Messages.api_failure. cbn [snd]. rewrite Hup. apply Hfail. }
      destruct (Messages.finish_body _ _ m data) as [result|] eqn:Hfin.
      2:{ unfold Messages.api_failure. cbn [snd]. rewrite Hup. apply Hfail. }
      unfold Messages.finish_body in Hfin.
      destruct (JSON.prop data "content") as [content|]; [|discriminate].
      destruct (JSON.or _ _) as [| | | | | | |completionText| |]; try discriminate.
      injection Hfin as <-. cbn [snd]. rewrite Hup. apply Hok.
Qed.

(** X20.  A span the messages proxy records can be replayed with the
    request body it forwarded: whenever a call adds a span, for a body that
    is truthy and can be written in full, the replay of that span settles
    on the body itself, numbers with a fraction included. *)
Theorem messages_span_replays_verbatim (hashKey : string -> string) (e : Messages.env)
    (db : database) (x_api_key authorization : option string) (b : Messages.body)
    (up : Upstream.response) (row : Task.row) :
  storable (Messages.json b) = true -> JSON.truthy (Messages.json b) = true ->
  tasks (Messages.handler hashKey e db x_api_key authorization b up).2
  = tasks db ++ [row] ->
  Replay.build_replay_request row = Some (Replay.Snapshot (Messages.json b)).
Proof.
  intros Hst Ht Hrow.
  destruct (messages_handler_request hashKey e db x_api_key authorization b up)
    as [H|(row' & H & Htext)].
  - rewrite H in Hrow. now apply app_one_self in Hrow.
  - rewrite H in Hrow. apply app_one_inj in Hrow as ->.
    now apply stored_text_reads_back.
Qed.

Lemma messages_span_replays_verbatim_witness :
  exists row,
    tasks (Messages.handler toy_hash messages_env empty_db (Some "sk-ant-key") None
             tuned_messages_body (Upstream.Ok hello_chunks None)).2 = [row]
    /\ Task.original_request row
       = Some (dq "{'model':'claude-3-opus-20240229','max_tokens':64,'temperature':0.7,'stream':true,'messages':[{'role':'user','content':'Say hello'}]}")
    /\ Replay.build_replay_request row
       = Some (Replay.Snapshot (Messages.json tuned_messages_body)).
Proof.
  eexists. split; [vm_compute; reflexivity|]. split; [vm_compute; reflexivity|].
  apply (messages_span_replays_verbatim toy_hash messages_env empty_db
           (Some "sk-ant-key") None tuned_messages_body (Upstream.Ok hello_chunks None) _
           ltac:(vm_compute; reflexivity) eq_refl).
  vm_compute. reflexivity.
Defined.

(** the request a replay reconstructs can be written and read back, and
    every request it settles on is truthy *)
Lemma request_json_storable (orig : Task.row) (request : Replay.request) :
  Replay.build_replay_request orig = Some request ->
  JSON.truthy (ReplayRun.request_json request) = true
  /\ forall model messages,
       request = Replay.Rebuilt model messages ->
       storable (ReplayRun.request_json request) = true.
Proof.
  unfold Replay.build_replay_request.
  set (v := if JS.truthy_str _ then _ else _).
  destruct (JSON.truthy v) eqn:Ht.
  - intros [= <-]. split; [exact Ht|]. discriminate.
  - destruct (_ && _); [|discriminate]. intros [= <-]. split; [reflexivity|].
    intros model messages _.
    cbn [ReplayRun.request_json storable forallb snd map fst distinct ordered].
    rewrite !andb_true_r. cbn [existsb]. change (String.eqb "model" "messages") with false.
    change (JSON.listed_before "messages" "model") with false.
    cbn [orb negb andb].
    induction (Replay.reconstruct _) as [|x l IH]; [reflexivity|].
    cbn [map forallb]. now rewrite IH.
Qed.

(** X21.  A replay can itself be replayed, with the same request:
    whenever the replay endpoint adds a span, it has replayed a span of the
    caller with the given id, and a replay of the added span settles on
    the very request this replay used, be it the one reconstructed from
    the prompt of the replayed span or its stored request, provided the
    stored request can be written in full. *)
Theorem replay_can_be_replayed (t : list Task.row) (a : auth) (id : string)
    (x_provider_key : option string) (e : ReplayRun.env) (up : Upstream.response)
    (row : Task.row) :
  (ReplayRun.handler t a id x_provider_key e up).2 = t ++ [row] ->
  exists orig request,
    In orig t /\ Task.id orig = id /\ owned_by a orig = true
    /\ Replay.build_replay_request orig = Some request
    /\ ((forall v, request = Replay.Snapshot v -> storable v = true) ->
        Replay.build_replay_request row
        = Some (Replay.Snapshot (ReplayRun.request_json request))).
Proof.
  unfold ReplayRun.handler, sql_get.
  destruct (find _ t) as [orig|] eqn:Hfind;
    [|intros H; now apply app_one_self in H].
  apply find_some in Hfind as [Hin Hown]. apply andb_true_iff in Hown as [Hid Hown].
  apply String.eqb_eq in Hid.
  destruct (Replay.build_replay_request orig) as [request|] eqn:Hreq;
    [|intros H; now apply app_one_self in H].
  destruct (request_json_storable orig request Hreq) as [Ht Hrebuilt].
  destruct (JS.or_str _ None) as [key|]; [|intros H; now apply app_one_self in H].
  set (row0 := ReplayRun.replay_row e a orig (ReplayRun.request_json request)).
  destruct (insert_task t row0) as [t1|] eqn:Hins;
    [|intros H; now apply app_one_self in H].
  assert (Ht1 : t1 = t ++ [row0]).
  { unfold insert_task in Hins. destruct (existsb _ t); congruence. }
  assert (Hup : forall set, ReplayRun.update_by_id e t1 set = t ++ [set row0]).
  { intros set. unfold ReplayRun.update_by_id.
    change (ReplayRun.replayId e) with (Task.id row0).
    now apply insert_then_update. }
  assert (Hgoal : forall row', Task.original_request row' = Task.original_request row0 ->
            t ++ [row'] = t ++ [row] ->
            exists orig request,
              In orig t /\ Task.id orig = id /\ owned_by a orig = true
              /\ Replay.build_replay_request orig = Some request
              /\ ((forall v, request = Replay.Snapshot v -> storable v = true) ->
                  Replay.build_replay_request row
                  = Some (Replay.Snapshot (ReplayRun.request_json request)))).
  { intros row' Htext H. apply app_one_inj in H as <-. exists orig, request.
    repeat (split; [assumption|]). intros Hst.
    apply stored_text_reads_back; [|exact Ht|exact Htext].
    destruct request as [v|model messages];
      [now apply Hst|exact (Hrebuilt _ _ eq_refl)]. }
  destruct (ReplayRun.detect _ _) as [p|];
    [|cbn [snd]; rewrite Ht1; now apply Hgoal].
  destruct (ReplayRun.attempt_replay e p _ up) as [s|message]; cbn [snd].
  - rewrite Hup. now apply Hgoal.
  - rewrite Hup. now apply Hgoal.
Qed.

Lemma replay_can_be_replayed_witness :
  exists row,
    (ReplayRun.handler [snapshot_span] key_1 "span-1" (Some "sk-key") replay_env
       (Upstream.Ok [openai_answer] None)).2 = [snapshot_span; row]
    /\ Replay.build_replay_request snapshot_span = Some (Replay.Snapshot tuned_request)
    /\ Replay.build_replay_request row = Some (Replay.Snapshot tuned_request).
Proof.
  eexists. split; [vm_compute; reflexivity|]. split; [vm_compute; reflexivity|].
  destruct (replay_can_be_replayed [snapshot_span] key_1 "span-1" (Some "sk-key")
              replay_env (Upstream.Ok [openai_answer] None) _
              ltac:(vm_compute; reflexivity))
    as (orig & request & Hin & _ & _ & Hreq & Hrow).
  destruct Hin as [<-|[]]. vm_compute in Hreq. injection Hreq as <-.
  apply Hrow. intros v [= <-]. vm_compute. reflexivity.
Defined.

(** ** Logging a task in one call *)

Lemma known_status_name (s : string) (st : task_status) :
  Track.known_status s = Some st -> status_name st = s.
Proof.
  unfold Track.known_status.
  destruct (String.eqb s "pending") eqn:E1; [apply String.eqb_eq in E1; now intros [= <-]|].
  destruct (String.eqb s "running") eqn:E2; [apply String.eqb_eq in E2; now intros [= <-]|].
  destruct (String.eqb s "success") eqn:E3; [apply String.eqb_eq in E3; now intros [= <-]|].
  destruct (String.eqb s "failed") eqn:E4; [apply String.eqb_eq in E4; now intros [= <-]|].
  destruct (String.eqb s "slow") eqn:E5; [apply String.eqb_eq in E5; now intros [= <-]|].
  discriminate.
Qed.

(** X22.  A span logged by [POST /api/track] under a fresh id is stored
    with the status given, and the caller, but no caller with another
    identity, can read it back.  The completion endpoint finishes it when
    it was logged as running and refuses it, without a change, for every
    other status.  It keeps no request: a replay reconstructs the request
    from its prompt, and is refused when the prompt or the model is
    missing. *)
Theorem tracked_span_lifecycle (t : list Task.row) (a a' : auth) (b : Track.body)
    (cb : Complete.body) (id uuid now0 now1 s s' : string) (st st' : task_status)
    (dur dur' : Z) :
  JS.truthy_str (Track.agent b) = true -> JS.truthy_str (Track.task b) = true ->
  Track.status b = Some s -> Track.known_status s = Some st ->
  Track.durationMs b = Some dur ->
  ~ In id (map Task.id t) ->
  getAccountId a' <> getAccountId a ->
  Complete.status cb = Some s' -> Complete.terminal_status s' = Some st' ->
  Complete.durationMs cb = Some dur' ->
  let row := Track.tracked_row a b st dur id uuid now0 in
  Track.handler t a b id uuid now0
  = (Track.Logged id (Track.generatedTraceId b uuid), t ++ [row])
  /\ status_name (Task.status row) = s
  /\ GetTask.handler (t ++ [row]) a id = Some row
  /\ GetTask.handler (t ++ [row]) a' id = None
  /\ Complete.handler (t ++ [row]) a id cb now1
     = match st with
       | running =>
           (Complete.Completed id st', t ++ [Complete.finalize st' cb dur' now1 row])
       | _ => (Complete.NotFoundOrNotRunning, t ++ [row])
       end
  /\ Replay.build_replay_request row
     = if JS.truthy_str (Track.prompt b) && JS.truthy_str (Track.model b)
       then Some (Replay.Rebuilt (default EmptyString (Track.model b))
                    (Replay.reconstruct (default EmptyString (Track.prompt b))))
       else None.
Proof.
  intros Hagent Htask Hs Hst Hdur Hfresh Hne Hs' Hst' Hdur' row.
  assert (Hex : existsb (fun r' => String.eqb (Task.id r') id) t = false).
  { destruct (existsb _ t) eqn:E; [|reflexivity].
    apply existsb_id in E. contradiction. }
  assert (Hown : owned_by a row = true) by now apply owned_by_own.
  assert (Hother : owned_by a' row = false) by now apply (owned_by_other a).
  assert (Hname := known_status_name _ _ Hst).
  assert (Htrue : JS.truthy_str (Track.status b) = true).
  { rewrite Hs. cbn. destruct (String.eqb s EmptyString) eqn:E; [|reflexivity].
    apply String.eqb_eq in E. rewrite E in Hst. discriminate Hst. }
  assert (Hstrue : negb (JS.truthy_str (Complete.status cb)) = false).
  { rewrite Hs'. cbn. destruct (String.eqb s' EmptyString) eqn:E; [|reflexivity].
    apply String.eqb_eq in E. rewrite E in Hst'. discriminate Hst'. }
  split.
  { unfold Track.handler, insert_task. rewrite Hagent, Htask, Htrue, Hdur, Hs.
    cbn [negb orb default from_option Datatypes.id]. rewrite Hst.
    cbn [Task.id Track.tracked_row]. now rewrite Hex. }
  split; [exact Hname|].
  split; [now apply find_fresh|].
  split; [now apply find_fresh_none|].
  split.
  { unfold Complete.handler. rewrite Hstrue, Hdur', Hs'.
    cbn [default from_option Datatypes.id]. rewrite Hst'.
    rewrite (complete_only_row _ _ _ _ _ _ _ _ Hfresh).
    unfold Complete.is_target. rewrite Hown.
    cbn [Task.id Task.status Track.tracked_row row]. rewrite String.eqb_refl.
    now destruct st. }
  unfold Replay.build_replay_request.
  cbn [Task.original_request Task.prompt Task.model Track.tracked_row row JS.truthy_str
       JSON.truthy].
  unfold JS.or_str.
  destruct (JS.truthy_str (Track.prompt b)) eqn:Ep, (JS.truthy_str (Track.model b)) eqn:Em;
    cbn [andb JS.truthy_str]; rewrite ?Ep, ?Em; reflexivity.
Qed.

Lemma tracked_span_lifecycle_witness :
  (Complete.handler (Track.handler [] key_1 queued_body "span-9" "trace-9" "t0").2
     key_1 "span-9" done_body "t1").1
  = Complete.NotFoundOrNotRunning.
Proof.
  destruct (tracked_span_lifecycle [] key_1 (account_of "acc-2") queued_body done_body
              "span-9" "trace-9" "t0" "t1" "pending" "success" pending success 0 1200
              eq_refl eq_refl eq_refl eq_refl eq_refl ltac:(cbn; tauto)
              ltac:(discriminate) eq_refl eq_refl eq_refl)
    as (Htrack & _ & _ & _ & Hdone & _).
  rewrite Htrack. cbn [snd]. rewrite Hdone. reflexivity.
Defined.
